(** * Guardian: supply-chain risk and cascade-simulation engine

    A shallow embedding of the Python sources under [backend/core]:
    [graph_engine.py] (the [SupplyChainGraph] wrapper around a networkx
    [DiGraph]), [risk_calculator.py], [simulation_engine.py] and
    [mitigation_engine.py]; and of the counterfactual evaluation of
    [agents/mitigation/agent.py].

    Conventions of the embedding.
    - Python floats are read as exact rationals ([Q]); Python ints as [Z].
    - A Python [dict] is an association list in insertion order; a Python
      [set] is a duplicate-free list, iterated in insertion order.  The
      order in which CPython really iterates over a set of strings is
      made explicit in [SimulationEngine.HashOrder].
    - A statement that may raise returns a [pyresult]; code that mutates a
      dictionary and may raise half-way returns the mutated state next to
      the [pyresult].
    - Algorithms that live in networkx (centralities, articulation points,
      bridges) are taken as a record of functions, [Nx.Algorithms]. *)

From Stdlib Require Import List String Ascii ZArith QArith Qminmax Qround Lia Bool Arith.
From Stdlib Require Import DecimalString Permutation.
Import ListNotations.
Local Open Scope string_scope.
Local Open Scope Z_scope.

Set Implicit Arguments.

(* ------------------------------------------------------------------ *)
(** ** Python runtime: exceptions, results, dictionaries and sets      *)
(* ------------------------------------------------------------------ *)

Module Py.

Inductive exn : Type :=
| TypeError
| KeyError
| AttributeError
| ZeroDivisionError
| IndexError
| ValueError
| NetworkXError
| LibraryError (msg : string).

Inductive pyresult (A : Type) : Type :=
| Ok (a : A)
| Raise (e : exn).
Arguments Ok {A} a.
Arguments Raise {A} e.

Definition bind {A B} (m : pyresult A) (k : A -> pyresult B) : pyresult B :=
  match m with
  | Ok a => k a
  | Raise e => Raise e
  end.

Definition is_ok {A} (m : pyresult A) : bool :=
  match m with Ok _ => true | Raise _ => false end.

(** [d.get(k)] on an insertion-ordered dictionary with string keys. *)
Fixpoint get {V} (d : list (string * V)) (k : string) : option V :=
  match d with
  | [] => None
  | (k', v) :: d' => if String.eqb k' k then Some v else get d' k
  end.

(** [d.get(k, default)]. *)
Definition get_default {V} (d : list (string * V)) (k : string) (dflt : V) : V :=
  match get d k with Some v => v | None => dflt end.

(** [d[k] = v]: an existing key keeps its position. *)
Fixpoint set_item {V} (d : list (string * V)) (k : string) (v : V)
  : list (string * V) :=
  match d with
  | [] => [(k, v)]
  | (k', v') :: d' =>
      if String.eqb k' k then (k, v) :: d' else (k', v') :: set_item d' k v
  end.

(** Dictionaries keyed by a pair of strings ([edge_features], the
    adjacency of a [DiGraph]). *)
Definition pair_eqb (a b : string * string) : bool :=
  String.eqb (fst a) (fst b) && String.eqb (snd a) (snd b).

Fixpoint get2 {V} (d : list ((string * string) * V)) (k : string * string)
  : option V :=
  match d with
  | [] => None
  | (k', v) :: d' => if pair_eqb k' k then Some v else get2 d' k
  end.

Fixpoint set_item2 {V} (d : list ((string * string) * V))
  (k : string * string) (v : V) : list ((string * string) * V) :=
  match d with
  | [] => [(k, v)]
  | (k', v') :: d' =>
      if pair_eqb k' k then (k, v) :: d' else (k', v') :: set_item2 d' k v
  end.

(** [x in s] for a list or a set of strings. *)
Definition mem (x : string) (s : list string) : bool :=
  existsb (String.eqb x) s.

(** [s.add(x)]. *)
Definition set_add (s : list string) (x : string) : list string :=
  if mem x s then s else (s ++ [x])%list.

(** [s.remove(x)] for an [x] known to be in [s]. *)
Definition set_remove (s : list string) (x : string) : list string :=
  filter (fun y => negb (String.eqb x y)) s.

(** [set(l)]. *)
Definition set_of_list (l : list string) : list string :=
  fold_left set_add l [].

(** [s - t]. *)
Definition set_diff (s t : list string) : list string :=
  filter (fun y => negb (mem y t)) s.

(** [len(l)] as a Python int. *)
Definition len {A} (l : list A) : Z := Z.of_nat (List.length l).

(** [l[:n]] for any int [n] (a negative [n] counts from the end). *)
Definition slice_to {A} (l : list A) (n : Z) : list A :=
  if n <? 0 then firstn (Z.to_nat (len l + n)) l else firstn (Z.to_nat n) l.

(** [sorted(l, key=key)] for an integer key: Python's sort is stable. *)
Fixpoint insert_by {A} (key : A -> Z) (x : A) (l : list A) : list A :=
  match l with
  | [] => [x]
  | y :: l' => if key y <=? key x then y :: insert_by key x l' else x :: y :: l'
  end.

Definition sorted_by {A} (key : A -> Z) (l : list A) : list A :=
  fold_left (fun acc x => insert_by key x acc) l [].

(** [sorted(l, key=key, reverse=True)] for a rational key: descending,
    elements with equal keys keep their original order. *)
Fixpoint insert_desc {A} (key : A -> Q) (x : A) (l : list A) : list A :=
  match l with
  | [] => [x]
  | y :: l' =>
      if Qle_bool (key x) (key y) then y :: insert_desc key x l' else x :: y :: l'
  end.

Definition sorted_desc {A} (key : A -> Q) (l : list A) : list A :=
  fold_left (fun acc x => insert_desc key x acc) l [].

(** [max(l, key=key)]: the first element with the largest key. *)
Fixpoint max_by {A} (key : A -> Q) (best : A) (l : list A) : A :=
  match l with
  | [] => best
  | x :: l' => if Qle_bool (key x) (key best) then max_by key best l'
               else max_by key x l'
  end.

(** Strict comparison of two floats. *)
Definition Qltb (x y : Q) : bool := negb (Qle_bool y x).

(** [str(n)] for an int. *)
Definition str_of_Z (n : Z) : string := NilZero.string_of_int (Z.to_int n).

(** Whether a list is in descending order of a rational key, as
    [sorted(..., reverse=True)] leaves it, and in ascending order of an
    integer key. *)
Fixpoint descending_by {A} (key : A -> Q) (l : list A) : Prop :=
  match l with
  | x :: (y :: _) as rest => (key y <= key x)%Q /\ descending_by key rest
  | _ => True
  end.

Fixpoint ascending_by {A} (key : A -> Z) (l : list A) : Prop :=
  match l with
  | x :: (y :: _) as rest => (key x <= key y)%Z /\ ascending_by key rest
  | _ => True
  end.

(** [sum(l)] for a list of ints. *)
Definition sum_Z (l : list Z) : Z := fold_right Z.add 0%Z l.

(** [sum(l)] for a list of floats: from 0, left to right. *)
Definition sum_Q (l : list Q) : Q := fold_left Qplus l 0%Q.

(** [range(n)]. *)
Definition range (n : nat) : list Z := map Z.of_nat (seq 0 n).

(** [s.replace(old, new)] for a non-empty [old]: the occurrences of
    [old] are replaced from left to right, without overlap.  [skip]
    counts the characters of a match still to be dropped. *)
Fixpoint replace_from (old new : string) (skip : nat) (s : string) : string :=
  match s with
  | EmptyString => EmptyString
  | String c s' =>
      match skip with
      | S k => replace_from old new k s'
      | O =>
          if String.prefix old s
          then (new ++ replace_from old new (String.length old - 1) s')%string
          else String c (replace_from old new 0 s')
      end
  end.

Definition str_replace (s old new : string) : string :=
  replace_from old new 0 s.

(** [l[-n:]] for a positive [n]: the last [n] elements. *)
Definition last_n {A} (n : nat) (l : list A) : list A :=
  skipn (List.length l - n) l.

End Py.
Import Py.

(* ------------------------------------------------------------------ *)
(** ** networkx: the [DiGraph] container                               *)
(* ------------------------------------------------------------------ *)

Module Nx.

(** The attribute dictionary of a node, restricted to the keys the engine
    reads or writes; [None] is an absent key. *)
Record NodeData : Type := {
  nd_node_type : option string;
  nd_tier : option Z;
  nd_risk_score : option Q;
  nd_criticality_score : option Q;
  nd_name : option string;
  nd_category : option string;
  nd_lastAudit : option string;
  nd_certifications : option (list string);
  nd_contractType : option string
}.

Definition empty_node_data : NodeData :=
  {| nd_node_type := None; nd_tier := None; nd_risk_score := None;
     nd_criticality_score := None; nd_name := None; nd_category := None;
     nd_lastAudit := None; nd_certifications := None;
     nd_contractType := None |}.

(** The attribute dictionary of an edge; [ed_extra] holds the keys that
    come from a caller's metadata. *)
Record EdgeData : Type := {
  ed_edge_type : option string;
  ed_dependency_category : option string;
  ed_strength : option Q;
  ed_criticality : option string;
  ed_extra : list (string * string)
}.

Definition empty_edge_data : EdgeData :=
  {| ed_edge_type := None; ed_dependency_category := None;
     ed_strength := None; ed_criticality := None; ed_extra := [] |}.

Definition or_else {A} (new old : option A) : option A :=
  match new with Some _ => new | None => old end.

(** [datadict.update(attr)]. *)
Definition update_edge_data (old attr : EdgeData) : EdgeData :=
  {| ed_edge_type := or_else (ed_edge_type attr) (ed_edge_type old);
     ed_dependency_category :=
       or_else (ed_dependency_category attr) (ed_dependency_category old);
     ed_strength := or_else (ed_strength attr) (ed_strength old);
     ed_criticality := or_else (ed_criticality attr) (ed_criticality old);
     ed_extra :=
       fold_left (fun d kv => set_item d (fst kv) (snd kv))
                 (ed_extra attr) (ed_extra old) |}.

(** [_node] in insertion order, and the adjacency as one dictionary keyed
    by (source, target), in the order the edges were first added. *)
Record DiGraph : Type := {
  node_dict : list (string * NodeData);
  adj : list ((string * string) * EdgeData)
}.

Definition empty_graph : DiGraph := {| node_dict := []; adj := [] |}.

(** [G.nodes()]. *)
Definition nodes (G : DiGraph) : list string := map fst (node_dict G).

(** [n in G], [G.has_node(n)]. *)
Definition has_node (G : DiGraph) (n : string) : bool := mem n (nodes G).

(** [G.has_edge(u, v)]. *)
Definition has_edge (G : DiGraph) (u v : string) : bool :=
  match get2 (adj G) (u, v) with Some _ => true | None => false end.

(** [G.number_of_nodes()], [G.number_of_edges()]. *)
Definition number_of_nodes (G : DiGraph) : Z := len (node_dict G).
Definition number_of_edges (G : DiGraph) : Z := len (adj G).

(** The successors of [n] in [G], without the membership check. *)
Definition succ_list (G : DiGraph) (n : string) : list string :=
  map (fun e => snd (fst e))
      (filter (fun e => String.eqb (fst (fst e)) n) (adj G)).

Definition pred_list (G : DiGraph) (n : string) : list string :=
  map (fun e => fst (fst e))
      (filter (fun e => String.eqb (snd (fst e)) n) (adj G)).

(** [G.successors(n)] and [G.neighbors(n)] raise [NetworkXError] when [n]
    is not a node of [G]. *)
Definition successors (G : DiGraph) (n : string) : pyresult (list string) :=
  if has_node G n then Ok (succ_list G n) else Raise NetworkXError.

Definition neighbors := successors.

Definition in_degree (G : DiGraph) (n : string) : Z := len (pred_list G n).
Definition out_degree (G : DiGraph) (n : string) : Z := len (succ_list G n).
Definition degree (G : DiGraph) (n : string) : Z :=
  in_degree G n + out_degree G n.

(** [G.add_node(n)] with no attributes, as [add_edge] does for a missing
    endpoint. *)
Definition touch_node (G : DiGraph) (n : string) : DiGraph :=
  if has_node G n then G
  else {| node_dict := (node_dict G ++ [(n, empty_node_data)])%list;
          adj := adj G |}.

(** [G.add_edge(u, v, **attr)]: both endpoints are created when missing,
    and the attributes of an existing edge are updated. *)
Definition add_edge (G : DiGraph) (u v : string) (attr : EdgeData) : DiGraph :=
  let G1 := touch_node (touch_node G u) v in
  let old := match get2 (adj G1) (u, v) with
             | Some d => d
             | None => empty_edge_data
             end in
  {| node_dict := node_dict G1;
     adj := set_item2 (adj G1) (u, v) (update_edge_data old attr) |}.

(** [G.remove_node(n)]: the node goes with all its edges. *)
Definition remove_node (G : DiGraph) (n : string) : pyresult DiGraph :=
  if has_node G n then
    Ok {| node_dict :=
            filter (fun kv => negb (String.eqb (fst kv) n)) (node_dict G);
          adj :=
            filter (fun e => negb (String.eqb (fst (fst e)) n)
                             && negb (String.eqb (snd (fst e)) n)) (adj G) |}
  else Raise NetworkXError.

(** [G.nodes[n]]. *)
Definition node_data (G : DiGraph) (n : string) : pyresult NodeData :=
  match get (node_dict G) n with
  | Some d => Ok d
  | None => Raise KeyError
  end.

(** [G.nodes.get(n, {})]. *)
Definition node_data_or_empty (G : DiGraph) (n : string) : NodeData :=
  get_default (node_dict G) n empty_node_data.

(** [G.edges.get((u, v), {})]. *)
Definition edge_data_or_empty (G : DiGraph) (u v : string) : EdgeData :=
  match get2 (adj G) (u, v) with
  | Some d => d
  | None => empty_edge_data
  end.

(** One round of reachability: the nodes of [seen] and their successors. *)
Definition expand (G : DiGraph) (seen : list string) : list string :=
  fold_left (fun acc n => fold_left set_add (succ_list G n) acc) seen seen.

Fixpoint reach (G : DiGraph) (fuel : nat) (seen : list string) : list string :=
  match fuel with
  | O => seen
  | S fuel' => reach G fuel' (expand G seen)
  end.

(** [nx.descendants(G, n)] for a node [n] of [G]: every node reachable
    from [n], [n] excluded.  A shortest path has fewer edges than [G] has
    nodes, so that many rounds reach all of them. *)
Definition descendants (G : DiGraph) (n : string) : pyresult (list string) :=
  if has_node G n then
    Ok (set_remove (reach G (List.length (node_dict G)) [n]) n)
  else Raise NetworkXError.

(** The graph algorithms of networkx the engine calls. *)
Record Algorithms : Type := {
  betweenness_centrality : DiGraph -> pyresult (list (string * Q));
  closeness_centrality : DiGraph -> pyresult (list (string * Q));
  pagerank : DiGraph -> pyresult (list (string * Q));
  eigenvector_centrality : DiGraph -> pyresult (list (string * Q));
  articulation_points : DiGraph -> pyresult (list string);
  bridges : DiGraph -> pyresult (list (string * string))
}.

(** [datadict.update(attr)] on the attributes of a node. *)
Definition update_node_data (old attr : NodeData) : NodeData :=
  {| nd_node_type := or_else (nd_node_type attr) (nd_node_type old);
     nd_tier := or_else (nd_tier attr) (nd_tier old);
     nd_risk_score := or_else (nd_risk_score attr) (nd_risk_score old);
     nd_criticality_score :=
       or_else (nd_criticality_score attr) (nd_criticality_score old);
     nd_name := or_else (nd_name attr) (nd_name old);
     nd_category := or_else (nd_category attr) (nd_category old);
     nd_lastAudit := or_else (nd_lastAudit attr) (nd_lastAudit old);
     nd_certifications :=
       or_else (nd_certifications attr) (nd_certifications old);
     nd_contractType := or_else (nd_contractType attr) (nd_contractType old) |}.

(** [G.add_node(n, **attr)]: a new node gets the attributes, a node
    already there has them merged into its dictionary. *)
Definition add_node (G : DiGraph) (n : string) (attr : NodeData) : DiGraph :=
  match get (node_dict G) n with
  | Some old =>
      {| node_dict := set_item (node_dict G) n (update_node_data old attr);
         adj := adj G |}
  | None =>
      {| node_dict := (node_dict G ++ [(n, attr)])%list; adj := adj G |}
  end.

(** [G.edges()]: the edges by source, in node order. *)
Definition edges (G : DiGraph) : list (string * string) :=
  flat_map (fun n => map (fun t => (n, t)) (succ_list G n)) (nodes G).

End Nx.

(* ------------------------------------------------------------------ *)
(** ** numpy: [np.percentile]                                          *)
(* ------------------------------------------------------------------ *)

Module Np.

Local Open Scope Q_scope.

(** [np.percentile(a, q)] with the default linear interpolation: on the
    sorted data the value at the fractional index [(n-1)*q/100].  What
    numpy answers on an empty list depends on its version (an [IndexError]
    or a nan); the caller passes that answer as [on_empty]. *)
Definition percentile (on_empty : pyresult Q) (a : list Z) (q : Q)
  : pyresult Q :=
  match a with
  | [] => on_empty
  | _ :: _ =>
      let s := sorted_by (fun x => x) a in
      let vi := inject_Z (len a - 1) * q / 100 in
      let lo := Qfloor vi in
      let hi := Z.min (lo + 1) (len a - 1) in
      let gamma := vi - inject_Z lo in
      let x_lo := inject_Z (nth (Z.to_nat lo) s 0%Z) in
      let x_hi := inject_Z (nth (Z.to_nat hi) s 0%Z) in
      Ok (x_lo + gamma * (x_hi - x_lo))
  end.

End Np.

(* ------------------------------------------------------------------ *)
(** ** graph_engine.py                                                 *)
(* ------------------------------------------------------------------ *)

Module GraphEngine.

Local Open Scope Q_scope.

Inductive NodeType : Type := VENDOR | SOFTWARE | SERVICE.

Inductive EdgeType : Type := DEPENDS_ON | INTEGRATES_WITH | SUPPLIES.

Definition edge_type_value (t : EdgeType) : string :=
  match t with
  | DEPENDS_ON => "depends_on"
  | INTEGRATES_WITH => "integrates_with"
  | SUPPLIES => "supplies"
  end.

Record NodeFeatures : Type := {
  nf_node_id : string;
  nf_node_type : NodeType;
  nf_tier : Z;
  nf_in_degree : Z;
  nf_out_degree : Z;
  nf_dependency_depth : Z;
  nf_risk_score : Q;
  nf_criticality_score : Q
}.

Record EdgeFeatures : Type := {
  ef_source : string;
  ef_target : string;
  ef_edge_type : EdgeType;
  ef_dependency_category : string;
  ef_strength : Q;
  ef_criticality : string;
  ef_metadata : list (string * string)
}.

(** [class SupplyChainGraph]: the networkx graph and the two feature
    dictionaries kept next to it. *)
Record SupplyChainGraph : Type := {
  graph : Nx.DiGraph;
  node_features : list (string * NodeFeatures);
  edge_features : list ((string * string) * EdgeFeatures)
}.

Definition empty : SupplyChainGraph :=
  {| graph := Nx.empty_graph; node_features := []; edge_features := [] |}.

Definition set_out_degree (f : NodeFeatures) (d : Z) : NodeFeatures :=
  {| nf_node_id := nf_node_id f; nf_node_type := nf_node_type f;
     nf_tier := nf_tier f; nf_in_degree := nf_in_degree f;
     nf_out_degree := d; nf_dependency_depth := nf_dependency_depth f;
     nf_risk_score := nf_risk_score f;
     nf_criticality_score := nf_criticality_score f |}.

Definition set_in_degree (f : NodeFeatures) (d : Z) : NodeFeatures :=
  {| nf_node_id := nf_node_id f; nf_node_type := nf_node_type f;
     nf_tier := nf_tier f; nf_in_degree := d;
     nf_out_degree := nf_out_degree f;
     nf_dependency_depth := nf_dependency_depth f;
     nf_risk_score := nf_risk_score f;
     nf_criticality_score := nf_criticality_score f |}.

Definition set_criticality_score (f : NodeFeatures) (c : Q) : NodeFeatures :=
  {| nf_node_id := nf_node_id f; nf_node_type := nf_node_type f;
     nf_tier := nf_tier f; nf_in_degree := nf_in_degree f;
     nf_out_degree := nf_out_degree f;
     nf_dependency_depth := nf_dependency_depth f;
     nf_risk_score := nf_risk_score f;
     nf_criticality_score := c |}.

(** The names a metadata key may not repeat in the call
    [self.graph.add_edge(source, target, edge_type=..., **metadata)]:
    the parameters of networkx's
    [add_edge(self, u_of_edge, v_of_edge, **attr)] and the four keywords
    the call passes itself. *)
Definition add_edge_keywords : list string :=
  ["self"; "u_of_edge"; "v_of_edge"; "edge_type"; "dependency_category";
   "strength"; "criticality"].

(** [SupplyChainGraph.add_edge].  Nothing checks that [source] and
    [target] are nodes of the graph. *)
Definition add_edge (g : SupplyChainGraph) (source target : string)
  (edge_type : EdgeType) (dependency_category : string) (strength : Q)
  (criticality : string) (metadata : list (string * string))
  : pyresult SupplyChainGraph :=
  if existsb (fun kv => mem (fst kv) add_edge_keywords) metadata then
    Raise TypeError
  else
    let G := Nx.add_edge (graph g) source target
               {| Nx.ed_edge_type := Some (edge_type_value edge_type);
                  Nx.ed_dependency_category := Some dependency_category;
                  Nx.ed_strength := Some strength;
                  Nx.ed_criticality := Some criticality;
                  Nx.ed_extra := metadata |} in
    let ef := set_item2 (edge_features g) (source, target)
                {| ef_source := source; ef_target := target;
                   ef_edge_type := edge_type;
                   ef_dependency_category := dependency_category;
                   ef_strength := strength; ef_criticality := criticality;
                   ef_metadata := metadata |} in
    let nf1 := match get (node_features g) source with
               | Some f => set_item (node_features g) source
                             (set_out_degree f (Nx.out_degree G source))
               | None => node_features g
               end in
    let nf2 := match get nf1 target with
               | Some f => set_item nf1 target
                             (set_in_degree f (Nx.in_degree G target))
               | None => nf1
               end in
    Ok {| graph := G; node_features := nf2; edge_features := ef |}.

(** One row of the dictionary [calculate_centrality_metrics] returns. *)
Record CentralityMetrics : Type := {
  betweenness_centrality : Q;
  closeness_centrality : Q;
  pagerank : Q;
  eigenvector_centrality : Q;
  degree_centrality : Q
}.

(** Whether each of the four networkx calls of the [try] block returns. *)
Definition all_four_ok (nx : Nx.Algorithms) (G : Nx.DiGraph) : bool :=
  is_ok (Nx.betweenness_centrality nx G)
  && is_ok (Nx.closeness_centrality nx G)
  && is_ok (Nx.pagerank nx G)
  && is_ok (Nx.eigenvector_centrality nx G).

(** The four dictionaries of the [try] block, or those of its [except]
    branch when any of the four calls raises. *)
Definition centrality_tables (nx : Nx.Algorithms) (G : Nx.DiGraph)
  : list (string * Q) * list (string * Q) * list (string * Q)
    * list (string * Q) :=
  match Nx.betweenness_centrality nx G, Nx.closeness_centrality nx G,
        Nx.pagerank nx G, Nx.eigenvector_centrality nx G with
  | Ok b, Ok c, Ok p, Ok e => (b, c, p, e)
  | _, _, _, _ =>
      (map (fun n => (n, 0)) (Nx.nodes G),
       map (fun n => (n, 0)) (Nx.nodes G),
       map (fun n => (n, 1 / inject_Z (len (Nx.nodes G)))) (Nx.nodes G),
       map (fun n => (n, 0)) (Nx.nodes G))
  end.

(** [SupplyChainGraph.calculate_centrality_metrics]. *)
Definition calculate_centrality_metrics (nx : Nx.Algorithms)
  (g : SupplyChainGraph) : list (string * CentralityMetrics) :=
  let G := graph g in
  let '(betweenness, closeness, pr, eigenvector) := centrality_tables nx G in
  map (fun node =>
         (node,
          {| betweenness_centrality := get_default betweenness node 0;
             closeness_centrality := get_default closeness node 0;
             pagerank := get_default pr node 0;
             eigenvector_centrality := get_default eigenvector node 0;
             degree_centrality :=
               inject_Z (Nx.degree G node)
               / inject_Z (Z.max 1 (len (Nx.nodes G) - 1)) |}))
      (Nx.nodes G).

(** The lists of [identify_structural_vulnerabilities]; the key
    [critical_clusters] is never filled. *)
Record Vulnerabilities : Type := {
  single_points_of_failure : list string;
  high_degree_nodes : list string;
  bridge_nodes : list string;
  critical_clusters : list string
}.

(** [SupplyChainGraph.identify_structural_vulnerabilities].  The two
    networkx calls run on [self.graph.to_undirected()] inside a [try]
    whose [except] leaves the list empty; the percentile is not guarded. *)
Definition identify_structural_vulnerabilities (nx : Nx.Algorithms)
  (np_empty : pyresult Q) (g : SupplyChainGraph) : pyresult Vulnerabilities :=
  let G := graph g in
  let spof := match Nx.articulation_points nx G with
              | Ok l => l
              | Raise _ => []
              end in
  bind (Np.percentile np_empty (map (Nx.degree G) (Nx.nodes G)) 90)
    (fun degree_threshold =>
       let high := filter (fun node =>
                             Qle_bool degree_threshold
                                      (inject_Z (Nx.degree G node)))
                          (Nx.nodes G) in
       let br := match Nx.bridges nx G with
                 | Ok l =>
                     fold_left (fun s e => set_add (set_add s (fst e)) (snd e))
                               l []
                 | Raise _ => []
                 end in
       Ok {| single_points_of_failure := spof;
             high_degree_nodes := high;
             bridge_nodes := br;
             critical_clusters := [] |}).

Definition node_type_value (t : NodeType) : string :=
  match t with
  | VENDOR => "vendor"
  | SOFTWARE => "software"
  | SERVICE => "service"
  end.

(** The entries of a node's [metadata] that the engine reads later. *)
Record NodeMeta : Type := {
  m_name : option string;
  m_category : option string;
  m_lastAudit : option string;
  m_certifications : option (list string);
  m_contractType : option string
}.

Definition no_meta : NodeMeta :=
  {| m_name := None; m_category := None; m_lastAudit := None;
     m_certifications := None; m_contractType := None |}.

(** The [while queue] loop of [_calculate_dependency_depth]: a queue of
    (node, depth), the visited set and the largest depth seen; [None]
    when [fuel] rounds were not enough to empty the queue. *)
Fixpoint depth_loop (fuel : nat) (G : Nx.DiGraph) (queue : list (string * Z))
  (visited : list string) (max_depth : Z) : option (pyresult Z) :=
  match queue with
  | [] => Some (Ok max_depth)
  | (current, depth) :: queue' =>
      match fuel with
      | O => None
      | S fuel' =>
          if mem current visited then
            depth_loop fuel' G queue' visited max_depth
          else
            match Nx.successors G current with
            | Raise e => Some (Raise e)
            | Ok succs =>
                let visited' := set_add visited current in
                depth_loop fuel' G
                  (queue'
                   ++ map (fun s => (s, (depth + 1)%Z))
                          (filter (fun s => negb (mem s visited')) succs))%list
                  visited' (Z.max max_depth depth)
            end
      end
  end.

(** [_calculate_dependency_depth]: the bare [except] turns any error
    into depth 0.  Every round either drops a queue entry or visits a new
    node, whose out-edges are then never enqueued again, so one round
    more than the graph has edges always empties the queue. *)
Definition _calculate_dependency_depth (g : SupplyChainGraph) (n : string) : Z :=
  if Nx.has_node (graph g) n then
    match depth_loop (S (List.length (Nx.adj (graph g)))) (graph g)
                     [(n, 0%Z)] [] 0%Z with
    | Some (Ok d) => d
    | Some (Raise _) => 0%Z
    | None => 0%Z
    end
  else 0%Z.

(** [SupplyChainGraph.add_node]. *)
Definition add_node (g : SupplyChainGraph) (n : string) (node_type : NodeType)
  (tier : Z) (risk_score criticality_score : Q) (metadata : NodeMeta)
  : SupplyChainGraph :=
  let G := Nx.add_node (graph g) n
             {| Nx.nd_node_type := Some (node_type_value node_type);
                Nx.nd_tier := Some tier;
                Nx.nd_risk_score := Some risk_score;
                Nx.nd_criticality_score := Some criticality_score;
                Nx.nd_name := m_name metadata;
                Nx.nd_category := m_category metadata;
                Nx.nd_lastAudit := m_lastAudit metadata;
                Nx.nd_certifications := m_certifications metadata;
                Nx.nd_contractType := m_contractType metadata |} in
  let g1 := {| graph := G; node_features := node_features g;
               edge_features := edge_features g |} in
  {| graph := G;
     node_features :=
       set_item (node_features g) n
         {| nf_node_id := n; nf_node_type := node_type; nf_tier := tier;
            nf_in_degree := Nx.in_degree G n;
            nf_out_degree := Nx.out_degree G n;
            nf_dependency_depth := _calculate_dependency_depth g1 n;
            nf_risk_score := risk_score;
            nf_criticality_score := criticality_score |};
     edge_features := edge_features g |}.

Record PropagationPath : Type := {
  path : list string;
  risk_score : Q;
  propagation_delay : Z;
  impact_level : string
}.

(** [edge_features.get((u, v), default).strength], the default edge
    having strength 0.5, and [node_features.get(n, default).risk_score],
    the default node having risk 0.5. *)
Definition strength_or_half (g : SupplyChainGraph) (u v : string) : Q :=
  match get2 (edge_features g) (u, v) with
  | Some f => ef_strength f
  | None => 5 # 10
  end.

Definition risk_or_half (g : SupplyChainGraph) (n : string) : Q :=
  match get (node_features g) n with
  | Some f => nf_risk_score f
  | None => 5 # 10
  end.

Definition impact_level_of (risk : Q) : string :=
  if Qltb (7 # 10) risk then "high"
  else if Qltb (4 # 10) risk then "medium"
  else "low".

(** The [for successor in self.graph.successors(current)] loop of
    [dfs_paths], the recursive call being [rec].  The paths come in the
    order they are appended: a path, then the paths that extend it, then
    those of the next successor. *)
Fixpoint dfs_successors
  (rec : string -> list string -> Q -> pyresult (list PropagationPath))
  (g : SupplyChainGraph) (current : string) (pth : list string)
  (risk_accumulator : Q) (succs : list string)
  : pyresult (list PropagationPath) :=
  match succs with
  | [] => Ok []
  | successor :: succs' =>
      if mem successor pth then
        dfs_successors rec g current pth risk_accumulator succs'
      else
        let new_path := (pth ++ [successor])%list in
        let new_risk :=
          risk_accumulator * strength_or_half g current successor
          * (1 + risk_or_half g successor) in
        bind (rec successor new_path new_risk) (fun deeper =>
          bind (dfs_successors rec g current pth risk_accumulator succs')
            (fun others =>
               Ok ({| path := new_path;
                      risk_score := new_risk;
                      propagation_delay := (len new_path * 300)%Z;
                      impact_level := impact_level_of new_risk |}
                   :: deeper ++ others)%list))
  end.

(** The inner function [dfs_paths] of [find_critical_paths]; [fuel] is
    [max_depth - depth]. *)
Fixpoint dfs_paths (fuel : nat) (g : SupplyChainGraph) (current : string)
  (pth : list string) (risk_accumulator : Q)
  : pyresult (list PropagationPath) :=
  match fuel with
  | O => Ok []
  | S fuel' =>
      bind (Nx.successors (graph g) current)
           (dfs_successors (dfs_paths fuel' g) g current pth risk_accumulator)
  end.

(** [SupplyChainGraph.find_critical_paths]. *)
Definition find_critical_paths (g : SupplyChainGraph) (source : string)
  (max_depth : Z) : pyresult (list PropagationPath) :=
  bind (if Nx.has_node (graph g) source
        then dfs_paths (Z.to_nat max_depth) g source [source]
                       (risk_or_half g source)
        else Ok [])
       (fun paths => Ok (slice_to (sorted_desc risk_score paths) 20)).

Record Wave : Type := {
  wave : Z;
  wave_nodes : list string;
  wave_timestamp : Z
}.

Record CascadeResult : Type := {
  cr_initial_compromised : list string;
  cr_total_affected : Z;
  cr_critical_affected : Z;
  cr_compromised_nodes : list string;
  cr_propagation_waves : list Wave;
  cr_blast_radius : Z;
  cr_cascade_depth : Z
}.

(** [node_features.get(n, default).criticality_score] in
    [simulate_cascade_failure], whose default node has criticality 0.5. *)
Definition criticality_or_half (g : SupplyChainGraph) (n : string) : Q :=
  match get (node_features g) n with
  | Some f => nf_criticality_score f
  | None => 5 # 10
  end.

(** The loop over the successors of one node of the current wave: the
    set [propagating] and the list [next_wave]. *)
Fixpoint cascade_neighbors (g : SupplyChainGraph) (threshold : Q)
  (compromised : list string) (node : string) (nbrs : list string)
  (acc : list string * list string) : list string * list string :=
  match nbrs with
  | [] => acc
  | neighbor :: nbrs' =>
      let '(propagating, next_wave) := acc in
      let acc' :=
        if negb (mem neighbor compromised) && negb (mem neighbor propagating)
        then
          let propagation_prob :=
            strength_or_half g node neighbor
            * (1 - criticality_or_half g neighbor / 100) in
          if Qle_bool threshold propagation_prob
          then (set_add propagating neighbor, (next_wave ++ [neighbor])%list)
          else acc
        else acc in
      cascade_neighbors g threshold compromised node nbrs' acc'
  end.

(** The loop over the current wave; [successors] raises for a node that
    is not in the graph. *)
Fixpoint cascade_wave (g : SupplyChainGraph) (threshold : Q)
  (compromised : list string) (current_wave : list string)
  (acc : list string * list string)
  : pyresult (list string * list string) :=
  match current_wave with
  | [] => Ok acc
  | node :: rest =>
      bind (Nx.successors (graph g) node) (fun nbrs =>
        cascade_wave g threshold compromised rest
          (cascade_neighbors g threshold compromised node nbrs acc))
  end.

(** The [while current_wave and wave_number < 10] loop; [fuel] is
    [10 - wave_number]. *)
Fixpoint cascade_loop (fuel : nat) (g : SupplyChainGraph) (threshold : Q)
  (compromised propagating : list string) (waves : list Wave)
  (current_wave : list string) (wave_number : Z)
  : pyresult (list string * list Wave) :=
  match fuel, current_wave with
  | O, _ => Ok (compromised, waves)
  | _, [] => Ok (compromised, waves)
  | S fuel', _ :: _ =>
      let waves' :=
        (waves ++ [{| wave := wave_number; wave_nodes := current_wave;
                      wave_timestamp := (wave_number * 300)%Z |}])%list in
      bind (cascade_wave g threshold compromised current_wave (propagating, []))
        (fun pn =>
           let '(propagating', next_wave) := pn in
           cascade_loop fuel' g threshold
             (fold_left set_add propagating' compromised) propagating' waves'
             next_wave (wave_number + 1)%Z)
  end.

(** [SupplyChainGraph.simulate_cascade_failure]. *)
Definition simulate_cascade_failure (g : SupplyChainGraph)
  (initial_compromised : list string) (propagation_threshold : Q)
  : pyresult CascadeResult :=
  bind (cascade_loop 10 g propagation_threshold
          (set_of_list initial_compromised) [] [] initial_compromised 0%Z)
    (fun cw =>
       let '(compromised, waves) := cw in
       let total_affected := len compromised in
       Ok {| cr_initial_compromised := initial_compromised;
             cr_total_affected := total_affected;
             cr_critical_affected :=
               len (filter (fun n =>
                              (match get (node_features g) n with
                               | Some f => nf_tier f
                               | None => 3%Z
                               end =? 1)%Z) compromised);
             cr_compromised_nodes := compromised;
             cr_propagation_waves := waves;
             cr_blast_radius :=
               (total_affected - len initial_compromised)%Z;
             cr_cascade_depth := len waves |}).

(** The degrees recorded in [node_features] are those of the graph. *)
Definition degrees_in_sync (g : SupplyChainGraph) : Prop :=
  forall (n : string) (f : NodeFeatures),
    get (node_features g) n = Some f ->
    nf_in_degree f = Nx.in_degree (graph g) n
    /\ nf_out_degree f = Nx.out_degree (graph g) n.

(** Every endpoint of an edge is a node of the graph, as networkx keeps
    it. *)
Definition endpoints_are_nodes (G : Nx.DiGraph) : Prop :=
  forall e, In e (Nx.adj G) ->
    Nx.has_node G (fst (fst e)) = true /\ Nx.has_node G (snd (fst e)) = true.

(** A list of nodes in which each one has an edge to the next. *)
Fixpoint follows_edges (G : Nx.DiGraph) (p : list string) : Prop :=
  match p with
  | a :: (b :: _) as rest => Nx.has_edge G a b = true /\ follows_edges G rest
  | _ => True
  end.

(** What [dfs_paths], called on the path [pth] with [n] levels to go,
    appends: a path that extends [pth] by one to [n] nodes, repeats no
    node and follows edges when [pth] does, with a delay of 300 per node
    and the impact level of its risk. *)
Definition extends_path (G : Nx.DiGraph) (pth : list string) (n : nat)
  (p : PropagationPath) : Prop :=
  exists ext,
    path p = (pth ++ ext)%list
    /\ (1 <= List.length ext <= n)%nat
    /\ (NoDup pth -> NoDup (path p))
    /\ (follows_edges G pth -> follows_edges G (path p))
    /\ propagation_delay p = (len (path p) * 300)%Z
    /\ impact_level p = impact_level_of (risk_score p).

(** Waves numbered from [k] on, 300 apart, none of them empty. *)
Fixpoint waves_from (k : Z) (ws : list Wave) : Prop :=
  match ws with
  | [] => True
  | w :: ws' =>
      wave w = k /\ wave_timestamp w = (k * 300)%Z /\ wave_nodes w <> []
      /\ waves_from (k + 1) ws'
  end.

End GraphEngine.

(* ------------------------------------------------------------------ *)
(** ** risk_calculator.py                                              *)
(* ------------------------------------------------------------------ *)

Module RiskCalculator.

Import GraphEngine.
Local Open Scope Q_scope.

Inductive RiskLevel : Type := LOW | MEDIUM | HIGH | CRITICAL.

Record NodeRiskProfile : Type := {
  node_id : string;
  base_risk : Q;
  structural_risk : Q;
  cascade_amplification : Q;
  centrality_risk : Q;
  combined_risk : Q;
  risk_level : RiskLevel;
  contributing_factors : list string
}.

(** [self.risk_weights]. *)
Definition w_base_risk : Q := 25 # 100.
Definition w_structural_risk : Q := 30 # 100.
Definition w_cascade_amplification : Q := 25 # 100.
Definition w_centrality_risk : Q := 20 # 100.

(** [self.tier_multipliers.get(tier, 1.0)]. *)
Definition tier_multiplier (tier : Z) : Q :=
  if (tier =? 1)%Z then 3
  else if (tier =? 2)%Z then 2
  else if (tier =? 3)%Z then 1
  else 1.

(** [node_features.get(node_id, type('obj', (object,), {'tier': 3})).tier]. *)
Definition tier_of (g : SupplyChainGraph) (n : string) : Z :=
  match get (node_features g) n with
  | Some f => nf_tier f
  | None => 3%Z
  end.

(** The predictor's output, when the caller has one. *)
Record GnnPredictions : Type := {
  gp_node_risk_scores : option (list (string * Q));
  gp_cascade_amplification : option (list (string * Q))
}.

Definition gnn_amplification_of (gnn : option GnnPredictions)
  : list (string * Q) :=
  match gnn with
  | Some gp => match gp_cascade_amplification gp with
               | Some d => d
               | None => []
               end
  | None => []
  end.

(** [_calculate_base_risk]. *)
Definition _calculate_base_risk (g : SupplyChainGraph) (n : string)
  : pyresult Q :=
  bind (Nx.node_data (graph g) n) (fun node_data =>
    let base_risk := match Nx.nd_risk_score node_data with
                     | Some r => r
                     | None => 0
                     end in
    let base_risk :=
      match Nx.nd_lastAudit node_data with
      | Some (String _ _) => Qmin 1 (base_risk + (1 # 10))
      | _ => base_risk
      end in
    let base_risk :=
      match Nx.nd_certifications node_data with
      | None | Some [] => Qmin 1 (base_risk + (15 # 100))
      | Some (_ :: _ :: _) => Qmax 0 (base_risk - (1 # 10))
      | Some [_] => base_risk
      end in
    let base_risk :=
      match Nx.nd_contractType node_data with
      | Some ct =>
          if String.eqb ct "month-to-month" then Qmin 1 (base_risk + (1 # 10))
          else if String.eqb ct "annual" then Qmax 0 (base_risk - (5 # 100))
          else base_risk
      | None => base_risk
      end in
    Ok base_risk).

(** [_calculate_structural_risk]; its [centrality_metrics] argument is
    not used by the body. *)
Definition _calculate_structural_risk (nx : Nx.Algorithms)
  (np_empty : pyresult Q) (g : SupplyChainGraph) (n : string) : pyresult Q :=
  let G := graph g in
  let in_degree := Nx.in_degree G n in
  let max_degree := Z.max 1 (len (Nx.nodes G) - 1) in
  let in_degree_risk := inject_Z in_degree / inject_Z max_degree * (6 # 10) in
  let out_degree := Nx.out_degree G n in
  let out_degree_risk := inject_Z out_degree / inject_Z max_degree * (4 # 10) in
  let structural_risk := in_degree_risk + out_degree_risk in
  bind (identify_structural_vulnerabilities nx np_empty g) (fun v =>
    let structural_risk :=
      if mem n (single_points_of_failure v)
      then Qmin 1 (structural_risk + (3 # 10)) else structural_risk in
    let structural_risk :=
      if mem n (bridge_nodes v)
      then Qmin 1 (structural_risk + (2 # 10)) else structural_risk in
    Ok structural_risk).

(** [_calculate_cascade_amplification_fallback]. *)
Definition _calculate_cascade_amplification_fallback (g : SupplyChainGraph)
  (n : string) : Q :=
  match Nx.descendants (graph g) n with
  | Ok d =>
      let reachable_nodes := len d in
      let total_nodes := len (Nx.nodes (graph g)) in
      if (total_nodes <=? 1)%Z then 0
      else
        let amplification :=
          inject_Z reachable_nodes / inject_Z (total_nodes - 1) in
        let tier_factor := inject_Z (4 - tier_of g n) / 3 in
        Qmin 1 (amplification * tier_factor)
  | Raise _ => 5 # 10
  end.

(** [_calculate_centrality_risk] on [centrality_metrics.get(node_id, {})]. *)
Definition _calculate_centrality_risk (row : option CentralityMetrics) : Q :=
  match row with
  | None => 5 # 10
  | Some m =>
      betweenness_centrality m * (3 # 10) + closeness_centrality m * (2 # 10)
      + pagerank m * (3 # 10) + degree_centrality m * (2 # 10)
  end.

(** [_determine_risk_level]. *)
Definition _determine_risk_level (combined : Q) : RiskLevel :=
  if Qle_bool (8 # 10) combined then CRITICAL
  else if Qle_bool (6 # 10) combined then HIGH
  else if Qle_bool (3 # 10) combined then MEDIUM
  else LOW.

(** [_identify_contributing_factors]. *)
Definition _identify_contributing_factors (base structural cascade centrality : Q)
  (tier : Z) : list string :=
  let factors :=
    ((if Qltb (6 # 10) base then ["High inherent risk score"%string] else [])
     ++ (if Qltb (6 # 10) structural
         then ["Critical structural position"%string] else [])
     ++ (if Qltb (6 # 10) cascade
         then ["High cascade amplification potential"%string] else [])
     ++ (if Qltb (6 # 10) centrality
         then ["High network centrality"%string] else [])
     ++ (if (tier =? 1)%Z
         then ["Critical tier classification"%string] else []))%list in
  match factors with
  | [] => ["Moderate risk across multiple factors"%string]
  | _ => factors
  end.

(** The body of the loop of [calculate_node_risk_profiles] for one node. *)
Definition node_profile (nx : Nx.Algorithms) (np_empty : pyresult Q)
  (g : SupplyChainGraph) (gnn : option GnnPredictions)
  (centrality_metrics : list (string * CentralityMetrics)) (n : string)
  : pyresult NodeRiskProfile :=
  bind (_calculate_base_risk g n) (fun base =>
  bind (_calculate_structural_risk nx np_empty g n) (fun structural =>
    let cascade :=
      get_default (gnn_amplification_of gnn) n
                  (_calculate_cascade_amplification_fallback g n) in
    let centrality := _calculate_centrality_risk (get centrality_metrics n) in
    let combined :=
      base * w_base_risk + structural * w_structural_risk
      + cascade * w_cascade_amplification + centrality * w_centrality_risk in
    let tier := tier_of g n in
    let combined := Qmin 1 (combined * tier_multiplier tier) in
    Ok {| node_id := n;
          base_risk := base;
          structural_risk := structural;
          cascade_amplification := cascade;
          centrality_risk := centrality;
          combined_risk := combined;
          risk_level := _determine_risk_level combined;
          contributing_factors :=
            _identify_contributing_factors base structural cascade
                                           centrality tier |})).

Fixpoint profiles_loop (nx : Nx.Algorithms) (np_empty : pyresult Q)
  (g : SupplyChainGraph) (gnn : option GnnPredictions)
  (cm : list (string * CentralityMetrics)) (ns : list string)
  (node_risks : list (string * NodeRiskProfile))
  : pyresult (list (string * NodeRiskProfile)) :=
  match ns with
  | [] => Ok node_risks
  | n :: ns' =>
      bind (node_profile nx np_empty g gnn cm n) (fun p =>
        profiles_loop nx np_empty g gnn cm ns' (set_item node_risks n p))
  end.

(** [calculate_node_risk_profiles]. *)
Definition calculate_node_risk_profiles (nx : Nx.Algorithms)
  (np_empty : pyresult Q) (g : SupplyChainGraph)
  (gnn : option GnnPredictions)
  : pyresult (list (string * NodeRiskProfile)) :=
  let centrality_metrics := calculate_centrality_metrics nx g in
  profiles_loop nx np_empty g gnn centrality_metrics (Nx.nodes (graph g)) [].

(** The clamp to [0,1] of the specification. *)
Definition clamp01 (x : Q) : Q := Qmin 1 (Qmax 0 x).

(** The ranges of the data model, as checks on the inputs: stored risk
    scores are not negative, tiers are 1, 2 or 3, and neither the
    predictor nor networkx reports a negative score. *)
Definition risk_scores_nonneg (g : SupplyChainGraph) : bool :=
  forallb (fun kv => match Nx.nd_risk_score (snd kv) with
                     | Some r => Qle_bool 0 r
                     | None => true
                     end)
          (Nx.node_dict (graph g)).

Definition tiers_valid (g : SupplyChainGraph) : bool :=
  forallb (fun kv => (1 <=? nf_tier (snd kv))%Z && (nf_tier (snd kv) <=? 3)%Z)
          (node_features g).

Definition table_nonneg (d : list (string * Q)) : bool :=
  forallb (fun kv => Qle_bool 0 (snd kv)) d.

Definition result_nonneg (t : pyresult (list (string * Q))) : bool :=
  match t with
  | Ok d => table_nonneg d
  | Raise _ => true
  end.

Definition centralities_nonneg (nx : Nx.Algorithms) (G : Nx.DiGraph) : bool :=
  result_nonneg (Nx.betweenness_centrality nx G)
  && result_nonneg (Nx.closeness_centrality nx G)
  && result_nonneg (Nx.pagerank nx G).

(** The weighted sum of the four sub-scores of a profile. *)
Definition weighted_sum (p : NodeRiskProfile) : Q :=
  (25 # 100) * base_risk p + (30 # 100) * structural_risk p
  + (25 # 100) * cascade_amplification p + (20 # 100) * centrality_risk p.

(** The levels in ascending order of severity. *)
Definition risk_rank (l : RiskLevel) : Z :=
  match l with
  | LOW => 0
  | MEDIUM => 1
  | HIGH => 2
  | CRITICAL => 3
  end.

(** [risk_level in [RiskLevel.HIGH, RiskLevel.CRITICAL]]. *)
Definition high_or_critical (l : RiskLevel) : bool :=
  match l with
  | HIGH | CRITICAL => true
  | LOW | MEDIUM => false
  end.

(** [@dataclass class RiskMetrics]. *)
Record RiskMetrics : Type := {
  overall_score : Q;
  tier_1_exposure : Q;
  cascade_potential : Q;
  single_point_failures : Z;
  critical_path_count : Z;
  vulnerability_density : Q;
  resilience_score : Q
}.

(** [_calculate_overall_risk_score]. *)
Definition _calculate_overall_risk_score
  (node_risks : list (string * NodeRiskProfile)) (g : SupplyChainGraph) : Q :=
  match node_risks with
  | [] => 0
  | _ :: _ =>
      let '(total_weighted_risk, total_weight) :=
        fold_left
          (fun acc kv =>
             let weight := tier_multiplier (tier_of g (fst kv)) in
             (fst acc + combined_risk (snd kv) * weight, snd acc + weight))
          node_risks (0, 0) in
      total_weighted_risk / Qmax total_weight 1
  end.

(** [_calculate_tier_1_exposure]. *)
Definition _calculate_tier_1_exposure
  (node_risks : list (string * NodeRiskProfile)) (g : SupplyChainGraph) : Q :=
  let '(tier_1_nodes, tier_1_risk_sum) :=
    fold_left
      (fun acc kv =>
         if (tier_of g (fst kv) =? 1)%Z
         then ((fst acc ++ [fst kv])%list, snd acc + combined_risk (snd kv))
         else acc)
      node_risks ([], 0) in
  match tier_1_nodes with
  | [] => 0
  | _ :: _ => tier_1_risk_sum / inject_Z (len tier_1_nodes)
  end.

(** [_calculate_cascade_potential]; the graph argument is not used. *)
Definition _calculate_cascade_potential
  (node_risks : list (string * NodeRiskProfile)) : Q :=
  match node_risks with
  | [] => 0
  | _ :: _ =>
      let '(total_cascade_potential, total_nodes) :=
        fold_left
          (fun acc kv =>
             (fst acc
              + cascade_amplification (snd kv) * combined_risk (snd kv),
              (snd acc + 1)%Z))
          node_risks (0, 0%Z) in
      total_cascade_potential / inject_Z (Z.max total_nodes 1)
  end.

(** [_count_critical_paths]: a source whose search raises is skipped. *)
Definition _count_critical_paths (g : SupplyChainGraph)
  (node_risks : list (string * NodeRiskProfile)) : Z :=
  let high_risk_nodes :=
    map fst (filter (fun kv => high_or_critical (risk_level (snd kv)))
                    node_risks) in
  fold_left
    (fun critical_paths source_node =>
       match find_critical_paths g source_node 3 with
       | Ok paths =>
           (critical_paths
            + len (filter (fun p => Qltb (6 # 10) (GraphEngine.risk_score p))
                          paths))%Z
       | Raise _ => critical_paths
       end)
    high_risk_nodes 0%Z.

(** [_calculate_vulnerability_density]. *)
Definition _calculate_vulnerability_density
  (node_risks : list (string * NodeRiskProfile)) (total_nodes : Z) : Q :=
  if (total_nodes =? 0)%Z then 0
  else
    let vulnerable_nodes :=
      len (filter (fun kv => high_or_critical (risk_level (snd kv)))
                  node_risks) in
    inject_Z vulnerable_nodes / inject_Z total_nodes.

(** [_calculate_redundancy_score]; nothing in its [try] can raise. *)
Definition _calculate_redundancy_score (g : SupplyChainGraph) : Q :=
  let num_edges := len (Nx.edges (graph g)) in
  let num_nodes := len (Nx.nodes (graph g)) in
  if (num_nodes <=? 1)%Z then 1
  else
    let min_edges_for_connectivity := (num_nodes - 1)%Z in
    Qmin 1 (inject_Z (num_edges - min_edges_for_connectivity)
            / inject_Z (Z.max 1 min_edges_for_connectivity)).

(** [_calculate_connectivity_score]. *)
Definition _calculate_connectivity_score (g : SupplyChainGraph) : Q :=
  let num_nodes := len (Nx.nodes (graph g)) in
  let num_edges := len (Nx.edges (graph g)) in
  if (num_nodes <=? 1)%Z then 1
  else
    let max_edges := (num_nodes * (num_nodes - 1))%Z in
    let connectivity := inject_Z num_edges / inject_Z (Z.max 1 max_edges) in
    Qmin 1 (connectivity * 10).

(** *** [class RiskTrendAnalyzer]                                      *)

(** One entry of [self.historical_metrics]. *)
Record Snapshot : Type := {
  snapshot_timestamp : string;
  metrics : RiskMetrics
}.

(** [add_historical_snapshot]: the new value of
    [self.historical_metrics]. *)
Definition add_historical_snapshot (historical_metrics : list Snapshot)
  (timestamp : string) (risk_metrics : RiskMetrics) : list Snapshot :=
  let h := (historical_metrics
            ++ [{| snapshot_timestamp := timestamp;
                   metrics := risk_metrics |}])%list in
  if (30 <? len h)%Z then last_n 30 h else h.

(** [_calculate_linear_trend]. *)
Definition _calculate_linear_trend (values : list Q) : Q :=
  if (len values <? 2)%Z then 0
  else
    let n := List.length values in
    let x := map inject_Z (range n) in
    let x_mean := inject_Z (sum_Z (range n)) / inject_Z (len values) in
    let y_mean := sum_Q values / inject_Z (len values) in
    let numerator :=
      sum_Q (map (fun xv => (fst xv - x_mean) * (snd xv - y_mean))
                 (combine x values)) in
    let denominator :=
      sum_Q (map (fun xi => (xi - x_mean) * (xi - x_mean)) x) in
    if Qeq_bool denominator 0 then 0 else numerator / denominator.

(** The field [snapshot['metrics'].__dict__[key]] for the four keys of
    [metrics_keys]. *)
Definition metrics_keys : list (string * (RiskMetrics -> Q)) :=
  [("overall_score", overall_score);
   ("cascade_potential", cascade_potential);
   ("vulnerability_density", vulnerability_density);
   ("resilience_score", resilience_score)].

(** [f"{key.replace('_score', '').replace('_', '_')}_trend"]. *)
Definition trend_key (key : string) : string :=
  (str_replace (str_replace key "_score" "") "_" "_" ++ "_trend")%string.

(** [calculate_risk_trends]. *)
Definition calculate_risk_trends (historical_metrics : list Snapshot)
  : list (string * Q) :=
  if (len historical_metrics <? 2)%Z then
    [("overall_trend", 0); ("cascade_trend", 0); ("vulnerability_trend", 0);
     ("resilience_trend", 0)]
  else
    fold_left
      (fun trends kf =>
         let values := map (fun snapshot => snd kf (metrics snapshot))
                           historical_metrics in
         set_item trends (trend_key (fst kf)) (_calculate_linear_trend values))
      metrics_keys [].

(** The dictionary [predict_future_risk] fills. *)
Record Predictions : Type := {
  predicted_overall_score : Q;
  predicted_cascade_potential : Q;
  predicted_vulnerability_density : Q;
  predicted_resilience_score : Q
}.

(** [predict_future_risk]; [None] is the empty dictionary it returns
    when there is no history. *)
Definition predict_future_risk (historical_metrics : list Snapshot)
  (days_ahead : Z) : option Predictions :=
  match rev historical_metrics with
  | [] => None
  | latest :: _ =>
      let current_metrics := metrics latest in
      let trends := calculate_risk_trends historical_metrics in
      let project (current : Q) (key : string) : Q :=
        Qmin 1 (Qmax 0 (current
                        + get_default trends key 0 * inject_Z days_ahead)) in
      Some {| predicted_overall_score :=
                project (overall_score current_metrics) "overall_trend";
              predicted_cascade_potential :=
                project (cascade_potential current_metrics) "cascade_trend";
              predicted_vulnerability_density :=
                project (vulnerability_density current_metrics)
                        "vulnerability_trend";
              predicted_resilience_score :=
                project (resilience_score current_metrics)
                        "resilience_trend" |}
  end.

(** Profiles whose combined risk and cascade amplification all lie
    between 0 and 1. *)
Definition profiles_in_unit_range
  (node_risks : list (string * NodeRiskProfile)) : Prop :=
  Forall (fun kv => 0 <= combined_risk (snd kv) <= 1
                    /\ 0 <= cascade_amplification (snd kv) <= 1)
         node_risks.

End RiskCalculator.

(* ------------------------------------------------------------------ *)
(** ** simulation_engine.py                                            *)
(* ------------------------------------------------------------------ *)

Module SimulationEngine.

Import GraphEngine.
Local Open Scope Q_scope.

Inductive SimulationStatus : Type := PENDING | RUNNING | COMPLETED | FAILED.

(** The global generator of the [random] module: a sequence of draws and
    the position of the next one.  Seeding fixes both. *)
Record Rng : Type := {
  rng_draws : nat -> Q;
  rng_pos : nat
}.

(** [random.random()]. *)
Definition random (r : Rng) : Q * Rng :=
  (rng_draws r (rng_pos r),
   {| rng_draws := rng_draws r; rng_pos := S (rng_pos r) |}).

(** The predictor handed to the engine: its method
    [predict_cascade_amplification]. *)
Definition GnnEngine : Type := SupplyChainGraph -> pyresult (list (string * Q)).

(** The attributes [__init__] sets, the graph apart; with them
    [np_empty], what the installed numpy answers for the percentile of
    an empty list (see [Np.percentile]). *)
Record Engine : Type := {
  gnn_engine : option GnnEngine;
  base_propagation_probability : Q;
  base_propagation_delay : Q;
  max_simulation_steps : Z;
  max_simulation_time : Q;
  np_empty : pyresult Q
}.

(** [AdvancedSimulationEngine.__init__]. *)
Definition init (gnn : option GnnEngine) (np_empty : pyresult Q) : Engine :=
  {| gnn_engine := gnn;
     base_propagation_probability := 3 # 10;
     base_propagation_delay := 300;
     max_simulation_steps := 20;
     max_simulation_time := 10000;
     np_empty := np_empty |}.

Record PropagationRule : Type := {
  rule_name : string;
  condition : string -> string -> SupplyChainGraph -> pyresult bool;
  probability_modifier : Q;
  delay_modifier : Q
}.

Definition dependency_category_is (cat : string) (source target : string)
  (g : SupplyChainGraph) : pyresult bool :=
  Ok match Nx.ed_dependency_category
             (Nx.edge_data_or_empty (graph g) source target) with
     | Some c => String.eqb c cat
     | None => false
     end.

(** [_initialize_propagation_rules]. *)
Definition _initialize_propagation_rules (np_empty : pyresult Q)
  : list PropagationRule :=
  [ {| rule_name := "tier_amplification";
       condition := fun source _ g =>
         Ok (match get (node_features g) source with
             | Some f => nf_tier f
             | None => 3%Z
             end =? 1)%Z;
       probability_modifier := 15 # 10;
       delay_modifier := 7 # 10 |};
    {| rule_name := "auth_dependency";
       condition := dependency_category_is "authentication";
       probability_modifier := 2;
       delay_modifier := 5 # 10 |};
    {| rule_name := "api_integration";
       condition := dependency_category_is "api_call";
       probability_modifier := 13 # 10;
       delay_modifier := 8 # 10 |};
    {| rule_name := "strong_dependency";
       condition := fun source target g =>
         Ok (Qltb (8 # 10)
                  match get2 (edge_features g) (source, target) with
                  | Some f => ef_strength f
                  | None => 5 # 10
                  end);
       probability_modifier := 14 # 10;
       delay_modifier := 9 # 10 |};
    {| rule_name := "high_indegree_vulnerability";
       condition := fun _ target g =>
         if Nx.has_node (graph g) target then
           bind (Np.percentile np_empty
                   (map (Nx.in_degree (graph g)) (Nx.nodes (graph g))) 75)
                (fun p => Ok (Qltb p (inject_Z (Nx.in_degree (graph g) target))))
         else Raise KeyError;
       probability_modifier := 12 # 10;
       delay_modifier := 1 |} ].

(** [edge_data.get('strength', 0.5)] for the edge (source, target). *)
Definition edge_strength (g : SupplyChainGraph) (source target : string) : Q :=
  match Nx.ed_strength (Nx.edge_data_or_empty (graph g) source target) with
  | Some s => s
  | None => 5 # 10
  end.

(** The criticality score of the target, 50 when it has no features. *)
Definition criticality_of (g : SupplyChainGraph) (target : string) : Q :=
  match get (node_features g) target with
  | Some f => nf_criticality_score f
  | None => 50
  end.

Definition target_vulnerability (g : SupplyChainGraph) (target : string) : Q :=
  1 - criticality_of g target / 100.

(** The value of [probability] after the line marked "Base calculation",
    before any rule or predictor is applied. *)
Definition base_probability (eng : Engine) (g : SupplyChainGraph)
  (source target : string) : Q :=
  base_propagation_probability eng
  * (edge_strength g source target * (1 + target_vulnerability g target)).

(** The loop over [self.propagation_rules]: a rule whose condition raises
    is skipped. *)
Fixpoint apply_rules (rules : list PropagationRule) (g : SupplyChainGraph)
  (source target : string) (pd : Q * Q) : Q * Q :=
  match rules with
  | [] => pd
  | rule :: rules' =>
      let pd' :=
        match condition rule source target g with
        | Ok true => (fst pd * probability_modifier rule,
                      snd pd * delay_modifier rule)
        | Ok false => pd
        | Raise _ => pd
        end in
      apply_rules rules' g source target pd'
  end.

(** [_calculate_propagation_parameters]. *)
Definition _calculate_propagation_parameters (eng : Engine)
  (g : SupplyChainGraph) (source target : string) : Q * Q :=
  let probability := base_probability eng g source target in
  let delay := base_propagation_delay eng in
  let '(probability, delay) :=
    apply_rules (_initialize_propagation_rules (np_empty eng)) g source target
                (probability, delay) in
  let probability :=
    match gnn_engine eng with
    | Some predict =>
        match predict g with
        | Ok gnn_predictions =>
            probability * (1 + get_default gnn_predictions source (5 # 10))
        | Raise _ => probability
        end
    | None => probability
    end in
  (Qmin 1 (Qmax 0 probability), Qmax 50 delay).

Record StepMetrics : Type := {
  total_compromised : Z;
  total_affected_nodes : Z;
  propagation_rate : Z;
  network_coverage : Q
}.

Record SimulationStep : Type := {
  step_number : Z;
  timestamp : Q;
  action : string;
  affected_nodes : list string;
  new_compromised : list string;
  propagation_paths : list (list string);
  metrics : StepMetrics
}.

(** The dictionary [simulation_state]. *)
Record SimState : Type := {
  compromised : list string;
  propagating : list string;
  affected : list string;
  secure : list string;
  st_step_number : Z;
  simulation_time : Q;
  steps : list SimulationStep
}.

(** What the first loop of [_execute_simulation_step] accumulates. *)
Record Attempts : Type := {
  propagating_nodes : list string;
  attempt_paths : list (list string);
  clock : Q;
  rng : Rng
}.

(** The inner loop: one draw for each target that is secure. *)
Fixpoint try_targets (eng : Engine) (g : SupplyChainGraph)
  (secure_now : list string) (compromised_node : string)
  (targets : list string) (a : Attempts) : Attempts :=
  match targets with
  | [] => a
  | target :: targets' =>
      let a' :=
        if mem target secure_now then
          let '(propagation_prob, delay) :=
            _calculate_propagation_parameters eng g compromised_node target in
          let '(u, r') := random (rng a) in
          if Qltb u propagation_prob then
            {| propagating_nodes := (propagating_nodes a ++ [target])%list;
               attempt_paths :=
                 (attempt_paths a ++ [[compromised_node; target]])%list;
               clock := clock a + delay;
               rng := r' |}
          else
            {| propagating_nodes := propagating_nodes a;
               attempt_paths := attempt_paths a;
               clock := clock a;
               rng := r' |}
        else a in
      try_targets eng g secure_now compromised_node targets' a'
  end.

(** The outer loop, over [list(simulation_state['compromised'])]. *)
Fixpoint spread (eng : Engine) (g : SupplyChainGraph)
  (secure_now : list string) (nodes : list string) (a : Attempts)
  : pyresult unit * Attempts :=
  match nodes with
  | [] => (Ok tt, a)
  | compromised_node :: nodes' =>
      match Nx.successors (graph g) compromised_node with
      | Raise e => (Raise e, a)
      | Ok targets =>
          spread eng g secure_now nodes'
                 (try_targets eng g secure_now compromised_node targets a)
      end
  end.

(** "Move propagating nodes to compromised": the secure set, the
    compromised set and [new_compromised]. *)
Fixpoint move_propagating (nodes : list string)
  (acc : list string * list string * list string)
  : list string * list string * list string :=
  match nodes with
  | [] => acc
  | node :: nodes' =>
      let '(sec, comp, new_comp) := acc in
      if mem node sec then
        move_propagating nodes'
          (set_remove sec node, set_add comp node, (new_comp ++ [node])%list)
      else move_propagating nodes' acc
  end.

(** "Update affected nodes". *)
Fixpoint update_affected (g : SupplyChainGraph) (sec : list string)
  (nodes : list string) (aff : list string)
  : pyresult unit * list string :=
  match nodes with
  | [] => (Ok tt, aff)
  | compromised_node :: nodes' =>
      match Nx.neighbors (graph g) compromised_node with
      | Raise e => (Raise e, aff)
      | Ok nbrs =>
          update_affected g sec nodes'
            (fold_left (fun s neighbor =>
                          if mem neighbor sec then set_add s neighbor else s)
                       nbrs aff)
      end
  end.

(** [_execute_simulation_step]: the step it returns or the exception it
    raises, with the state and the generator as the call leaves them. *)
Definition _execute_simulation_step (eng : Engine) (g : SupplyChainGraph)
  (st : SimState) (r : Rng) : pyresult SimulationStep * SimState * Rng :=
  let '(res1, a) :=
    spread eng g (secure st) (compromised st)
           {| propagating_nodes := []; attempt_paths := [];
              clock := simulation_time st; rng := r |} in
  let st1 := {| compromised := compromised st; propagating := propagating st;
                affected := affected st; secure := secure st;
                st_step_number := st_step_number st;
                simulation_time := clock a; steps := steps st |} in
  match res1 with
  | Raise e => (Raise e, st1, rng a)
  | Ok _ =>
      let '(sec, comp, new_comp) :=
        move_propagating (propagating_nodes a)
                         (secure st, compromised st, []) in
      let '(res3, aff) := update_affected g sec comp (affected st) in
      let st3 := {| compromised := comp; propagating := propagating st;
                    affected := aff; secure := sec;
                    st_step_number := st_step_number st;
                    simulation_time := clock a; steps := steps st |} in
      match res3 with
      | Raise e => (Raise e, st3, rng a)
      | Ok _ =>
          if (len (Nx.nodes (graph g)) =? 0)%Z then
            (Raise ZeroDivisionError, st3, rng a)
          else
            (Ok {| step_number := st_step_number st;
                   timestamp := clock a;
                   action := ("Propagation step "
                              ++ str_of_Z (st_step_number st))%string;
                   affected_nodes := aff;
                   new_compromised := new_comp;
                   propagation_paths := attempt_paths a;
                   metrics :=
                     {| total_compromised := len comp;
                        total_affected_nodes := len aff;
                        propagation_rate := len new_comp;
                        network_coverage :=
                          inject_Z (len comp + len aff)
                          / inject_Z (len (Nx.nodes (graph g))) |} |},
             st3, rng a)
      end
  end.

(** The values of the dictionary [final_metrics]. *)
Record FinalMetrics : Type := {
  compromise_rate : Q;
  impact_rate : Q;
  average_propagation_time : Q;
  propagation_efficiency : Q;
  tier_impact : list (Z * Z);
  category_impact : list (string * Z);
  critical_paths : list (list string);
  critical_path_count : Z
}.

Record Velocity : Type := {
  v_step : Z;
  v_timestamp : Q;
  v_velocity : Q;
  v_cumulative_compromised : Z
}.

Record CriticalFailure : Type := {
  cf_step : Z;
  cf_timestamp : Q;
  cf_new_compromised_count : Z;
  cf_nodes : list string;
  cf_paths : list (list string)
}.

(** The values of the dictionary [risk_analysis]. *)
Record RiskAnalysis : Type := {
  initial_node_impact : list (string * Z);
  bottleneck_nodes : list (string * Z);
  propagation_velocity : list Velocity;
  critical_failure_points : list CriticalFailure
}.

(** The target of a suggestion or of a mitigation action: absent, one
    node id, or a list of node ids. *)
Inductive Target : Type :=
| TNone
| TStr (s : string)
| TList (l : list string).

(** One suggestion; its [description] text is left out. *)
Record Suggestion : Type := {
  s_type : string;
  s_priority : string;
  s_target : Target;
  estimated_impact_reduction : Q;
  s_implementation_complexity : string
}.

(** [@dataclass class SimulationResult].  The dictionaries
    [final_metrics] and [risk_analysis] are [None] when empty. *)
Record SimulationResult : Type := {
  simulation_id : string;
  status : SimulationStatus;
  initial_compromised : list string;
  final_compromised : list string;
  total_affected : Z;
  blast_radius : Z;
  cascade_depth : Z;
  propagation_time : Q;
  result_steps : list SimulationStep;
  final_metrics : option FinalMetrics;
  risk_analysis : option RiskAnalysis;
  mitigation_suggestions : list Suggestion
}.

(** The field names of the dataclass, and [hasattr(result, name)]. *)
Definition SimulationResult_fields : list string :=
  ["simulation_id"; "status"; "initial_compromised"; "final_compromised";
   "total_affected"; "blast_radius"; "cascade_depth"; "propagation_time";
   "steps"; "final_metrics"; "risk_analysis"; "mitigation_suggestions"].

Definition hasattr (_ : SimulationResult) (name : string) : bool :=
  mem name SimulationResult_fields.

(** [tier_impact[tier] += 1] on a [defaultdict(int)]. *)
Fixpoint incr_Z (d : list (Z * Z)) (k : Z) : list (Z * Z) :=
  match d with
  | [] => [(k, 1%Z)]
  | (k', v) :: d' =>
      if (k' =? k)%Z then (k', (v + 1)%Z) :: d' else (k', v) :: incr_Z d' k
  end.

(** [counts[key] += 1] on a [defaultdict(int)] with string keys. *)
Definition incr (d : list (string * Z)) (k : string) : list (string * Z) :=
  set_item d k (get_default d k 0%Z + 1)%Z.

Definition tier_of (g : SupplyChainGraph) (n : string) : Z :=
  match get (node_features g) n with
  | Some f => nf_tier f
  | None => 3%Z
  end.

Definition all_paths (sts : list SimulationStep) : list (list string) :=
  flat_map propagation_paths sts.

(** The category count of [_calculate_final_metrics]; [nodes[node_id]]
    raises for an id that is not in the graph. *)
Fixpoint count_categories (g : SupplyChainGraph) (nodes : list string)
  (d : list (string * Z)) : pyresult (list (string * Z)) :=
  match nodes with
  | [] => Ok d
  | n :: nodes' =>
      bind (Nx.node_data (graph g) n) (fun data =>
        count_categories g nodes'
          (incr d match Nx.nd_category data with
                  | Some c => c
                  | None => "unknown"
                  end))
  end.

(** [_calculate_final_metrics]. *)
Definition _calculate_final_metrics (g : SupplyChainGraph) (st : SimState)
  : pyresult FinalMetrics :=
  let total_nodes := len (Nx.nodes (graph g)) in
  let compromised_count := len (compromised st) in
  let affected_count := len (affected st) in
  if (total_nodes =? 0)%Z then Raise ZeroDivisionError
  else
    let tiers :=
      fold_left (fun d n => incr_Z d (tier_of g n)) (compromised st) [] in
    bind (count_categories g (compromised st) []) (fun cats =>
      let crit :=
        filter (fun path =>
                  (2 <=? len path)%Z
                  && ((tier_of g (hd "" path) <=? 2)%Z
                      || (tier_of g (last path "") <=? 2)%Z))
               (all_paths (steps st)) in
      Ok {| compromise_rate :=
              inject_Z compromised_count / inject_Z total_nodes;
            impact_rate :=
              inject_Z (compromised_count + affected_count)
              / inject_Z total_nodes;
            average_propagation_time :=
              simulation_time st / inject_Z (Z.max 1 (st_step_number st));
            propagation_efficiency :=
              inject_Z compromised_count
              / Qmax 1 (simulation_time st / 1000);
            tier_impact := tiers;
            category_impact := cats;
            critical_paths := crit;
            critical_path_count := len crit |}).

(** One pass of the breadth-first loop of [_perform_risk_analysis] over
    every recorded path, for the node just taken from the queue. *)
Definition scan_paths (current : string) (paths : list (list string))
  (acc : list string * list string * list string)
  : list string * list string * list string :=
  fold_left
    (fun acc path =>
       let '(queue, visited, reachable) := acc in
       match path with
       | p0 :: p1 :: _ =>
           if String.eqb p0 current && negb (mem p1 visited) then
             ((queue ++ [p1])%list, set_add visited p1, set_add reachable p1)
           else acc
       | _ => acc
       end)
    paths acc.

(** [while queue: ...]: every node enters the queue at most once, as the
    second node of a recorded path, so one more round than there are
    paths empties the queue. *)
Fixpoint bfs (fuel : nat) (paths : list (list string))
  (queue visited reachable : list string) : list string :=
  match fuel with
  | O => reachable
  | S fuel' =>
      match queue with
      | [] => reachable
      | current :: queue' =>
          let '(q, v, r) := scan_paths current paths (queue', visited, reachable) in
          bfs fuel' paths q v r
      end
  end.

(** [_perform_risk_analysis]. *)
Definition _perform_risk_analysis (st : SimState)
  (initial_compromised : list string) : RiskAnalysis :=
  let paths := all_paths (steps st) in
  let impact_scores :=
    fold_left
      (fun d initial_node =>
         set_item d initial_node
           (len (bfs (S (S (List.length paths))) paths
                     [initial_node] [initial_node] [])))
      initial_compromised [] in
  let bottleneck_counts := fold_left incr (List.concat paths) [] in
  let bottlenecks :=
    sorted_desc (fun kv => inject_Z (snd kv)) bottleneck_counts in
  let velocity :=
    snd (fold_left
           (fun acc step =>
              let cumulative := (fst acc + len (new_compromised step))%Z in
              (cumulative,
               (snd acc
                ++ [{| v_step := step_number step;
                       v_timestamp := timestamp step;
                       v_velocity :=
                         inject_Z (len (new_compromised step))
                         / Qmax 1 (timestamp step / 1000);
                       v_cumulative_compromised := cumulative |}])%list))
           (steps st) (len initial_compromised, [])) in
  let failures :=
    map (fun step =>
           {| cf_step := step_number step;
              cf_timestamp := timestamp step;
              cf_new_compromised_count := len (new_compromised step);
              cf_nodes := new_compromised step;
              cf_paths := propagation_paths step |})
        (filter (fun step => (3 <? len (new_compromised step))%Z) (steps st)) in
  {| initial_node_impact := impact_scores;
     bottleneck_nodes := slice_to bottlenecks 10;
     propagation_velocity := velocity;
     critical_failure_points := failures |}.

Definition priority_order (p : string) : Z :=
  if String.eqb p "critical" then 0
  else if String.eqb p "high" then 1
  else if String.eqb p "medium" then 2
  else 3.

(** [_generate_mitigation_suggestions].  The dictionary
    [simulation_state] never has a key [final_metrics], so the tier
    suggestion, which reads [simulation_state.get('final_metrics', {})],
    is never produced. *)
Definition _generate_mitigation_suggestions (st : SimState)
  (ra : RiskAnalysis) : pyresult (list Suggestion) :=
  let s1 :=
    match initial_node_impact ra with
    | [] => Ok []
    | first :: rest =>
        let highest := max_by (fun kv => inject_Z (snd kv)) first rest in
        if (len (compromised st) =? 0)%Z then Raise ZeroDivisionError
        else Ok [{| s_type := "isolation"; s_priority := "high";
                    s_target := TStr (fst highest);
                    estimated_impact_reduction :=
                      inject_Z (snd highest) / inject_Z (len (compromised st));
                    s_implementation_complexity := "medium" |}]
    end in
  bind s1 (fun s1 =>
    let s2 :=
      match bottleneck_nodes ra with
      | [] => []
      | top :: _ =>
          [{| s_type := "hardening"; s_priority := "high";
              s_target := TStr (fst top);
              estimated_impact_reduction := 3 # 10;
              s_implementation_complexity := "medium" |}]
      end in
    let s3 :=
      match critical_failure_points ra with
      | [] => []
      | first :: rest =>
          let largest :=
            max_by (fun f => inject_Z (cf_new_compromised_count f)) first rest in
          [{| s_type := "redundancy"; s_priority := "medium";
              s_target := TList (cf_nodes largest);
              estimated_impact_reduction := 4 # 10;
              s_implementation_complexity := "high" |}]
      end in
    let s4 :=
      match propagation_velocity ra with
      | [] => []
      | first :: rest =>
          let fastest := max_by v_velocity first rest in
          if Qltb 1 (v_velocity fastest) then
            [{| s_type := "monitoring"; s_priority := "medium";
                s_target := TStr "network_wide";
                estimated_impact_reduction := 2 # 10;
                s_implementation_complexity := "low" |}]
          else []
      end in
    Ok (sorted_by (fun s => priority_order (s_priority s))
                  (s1 ++ s2 ++ s3 ++ s4)%list)).

(** [_finalize_simulation]. *)
Definition _finalize_simulation (g : SupplyChainGraph)
  (simulation_id : string) (st : SimState)
  (initial_compromised : list string) : pyresult SimulationResult :=
  bind (_calculate_final_metrics g st) (fun fm =>
    let ra := _perform_risk_analysis st initial_compromised in
    bind (_generate_mitigation_suggestions st ra) (fun sugg =>
      Ok {| simulation_id := simulation_id;
            status := COMPLETED;
            initial_compromised := initial_compromised;
            final_compromised := compromised st;
            total_affected := (len (compromised st) + len (affected st))%Z;
            blast_radius :=
              (len (compromised st) - len initial_compromised)%Z;
            cascade_depth := st_step_number st;
            propagation_time := simulation_time st;
            result_steps := steps st;
            final_metrics := Some fm;
            risk_analysis := Some ra;
            mitigation_suggestions := sugg |})).

(** [step_result[key]]: [SimulationStep] is a plain dataclass, so
    subscripting an instance raises [TypeError]. *)
Definition step_getitem (_ : SimulationStep) (_ : string)
  : pyresult (list string) :=
  Raise TypeError.

Definition is_empty {A} (l : list A) : bool :=
  match l with [] => true | _ :: _ => false end.

Section Loop.

(** The meaning of [step_result[key]] in the loop below. *)
Variable getitem : SimulationStep -> string -> pyresult (list string).

(** The test [not step_result['new_compromised'] and not
    step_result['propagating_nodes']], evaluated left to right. *)
Definition no_new_propagation (step_result : SimulationStep) : pyresult bool :=
  bind (getitem step_result "new_compromised") (fun nc =>
    if is_empty nc then
      bind (getitem step_result "propagating_nodes") (fun pn => Ok (is_empty pn))
    else Ok false).

Definition record_step (st : SimState) (step_result : SimulationStep)
  : SimState :=
  {| compromised := compromised st; propagating := propagating st;
     affected := affected st; secure := secure st;
     st_step_number := (st_step_number st + 1)%Z;
     simulation_time := simulation_time st;
     steps := (steps st ++ [step_result])%list |}.

Definition loop_guard (eng : Engine) (st : SimState) : bool :=
  (st_step_number st <? max_simulation_steps eng)%Z
  && Qltb (simulation_time st) (max_simulation_time eng).

(** The [while] loop of [run_simulation]; [None] when [fuel] rounds were
    not enough to leave it. *)
Fixpoint simulation_loop_with (fuel : nat) (eng : Engine)
  (g : SupplyChainGraph) (st : SimState) (r : Rng)
  : option (pyresult unit * SimState * Rng) :=
  if loop_guard eng st then
    match fuel with
    | O => None
    | S fuel' =>
        let '(res, st', r') := _execute_simulation_step eng g st r in
        match res with
        | Raise e => Some (Raise e, st', r')
        | Ok step_result =>
            match no_new_propagation step_result with
            | Raise e => Some (Raise e, st', r')
            | Ok true => Some (Ok tt, st', r')
            | Ok false =>
                simulation_loop_with fuel' eng g (record_step st' step_result) r'
            end
        end
    end
  else Some (Ok tt, st, r).

(** The result of the [except] branch of [run_simulation]. *)
Definition failed_result (simulation_id : string)
  (initial_compromised : list string) (st : SimState) : SimulationResult :=
  {| simulation_id := simulation_id;
     status := FAILED;
     initial_compromised := initial_compromised;
     final_compromised := compromised st;
     total_affected := (len (compromised st) + len (affected st))%Z;
     blast_radius := (len (compromised st) - len initial_compromised)%Z;
     cascade_depth := st_step_number st;
     propagation_time := simulation_time st;
     result_steps := steps st;
     final_metrics := None;
     risk_analysis := None;
     mitigation_suggestions := [] |}.

(** The dictionary [simulation_state] as [run_simulation] creates it. *)
Definition initial_state (g : SupplyChainGraph)
  (initial_compromised : list string) : SimState :=
  {| compromised := set_of_list initial_compromised;
     propagating := [];
     affected := [];
     secure := set_diff (set_of_list (Nx.nodes (graph g)))
                        (set_of_list initial_compromised);
     st_step_number := 0;
     simulation_time := 0;
     steps := [] |}.

(** The body of the [try] block of [run_simulation]: the loop, then
    [_finalize_simulation]; with it the state and the generator at the
    point where the block was left. *)
Definition try_body (eng : Engine) (g : SupplyChainGraph)
  (initial_compromised : list string) (simulation_id : string) (r : Rng)
  : option (pyresult SimulationResult * SimState * Rng) :=
  match simulation_loop_with (Z.to_nat (max_simulation_steps eng)) eng g
                             (initial_state g initial_compromised) r with
  | None => None
  | Some (Raise e, st, r') => Some (Raise e, st, r')
  | Some (Ok _, st, r') =>
      Some (_finalize_simulation g simulation_id st initial_compromised,
            st, r')
  end.

(** [simulation_id] as [run_simulation] resolves it: [now_ms] is
    [int(time.time() * 1000)] at the call. *)
Definition resolve_id (simulation_id : option string) (now_ms : Z) : string :=
  match simulation_id with
  | Some s => s
  | None => ("sim_" ++ str_of_Z now_ms)%string
  end.

(** [run_simulation] on the graph [g] the engine holds.  The bookkeeping
    in [self.active_simulations] does not reach the result and is left
    out. *)
Definition run_simulation_with (eng : Engine) (g : SupplyChainGraph)
  (initial_compromised : list string) (simulation_id : option string)
  (now_ms : Z) (r : Rng) : option (SimulationResult * Rng) :=
  let simulation_id := resolve_id simulation_id now_ms in
  match try_body eng g initial_compromised simulation_id r with
  | None => None
  | Some (Ok final_result, _, r') => Some (final_result, r')
  | Some (Raise _, st, r') =>
      Some (failed_result simulation_id initial_compromised st, r')
  end.

End Loop.

(** [AdvancedSimulationEngine.run_simulation], as the source has it. *)
Definition simulation_loop := simulation_loop_with step_getitem.
Definition run_simulation := run_simulation_with step_getitem.

(** *** Mitigation what-if: the graph as a shared object               *)

(** Graph objects live in a store; a variable holds a reference. *)
Definition ref : Type := nat.
Definition Heap : Type := ref -> SupplyChainGraph.

Definition heap_set (h : Heap) (p : ref) (g : SupplyChainGraph) : Heap :=
  fun q => if Nat.eqb p q then g else h q.

(** One entry of [mitigation_actions]: [action.get('type')] and
    [action.get('target')]. *)
Record Action : Type := {
  a_type : option string;
  a_target : Target
}.

(** [target in modified_graph.graph.nodes()]: a list is not hashable. *)
Definition target_in_nodes (G : Nx.DiGraph) (t : Target) : pyresult bool :=
  match t with
  | TNone => Ok false
  | TStr s => Ok (Nx.has_node G s)
  | TList _ => Raise TypeError
  end.

Definition set_risk_score (d : Nx.NodeData) (r : Q) : Nx.NodeData :=
  {| Nx.nd_node_type := Nx.nd_node_type d; Nx.nd_tier := Nx.nd_tier d;
     Nx.nd_risk_score := Some r;
     Nx.nd_criticality_score := Nx.nd_criticality_score d;
     Nx.nd_name := Nx.nd_name d; Nx.nd_category := Nx.nd_category d;
     Nx.nd_lastAudit := Nx.nd_lastAudit d;
     Nx.nd_certifications := Nx.nd_certifications d;
     Nx.nd_contractType := Nx.nd_contractType d |}.

Definition with_graph (g : SupplyChainGraph) (G : Nx.DiGraph)
  : SupplyChainGraph :=
  {| graph := G; node_features := node_features g;
     edge_features := edge_features g |}.

(** The loop of the [redundancy] branch: the graph object after it and
    whether it raised. *)
Fixpoint raise_criticality (g : SupplyChainGraph) (nodes : list string)
  : pyresult unit * SupplyChainGraph :=
  match nodes with
  | [] => (Ok tt, g)
  | node :: nodes' =>
      if Nx.has_node (graph g) node then
        match get (node_features g) node with
        | Some f =>
            raise_criticality
              {| graph := graph g;
                 node_features :=
                   set_item (node_features g) node
                     (set_criticality_score f
                        (Qmin 100 (nf_criticality_score f + 20)));
                 edge_features := edge_features g |}
              nodes'
        | None => (Raise KeyError, g)
        end
      else raise_criticality g nodes'
  end.

(** The body of the loop of [_apply_mitigations] for one action, on the
    object [modified_graph] refers to. *)
Definition apply_action (g : SupplyChainGraph) (a : Action)
  : pyresult unit * SupplyChainGraph :=
  match a_type a with
  | Some ty =>
      if String.eqb ty "isolation" then
        match target_in_nodes (graph g) (a_target a) with
        | Raise e => (Raise e, g)
        | Ok false => (Ok tt, g)
        | Ok true =>
            match a_target a with
            | TStr s =>
                match Nx.remove_node (graph g) s with
                | Ok G => (Ok tt, with_graph g G)
                | Raise e => (Raise e, g)
                end
            | _ => (Ok tt, g)
            end
        end
      else if String.eqb ty "hardening" then
        match target_in_nodes (graph g) (a_target a) with
        | Raise e => (Raise e, g)
        | Ok false => (Ok tt, g)
        | Ok true =>
            match a_target a with
            | TStr s =>
                let d := Nx.node_data_or_empty (graph g) s in
                let current_risk :=
                  match Nx.nd_risk_score d with Some x => x | None => 0 end in
                (Ok tt,
                 with_graph g
                   {| Nx.node_dict :=
                        set_item (Nx.node_dict (graph g)) s
                                 (set_risk_score d (current_risk * (3 # 10)));
                      Nx.adj := Nx.adj (graph g) |})
            | _ => (Ok tt, g)
            end
        end
      else if String.eqb ty "redundancy" then
        match a_target a with
        | TList l => raise_criticality g l
        | _ => (Ok tt, g)
        end
      else (Ok tt, g)
  | None => (Ok tt, g)
  end.

Fixpoint apply_actions (g : SupplyChainGraph) (actions : list Action)
  : pyresult unit * SupplyChainGraph :=
  match actions with
  | [] => (Ok tt, g)
  | a :: actions' =>
      match apply_action g a with
      | (Ok _, g') => apply_actions g' actions'
      | (Raise e, g') => (Raise e, g')
      end
  end.

(** [_apply_mitigations]: [modified_graph = self.graph] binds a second
    name to the engine's graph object, so every edit lands in the store
    at [self_graph], and that same reference is returned. *)
Definition _apply_mitigations (h : Heap) (self_graph : ref)
  (mitigation_actions : list Action) : pyresult ref * Heap :=
  let modified_graph := self_graph in
  let '(res, g') := apply_actions (h modified_graph) mitigation_actions in
  (bind res (fun _ => Ok modified_graph), heap_set h modified_graph g').

Record Effectiveness : Type := {
  baseline_impact : Z;
  mitigated_impact : Z;
  impact_reduction : Z;
  impact_reduction_percentage : Q;
  propagation_time_reduction : Q;
  baseline_result : SimulationResult;
  mitigated_result : SimulationResult
}.

(** [simulate_mitigation_effectiveness]: the outcome, the store and the
    generator after the call.  [self.graph] is set back to the reference
    it held, so the engine's own attribute is unchanged. *)
Definition simulate_mitigation_effectiveness (eng : Engine) (h : Heap)
  (self_graph : ref) (initial_compromised : list string)
  (mitigation_actions : list Action) (r : Rng)
  : option (pyresult Effectiveness * Heap * Rng) :=
  match run_simulation eng (h self_graph) initial_compromised
                       (Some "baseline") 0 r with
  | None => None
  | Some (baseline, r1) =>
      match _apply_mitigations h self_graph mitigation_actions with
      | (Raise e, h') => Some (Raise e, h', r1)
      | (Ok modified_graph, h') =>
          match run_simulation eng (h' modified_graph) initial_compromised
                               (Some "mitigated") 0 r1 with
          | None => None
          | Some (mitigated, r2) =>
              let reduction :=
                (total_affected baseline - total_affected mitigated)%Z in
              Some (Ok {| baseline_impact := total_affected baseline;
                          mitigated_impact := total_affected mitigated;
                          impact_reduction := reduction;
                          impact_reduction_percentage :=
                            inject_Z reduction
                            / inject_Z (Z.max 1 (total_affected baseline))
                            * 100;
                          propagation_time_reduction :=
                            propagation_time baseline
                            - propagation_time mitigated;
                          baseline_result := baseline;
                          mitigated_result := mitigated |},
                    h', r2)
          end
      end
  end.

(** The sizes of the compromised set a trace records, wave by wave. *)
Definition wave_totals (sts : list SimulationStep) : list Z :=
  map (fun s => total_compromised (metrics s)) sts.

Fixpoint nondecreasing (l : list Z) : Prop :=
  match l with
  | x :: (y :: _) as rest => (x <= y)%Z /\ nondecreasing rest
  | _ => True
  end.

(** What the loop of [run_simulation] maintains about the trace: the
    recorded sizes never decrease, none exceeds the current size of the
    compromised set, and one step is recorded for each wave counted. *)
Definition trace_invariant (st : SimState) : Prop :=
  nondecreasing (wave_totals (steps st))
  /\ Forall (fun t => (t <= len (compromised st))%Z) (wave_totals (steps st))
  /\ len (steps st) = st_step_number st.

(** Two results that agree on every field but [simulation_id]. *)
Definition same_except_id (a b : SimulationResult) : Prop :=
  status a = status b
  /\ initial_compromised a = initial_compromised b
  /\ final_compromised a = final_compromised b
  /\ total_affected a = total_affected b
  /\ blast_radius a = blast_radius b
  /\ cascade_depth a = cascade_depth b
  /\ propagation_time a = propagation_time b
  /\ result_steps a = result_steps b
  /\ final_metrics a = final_metrics b
  /\ risk_analysis a = risk_analysis b
  /\ mitigation_suggestions a = mitigation_suggestions b.

(** The second node of each recorded path that has one. *)
Definition second_nodes (paths : list (list string)) : list string :=
  flat_map (fun p => match p with _ :: p1 :: _ => [p1] | _ => [] end) paths.

(** The nodes of [l] that are not yet in [visited]. *)
Definition unvisited (l visited : list string) : list string :=
  filter (fun x => negb (mem x visited)) l.

(** Two graph objects that agree on everything a simulation reads: the
    node list, the edges with their attributes, the two feature
    dictionaries, and the [category] attribute of every node. *)
Definition same_for_simulation (g g' : SupplyChainGraph) : Prop :=
  Nx.nodes (graph g') = Nx.nodes (graph g)
  /\ Nx.adj (graph g') = Nx.adj (graph g)
  /\ node_features g' = node_features g
  /\ edge_features g' = edge_features g
  /\ forall n,
       option_map Nx.nd_category (get (Nx.node_dict (graph g')) n)
       = option_map Nx.nd_category (get (Nx.node_dict (graph g)) n).

(** The action [{'type': 'hardening', 'target': s}]. *)
Definition hardening (s : string) : Action :=
  {| a_type := Some "hardening"; a_target := TStr s |}.

(** What the [redundancy] branch may change between two graph objects:
    nothing of the networkx graph or of the edge features, and no key of
    the node features; an entry is the old one with another criticality
    score, every other field as before, and the new score lies between
    the old one and 100: a score that was at most 100 has not come down
    and is at most 100, a score that was over 100 has not gone up and is
    at least 100. *)
Definition only_criticality_raised (g g' : SupplyChainGraph) : Prop :=
  graph g' = graph g
  /\ edge_features g' = edge_features g
  /\ map fst (node_features g') = map fst (node_features g)
  /\ forall n f,
       get (node_features g) n = Some f ->
       exists c,
         get (node_features g') n = Some (set_criticality_score f c)
         /\ Qmin (nf_criticality_score f) 100 <= c
         /\ c <= Qmax (nf_criticality_score f) 100.

(** *** Iteration over a set

    CPython iterates over a set in the order of its hash table.  For a
    set of strings that order is fixed within one interpreter process and
    changes from process to process with the hash seed.  A [SetOrder] is
    that order for one process: it takes a set, given by its elements in
    insertion order, to the list an iteration over it yields. *)
Definition SetOrder : Type := list string -> list string.

(** An iteration yields every element of the set, each once. *)
Definition iteration_order (order : SetOrder) : Prop :=
  forall s : list string, Permutation (order s) s.

(** The functions of [run_simulation] that iterate over a set, with
    every such iteration going through [order]: [list(s)] and
    [for x in s] become [order s].  With the identity for [order] they
    are the functions above. *)
Module HashOrder.

Section Order.

Variable order : SetOrder.

(** [_execute_simulation_step]: the first loop runs over
    [list(simulation_state['compromised'])], the third over
    [simulation_state['compromised']], and the step records
    [list(simulation_state['affected'])]. *)
Definition _execute_simulation_step (eng : Engine) (g : SupplyChainGraph)
  (st : SimState) (r : Rng) : pyresult SimulationStep * SimState * Rng :=
  let '(res1, a) :=
    spread eng g (secure st) (order (compromised st))
           {| propagating_nodes := []; attempt_paths := [];
              clock := simulation_time st; rng := r |} in
  let st1 := {| compromised := compromised st; propagating := propagating st;
                affected := affected st; secure := secure st;
                st_step_number := st_step_number st;
                simulation_time := clock a; steps := steps st |} in
  match res1 with
  | Raise e => (Raise e, st1, rng a)
  | Ok _ =>
      let '(sec, comp, new_comp) :=
        move_propagating (propagating_nodes a)
                         (secure st, compromised st, []) in
      let '(res3, aff) := update_affected g sec (order comp) (affected st) in
      let st3 := {| compromised := comp; propagating := propagating st;
                    affected := aff; secure := sec;
                    st_step_number := st_step_number st;
                    simulation_time := clock a; steps := steps st |} in
      match res3 with
      | Raise e => (Raise e, st3, rng a)
      | Ok _ =>
          if (len (Nx.nodes (graph g)) =? 0)%Z then
            (Raise ZeroDivisionError, st3, rng a)
          else
            (Ok {| step_number := st_step_number st;
                   timestamp := clock a;
                   action := ("Propagation step "
                              ++ str_of_Z (st_step_number st))%string;
                   affected_nodes := order aff;
                   new_compromised := new_comp;
                   propagation_paths := attempt_paths a;
                   metrics :=
                     {| total_compromised := len comp;
                        total_affected_nodes := len aff;
                        propagation_rate := len new_comp;
                        network_coverage :=
                          inject_Z (len comp + len aff)
                          / inject_Z (len (Nx.nodes (graph g))) |} |},
             st3, rng a)
      end
  end.

(** [_calculate_final_metrics]: the tier and the category counts are
    filled in the order of [simulation_state['compromised']]. *)
Definition _calculate_final_metrics (g : SupplyChainGraph) (st : SimState)
  : pyresult FinalMetrics :=
  let total_nodes := len (Nx.nodes (graph g)) in
  let compromised_count := len (compromised st) in
  let affected_count := len (affected st) in
  if (total_nodes =? 0)%Z then Raise ZeroDivisionError
  else
    let tiers :=
      fold_left (fun d n => incr_Z d (tier_of g n))
                (order (compromised st)) [] in
    bind (count_categories g (order (compromised st)) []) (fun cats =>
      let crit :=
        filter (fun path =>
                  (2 <=? len path)%Z
                  && ((tier_of g (hd "" path) <=? 2)%Z
                      || (tier_of g (last path "") <=? 2)%Z))
               (all_paths (steps st)) in
      Ok {| compromise_rate :=
              inject_Z compromised_count / inject_Z total_nodes;
            impact_rate :=
              inject_Z (compromised_count + affected_count)
              / inject_Z total_nodes;
            average_propagation_time :=
              simulation_time st / inject_Z (Z.max 1 (st_step_number st));
            propagation_efficiency :=
              inject_Z compromised_count
              / Qmax 1 (simulation_time st / 1000);
            tier_impact := tiers;
            category_impact := cats;
            critical_paths := crit;
            critical_path_count := len crit |}).

(** [_finalize_simulation]: [final_compromised] is
    [list(simulation_state['compromised'])]. *)
Definition _finalize_simulation (g : SupplyChainGraph)
  (simulation_id : string) (st : SimState)
  (initial_compromised : list string) : pyresult SimulationResult :=
  bind (_calculate_final_metrics g st) (fun fm =>
    let ra := _perform_risk_analysis st initial_compromised in
    bind (_generate_mitigation_suggestions st ra) (fun sugg =>
      Ok {| simulation_id := simulation_id;
            status := COMPLETED;
            initial_compromised := initial_compromised;
            final_compromised := order (compromised st);
            total_affected := (len (compromised st) + len (affected st))%Z;
            blast_radius :=
              (len (compromised st) - len initial_compromised)%Z;
            cascade_depth := st_step_number st;
            propagation_time := simulation_time st;
            result_steps := steps st;
            final_metrics := Some fm;
            risk_analysis := Some ra;
            mitigation_suggestions := sugg |})).

(** The [while] loop of [run_simulation]. *)
Fixpoint simulation_loop (fuel : nat) (eng : Engine)
  (g : SupplyChainGraph) (st : SimState) (r : Rng)
  : option (pyresult unit * SimState * Rng) :=
  if loop_guard eng st then
    match fuel with
    | O => None
    | S fuel' =>
        let '(res, st', r') := _execute_simulation_step eng g st r in
        match res with
        | Raise e => Some (Raise e, st', r')
        | Ok step_result =>
            match no_new_propagation step_getitem step_result with
            | Raise e => Some (Raise e, st', r')
            | Ok true => Some (Ok tt, st', r')
            | Ok false =>
                simulation_loop fuel' eng g (record_step st' step_result) r'
            end
        end
    end
  else Some (Ok tt, st, r).

(** The result of the [except] branch: [final_compromised] is
    [list(simulation_state['compromised'])]. *)
Definition failed_result (simulation_id : string)
  (initial_compromised : list string) (st : SimState) : SimulationResult :=
  {| simulation_id := simulation_id;
     status := FAILED;
     initial_compromised := initial_compromised;
     final_compromised := order (compromised st);
     total_affected := (len (compromised st) + len (affected st))%Z;
     blast_radius := (len (compromised st) - len initial_compromised)%Z;
     cascade_depth := st_step_number st;
     propagation_time := simulation_time st;
     result_steps := steps st;
     final_metrics := None;
     risk_analysis := None;
     mitigation_suggestions := [] |}.

Definition try_body (eng : Engine) (g : SupplyChainGraph)
  (initial_compromised : list string) (simulation_id : string) (r : Rng)
  : option (pyresult SimulationResult * SimState * Rng) :=
  match simulation_loop (Z.to_nat (max_simulation_steps eng)) eng g
                        (initial_state g initial_compromised) r with
  | None => None
  | Some (Raise e, st, r') => Some (Raise e, st, r')
  | Some (Ok _, st, r') =>
      Some (_finalize_simulation g simulation_id st initial_compromised,
            st, r')
  end.

(** [run_simulation] in a process whose sets iterate in [order]. *)
Definition run_simulation (eng : Engine) (g : SupplyChainGraph)
  (initial_compromised : list string) (simulation_id : option string)
  (now_ms : Z) (r : Rng) : option (SimulationResult * Rng) :=
  let simulation_id := resolve_id simulation_id now_ms in
  match try_body eng g initial_compromised simulation_id r with
  | None => None
  | Some (Ok final_result, _, r') => Some (final_result, r')
  | Some (Raise _, st, r') =>
      Some (failed_result simulation_id initial_compromised st, r')
  end.

End Order.

End HashOrder.

(** Two results that agree on every field but [simulation_id], with
    [final_compromised] the same set listed in possibly another order. *)
Definition same_except_id_and_order (a b : SimulationResult) : Prop :=
  status a = status b
  /\ initial_compromised a = initial_compromised b
  /\ Permutation (final_compromised a) (final_compromised b)
  /\ total_affected a = total_affected b
  /\ blast_radius a = blast_radius b
  /\ cascade_depth a = cascade_depth b
  /\ propagation_time a = propagation_time b
  /\ result_steps a = result_steps b
  /\ final_metrics a = final_metrics b
  /\ risk_analysis a = risk_analysis b
  /\ mitigation_suggestions a = mitigation_suggestions b.

End SimulationEngine.

(* ------------------------------------------------------------------ *)
(** ** mitigation_engine.py                                            *)
(* ------------------------------------------------------------------ *)

Module MitigationEngine.

Import GraphEngine.

(** One dictionary of the list [generate_mitigation_strategies] returns;
    the three free-text entries ([description], [technicalDetails],
    [businessJustification]) are left out. *)
Record Strategy : Type := {
  id : string;
  title : string;
  riskReduction : Z;
  effectiveness : string;
  implementationTime : string;
  cost : string;
  priority : Z;
  affectedVendors : Z;
  category : string
}.

(** The keys a strategy dictionary has. *)
Definition Strategy_keys : list string :=
  ["id"; "title"; "riskReduction"; "effectiveness"; "implementationTime";
   "cost"; "priority"; "affectedVendors"; "category"; "description";
   "technicalDetails"; "businessJustification"].

(** The range every [riskReduction] of the engine lies in. *)
Definition in_percent_range (s : Strategy) : Prop :=
  (20 <= riskReduction s <= 68)%Z.

(** [f'{n:03d}'] for a non-negative [n]. *)
Definition fmt_03d (n : Z) : string :=
  let s := str_of_Z n in
  match String.length s with
  | 1%nat => "00" ++ s
  | 2%nat => "0" ++ s
  | _ => s
  end.

Definition next_id (strategies : list Strategy) : string :=
  "mit_" ++ fmt_03d (len strategies + 1).

(** [self.graph.graph.nodes.get(n, {}).get('name', n)]. *)
Definition vendor_name (g : SupplyChainGraph) (n : string) : string :=
  match Nx.nd_name (Nx.node_data_or_empty (graph g) n) with
  | Some name => name
  | None => n
  end.

Record Template : Type := {
  t_category : string;
  t_title : string;
  t_riskReduction : Z;
  t_cost : string
}.

Definition category_strategies : list Template :=
  [ {| t_category := "authentication";
       t_title := "Multi-Factor Authentication Redundancy";
       t_riskReduction := 45; t_cost := "$$" |};
    {| t_category := "monitoring";
       t_title := "Real-time Threat Monitoring";
       t_riskReduction := 35; t_cost := "$" |};
    {| t_category := "isolation";
       t_title := "Network Segmentation Enhancement";
       t_riskReduction := 40; t_cost := "$" |} ].

Definition additional_strategies : list Template :=
  [ {| t_category := "monitoring";
       t_title := "Vendor Risk Assessment Automation";
       t_riskReduction := 25; t_cost := "$" |};
    {| t_category := "hardening";
       t_title := "Incident Response Plan Enhancement";
       t_riskReduction := 30; t_cost := "$" |};
    {| t_category := "monitoring";
       t_title := "Supply Chain Visibility Platform";
       t_riskReduction := 20; t_cost := "$$" |} ].

(** "Strategy 1": the first single point of failure.  [successors]
    raises when networkx names a node the graph does not have. *)
Definition spof_strategy (g : SupplyChainGraph) (spof_nodes : list string)
  : pyresult (list Strategy) :=
  match spof_nodes with
  | [] => Ok []
  | top_spof :: _ =>
      bind (Nx.successors (graph g) top_spof) (fun succ =>
        Ok [{| id := "mit_001";
               title := "Implement Redundancy for " ++ vendor_name g top_spof;
               riskReduction := 68;
               effectiveness := "very_high";
               implementationTime := "2 weeks";
               cost := "$";
               priority := 1;
               affectedVendors := len succ + 1;
               category := "redundancy" |}])
  end.

(** "Strategy 2": the loop over the three nodes of highest betweenness;
    an exception inside the [try] ends the loop and keeps what was
    appended. *)
Fixpoint hardening_loop (g : SupplyChainGraph) (num_strategies : Z)
  (i : Z) (high_centrality : list (string * CentralityMetrics))
  (strategies : list Strategy) : list Strategy :=
  match high_centrality with
  | [] => strategies
  | (node_id, _) :: rest =>
      if len strategies >=? num_strategies then strategies
      else
        match Nx.neighbors (graph g) node_id with
        | Raise _ => strategies
        | Ok nbrs =>
            hardening_loop g num_strategies (i + 1) rest
              (strategies ++
               [{| id := next_id strategies;
                   title := "Enhanced Security for " ++ vendor_name g node_id;
                   riskReduction := 55 - i * 5;
                   effectiveness := if i =? 0 then "high" else "medium";
                   implementationTime := "3 weeks";
                   cost := "$$";
                   priority := i + 2;
                   affectedVendors := len nbrs;
                   category := "hardening" |}])%list
        end
  end.

(** The two loops over templates. *)
Fixpoint template_loop (eff time : string) (vendors : Z) (num_strategies : Z)
  (templates : list Template) (strategies : list Strategy) : list Strategy :=
  match templates with
  | [] => strategies
  | t :: rest =>
      if len strategies >=? num_strategies then strategies
      else
        template_loop eff time vendors num_strategies rest
          (strategies ++
           [{| id := next_id strategies;
               title := t_title t;
               riskReduction := t_riskReduction t;
               effectiveness := eff;
               implementationTime := time;
               cost := t_cost t;
               priority := len strategies + 1;
               affectedVendors := vendors;
               category := t_category t |}])%list
  end.

(** [AdvancedMitigationEngine.generate_mitigation_strategies]. *)
Definition generate_mitigation_strategies (nx : Nx.Algorithms)
  (np_empty : pyresult Q) (g : SupplyChainGraph) (num_strategies : Z)
  : pyresult (list Strategy) :=
  bind (identify_structural_vulnerabilities nx np_empty g) (fun v =>
  bind (spof_strategy g (single_points_of_failure v)) (fun strategies =>
    let centrality_metrics := calculate_centrality_metrics nx g in
    let high_centrality :=
      slice_to (sorted_desc (fun kv => betweenness_centrality (snd kv))
                            centrality_metrics) 3 in
    let strategies :=
      hardening_loop g num_strategies 0 high_centrality strategies in
    let strategies :=
      template_loop "high" "4 weeks" 5 num_strategies category_strategies
                    strategies in
    let strategies :=
      template_loop "medium" "3 weeks" 3 num_strategies additional_strategies
                    strategies in
    Ok (slice_to (sorted_by priority strategies) num_strategies))).

(** The dictionary [calculate_mitigation_impact] returns. *)
Record Impact : Type := {
  overall_risk_reduction : Q;
  cascade_reduction : Q;
  resilience_improvement : Q
}.

(** The "fallback calculation". *)
Definition fallback_impact : Impact :=
  {| overall_risk_reduction := 15 # 100;
     cascade_reduction := 10 # 100;
     resilience_improvement := 12 # 100 |}.

(** The object handed to the engine as [risk_calculator]: its method
    [calculate_comprehensive_risk], which reads the graph. *)
Definition RiskCalculatorObject : Type :=
  SupplyChainGraph -> pyresult RiskCalculator.RiskMetrics.

(** [self.graph.graph.nodes[n].get('risk_score', 0.0)] for a node of the
    graph. *)
Definition risk_score_of (g : SupplyChainGraph) (n : string) : Q :=
  match Nx.nd_risk_score (Nx.node_data_or_empty (graph g) n) with
  | Some r => r
  | None => 0
  end.

(** [self.graph.graph.nodes[n]['risk_score'] = r] for a node of the
    graph. *)
Definition write_risk_score (g : SupplyChainGraph) (n : string) (r : Q)
  : SupplyChainGraph :=
  SimulationEngine.with_graph g
    {| Nx.node_dict :=
         set_item (Nx.node_dict (graph g)) n
           (SimulationEngine.set_risk_score
              (Nx.node_data_or_empty (graph g) n) r);
       Nx.adj := Nx.adj (graph g) |}.

(** "Simulate mitigation by reducing risk scores": the graph object and
    the dictionary [original_risks] after the loop. *)
Fixpoint reduce_risks (g : SupplyChainGraph) (mitigation_targets : list string)
  (original_risks : list (string * Q))
  : SupplyChainGraph * list (string * Q) :=
  match mitigation_targets with
  | [] => (g, original_risks)
  | node_id :: rest =>
      if Nx.has_node (graph g) node_id then
        let original := risk_score_of g node_id in
        reduce_risks (write_risk_score g node_id (original * (3 # 10))) rest
                     (set_item original_risks node_id original)
      else reduce_risks g rest original_risks
  end.

(** "Restore original risks". *)
Definition restore_risks (g : SupplyChainGraph)
  (original_risks : list (string * Q)) : SupplyChainGraph :=
  fold_left (fun g kv => write_risk_score g (fst kv) (snd kv))
            original_risks g.

(** [AdvancedMitigationEngine.calculate_mitigation_impact]: what it
    returns, and the engine's graph object as the call leaves it.  An
    exception inside the [try] is logged and the fallback returned. *)
Definition calculate_mitigation_impact
  (risk_calculator : option RiskCalculatorObject) (g : SupplyChainGraph)
  (mitigation_targets : list string) : Impact * SupplyChainGraph :=
  match risk_calculator with
  | None => (fallback_impact, g)
  | Some calculate_comprehensive_risk =>
      match calculate_comprehensive_risk g with
      | Raise _ => (fallback_impact, g)
      | Ok current_metrics =>
          let '(g1, original_risks) := reduce_risks g mitigation_targets [] in
          match calculate_comprehensive_risk g1 with
          | Raise _ => (fallback_impact, g1)
          | Ok mitigated_metrics =>
              ({| overall_risk_reduction :=
                    RiskCalculator.overall_score current_metrics
                    - RiskCalculator.overall_score mitigated_metrics;
                  cascade_reduction :=
                    RiskCalculator.cascade_potential current_metrics
                    - RiskCalculator.cascade_potential mitigated_metrics;
                  resilience_improvement :=
                    RiskCalculator.resilience_score mitigated_metrics
                    - RiskCalculator.resilience_score current_metrics |},
               restore_risks g1 original_risks)
          end
      end
  end.

(** The identifiers [mit_001], [mit_002], ... of the first [n]
    strategies appended. *)
Definition ids_upto (n : nat) : list string :=
  map (fun k => "mit_" ++ fmt_03d (Z.of_nat k)) (seq 1 n).

End MitigationEngine.

(* ------------------------------------------------------------------ *)
(** ** agents/mitigation/agent.py: counterfactual evaluation           *)
(* ------------------------------------------------------------------ *)

Module MitigationAgent.

Local Open Scope Q_scope.

(** The dictionary [evaluate_node_isolation] and [evaluate_edge_removal]
    return. *)
Record Evaluation : Type := {
  risk_reduction : Q;
  paths_reduced : Z;
  feasible : bool
}.

Definition infeasible : Evaluation :=
  {| risk_reduction := 0; paths_reduced := 0; feasible := false |}.

(** [simulate_propagation(source, max_depth, graph_metadata)] of the
    simulation agent, reduced to the entry [propagation_paths] of what
    it returns; the metadata lists the nodes and edges of the graph. *)
Definition Simulate : Type :=
  string -> Z -> Nx.DiGraph -> pyresult (list (list string)).

(** The re-simulation and the two ratios, shared by both evaluations. *)
Definition resimulate (simulate_propagation : Simulate)
  (G_modified : Nx.DiGraph) (original_paths : list (list string))
  (source_vendor : string) (max_depth : Z) : Evaluation :=
  match simulate_propagation source_vendor max_depth G_modified with
  | Ok new_paths =>
      let original_path_count := len original_paths in
      let new_path_count := len new_paths in
      let paths_reduced := Z.max 0 (original_path_count - new_path_count) in
      {| risk_reduction :=
           if (0 <? original_path_count)%Z
           then inject_Z paths_reduced / inject_Z original_path_count
           else 0;
         paths_reduced := paths_reduced;
         feasible := true |}
  | Raise _ => infeasible
  end.

(** [evaluate_node_isolation]. *)
Definition evaluate_node_isolation (simulate_propagation : Simulate)
  (G : Nx.DiGraph) (node_id : string) (original_paths : list (list string))
  (source_vendor : string) (max_depth : Z) : pyresult Evaluation :=
  if String.eqb node_id "" then Raise ValueError
  else if negb (Nx.has_node G node_id) || String.eqb node_id source_vendor
  then Ok infeasible
  else
    bind (Nx.remove_node G node_id) (fun G_modified =>
      Ok (resimulate simulate_propagation G_modified original_paths
                     source_vendor max_depth)).

(** [G.remove_edge(u, v)] for an edge of [G]. *)
Definition remove_edge (G : Nx.DiGraph) (u v : string) : pyresult Nx.DiGraph :=
  if Nx.has_edge G u v then
    Ok {| Nx.node_dict := Nx.node_dict G;
          Nx.adj := filter (fun e => negb (pair_eqb (fst e) (u, v)))
                           (Nx.adj G) |}
  else Raise NetworkXError.

(** [evaluate_edge_removal]. *)
Definition evaluate_edge_removal (simulate_propagation : Simulate)
  (G : Nx.DiGraph) (source target : string)
  (original_paths : list (list string)) (source_vendor : string)
  (max_depth : Z) : pyresult Evaluation :=
  if negb (Nx.has_edge G source target) then Ok infeasible
  else
    bind (remove_edge G source target) (fun G_modified =>
      Ok (resimulate simulate_propagation G_modified original_paths
                     source_vendor max_depth)).

(** [estimate_complexity]. *)
Definition estimate_complexity (action_type target : string) (G : Nx.DiGraph)
  : string :=
  if String.eqb action_type "isolate_node" then
    if Nx.has_node G target then
      let degree := (Nx.in_degree G target + Nx.out_degree G target)%Z in
      if (degree <=? 2)%Z then "low"
      else if (degree <=? 5)%Z then "medium"
      else "high"
    else "medium"
  else if String.eqb action_type "remove_edge" then "low"
  else "medium".

(** [class MitigationAction]; the two free-text fields ([description],
    [trade_offs]) are left out.  Its validators ask for a risk reduction
    between 0 and 1 and a path count that is not negative, which every
    evaluation result satisfies. *)
Record MitigationAction : Type := {
  action_type : string;
  target : string;
  ma_risk_reduction : Q;
  affected_paths_reduced : Z;
  implementation_complexity : string
}.

(** [class MitigationOutput]. *)
Record MitigationOutput : Type := {
  ranked_mitigations : list MitigationAction;
  total_paths_original : Z;
  total_paths_reducible : Z
}.

Definition max_mitigations : Z := 50.

(** [node_path_count]: how many times each node occurs after the first
    position of a path. *)
Definition node_path_count (original_paths : list (list string))
  : list (string * Z) :=
  fold_left
    (fun d path =>
       if (1 <? len path)%Z then fold_left SimulationEngine.incr (tl path) d
       else d)
    original_paths [].

(** [edge_path_count[edge] = edge_path_count.get(edge, 0) + 1]. *)
Definition incr2 (d : list ((string * string) * Z)) (k : string * string)
  : list ((string * string) * Z) :=
  set_item2 d k (match get2 d k with Some v => v | None => 0%Z end + 1)%Z.

(** [edge_path_count]: how many times each pair of consecutive nodes
    occurs in a path. *)
Definition edge_path_count (original_paths : list (list string))
  : list ((string * string) * Z) :=
  fold_left
    (fun d path =>
       if (1 <? len path)%Z then fold_left incr2 (combine path (tl path)) d
       else d)
    original_paths [].

(** "Candidate 1": the loop over [top_nodes]. *)
Fixpoint isolation_candidates (simulate_propagation : Simulate)
  (G : Nx.DiGraph) (original_paths : list (list string))
  (source_vendor : string) (max_depth : Z) (top_nodes : list (string * Z))
  (mitigations : list MitigationAction) : pyresult (list MitigationAction) :=
  match top_nodes with
  | [] => Ok mitigations
  | (node_id, _) :: rest =>
      if (max_mitigations <=? len mitigations)%Z then Ok mitigations
      else if String.eqb node_id source_vendor then
        isolation_candidates simulate_propagation G original_paths
                             source_vendor max_depth rest mitigations
      else
        bind (evaluate_node_isolation simulate_propagation G node_id
                                      original_paths source_vendor max_depth)
          (fun eval_result =>
             isolation_candidates simulate_propagation G original_paths
               source_vendor max_depth rest
               (if feasible eval_result
                   && Qltb 0 (risk_reduction eval_result)
                then
                  (mitigations
                   ++ [{| action_type := "isolate_node";
                          target := node_id;
                          ma_risk_reduction := risk_reduction eval_result;
                          affected_paths_reduced := paths_reduced eval_result;
                          implementation_complexity :=
                            estimate_complexity "isolate_node" node_id G |}])%list
                else mitigations))
  end.

(** The arrow U+2192 of [f"{source}\u2192{target}"], as its three UTF-8
    bytes. *)
Definition arrow : string :=
  String "226"%char (String "134"%char (String "146"%char EmptyString)).

(** "Candidate 2": the loop over [top_edges]. *)
Fixpoint edge_candidates (simulate_propagation : Simulate)
  (G : Nx.DiGraph) (original_paths : list (list string))
  (source_vendor : string) (max_depth : Z)
  (top_edges : list ((string * string) * Z))
  (mitigations : list MitigationAction) : pyresult (list MitigationAction) :=
  match top_edges with
  | [] => Ok mitigations
  | ((source, target), _) :: rest =>
      if (max_mitigations <=? len mitigations)%Z then Ok mitigations
      else
        bind (evaluate_edge_removal simulate_propagation G source target
                                    original_paths source_vendor max_depth)
          (fun eval_result =>
             edge_candidates simulate_propagation G original_paths
               source_vendor max_depth rest
               (if feasible eval_result
                   && Qltb 0 (risk_reduction eval_result)
                then
                  (mitigations
                   ++ [{| action_type := "remove_edge";
                          target := (source ++ arrow ++ target)%string;
                          ma_risk_reduction := risk_reduction eval_result;
                          affected_paths_reduced := paths_reduced eval_result;
                          implementation_complexity := "low" |}])%list
                else mitigations))
  end.

(** [evaluate_mitigations] on the graph [G] that [build_graph_tool]
    makes of the metadata: [source_vendor] is the entry
    [source_vendor_id] of the simulation results (empty when absent),
    [original_paths] the [path] of each of its propagation paths and
    [max_path_length] the entry of its metrics. *)
Definition evaluate_mitigations (simulate_propagation : Simulate)
  (G : Nx.DiGraph) (source_vendor : string)
  (original_paths : list (list string)) (max_path_length : Z)
  : pyresult MitigationOutput :=
  if String.eqb source_vendor "" then Raise ValueError
  else
    let max_depth := Z.max (max_path_length + 1) 3 in
    match original_paths with
    | [] => Ok {| ranked_mitigations := [];
                  total_paths_original := 0;
                  total_paths_reducible := 0 |}
    | _ :: _ =>
        let top_nodes :=
          slice_to (sorted_desc (fun kv => inject_Z (snd kv))
                                (node_path_count original_paths))
                   (Z.min 5 max_mitigations) in
        bind (isolation_candidates simulate_propagation G original_paths
                                   source_vendor max_depth top_nodes [])
          (fun mitigations =>
             let remaining_slots := (max_mitigations - len mitigations)%Z in
             let top_edges :=
               slice_to (sorted_desc (fun kv => inject_Z (snd kv))
                                     (edge_path_count original_paths))
                        (Z.min 5 remaining_slots) in
             bind (edge_candidates simulate_propagation G original_paths
                                   source_vendor max_depth top_edges
                                   mitigations)
               (fun mitigations =>
                  let ranked := sorted_desc ma_risk_reduction mitigations in
                  Ok {| ranked_mitigations := ranked;
                        total_paths_original := len original_paths;
                        total_paths_reducible :=
                          sum_Z (map affected_paths_reduced ranked) |}))
    end.

(** What every ranked action satisfies. *)
Definition action_ok (G : Nx.DiGraph) (source_vendor : string)
  (original_paths : list (list string)) (m : MitigationAction) : Prop :=
  0 < ma_risk_reduction m <= 1
  /\ (1 <= affected_paths_reduced m <= len original_paths)%Z
  /\ ((action_type m = "isolate_node"
       /\ target m <> source_vendor
       /\ Nx.has_node G (target m) = true)
      \/ action_type m = "remove_edge").

End MitigationAgent.

(* ------------------------------------------------------------------ *)
(** ** Concrete graphs and libraries used in the examples              *)
(* ------------------------------------------------------------------ *)

Module Examples.

Import GraphEngine SimulationEngine.
Local Open Scope Q_scope.

(** A networkx in which every algorithm answers with empty results. *)
Definition quiet_nx : Nx.Algorithms :=
  {| Nx.betweenness_centrality := fun _ => Ok [];
     Nx.closeness_centrality := fun _ => Ok [];
     Nx.pagerank := fun _ => Ok [];
     Nx.eigenvector_centrality := fun _ => Ok [];
     Nx.articulation_points := fun _ => Ok [];
     Nx.bridges := fun _ => Ok [] |}.

(** A networkx whose eigenvector iteration does not converge, while the
    other three metrics are computed. *)
Definition eigen_fails_nx : Nx.Algorithms :=
  {| Nx.betweenness_centrality := fun _ => Ok [("A", 1 # 2)];
     Nx.closeness_centrality := fun _ => Ok [("A", 1 # 4)];
     Nx.pagerank := fun _ => Ok [("A", 1 # 2); ("B", 1 # 2)];
     Nx.eigenvector_centrality :=
       fun _ => Raise (LibraryError "PowerIterationFailedConvergence");
     Nx.articulation_points := fun _ => Ok [];
     Nx.bridges := fun _ => Ok [] |}.

Definition node (tier : Z) (risk crit : Q) : Nx.NodeData :=
  {| Nx.nd_node_type := Some "vendor"; Nx.nd_tier := Some tier;
     Nx.nd_risk_score := Some risk; Nx.nd_criticality_score := Some crit;
     Nx.nd_name := None; Nx.nd_category := None; Nx.nd_lastAudit := None;
     Nx.nd_certifications := None; Nx.nd_contractType := None |}.

Definition features (n : string) (tier : Z) (risk crit : Q) : NodeFeatures :=
  {| nf_node_id := n; nf_node_type := VENDOR; nf_tier := tier;
     nf_in_degree := 0; nf_out_degree := 0; nf_dependency_depth := 0;
     nf_risk_score := risk; nf_criticality_score := crit |}.

(** Three vendors [A], [B], [C] of tier 3, risk 0.2 and criticality 0,
    with no edge yet. *)
Definition three_nodes : SupplyChainGraph :=
  {| graph :=
       {| Nx.node_dict := [("A", node 3 (2 # 10) 0); ("B", node 3 (2 # 10) 0);
                           ("C", node 3 (2 # 10) 0)];
          Nx.adj := [] |};
     node_features := [("A", features "A" 3 (2 # 10) 0);
                       ("B", features "B" 3 (2 # 10) 0);
                       ("C", features "C" 3 (2 # 10) 0)];
     edge_features := [] |}.

Definition link (g : SupplyChainGraph) (s t : string) : SupplyChainGraph :=
  match add_edge g s t DEPENDS_ON "data_flow" 1 "medium" [] with
  | Ok g' => g'
  | Raise _ => g
  end.

(** The chain [A -> B -> C], every edge of strength 1. *)
Definition chain : SupplyChainGraph := link (link three_nodes "A" "B") "B" "C".

(** A generator whose every draw is 0: each attempt with a positive
    probability succeeds. *)
Definition zero_rng : Rng := {| rng_draws := fun _ => 0; rng_pos := 0 |}.

(** Four vendors of tier 3, risk 0.2 and criticality 0, with the two
    edges [A -> C] and [B -> D], each of strength 1. *)
Definition four_nodes : SupplyChainGraph :=
  {| graph :=
       {| Nx.node_dict := [("A", node 3 (2 # 10) 0); ("B", node 3 (2 # 10) 0);
                           ("C", node 3 (2 # 10) 0); ("D", node 3 (2 # 10) 0)];
          Nx.adj := [] |};
     node_features := [("A", features "A" 3 (2 # 10) 0);
                       ("B", features "B" 3 (2 # 10) 0);
                       ("C", features "C" 3 (2 # 10) 0);
                       ("D", features "D" 3 (2 # 10) 0)];
     edge_features := [] |}.

Definition two_sources : SupplyChainGraph :=
  link (link four_nodes "A" "C") "B" "D".

(** A generator whose first draw is 0 and whose every later draw is 1:
    the first attempt with a positive probability succeeds and no later
    one does. *)
Definition first_only_rng : Rng :=
  {| rng_draws := fun n => match n with O => 0 | S _ => 1 end;
     rng_pos := 0 |}.

(** networkx on the graph whose only node is [A]: no path runs through
    [A] or reaches it, and all of the PageRank is its own. *)
Definition lone_nx : Nx.Algorithms :=
  {| Nx.betweenness_centrality := fun _ => Ok [("A", 0)];
     Nx.closeness_centrality := fun _ => Ok [("A", 0)];
     Nx.pagerank := fun _ => Ok [("A", 1)];
     Nx.eigenvector_centrality := fun _ => Ok [("A", 1)];
     Nx.articulation_points := fun _ => Ok [];
     Nx.bridges := fun _ => Ok [] |}.

Definition default_engine : Engine := init None (Raise IndexError).

(** An engine whose caller has set [max_simulation_steps] to 0, so that
    the loop is never entered. *)
Definition idle_engine : Engine :=
  {| gnn_engine := None;
     base_propagation_probability := 3 # 10;
     base_propagation_delay := 300;
     max_simulation_steps := 0;
     max_simulation_time := 10000;
     np_empty := Raise IndexError |}.

(** A state of a run from [A] whose clock has reached the time cap. *)
Definition timed_out_state : SimState :=
  {| compromised := ["A"]; propagating := []; affected := [];
     secure := ["B"; "C"]; st_step_number := 0;
     simulation_time := 10000; steps := [] |}.

(** The chain as the only object of a store, at reference 0. *)
Definition chain_heap : Heap := fun _ => chain.

Definition isolate_B : Action :=
  {| a_type := Some "isolation"; a_target := TStr "B" |}.

(** A re-simulation that finds a single remaining path. *)
Definition one_path : MitigationAgent.Simulate :=
  fun _ _ _ => Ok [["A"; "B"]].

(** A re-simulation that finds no path at all. *)
Definition no_path : MitigationAgent.Simulate :=
  fun _ _ _ => Ok [].

End Examples.

(* ------------------------------------------------------------------ *)
(** ** Facts about the Python containers                               *)
(* ------------------------------------------------------------------ *)

Import GraphEngine.
Local Open Scope Q_scope.

Lemma mem_In (x : string) (s : list string) : mem x s = true <-> In x s.
Proof.
  unfold mem. rewrite existsb_exists. split.
  - intros [y [Hy Heq]]. apply String.eqb_eq in Heq. now subst.
  - intros H. exists x. split; [assumption | apply String.eqb_refl].
Qed.

Lemma mem_app (x : string) (s t : list string) :
  mem x (s ++ t) = mem x s || mem x t.
Proof. unfold mem. apply existsb_app. Qed.

Lemma mem_self (x : string) : mem x [x] = true.
Proof. unfold mem. simpl. now rewrite String.eqb_refl. Qed.

Lemma set_add_In (s : list string) (x y : string) :
  In y (set_add s x) <-> In y s \/ y = x.
Proof.
  unfold set_add. destruct (mem x s) eqn:E.
  - apply mem_In in E. split; [now left | intros [H | ->]; assumption].
  - rewrite in_app_iff. simpl. intuition.
Qed.

Lemma set_add_incl (s : list string) (x : string) : incl s (set_add s x).
Proof. intros y Hy. apply set_add_In. now left. Qed.

Lemma set_add_length (s : list string) (x : string) :
  (List.length s <= List.length (set_add s x))%nat.
Proof.
  unfold set_add. destruct (mem x s); [lia | rewrite length_app; simpl; lia].
Qed.

Lemma fold_set_add_In (l s : list string) (y : string) :
  In y (fold_left set_add l s) <-> In y s \/ In y l.
Proof.
  revert s. induction l as [| x l IH]; intros s; simpl.
  - intuition.
  - rewrite IH, set_add_In. intuition.
Qed.

Lemma set_of_list_In (l : list string) (y : string) :
  In y (set_of_list l) <-> In y l.
Proof. unfold set_of_list. rewrite fold_set_add_In. simpl. intuition. Qed.

Lemma pair_eqb_refl (k : string * string) : pair_eqb k k = true.
Proof. unfold pair_eqb. now rewrite !String.eqb_refl. Qed.

Lemma get2_set_item2_same {V} (d : list ((string * string) * V))
  (k : string * string) (v : V) :
  get2 (set_item2 d k v) k = Some v.
Proof.
  induction d as [| [k' v'] d IH]; simpl.
  - now rewrite pair_eqb_refl.
  - destruct (pair_eqb k' k) eqn:E; simpl.
    + now rewrite pair_eqb_refl.
    + now rewrite E.
Qed.

Lemma get_app_absent {V} (d : list (string * V)) (k : string) (v : V) :
  get d k = None -> get (d ++ [(k, v)]) k = Some v.
Proof.
  induction d as [| [k' v'] d IH]; simpl; intros H.
  - now rewrite String.eqb_refl.
  - destruct (String.eqb k' k); [discriminate | auto].
Qed.

Lemma get_None_mem {V} (d : list (string * V)) (k : string) :
  mem k (map fst d) = false -> get d k = None.
Proof.
  induction d as [| [k' v'] d IH]; simpl; intros H; [reflexivity |].
  unfold mem in H. simpl in H. apply orb_false_iff in H. destruct H as [H1 H2].
  rewrite String.eqb_sym, H1. now apply IH.
Qed.

Lemma In_firstn {A} (n : nat) (l : list A) (x : A) :
  In x (firstn n l) -> In x l.
Proof.
  revert l. induction n as [| n IH]; intros [| y l]; simpl; try tauto.
  intros [H | H]; [now left | right; now apply IH].
Qed.

Lemma In_slice_to {A} (l : list A) (n : Z) (x : A) :
  In x (slice_to l n) -> In x l.
Proof. unfold slice_to. destruct (n <? 0)%Z; apply In_firstn. Qed.

Lemma insert_by_In {A} (key : A -> Z) (x y : A) (l : list A) :
  In y (insert_by key x l) <-> y = x \/ In y l.
Proof.
  induction l as [| z l IH]; simpl.
  - intuition.
  - destruct (key z <=? key x)%Z; simpl; rewrite ?IH; intuition.
Qed.

Lemma sorted_by_In {A} (key : A -> Z) (l : list A) (y : A) :
  In y (sorted_by key l) <-> In y l.
Proof.
  unfold sorted_by.
  assert (G : forall acc, In y (fold_left (fun a x => insert_by key x a) l acc)
                          <-> In y acc \/ In y l).
  { induction l as [| x l IH]; intros acc; simpl.
    - intuition.
    - rewrite IH, insert_by_In. intuition. }
  rewrite G. simpl. intuition.
Qed.

Lemma insert_desc_length {A} (key : A -> Q) (x : A) (l : list A) :
  List.length (insert_desc key x l) = S (List.length l).
Proof.
  induction l as [| z l IH]; simpl; [reflexivity |].
  destruct (Qle_bool (key x) (key z)); simpl; now rewrite ?IH.
Qed.

(* ------------------------------------------------------------------ *)
(** ** The graph model: [add_edge]                                     *)
(* ------------------------------------------------------------------ *)

Lemma has_node_touch_same (G : Nx.DiGraph) (n : string) :
  Nx.has_node (Nx.touch_node G n) n = true.
Proof.
  unfold Nx.touch_node. destruct (Nx.has_node G n) eqn:E; [assumption |].
  unfold Nx.has_node, Nx.nodes. simpl.
  now rewrite map_app, mem_app, mem_self, orb_true_r.
Qed.

Lemma has_node_touch_mono (G : Nx.DiGraph) (n m : string) :
  Nx.has_node G m = true -> Nx.has_node (Nx.touch_node G n) m = true.
Proof.
  intros H. unfold Nx.touch_node. destruct (Nx.has_node G n); [assumption |].
  unfold Nx.has_node, Nx.nodes in *. simpl.
  now rewrite map_app, mem_app, H.
Qed.

Lemma node_data_touch_new (G : Nx.DiGraph) (n : string) :
  Nx.has_node G n = false ->
  Nx.node_data (Nx.touch_node G n) n = Ok Nx.empty_node_data.
Proof.
  intros H. unfold Nx.touch_node. rewrite H.
  unfold Nx.node_data. simpl.
  rewrite get_app_absent; [reflexivity |].
  now apply get_None_mem.
Qed.

Lemma has_node_add_edge (G : Nx.DiGraph) (u v : string) (attr : Nx.EdgeData) :
  Nx.has_node (Nx.add_edge G u v attr) u = true
  /\ Nx.has_node (Nx.add_edge G u v attr) v = true
  /\ Nx.has_edge (Nx.add_edge G u v attr) u v = true.
Proof.
  unfold Nx.add_edge, Nx.has_edge. simpl. repeat split.
  - apply has_node_touch_mono, has_node_touch_same.
  - apply has_node_touch_same.
  - now rewrite get2_set_item2_same.
Qed.

Lemma has_node_touch_inv (G : Nx.DiGraph) (n m : string) :
  Nx.has_node (Nx.touch_node G n) m = true ->
  Nx.has_node G m = true \/ n = m.
Proof.
  unfold Nx.touch_node. destruct (Nx.has_node G n); [now left |].
  unfold Nx.has_node, Nx.nodes. simpl. rewrite map_app, mem_app.
  destruct (mem m (map fst (Nx.node_dict G))); [now left |].
  simpl. rewrite orb_false_r. intros H. apply String.eqb_eq in H. now right.
Qed.

Lemma get_app_present {V} (l l' : list (string * V)) (k : string) (v : V) :
  get l k = Some v -> get (l ++ l') k = Some v.
Proof.
  induction l as [| [k' v'] l IH]; simpl; intros; [discriminate |].
  destruct (String.eqb k' k); [assumption | now apply IH].
Qed.

Lemma node_data_touch_keep (G : Nx.DiGraph) (n m : string) (d : Nx.NodeData) :
  Nx.node_data G m = Ok d -> Nx.node_data (Nx.touch_node G n) m = Ok d.
Proof.
  unfold Nx.touch_node. destruct (Nx.has_node G n); [trivial |].
  unfold Nx.node_data. simpl.
  destruct (get (Nx.node_dict G) m) as [d' |] eqn:E; [| discriminate].
  intros [= <-]. now rewrite (get_app_present _ _ _ E).
Qed.

Lemma node_data_of_node (G : Nx.DiGraph) (n : string) :
  Nx.has_node G n = true -> exists d, Nx.node_data G n = Ok d.
Proof.
  unfold Nx.has_node, Nx.nodes, Nx.node_data.
  induction (Nx.node_dict G) as [| [k d] l IH]; simpl; [discriminate |].
  rewrite (String.eqb_sym n k).
  destruct (String.eqb k n); [now exists d | exact IH].
Qed.

(** What [G.add_edge(u, v, **attr)] does to the node dictionary: a
    missing endpoint enters with no attributes, and a node that was there
    keeps the attributes it had. *)
Lemma node_data_add_edge (G : Nx.DiGraph) (u v : string) (attr : Nx.EdgeData) :
  (Nx.has_node G u = false ->
   Nx.node_data (Nx.add_edge G u v attr) u = Ok Nx.empty_node_data)
  /\ (Nx.has_node G v = false ->
      Nx.node_data (Nx.add_edge G u v attr) v = Ok Nx.empty_node_data)
  /\ (forall n, Nx.has_node G n = true ->
        Nx.node_data (Nx.add_edge G u v attr) n = Nx.node_data G n).
Proof.
  change (Nx.node_data (Nx.add_edge G u v attr))
    with (Nx.node_data (Nx.touch_node (Nx.touch_node G u) v)).
  split; [| split].
  - intros H. now apply node_data_touch_keep, node_data_touch_new.
  - intros H. destruct (Nx.has_node (Nx.touch_node G u) v) eqn:E.
    + apply has_node_touch_inv in E. destruct E as [E | ->]; [congruence |].
      now apply node_data_touch_keep, node_data_touch_new.
    + now apply node_data_touch_new.
  - intros n H. destruct (node_data_of_node G n H) as [d Hd]. rewrite Hd.
    now do 2 apply node_data_touch_keep.
Qed.

(** C8, amended.  [add_edge] validates neither endpoint.  A call whose
    metadata repeats none of the names [add_edge_keywords] returns
    normally for every graph and every pair of ids, present or not:
    afterwards both ids are nodes of the underlying graph, the edge is
    there and its [EdgeFeatures], metadata included, are recorded; a
    source that was missing and a target that was missing have each been
    created with an empty attribute dictionary, and a node that was there
    keeps its attributes.  A call whose metadata repeats one of those
    names raises [TypeError], whatever the endpoints. *)
Theorem add_edge_creates_missing_endpoints :
  forall (g : SupplyChainGraph) (source target : string) (ty : EdgeType)
         (cat : string) (strength : Q) (crit : string)
         (metadata : list (string * string)),
    (existsb (fun kv => mem (fst kv) add_edge_keywords) metadata = true ->
     add_edge g source target ty cat strength crit metadata = Raise TypeError)
    /\ (existsb (fun kv => mem (fst kv) add_edge_keywords) metadata = false ->
        exists g',
          add_edge g source target ty cat strength crit metadata = Ok g'
          /\ Nx.has_node (graph g') source = true
          /\ Nx.has_node (graph g') target = true
          /\ Nx.has_edge (graph g') source target = true
          /\ get2 (edge_features g') (source, target)
             = Some {| ef_source := source; ef_target := target;
                       ef_edge_type := ty; ef_dependency_category := cat;
                       ef_strength := strength; ef_criticality := crit;
                       ef_metadata := metadata |}
          /\ (Nx.has_node (graph g) source = false ->
              Nx.node_data (graph g') source = Ok Nx.empty_node_data)
          /\ (Nx.has_node (graph g) target = false ->
              Nx.node_data (graph g') target = Ok Nx.empty_node_data)
          /\ (forall n, Nx.has_node (graph g) n = true ->
                Nx.node_data (graph g') n = Nx.node_data (graph g) n)).
Proof.
  intros. unfold add_edge. split; intros Hmd; rewrite Hmd; [reflexivity |].
  eexists. split; [reflexivity |]. cbn [graph edge_features].
  match goal with |- context [Nx.add_edge (graph g) source target ?attr] =>
    pose proof (has_node_add_edge (graph g) source target attr)
      as (H1 & H2 & H3);
    pose proof (node_data_add_edge (graph g) source target attr)
      as (H4 & H5 & H6)
  end.
  repeat split; try assumption. apply get2_set_item2_same.
Qed.

(** The amended C8 at a graph with no nodes at all: with a metadata entry
    of its own the call creates both endpoints, and with the metadata
    key [strength] it raises. *)
Lemma add_edge_creates_missing_endpoints_witness :
  Nx.has_node (graph GraphEngine.empty) "A" = false
  /\ Nx.has_node (graph GraphEngine.empty) "B" = false
  /\ (exists g',
        add_edge GraphEngine.empty "A" "B" DEPENDS_ON "data_flow" 1 "medium"
                 [("region", "eu")] = Ok g'
        /\ Nx.node_data (graph g') "A" = Ok Nx.empty_node_data
        /\ Nx.node_data (graph g') "B" = Ok Nx.empty_node_data)
  /\ add_edge GraphEngine.empty "A" "B" DEPENDS_ON "data_flow" 1 "medium"
              [("strength", "high")] = Raise TypeError.
Proof.
  split; [reflexivity |]. split; [reflexivity |]. split.
  - destruct (proj2 (add_edge_creates_missing_endpoints GraphEngine.empty
                       "A" "B" DEPENDS_ON "data_flow" 1 "medium"
                       [("region", "eu")]) eq_refl)
      as (g' & H & _ & _ & _ & _ & Ha & Hb & _).
    exists g'. split; [exact H |].
    split; [apply Ha | apply Hb]; reflexivity.
  - apply (proj1 (add_edge_creates_missing_endpoints GraphEngine.empty
                    "A" "B" DEPENDS_ON "data_flow" 1 "medium"
                    [("strength", "high")])).
    reflexivity.
Defined.

(** C8 as stated fails: on the empty graph [add_edge "A" "B"] raises
    nothing and returns a graph that now has the two nodes. *)
Lemma add_edge_missing_nodes_not_rejected :
  Nx.has_node (graph GraphEngine.empty) "A" = false
  /\ Nx.has_node (graph GraphEngine.empty) "B" = false
  /\ exists g',
       add_edge GraphEngine.empty "A" "B" DEPENDS_ON "data_flow" 1 "medium" []
       = Ok g'
       /\ Nx.nodes (graph g') = ["A"; "B"]
       /\ Nx.nodes (graph g') <> Nx.nodes (graph GraphEngine.empty).
Proof.
  repeat split. eexists. split; [reflexivity |]. split; [reflexivity |].
  discriminate.
Qed.

(* ------------------------------------------------------------------ *)
(** ** The structural analyzer: [calculate_centrality_metrics]         *)
(* ------------------------------------------------------------------ *)

Lemma get_default_const_table (ns : list string) (c d : Q) (n : string) :
  In n ns -> get_default (map (fun m => (m, c)) ns) n d = c.
Proof.
  unfold get_default. induction ns as [| m ns IH]; simpl; [tauto |].
  intros [-> | H].
  - now rewrite String.eqb_refl.
  - destruct (String.eqb m n); [reflexivity | now apply IH].
Qed.

Lemma centrality_tables_fallback (nx : Nx.Algorithms) (G : Nx.DiGraph) :
  all_four_ok nx G = false ->
  centrality_tables nx G
  = (map (fun n => (n, 0)) (Nx.nodes G),
     map (fun n => (n, 0)) (Nx.nodes G),
     map (fun n => (n, 1 / inject_Z (len (Nx.nodes G)))) (Nx.nodes G),
     map (fun n => (n, 0)) (Nx.nodes G)).
Proof.
  unfold all_four_ok, centrality_tables.
  destruct (Nx.betweenness_centrality nx G), (Nx.closeness_centrality nx G),
    (Nx.pagerank nx G), (Nx.eigenvector_centrality nx G);
    simpl; intros H; try discriminate; reflexivity.
Qed.

(** C7, amended.  The four metrics share one [try] block: when any one
    of betweenness, closeness, PageRank or eigenvector centrality raises,
    all four are replaced for every node, by 0, 0, 1/|V| and 0, whatever
    the other three calls returned; only degree centrality is computed,
    as its own entry, and the call returns a row for each node. *)
Theorem centrality_failure_replaces_all_four :
  forall (nx : Nx.Algorithms) (g : SupplyChainGraph),
    all_four_ok nx (graph g) = false ->
    map fst (calculate_centrality_metrics nx g) = Nx.nodes (graph g)
    /\ forall (node : string) (row : CentralityMetrics),
         In (node, row) (calculate_centrality_metrics nx g) ->
         betweenness_centrality row = 0
         /\ closeness_centrality row = 0
         /\ pagerank row = 1 / inject_Z (len (Nx.nodes (graph g)))
         /\ eigenvector_centrality row = 0
         /\ degree_centrality row
            = inject_Z (Nx.degree (graph g) node)
              / inject_Z (Z.max 1 (len (Nx.nodes (graph g)) - 1)).
Proof.
  intros nx g Hfail. unfold calculate_centrality_metrics.
  rewrite (centrality_tables_fallback _ _ Hfail). split.
  - rewrite map_map. simpl. apply map_id.
  - intros node row Hin. apply in_map_iff in Hin.
    destruct Hin as (n & Heq & Hn). injection Heq as <- <-. simpl.
    rewrite !get_default_const_table by assumption. repeat split.
Qed.

(** The amended C7 where only the eigenvector iteration fails, for the
    row of [A]. *)
Lemma centrality_failure_replaces_all_four_witness :
  all_four_ok Examples.eigen_fails_nx (graph Examples.chain) = false
  /\ exists row,
       In ("A", row)
          (calculate_centrality_metrics Examples.eigen_fails_nx Examples.chain)
       /\ betweenness_centrality row = 0
       /\ closeness_centrality row = 0
       /\ eigenvector_centrality row = 0.
Proof.
  split; [reflexivity |].
  eexists. split; [vm_compute; left; reflexivity |].
  destruct (proj2 (centrality_failure_replaces_all_four
                     Examples.eigen_fails_nx Examples.chain eq_refl)
                  "A" _ (or_introl eq_refl))
    as (H1 & H2 & _ & H4 & _).
  repeat split; assumption.
Defined.

(** C7 as stated fails: with only the eigenvector call failing, the row
    of [A] has eigenvector centrality 0 where its degree centrality is
    1/2, and betweenness 0 where networkx had computed 1/2. *)
Lemma centrality_failure_discards_computed_metrics :
  Nx.betweenness_centrality Examples.eigen_fails_nx (graph Examples.chain)
  = Ok [("A", 1 # 2)]
  /\ is_ok (Nx.eigenvector_centrality Examples.eigen_fails_nx
                                      (graph Examples.chain)) = false
  /\ exists row,
       get (calculate_centrality_metrics Examples.eigen_fails_nx
                                         Examples.chain) "A" = Some row
       /\ degree_centrality row == 1 # 2
       /\ ~ eigenvector_centrality row == degree_centrality row
       /\ ~ betweenness_centrality row == 1 # 2.
Proof.
  split; [reflexivity |]. split; [reflexivity |].
  eexists. split; [reflexivity |]. simpl.
  split; [reflexivity |]. split; intros H; discriminate H.
Qed.

(* ------------------------------------------------------------------ *)
(** ** The cascade simulator: propagation parameters                   *)
(* ------------------------------------------------------------------ *)

Import SimulationEngine.

(** C5, amended.  With the constants of [__init__], the probability
    before any rule or predictor is applied is
    0.3 * strength * (1 + (1 - criticality/100)), where strength is the
    edge attribute (0.5 when absent) and criticality the target's
    criticality score (50 when the target has no features); it is the
    value [_calculate_propagation_parameters] hands to the rules. *)
Theorem base_probability_formula :
  forall (gnn : option GnnEngine) (np : pyresult Q) (g : SupplyChainGraph)
         (source target : string),
    base_probability (init gnn np) g source target
    == (3 # 10) * edge_strength g source target
       * (1 + (1 - criticality_of g target / 100))
    /\ _calculate_propagation_parameters (init gnn np) g source target
       = (let '(p, d) :=
            apply_rules (_initialize_propagation_rules np) g source target
              (base_probability (init gnn np) g source target, 300) in
          (Qmin 1 (Qmax 0
             match gnn with
             | Some predict =>
                 match predict g with
                 | Ok table => p * (1 + get_default table source (5 # 10))
                 | Raise _ => p
                 end
             | None => p
             end),
           Qmax 50 d)).
Proof.
  intros. split.
  - unfold base_probability, target_vulnerability. simpl. ring.
  - unfold _calculate_propagation_parameters. simpl.
    destruct (apply_rules (_initialize_propagation_rules np) g source target
                (base_probability (init gnn np) g source target, 300))
      as [p d].
    reflexivity.
Qed.

(** C5 as stated fails: along the edge [A -> B] of the chain (strength 1,
    criticality 0) the base probability is 0.6, not 1 * (1 - 0/100) = 1. *)
Lemma base_probability_is_not_strength_times_vulnerability :
  edge_strength Examples.chain "A" "B" == 1
  /\ criticality_of Examples.chain "B" == 0
  /\ base_probability Examples.default_engine Examples.chain "A" "B" == 6 # 10
  /\ ~ base_probability Examples.default_engine Examples.chain "A" "B"
       == edge_strength Examples.chain "A" "B"
          * (1 - criticality_of Examples.chain "B" / 100).
Proof.
  repeat split; try reflexivity. intros H. discriminate H.
Qed.

(* ------------------------------------------------------------------ *)
(** ** The cascade simulator: waves, the loop and [run_simulation]     *)
(* ------------------------------------------------------------------ *)

Lemma move_propagating_grows (nodes : list string) :
  forall sec comp new_comp,
    let '(_, comp', _) := move_propagating nodes (sec, comp, new_comp) in
    incl comp comp' /\ (List.length comp <= List.length comp')%nat.
Proof.
  induction nodes as [| node nodes IH]; intros sec comp new_comp; simpl.
  - split; [apply incl_refl | lia].
  - destruct (mem node sec).
    + specialize (IH (set_remove sec node) (set_add comp node)
                     (new_comp ++ [node])%list).
      destruct (move_propagating nodes _) as [[sec' comp'] new'].
      destruct IH as [Hi Hl]. split.
      * eapply incl_tran; [apply set_add_incl | exact Hi].
      * pose proof (set_add_length comp node). lia.
    + apply IH.
Qed.

(** What a wave leaves untouched and what it can only enlarge. *)
Lemma step_frame (eng : Engine) (g : SupplyChainGraph) (st : SimState)
  (r : Rng) :
  let '(_, st', _) := _execute_simulation_step eng g st r in
  st_step_number st' = st_step_number st
  /\ steps st' = steps st
  /\ incl (compromised st) (compromised st')
  /\ (List.length (compromised st) <= List.length (compromised st'))%nat.
Proof.
  unfold _execute_simulation_step.
  destruct (spread eng g (secure st) (compromised st) _) as [res1 a].
  destruct res1 as [[] | e]; simpl.
  - pose proof (move_propagating_grows (propagating_nodes a) (secure st)
                  (compromised st) []) as Hm.
    destruct (move_propagating (propagating_nodes a) _) as [[sec comp] new_comp].
    destruct (update_affected g sec comp (affected st)) as [res3 aff].
    destruct res3 as [[] | e]; simpl.
    + destruct (len (Nx.nodes (graph g)) =? 0)%Z; simpl; tauto.
    + tauto.
  - repeat split; [apply incl_refl | lia].
Qed.

(** When a wave returns a step, the step records the size of the
    compromised set it leaves. *)
Lemma step_total (eng : Engine) (g : SupplyChainGraph) (st : SimState)
  (r : Rng) (s : SimulationStep) (st' : SimState) (r' : Rng) :
  _execute_simulation_step eng g st r = (Ok s, st', r') ->
  total_compromised (metrics s) = len (compromised st').
Proof.
  unfold _execute_simulation_step.
  destruct (spread eng g (secure st) (compromised st) _) as [res1 a].
  destruct res1 as [[] | e]; [| discriminate].
  destruct (move_propagating (propagating_nodes a) _) as [[sec comp] new_comp].
  destruct (update_affected g sec comp (affected st)) as [res3 aff].
  destruct res3 as [[] | e]; [| discriminate].
  destruct (len (Nx.nodes (graph g)) =? 0)%Z; [discriminate |].
  intros [= <- <- _]. reflexivity.
Qed.

Lemma nondecreasing_snoc (l : list Z) (x : Z) :
  nondecreasing l -> Forall (fun t => (t <= x)%Z) l ->
  nondecreasing (l ++ [x]).
Proof.
  induction l as [| a l IH]; intros Hn Hall; [exact I |].
  inversion Hall as [| ? ? Ha Hl]; subst.
  destruct l as [| b l].
  - simpl. split; [assumption | exact I].
  - destruct Hn as [Hab Hn]. split; [assumption |]. now apply IH.
Qed.

Section LoopFacts.

Variable getitem : SimulationStep -> string -> pyresult (list string).
Variable eng : Engine.
Variable g : SupplyChainGraph.

Lemma loop_terminates (fuel : nat) :
  forall (st : SimState) (r : Rng),
    (Z.to_nat (max_simulation_steps eng - st_step_number st) <= fuel)%nat ->
    exists out, simulation_loop_with getitem fuel eng g st r = Some out.
Proof.
  induction fuel as [| fuel IH]; intros st r Hfuel;
    cbn [simulation_loop_with]; destruct (loop_guard eng st) eqn:Eg;
    try (eexists; reflexivity).
  - unfold loop_guard in Eg. apply andb_true_iff in Eg.
    destruct Eg as [Eg _]. apply Z.ltb_lt in Eg. lia.
  - pose proof (step_frame eng g st r) as Hf.
    destruct (_execute_simulation_step eng g st r) as [[res st'] r'].
    destruct Hf as (Hn & _).
    destruct res as [s | e]; [| eexists; reflexivity].
    destruct (no_new_propagation getitem s) as [[|] | e];
      try (eexists; reflexivity).
    apply IH. unfold record_step. cbn [st_step_number].
    unfold loop_guard in Eg. apply andb_true_iff in Eg.
    destruct Eg as [Eg _]. apply Z.ltb_lt in Eg. lia.
Qed.

Lemma loop_invariant (fuel : nat) :
  forall (st : SimState) (r : Rng) res st' r',
    simulation_loop_with getitem fuel eng g st r = Some (res, st', r') ->
    incl (compromised st) (compromised st')
    /\ (st_step_number st <= st_step_number st')%Z
    /\ (st_step_number st'
        <= Z.max (st_step_number st) (max_simulation_steps eng))%Z
    /\ (trace_invariant st -> trace_invariant st').
Proof.
  induction fuel as [| fuel IH]; intros st r res st' r';
    cbn [simulation_loop_with]; destruct (loop_guard eng st) eqn:Eg;
    try discriminate;
    try (intros [= _ <- _];
         split; [apply incl_refl | split; [lia | split; [lia | tauto]]]).
  pose proof (step_frame eng g st r) as Hf.
  pose proof (@step_total eng g st r) as Ht.
  destruct (_execute_simulation_step eng g st r) as [[res1 st1] r1].
  destruct Hf as (Hn & Hs & Hi & Hl).
  assert (Hkeep : trace_invariant st -> trace_invariant st1).
  { intros (H1 & H2 & H3). unfold trace_invariant. rewrite Hs, Hn.
    repeat split; try assumption.
    eapply Forall_impl; [| exact H2]. intros t Ht'. unfold len in *. lia. }
  destruct res1 as [s | e].
  - specialize (Ht s st1 r1 eq_refl).
    destruct (no_new_propagation getitem s) as [[|] | e].
    + intros [= _ <- _].
      split; [assumption | split; [lia | split; [lia | assumption]]].
    + intros Hloop. apply IH in Hloop.
      destruct Hloop as (Hi' & Hn1 & Hn2 & Htr).
      unfold record_step in *. cbn [compromised st_step_number steps] in *.
      unfold loop_guard in Eg. apply andb_true_iff in Eg.
      destruct Eg as [Eg _]. apply Z.ltb_lt in Eg.
      split; [| split; [| split]].
      * eapply incl_tran; eassumption.
      * lia.
      * lia.
      * intros Hst. apply Htr. apply Hkeep in Hst.
        destruct Hst as (H1 & H2 & H3). unfold trace_invariant.
        cbn [compromised st_step_number steps].
        unfold wave_totals in *. rewrite map_app. cbn [map].
        rewrite Ht. split; [| split].
        -- now apply nondecreasing_snoc.
        -- apply Forall_app. split; [assumption |].
           constructor; [lia | constructor].
        -- unfold len in *. rewrite length_app. simpl. lia.
    + intros [= _ <- _].
      split; [assumption | split; [lia | split; [lia | assumption]]].
  - intros [= _ <- _].
      split; [assumption | split; [lia | split; [lia | assumption]]].
Qed.

End LoopFacts.

Lemma finalize_fields (g : SupplyChainGraph) (id : string) (st : SimState)
  (initial : list string) (res : SimulationResult) :
  _finalize_simulation g id st initial = Ok res ->
  simulation_id res = id
  /\ status res = COMPLETED
  /\ final_compromised res = compromised st
  /\ cascade_depth res = st_step_number st
  /\ result_steps res = steps st.
Proof.
  unfold _finalize_simulation.
  destruct (_calculate_final_metrics g st) as [fm |]; cbn [bind];
    [| discriminate].
  destruct (_generate_mitigation_suggestions st _) as [sugg |]; cbn [bind];
    [| discriminate].
  intros [= <-]. repeat split.
Qed.

Lemma finalize_id_irrelevant (g : SupplyChainGraph) (id1 id2 : string)
  (st : SimState) (initial : list string) :
  match _finalize_simulation g id1 st initial,
        _finalize_simulation g id2 st initial with
  | Ok a, Ok b => same_except_id a b
  | Raise _, Raise _ => True
  | _, _ => False
  end.
Proof.
  unfold _finalize_simulation.
  destruct (_calculate_final_metrics g st) as [fm |]; cbn [bind];
    [| exact I].
  destruct (_generate_mitigation_suggestions st _) as [sugg |]; cbn [bind];
    [| exact I].
  unfold same_except_id. cbn. repeat split.
Qed.

Lemma initial_state_incl (g : SupplyChainGraph) (initial : list string) :
  incl initial (compromised (initial_state g initial)).
Proof. intros x Hx. simpl. now apply set_of_list_In. Qed.

Lemma initial_state_trace (g : SupplyChainGraph) (initial : list string) :
  trace_invariant (initial_state g initial).
Proof. repeat split; constructor. Qed.

Section RunFacts.

Variable getitem : SimulationStep -> string -> pyresult (list string).
Variable eng : Engine.
Variable g : SupplyChainGraph.
Variable initial : list string.

Lemma try_body_returns (id : string) (r : Rng) :
  exists out, try_body getitem eng g initial id r = Some out.
Proof.
  unfold try_body.
  destruct (@loop_terminates getitem eng g
              (Z.to_nat (max_simulation_steps eng))
              (initial_state g initial) r) as [[[res st] r'] H].
  { simpl. rewrite Z.sub_0_r. lia. }
  rewrite H. destruct res; eexists; reflexivity.
Qed.

Lemma try_body_state (id : string) (r : Rng) res st r' :
  try_body getitem eng g initial id r = Some (res, st, r') ->
  incl initial (compromised st)
  /\ (0 <= st_step_number st <= Z.max 0 (max_simulation_steps eng))%Z
  /\ trace_invariant st
  /\ forall out, res = Ok out ->
       final_compromised out = compromised st
       /\ cascade_depth out = st_step_number st
       /\ result_steps out = steps st.
Proof.
  unfold try_body.
  destruct (simulation_loop_with getitem _ eng g (initial_state g initial) r)
    as [[[res0 st0] r0] |] eqn:El; [| discriminate].
  apply loop_invariant in El. destruct El as (Hi & Hn1 & Hn2 & Htr).
  cbn [st_step_number initial_state] in Hn1, Hn2.
  assert (Hcommon : incl initial (compromised st0)
                    /\ (0 <= st_step_number st0
                        <= Z.max 0 (max_simulation_steps eng))%Z
                    /\ trace_invariant st0).
  { split; [| split].
    - eapply incl_tran; [apply initial_state_incl | exact Hi].
    - lia.
    - apply Htr, initial_state_trace. }
  destruct res0 as [[] | e]; intros [= <- <- <-];
    destruct Hcommon as (H1 & H2 & H3);
    (split; [exact H1 | split; [exact H2 | split; [exact H3 |]]]).
  - intros out Hout. apply finalize_fields in Hout. tauto.
  - intros out Hout. discriminate.
Qed.

Lemma run_returns (sid : option string) (now : Z) (r : Rng) :
  exists res r',
    run_simulation_with getitem eng g initial sid now r = Some (res, r')
    /\ incl initial (final_compromised res)
    /\ (0 <= cascade_depth res <= Z.max 0 (max_simulation_steps eng))%Z
    /\ len (result_steps res) = cascade_depth res
    /\ nondecreasing (wave_totals (result_steps res)).
Proof.
  unfold run_simulation_with.
  destruct (try_body_returns (resolve_id sid now) r) as [[[res st] r'] H].
  rewrite H. apply try_body_state in H.
  destruct H as (Hi & Hn & (Ht1 & Ht2 & Ht3) & Hout).
  destruct res as [out | e].
  - destruct (Hout out eq_refl) as (E1 & E2 & E3).
    exists out, r'. rewrite E1, E2, E3. repeat split; try assumption; lia.
  - eexists. eexists. split; [reflexivity |]. cbn.
    repeat split; try assumption; lia.
Qed.

End RunFacts.

Lemma loop_ok_without_wave (fuel : nat) (eng : Engine) (g : SupplyChainGraph)
  (st : SimState) (r : Rng) (st' : SimState) (r' : Rng) :
  simulation_loop fuel eng g st r = Some (Ok tt, st', r') ->
  loop_guard eng st = false /\ st' = st /\ r' = r.
Proof.
  unfold simulation_loop.
  destruct fuel as [| fuel]; cbn [simulation_loop_with];
    destruct (loop_guard eng st); try discriminate;
    try (intros [= <- <-]; repeat split).
  destruct (_execute_simulation_step eng g st r) as [[res st1] r1].
  destruct res as [s | e]; [| discriminate].
  unfold no_new_propagation, step_getitem. cbn [bind]. discriminate.
Qed.

(** With the caps [__init__] sets, the loop is entered, the first wave
    runs, and the test that follows it raises: the call returns the result
    of the [except] branch, with no wave counted and none recorded. *)
Lemma default_run_stops_after_first_wave (gnn : option GnnEngine)
  (np : pyresult Q) (g : SupplyChainGraph) (initial : list string)
  (sid : option string) (now : Z) (r : Rng) :
  exists res r',
    run_simulation (init gnn np) g initial sid now r = Some (res, r')
    /\ status res = FAILED
    /\ cascade_depth res = 0%Z
    /\ result_steps res = [].
Proof.
  unfold run_simulation, run_simulation_with, try_body.
  change (Z.to_nat (max_simulation_steps (init gnn np))) with 20%nat.
  cbn [simulation_loop_with].
  change (loop_guard (init gnn np) (initial_state g initial)) with true.
  cbv iota.
  pose proof (step_frame (init gnn np) g (initial_state g initial) r) as Hf.
  destruct (_execute_simulation_step (init gnn np) g (initial_state g initial) r)
    as [[res st1] r1].
  destruct Hf as (Hn & Hs & _).
  destruct res as [s | e].
  - unfold no_new_propagation, step_getitem. cbn [bind].
    eexists. eexists. split; [reflexivity |]. cbn. auto.
  - eexists. eexists. split; [reflexivity |]. cbn. auto.
Qed.

(** C2.  For every engine, graph, initial list and generator, the result
    of [run_simulation] has final_compromised containing every initially
    compromised node, and the sizes of the compromised set recorded along
    its trace never decrease; a wave, on any state, only adds nodes to the
    compromised set: none leaves it and its size does not shrink. *)
Theorem compromised_set_only_grows :
  forall (eng : Engine) (g : SupplyChainGraph) (initial : list string)
         (sid : option string) (now : Z) (r : Rng),
    (exists res r',
        run_simulation eng g initial sid now r = Some (res, r')
        /\ incl initial (final_compromised res)
        /\ nondecreasing (wave_totals (result_steps res)))
    /\ (forall (st : SimState) (rng0 : Rng),
          let '(_, st', _) := _execute_simulation_step eng g st rng0 in
          incl (compromised st) (compromised st')
          /\ (List.length (compromised st)
              <= List.length (compromised st'))%nat).
Proof.
  intros. split.
  - destruct (run_returns step_getitem eng g initial sid now r)
      as (res & r' & H & Hi & _ & _ & Ht).
    exists res, r'. auto.
  - intros st rng0. pose proof (step_frame eng g st rng0) as Hf.
    destruct (_execute_simulation_step eng g st rng0) as [[res st'] r'].
    tauto.
Qed.

(** At either cap the loop runs no further wave. *)
Lemma loop_stops_at_caps (fuel : nat) (eng : Engine) (g : SupplyChainGraph)
  (st : SimState) (r : Rng) :
  (max_simulation_steps eng <= st_step_number st)%Z
  \/ max_simulation_time eng <= simulation_time st ->
  simulation_loop fuel eng g st r = Some (Ok tt, st, r).
Proof.
  intros Hcap.
  assert (Hg : loop_guard eng st = false).
  { unfold loop_guard, Qltb. destruct Hcap as [H | H].
    - apply Z.ltb_ge in H. now rewrite H.
    - apply Qle_bool_iff in H. rewrite H. apply andb_false_r. }
  unfold simulation_loop.
  destruct fuel; cbn [simulation_loop_with]; now rewrite Hg.
Qed.

(** C4, amended.  With the caps of [__init__], [run_simulation] returns
    on every graph: 20 rounds of the loop are always enough to leave it,
    so at most 20 waves run; the result counts between 0 and 20 waves and
    records one step for each; a state that has reached 20 waves or time
    10000 gets no further wave; and a [SimulationResult] has no field
    [budget_exceeded].  The proof rests on [loop_terminates] and
    [run_returns], which hold whatever subscripting a step does. *)
Theorem run_simulation_terminates_within_wave_cap :
  forall (gnn : option GnnEngine) (np : pyresult Q) (g : SupplyChainGraph)
         (initial : list string) (sid : option string) (now : Z) (r : Rng),
    (exists out,
        simulation_loop 20 (init gnn np) g (initial_state g initial) r
        = Some out)
    /\ (exists res r',
          run_simulation (init gnn np) g initial sid now r = Some (res, r')
          /\ (0 <= cascade_depth res <= 20)%Z
          /\ len (result_steps res) = cascade_depth res
          /\ hasattr res "budget_exceeded" = false)
    /\ (forall (fuel : nat) (st : SimState) (r0 : Rng),
          (20 <= st_step_number st)%Z \/ 10000 <= simulation_time st ->
          simulation_loop fuel (init gnn np) g st r0 = Some (Ok tt, st, r0)).
Proof.
  intros. split; [| split].
  - apply loop_terminates. simpl. lia.
  - destruct (run_returns step_getitem (init gnn np) g initial sid now r)
      as (res & r' & H & _ & Hn & Hl & _).
    exists res, r'. repeat split; try assumption; simpl in Hn; lia.
  - intros fuel st r0 Hcap. now apply loop_stops_at_caps.
Qed.

(** The amended C4 on the chain, and at a state whose clock stands at
    the time cap. *)
Lemma run_simulation_terminates_within_wave_cap_witness :
  (exists res r',
      run_simulation Examples.default_engine Examples.chain ["A"] None 0
                     Examples.zero_rng = Some (res, r')
      /\ (0 <= cascade_depth res <= 20)%Z)
  /\ simulation_loop 5 Examples.default_engine Examples.chain
                     Examples.timed_out_state Examples.zero_rng
     = Some (Ok tt, Examples.timed_out_state, Examples.zero_rng).
Proof.
  destruct (run_simulation_terminates_within_wave_cap
              None (Raise IndexError) Examples.chain ["A"] None 0
              Examples.zero_rng) as (_ & (res & r' & H & Hn & _) & Hcap).
  split.
  - exists res, r'. split; [exact H | exact Hn].
  - apply Hcap. right. vm_compute. discriminate.
Defined.

(** C10.  [run_simulation] always returns a result; and whenever the
    body of its [try] block raises, leaving the state [st], the result is
    the FAILED one built from [st]: its final_compromised, blast_radius,
    steps and propagation_time are those of [st], and final_metrics,
    risk_analysis and mitigation_suggestions are empty. *)
Theorem run_simulation_catches_every_exception :
  forall (eng : Engine) (g : SupplyChainGraph) (initial : list string)
         (sid : option string) (now : Z) (r : Rng),
    (exists res r', run_simulation eng g initial sid now r = Some (res, r'))
    /\ forall (e : exn) (st : SimState) (r' : Rng),
         try_body step_getitem eng g initial (resolve_id sid now) r
         = Some (Raise e, st, r') ->
         exists res,
           run_simulation eng g initial sid now r = Some (res, r')
           /\ status res = FAILED
           /\ final_compromised res = compromised st
           /\ blast_radius res = (len (compromised st) - len initial)%Z
           /\ result_steps res = steps st
           /\ propagation_time res = simulation_time st
           /\ final_metrics res = None
           /\ risk_analysis res = None
           /\ mitigation_suggestions res = [].
Proof.
  intros. split.
  - destruct (run_returns step_getitem eng g initial sid now r)
      as (res & r' & H & _).
    exists res, r'. exact H.
  - intros e st r' Hbody. unfold run_simulation, run_simulation_with.
    rewrite Hbody. eexists. split; [reflexivity |]. cbn. repeat split.
Qed.

(** C10 on the chain, where the test after the first wave raises. *)
Lemma run_simulation_catches_every_exception_witness :
  exists st r' res,
    try_body step_getitem Examples.default_engine Examples.chain ["A"]
             (resolve_id None 0) Examples.zero_rng
    = Some (Raise TypeError, st, r')
    /\ run_simulation Examples.default_engine Examples.chain ["A"] None 0
                      Examples.zero_rng = Some (res, r')
    /\ status res = FAILED
    /\ final_compromised res = ["A"; "B"]
    /\ mitigation_suggestions res = [].
Proof.
  assert (Hb : exists st r',
             try_body step_getitem Examples.default_engine Examples.chain
                      ["A"] (resolve_id None 0) Examples.zero_rng
             = Some (Raise TypeError, st, r')
             /\ compromised st = ["A"; "B"]).
  { eexists. eexists. split; [vm_compute; reflexivity | reflexivity]. }
  destruct Hb as (st & r' & Hb & Hc).
  destruct (proj2 (run_simulation_catches_every_exception
                     Examples.default_engine Examples.chain ["A"] None 0
                     Examples.zero_rng) _ _ _ Hb)
    as (res & Hrun & Hs & Hf & _ & _ & _ & _ & _ & Hm).
  exists st, r', res. split; [exact Hb |]. split; [exact Hrun |].
  split; [exact Hs |]. split; [now rewrite Hf | exact Hm].
Defined.

(** C4 as stated fails: from [A] on the chain, with every draw 0, the
    first wave compromises [B]; the run then stops, FAILED, with no wave
    counted, at time 270, although [C] is a secure successor of [B] that
    the next wave would compromise; and the result has no
    [budget_exceeded]. *)
Lemma run_stops_with_no_stop_condition_met :
  exists res r',
    run_simulation Examples.default_engine Examples.chain ["A"] None 0
                   Examples.zero_rng = Some (res, r')
    /\ status res = FAILED
    /\ final_compromised res = ["A"; "B"]
    /\ cascade_depth res = 0%Z
    /\ result_steps res = []
    /\ propagation_time res == 270
    /\ Nx.successors (graph Examples.chain) "B" = Ok ["C"]
    /\ mem "C" (final_compromised res) = false
    /\ Qltb 0 (fst (_calculate_propagation_parameters
                      Examples.default_engine Examples.chain "B" "C")) = true
    /\ hasattr res "budget_exceeded" = false.
Proof.
  eexists. eexists. split; [vm_compute; reflexivity |].
  repeat split; reflexivity.
Qed.

(** C3: the code at the failing input.  Evaluating the isolation of [B]
    on the chain removes [B] and its two edges from the graph object the
    caller shares with the engine. *)
Theorem mitigation_evaluation_edits_shared_graph :
  exists eff h' r',
    simulate_mitigation_effectiveness Examples.default_engine
      Examples.chain_heap 0%nat ["A"] [Examples.isolate_B] Examples.zero_rng
    = Some (Ok eff, h', r')
    /\ Nx.nodes (graph (Examples.chain_heap 0%nat)) = ["A"; "B"; "C"]
    /\ Nx.nodes (graph (h' 0%nat)) = ["A"; "C"]
    /\ Nx.adj (graph (h' 0%nat)) = [].
Proof.
  eexists. eexists. eexists. split; [vm_compute; reflexivity |].
  repeat split; reflexivity.
Qed.

(** [_apply_mitigations] hands back the reference it was given, and the
    store holds the edited graph at that very reference. *)
Lemma apply_mitigations_aliases (h : Heap) (p : ref) (acts : list Action) :
  snd (_apply_mitigations h p acts) p = snd (apply_actions (h p) acts)
  /\ forall q, fst (_apply_mitigations h p acts) = Ok q -> q = p.
Proof.
  unfold _apply_mitigations.
  destruct (apply_actions (h p) acts) as [res g']. cbn [fst snd]. split.
  - unfold heap_set. now rewrite Nat.eqb_refl.
  - destruct res; cbn [bind]; intros q H; [now injection H | discriminate].
Qed.

Lemma has_node_after_remove (G G' : Nx.DiGraph) (n : string) :
  Nx.remove_node G n = Ok G' -> Nx.has_node G' n = false.
Proof.
  unfold Nx.remove_node. destruct (Nx.has_node G n); [| discriminate].
  intros [= <-]. unfold Nx.has_node, Nx.nodes, mem. cbn [Nx.node_dict].
  induction (Nx.node_dict G) as [| [k v] d IH]; [reflexivity |].
  cbn [filter fst]. destruct (String.eqb k n) eqn:E; cbn [negb].
  - exact IH.
  - cbn [map existsb fst]. rewrite String.eqb_sym, E. exact IH.
Qed.

(** Isolating a node of the engine's graph always succeeds, and always
    removes the node from the graph object the caller holds. *)
Lemma isolation_removes_node_from_shared_graph (eng : Engine) (h : Heap)
  (p : ref) (initial : list string) (target : string) (r : Rng) :
  Nx.has_node (graph (h p)) target = true ->
  exists eff h' r',
    simulate_mitigation_effectiveness eng h p initial
      [{| a_type := Some "isolation"; a_target := TStr target |}] r
    = Some (Ok eff, h', r')
    /\ Nx.has_node (graph (h' p)) target = false.
Proof.
  intros Hin. unfold simulate_mitigation_effectiveness.
  destruct (run_returns step_getitem eng (h p) initial (Some "baseline") 0 r)
    as (base & r1 & Hbase & _).
  fold (run_simulation eng (h p) initial (Some "baseline") 0 r) in Hbase.
  rewrite Hbase.
  unfold _apply_mitigations. cbn [apply_actions apply_action a_type a_target].
  change (String.eqb "isolation" "isolation") with true. cbv iota.
  cbn [target_in_nodes]. rewrite Hin.
  destruct (Nx.remove_node (graph (h p)) target) as [G' |] eqn:Er.
  - cbn [bind].
    destruct (run_returns step_getitem eng
                (heap_set h p (with_graph (h p) G') p) initial
                (Some "mitigated") 0 r1)
      as (mit & r2 & Hmit & _).
    fold (run_simulation eng (heap_set h p (with_graph (h p) G') p) initial
                         (Some "mitigated") 0 r1) in Hmit.
    rewrite Hmit. eexists. eexists. eexists. split; [reflexivity |].
    unfold heap_set. rewrite Nat.eqb_refl. cbn [graph with_graph].
    exact (has_node_after_remove _ _ Er).
  - unfold Nx.remove_node in Er. rewrite Hin in Er. discriminate.
Qed.

Lemma set_item_In {V} (d : list (string * V)) (k : string) (v : V)
  (kv : string * V) :
  In kv (set_item d k v) -> kv = (k, v) \/ In kv d.
Proof.
  induction d as [| [k0 v0] d IH]; simpl.
  - intros [<- | []]. now left.
  - destruct (String.eqb k0 k); simpl.
    + intros [<- | H]; [now left | right; now right].
    + intros [<- | H]; [right; now left |].
      destruct (IH H) as [-> | H']; [now left | right; now right].
Qed.

Lemma max_by_In {A} (key : A -> Q) (l : list A) :
  forall best, max_by key best l = best \/ In (max_by key best l) l.
Proof.
  induction l as [| x l IH]; intros best; simpl; [now left |].
  destruct (Qle_bool (key x) (key best)).
  - destruct (IH best) as [-> | H]; [now left | right; now right].
  - destruct (IH x) as [-> | H]; right; [now left | now right].
Qed.

(** Before any step is recorded the analysis finds no secondary
    compromise, no bottleneck, no velocity and no failure point. *)
Lemma risk_analysis_without_steps (st : SimState) (initial : list string) :
  steps st = [] ->
  let ra := _perform_risk_analysis st initial in
  Forall (fun kv => snd kv = 0%Z) (initial_node_impact ra)
  /\ bottleneck_nodes ra = []
  /\ propagation_velocity ra = []
  /\ critical_failure_points ra = [].
Proof.
  intros Hs. unfold _perform_risk_analysis. rewrite Hs. cbn.
  split; [| repeat split].
  assert (G : forall l d, Forall (fun kv : string * Z => snd kv = 0%Z) d ->
              Forall (fun kv => snd kv = 0%Z)
                     (fold_left (fun d n => set_item d n 0%Z) l d)).
  { induction l as [| n l IH]; intros d Hd; simpl; [assumption |].
    apply IH. apply Forall_forall. intros kv Hin.
    apply set_item_In in Hin. destruct Hin as [-> | Hin]; [reflexivity |].
    exact (proj1 (Forall_forall _ _) Hd kv Hin). }
  apply G. constructor.
Qed.

Lemma suggestions_without_steps (st : SimState) (initial : list string)
  (l : list Suggestion) :
  steps st = [] ->
  _generate_mitigation_suggestions st (_perform_risk_analysis st initial)
  = Ok l ->
  Forall (fun s => 0 <= estimated_impact_reduction s <= 1) l.
Proof.
  intros Hs. pose proof (risk_analysis_without_steps st initial Hs) as Hra.
  cbv zeta in Hra. destruct Hra as (Himp & Hb & Hv & Hc).
  unfold _generate_mitigation_suggestions. rewrite Hb, Hv, Hc.
  destruct (initial_node_impact (_perform_risk_analysis st initial))
    as [| first rest]; cbn [bind].
  - intros [= <-]. constructor.
  - destruct (len (compromised st) =? 0)%Z; cbn [bind]; [discriminate |].
    intros [= <-]. cbn [app].
    apply Forall_forall. intros s Hin.
    apply (proj1 (sorted_by_In _ _ _)) in Hin. destruct Hin as [<- | []].
    cbn [estimated_impact_reduction].
    assert (H0 : snd (max_by (fun kv : string * Z => inject_Z (snd kv))
                             first rest) = 0%Z).
    { destruct (max_by_In (fun kv : string * Z => inject_Z (snd kv)) rest first)
        as [-> | Hin].
      - now inversion Himp.
      - inversion Himp as [| ? ? _ Hrest]; subst.
        exact (proj1 (Forall_forall _ _) Hrest _ Hin). }
    rewrite H0.
    assert (Hz : inject_Z 0 / inject_Z (len (compromised st)) == 0).
    { unfold Qdiv. apply Qmult_0_l. }
    rewrite Hz. split; discriminate.
Qed.

(** Every suggestion in a result of [run_simulation] estimates its
    impact reduction within [0,1]. *)
Lemma run_suggestions_range (eng : Engine) (g : SupplyChainGraph)
  (initial : list string) (sid : option string) (now : Z) (r : Rng)
  (res : SimulationResult) (r' : Rng) :
  run_simulation eng g initial sid now r = Some (res, r') ->
  Forall (fun s => 0 <= estimated_impact_reduction s <= 1)
         (mitigation_suggestions res).
Proof.
  unfold run_simulation, run_simulation_with, try_body.
  destruct (simulation_loop_with step_getitem _ eng g (initial_state g initial) r)
    as [[[res0 st] r0] |] eqn:El; [| discriminate].
  destruct res0 as [[] | e].
  - apply loop_ok_without_wave in El. destruct El as (_ & -> & ->).
    destruct (_finalize_simulation g (resolve_id sid now)
                (initial_state g initial) initial) as [out |] eqn:Ef.
    + intros [= <- <-]. unfold _finalize_simulation in Ef.
      destruct (_calculate_final_metrics g (initial_state g initial));
        cbn [bind] in Ef; [| discriminate].
      destruct (_generate_mitigation_suggestions (initial_state g initial) _)
        as [sugg |] eqn:Es; cbn [bind] in Ef; [| discriminate].
      injection Ef as <-. cbn [mitigation_suggestions].
      exact (@suggestions_without_steps (initial_state g initial) initial
               sugg eq_refl Es).
    + intros [= <- <-]. constructor.
  - intros [= <- <-]. constructor.
Qed.

(* ------------------------------------------------------------------ *)
(** ** The risk scorer: [calculate_node_risk_profiles]                 *)
(* ------------------------------------------------------------------ *)

Import RiskCalculator.

Lemma get_In {V} (d : list (string * V)) (k : string) (v : V) :
  get d k = Some v -> In (k, v) d.
Proof.
  induction d as [| [k' v'] d IH]; simpl; [discriminate |].
  destruct (String.eqb k' k) eqn:E.
  - apply String.eqb_eq in E. subst. intros [= ->]. now left.
  - intros H. right. now apply IH.
Qed.

Lemma Qle_bool_true (x y : Q) : Qle_bool x y = true -> x <= y.
Proof. apply Qle_bool_iff. Qed.

Lemma table_nonneg_get (d : list (string * Q)) (n : string) (dflt : Q) :
  table_nonneg d = true -> 0 <= dflt -> 0 <= get_default d n dflt.
Proof.
  intros Hd Hdf. unfold get_default. destruct (get d n) as [v |] eqn:E.
  - apply get_In in E. unfold table_nonneg in Hd.
    rewrite forallb_forall in Hd. apply Hd in E. now apply Qle_bool_true.
  - assumption.
Qed.

Lemma Qmin_nonneg (a b : Q) : 0 <= a -> 0 <= b -> 0 <= Qmin a b.
Proof. intros. now apply Q.min_glb. Qed.

Lemma Qmax0_nonneg (x : Q) : 0 <= Qmax 0 x.
Proof. apply Q.le_max_l. Qed.

Lemma inject_Z_nonneg (z : Z) : (0 <= z)%Z -> 0 <= inject_Z z.
Proof. intros H. unfold Qle. simpl. lia. Qed.

Lemma Qdiv_nonneg (a b : Q) : 0 <= a -> 0 <= b -> 0 <= a / b.
Proof.
  intros Ha Hb. unfold Qdiv. apply Qmult_le_0_compat; [assumption |].
  now apply Qinv_le_0_compat.
Qed.

Lemma Qplus_nonneg (x y : Q) : 0 <= x -> 0 <= y -> 0 <= x + y.
Proof.
  intros Hx Hy. apply (Qle_trans _ (0 + 0)); [apply Qle_refl |].
  now apply Qplus_le_compat.
Qed.

Lemma len_nonneg {A} (l : list A) : (0 <= len l)%Z.
Proof. unfold len. lia. Qed.

(** Non-negativity of the scores, built from the pieces above. *)
Create HintDb qnonneg.
#[local] Hint Resolve Qmin_nonneg Qmax0_nonneg Qdiv_nonneg Qplus_nonneg
  Qmult_le_0_compat Qle_refl : qnonneg.

Lemma base_risk_nonneg (g : SupplyChainGraph) (n : string) (b : Q) :
  risk_scores_nonneg g = true ->
  _calculate_base_risk g n = Ok b -> 0 <= b.
Proof.
  intros Hg. unfold _calculate_base_risk, Nx.node_data.
  destruct (get (Nx.node_dict (graph g)) n) as [d |] eqn:E; simpl;
    [| discriminate].
  apply get_In in E. unfold risk_scores_nonneg in Hg.
  rewrite forallb_forall in Hg. apply Hg in E. simpl in E.
  assert (H0 : 0 <= match Nx.nd_risk_score d with Some r => r | None => 0 end).
  { destruct (Nx.nd_risk_score d); [now apply Qle_bool_true | apply Qle_refl]. }
  clear E. intros [= <-].
  repeat match goal with
         | |- context [match ?x with _ => _ end] =>
             match x with
             | Nx.nd_risk_score _ => fail 1
             | _ => destruct x
             end
         end;
    repeat first [ apply Qmax0_nonneg
                 | apply Qmin_nonneg; [discriminate |]
                 | apply (Qle_trans _ _ _ H0); apply Qle_refl
                 | match goal with
                   | |- 0 <= ?a + ?c =>
                       apply (Qle_trans _ (0 + 0));
                       [apply Qle_refl | apply Qplus_le_compat; [| discriminate]]
                   end ].
Qed.

Lemma degree_ratio_nonneg (d m : Z) (w : Q) :
  (0 <= d)%Z -> 0 <= w -> 0 <= inject_Z d / inject_Z (Z.max 1 m) * w.
Proof.
  intros Hd Hw. apply Qmult_le_0_compat; [| assumption].
  apply Qdiv_nonneg; apply inject_Z_nonneg; lia.
Qed.

Lemma structural_risk_nonneg (nx : Nx.Algorithms) (np : pyresult Q)
  (g : SupplyChainGraph) (n : string) (s : Q) :
  _calculate_structural_risk nx np g n = Ok s -> 0 <= s.
Proof.
  unfold _calculate_structural_risk.
  destruct (identify_structural_vulnerabilities nx np g) as [v |]; simpl;
    [| discriminate].
  intros [= <-].
  assert (H0 : 0 <= inject_Z (Nx.in_degree (graph g) n)
                    / inject_Z (Z.max 1 (len (Nx.nodes (graph g)) - 1))
                    * (6 # 10)
                    + inject_Z (Nx.out_degree (graph g) n)
                      / inject_Z (Z.max 1 (len (Nx.nodes (graph g)) - 1))
                      * (4 # 10)).
  { apply Qplus_nonneg; apply degree_ratio_nonneg;
      try apply len_nonneg; discriminate. }
  assert (Hadd : forall x c, 0 <= x -> 0 <= c -> 0 <= Qmin 1 (x + c)).
  { intros x c Hx Hc. apply Qmin_nonneg; [discriminate |].
    auto with qnonneg. }
  destruct (mem n (single_points_of_failure v)), (mem n (bridge_nodes v));
    repeat first [assumption | apply Hadd | discriminate].
Qed.

Lemma tier_of_valid (g : SupplyChainGraph) (n : string) :
  tiers_valid g = true -> (1 <= tier_of g n <= 3)%Z.
Proof.
  intros Hg. unfold tier_of. destruct (get (node_features g) n) as [f |] eqn:E;
    [| lia].
  apply get_In in E. unfold tiers_valid in Hg. rewrite forallb_forall in Hg.
  apply Hg in E. simpl in E. lia.
Qed.

Lemma cascade_fallback_nonneg (g : SupplyChainGraph) (n : string) :
  tiers_valid g = true -> 0 <= _calculate_cascade_amplification_fallback g n.
Proof.
  intros Hg. unfold _calculate_cascade_amplification_fallback.
  destruct (Nx.descendants (graph g) n) as [d |]; [| discriminate].
  destruct (len (Nx.nodes (graph g)) <=? 1)%Z eqn:E; [apply Qle_refl |].
  apply Z.leb_gt in E. apply Qmin_nonneg; [discriminate |].
  pose proof (tier_of_valid g n Hg) as Ht.
  apply Qmult_le_0_compat.
  - apply Qdiv_nonneg; apply inject_Z_nonneg; [apply len_nonneg | lia].
  - apply Qdiv_nonneg; [apply inject_Z_nonneg; lia | discriminate].
Qed.

Lemma centrality_tables_nonneg (nx : Nx.Algorithms) (G : Nx.DiGraph) :
  centralities_nonneg nx G = true ->
  let '(b, c, p, _) := centrality_tables nx G in
  table_nonneg b = true /\ table_nonneg c = true /\ table_nonneg p = true.
Proof.
  unfold centralities_nonneg, centrality_tables, result_nonneg.
  intros H. apply andb_true_iff in H. destruct H as [H Hp].
  apply andb_true_iff in H. destruct H as [Hb Hc].
  assert (Hconst : forall c, 0 <= c ->
            table_nonneg (map (fun n => (n, c)) (Nx.nodes G)) = true).
  { intros c Hc'. unfold table_nonneg. apply forallb_forall.
    intros kv Hin. apply in_map_iff in Hin. destruct Hin as (m & <- & _).
    simpl. now apply Qle_bool_iff. }
  assert (Hpr : 0 <= 1 / inject_Z (len (Nx.nodes G))).
  { apply Qdiv_nonneg; [discriminate |].
    apply inject_Z_nonneg, len_nonneg. }
  destruct (Nx.betweenness_centrality nx G), (Nx.closeness_centrality nx G),
    (Nx.pagerank nx G), (Nx.eigenvector_centrality nx G);
    repeat split; first [assumption | apply Hconst; first [apply Qle_refl | exact Hpr]].
Qed.

Lemma centrality_risk_nonneg (nx : Nx.Algorithms) (g : SupplyChainGraph)
  (n : string) :
  centralities_nonneg nx (graph g) = true ->
  0 <= _calculate_centrality_risk (get (calculate_centrality_metrics nx g) n).
Proof.
  intros H. destruct (get (calculate_centrality_metrics nx g) n) as [row |] eqn:E;
    [| discriminate].
  apply get_In in E. unfold calculate_centrality_metrics in E.
  pose proof (centrality_tables_nonneg nx (graph g) H) as Ht.
  destruct (centrality_tables nx (graph g)) as [[[b c] p] e].
  destruct Ht as (Hb & Hc & Hp).
  apply in_map_iff in E. destruct E as (m & [= <- <-] & _).
  unfold _calculate_centrality_risk. simpl.
  pose proof Qplus_nonneg as Hsum.
  repeat apply Hsum; apply Qmult_le_0_compat; try discriminate;
    try (apply table_nonneg_get; [assumption | apply Qle_refl]).
  apply Qdiv_nonneg; apply inject_Z_nonneg; [| lia].
  unfold Nx.degree, Nx.in_degree, Nx.out_degree.
  pose proof (len_nonneg (Nx.pred_list (graph g) m)).
  pose proof (len_nonneg (Nx.succ_list (graph g) m)). lia.
Qed.

Lemma get_set_item {V} (d : list (string * V)) (k k' : string) (v : V) :
  get (set_item d k v) k' = if String.eqb k k' then Some v else get d k'.
Proof.
  induction d as [| [k0 v0] d IH]; simpl.
  - reflexivity.
  - destruct (String.eqb k0 k) eqn:E0; simpl.
    + apply String.eqb_eq in E0. subst k0.
      destruct (String.eqb k k'); reflexivity.
    + rewrite IH. destruct (String.eqb k0 k') eqn:E1; [| reflexivity].
      apply String.eqb_eq in E1. subst k0. now rewrite String.eqb_sym, E0.
Qed.

Lemma profiles_loop_get (nx : Nx.Algorithms) (np : pyresult Q)
  (g : SupplyChainGraph) (gnn : option GnnPredictions)
  (cm : list (string * CentralityMetrics)) (ns : list string) :
  forall acc profiles,
    profiles_loop nx np g gnn cm ns acc = Ok profiles ->
    (forall k p, get acc k = Some p -> node_profile nx np g gnn cm k = Ok p) ->
    forall k p, get profiles k = Some p -> node_profile nx np g gnn cm k = Ok p.
Proof.
  induction ns as [| n ns IH]; simpl; intros acc profiles Hloop Hacc k p Hget.
  - injection Hloop as <-. now apply Hacc.
  - destruct (node_profile nx np g gnn cm n) as [pn |] eqn:En; simpl in Hloop;
      [| discriminate].
    eapply IH; [exact Hloop | | exact Hget].
    intros k' p' Hk'. rewrite get_set_item in Hk'.
    destruct (String.eqb n k') eqn:E.
    + apply String.eqb_eq in E. subst k'. now injection Hk' as <-.
    + now apply Hacc.
Qed.

Lemma tier_multiplier_pos (t : Z) : 0 <= tier_multiplier t.
Proof.
  unfold tier_multiplier.
  destruct (t =? 1)%Z, (t =? 2)%Z, (t =? 3)%Z; discriminate.
Qed.

Lemma clamp01_of_nonneg (y : Q) : 0 <= y -> clamp01 y == Qmin 1 y.
Proof.
  intros H. unfold clamp01. now rewrite (Q.max_r 0 y H).
Qed.


Lemma get_Some_of_mem {V} (d : list (string * V)) (k : string) :
  In k (map fst d) -> exists v, get d k = Some v.
Proof.
  induction d as [| [k' v'] d IH]; simpl; [tauto |].
  intros [-> | H].
  - rewrite String.eqb_refl. now exists v'.
  - destruct (String.eqb k' k); [now exists v' | now apply IH].
Qed.

Lemma vulnerabilities_ok (nx : Nx.Algorithms) (np : pyresult Q)
  (g : SupplyChainGraph) (n : string) :
  In n (Nx.nodes (graph g)) ->
  exists v, identify_structural_vulnerabilities nx np g = Ok v.
Proof.
  intros Hn. unfold identify_structural_vulnerabilities.
  destruct (Nx.nodes (graph g)) as [| m ms] eqn:E; [contradiction |].
  cbn [map Np.percentile bind]. eexists. reflexivity.
Qed.

Lemma node_profile_ok (nx : Nx.Algorithms) (np : pyresult Q)
  (g : SupplyChainGraph) (gnn : option GnnPredictions)
  (cm : list (string * CentralityMetrics)) (n : string) :
  In n (Nx.nodes (graph g)) ->
  exists p, node_profile nx np g gnn cm n = Ok p.
Proof.
  intros Hn. unfold node_profile, _calculate_base_risk,
    _calculate_structural_risk, Nx.node_data.
  destruct (get_Some_of_mem (Nx.node_dict (graph g)) n Hn) as [d Hd].
  rewrite Hd. cbn [bind].
  destruct (vulnerabilities_ok nx np g n Hn) as [v Hv]. rewrite Hv.
  cbn [bind]. eexists. reflexivity.
Qed.

Lemma profiles_loop_ok (nx : Nx.Algorithms) (np : pyresult Q)
  (g : SupplyChainGraph) (gnn : option GnnPredictions)
  (cm : list (string * CentralityMetrics)) (ns : list string) :
  (forall n, In n ns -> In n (Nx.nodes (graph g))) ->
  forall acc,
  exists profiles,
    profiles_loop nx np g gnn cm ns acc = Ok profiles
    /\ forall n, In n ns \/ (exists p, get acc n = Some p) ->
                 exists p, get profiles n = Some p.
Proof.
  induction ns as [| m ns IH]; intros Hns acc; cbn [profiles_loop].
  - exists acc. split; [reflexivity |]. intros n [[] | H]. exact H.
  - destruct (node_profile_ok nx np g gnn cm m (Hns m (or_introl eq_refl)))
      as [pm Hpm].
    rewrite Hpm. cbn [bind].
    destruct (IH (fun n H => Hns n (or_intror H)) (set_item acc m pm))
      as (profiles & Hloop & Hget).
    exists profiles. split; [exact Hloop |].
    intros n Hn. apply Hget. rewrite get_set_item.
    destruct (String.eqb m n) eqn:E.
    + right. now exists pm.
    + destruct Hn as [[-> | Hn] | Hn].
      * now rewrite String.eqb_refl in E.
      * now left.
      * now right.
Qed.

(** Whatever the inputs, the combined risk is the weighted sum times the
    tier multiplier, cut at 1 from above. *)
Lemma combined_risk_upper_clamp (nx : Nx.Algorithms) (np : pyresult Q)
  (g : SupplyChainGraph) (gnn : option GnnPredictions)
  (cm : list (string * CentralityMetrics)) (n : string)
  (p : NodeRiskProfile) :
  node_profile nx np g gnn cm n = Ok p ->
  combined_risk p == Qmin 1 (weighted_sum p * tier_multiplier (tier_of g n))
  /\ combined_risk p <= 1.
Proof.
  unfold node_profile.
  destruct (_calculate_base_risk g n) as [b |]; cbn [bind]; [| discriminate].
  destruct (_calculate_structural_risk nx np g n) as [s |]; cbn [bind];
    [| discriminate].
  intros [= <-]. unfold weighted_sum. cbn. split; [| apply Q.le_min_l].
  apply Q.min_compat; [reflexivity |].
  unfold w_base_risk, w_structural_risk, w_cascade_amplification,
    w_centrality_risk. ring.
Qed.

(** The combined risk of one profile, under the ranges of the data
    model. *)
Lemma combined_risk_of_profile :
  forall (nx : Nx.Algorithms) (np : pyresult Q) (g : SupplyChainGraph)
         (gnn : option GnnPredictions)
         (profiles : list (string * NodeRiskProfile))
         (n : string) (p : NodeRiskProfile),
    risk_scores_nonneg g = true ->
    tiers_valid g = true ->
    table_nonneg (gnn_amplification_of gnn) = true ->
    centralities_nonneg nx (graph g) = true ->
    calculate_node_risk_profiles nx np g gnn = Ok profiles ->
    get profiles n = Some p ->
    combined_risk p
    == clamp01 (weighted_sum p * tier_multiplier (tier_of g n))
    /\ 0 <= combined_risk p <= 1
    /\ tier_multiplier 1 == 3 /\ tier_multiplier 2 == 2
    /\ tier_multiplier 3 == 1.
Proof.
  intros nx np g gnn profiles n p Hrisk Htier Hgnn Hcent Hcalc Hget.
  unfold calculate_node_risk_profiles in Hcalc.
  assert (Hp : node_profile nx np g gnn (calculate_centrality_metrics nx g) n
               = Ok p).
  { eapply profiles_loop_get; [exact Hcalc | | exact Hget].
    simpl. discriminate. }
  clear Hcalc Hget. unfold node_profile in Hp.
  destruct (_calculate_base_risk g n) as [b |] eqn:Eb; simpl in Hp;
    [| discriminate].
  destruct (_calculate_structural_risk nx np g n) as [s |] eqn:Es;
    simpl in Hp; [| discriminate].
  injection Hp as <-. unfold weighted_sum. simpl.
  pose proof (base_risk_nonneg g n Hrisk Eb) as Hb.
  pose proof (structural_risk_nonneg nx np g n Es) as Hs.
  pose proof (table_nonneg_get (gnn_amplification_of gnn) n
                Hgnn (cascade_fallback_nonneg g n Htier)) as Hc.
  pose proof (centrality_risk_nonneg nx g n Hcent) as Hz.
  set (c := get_default (gnn_amplification_of gnn) n
                        (_calculate_cascade_amplification_fallback g n)) in *.
  set (z := _calculate_centrality_risk
              (get (calculate_centrality_metrics nx g) n)) in *.
  set (m := tier_multiplier (tier_of g n)).
  assert (Hm : 0 <= m) by apply tier_multiplier_pos.
  pose proof Qplus_nonneg as Hsum.
  assert (Hy : 0 <= ((25 # 100) * b + (30 # 100) * s + (25 # 100) * c
                     + (20 # 100) * z) * m).
  { apply Qmult_le_0_compat; [| assumption].
    repeat apply Hsum; apply Qmult_le_0_compat;
      first [assumption | discriminate]. }
  assert (Heq : (b * w_base_risk + s * w_structural_risk
                 + c * w_cascade_amplification + z * w_centrality_risk) * m
                == ((25 # 100) * b + (30 # 100) * s + (25 # 100) * c
                    + (20 # 100) * z) * m).
  { unfold w_base_risk, w_structural_risk, w_cascade_amplification,
      w_centrality_risk. ring. }
  rewrite Heq. split; [| split].
  - symmetry. now apply clamp01_of_nonneg.
  - split; [apply Qmin_nonneg; [discriminate | assumption] | apply Q.le_min_l].
  - repeat split.
Qed.

Lemma tier_multiplier_gt_0 (t : Z) : 0 < tier_multiplier t.
Proof.
  unfold tier_multiplier.
  destruct (t =? 1)%Z, (t =? 2)%Z, (t =? 3)%Z; reflexivity.
Qed.

Lemma tier_multiplier_other (t : Z) :
  (t < 1 \/ 3 < t)%Z -> tier_multiplier t == 1.
Proof.
  intros H. unfold tier_multiplier.
  destruct (Z.eqb_spec t 1); [lia |]. destruct (Z.eqb_spec t 2); [lia |].
  destruct (Z.eqb_spec t 3); reflexivity.
Qed.

(** The only clamp of the code is [min(1.0, .)]: a product that is not
    negative is clamped as the specification says, a negative one is
    returned as it is. *)
Lemma upper_clamp_cases (w m : Q) :
  0 < m ->
  (0 <= w -> Qmin 1 (w * m) == clamp01 (w * m) /\ 0 <= Qmin 1 (w * m))
  /\ (w < 0 -> Qmin 1 (w * m) == w * m /\ Qmin 1 (w * m) < 0).
Proof.
  intros Hm. split; intros Hw.
  - assert (Hy : 0 <= w * m)
      by (apply Qmult_le_0_compat; [assumption | now apply Qlt_le_weak]).
    split; [symmetry; now apply clamp01_of_nonneg |].
    apply Qmin_nonneg; [discriminate | assumption].
  - assert (Hy : w * m < 0).
    { apply Qlt_le_trans with (0 * m);
        [now apply Qmult_lt_compat_r | rewrite Qmult_0_l; apply Qle_refl]. }
    assert (Hr : Qmin 1 (w * m) == w * m).
    { apply Q.min_r. apply Qlt_le_weak.
      eapply Qlt_trans; [exact Hy | reflexivity]. }
    split; [exact Hr | now rewrite Hr].
Qed.

(** C6, amended.  [calculate_node_risk_profiles] returns a profile for
    every node, and in every profile combined_risk =
    min(1, (0.25 base_risk + 0.30 structural_risk
    + 0.25 cascade_amplification + 0.20 centrality_risk) * multiplier),
    the multiplier being 3 for tier 1, 2 for tier 2 and 1 for every other
    tier: combined_risk is at most 1, and nothing bounds it from below.
    Where the weighted sum is not negative, combined_risk is its clamp01
    and lies in [0,1]; where it is negative, combined_risk is the
    negative product itself.  The weighted sum is not negative for a
    graph within the ranges of the data model (stored risk scores not
    negative, tiers in 1..3) and libraries that report no negative
    score. *)
Theorem combined_risk_is_clamped_weighted_sum :
  forall (nx : Nx.Algorithms) (np : pyresult Q) (g : SupplyChainGraph)
         (gnn : option GnnPredictions),
    exists profiles,
      calculate_node_risk_profiles nx np g gnn = Ok profiles
      /\ (forall n, In n (Nx.nodes (graph g)) ->
                    exists p, get profiles n = Some p)
      /\ (forall n p, get profiles n = Some p ->
             combined_risk p
             == Qmin 1 (weighted_sum p * tier_multiplier (tier_of g n))
             /\ combined_risk p <= 1
             /\ (0 <= weighted_sum p ->
                 combined_risk p
                 == clamp01 (weighted_sum p * tier_multiplier (tier_of g n))
                 /\ 0 <= combined_risk p)
             /\ (weighted_sum p < 0 ->
                 combined_risk p
                 == weighted_sum p * tier_multiplier (tier_of g n)
                 /\ combined_risk p < 0))
      /\ (risk_scores_nonneg g = true ->
          tiers_valid g = true ->
          table_nonneg (gnn_amplification_of gnn) = true ->
          centralities_nonneg nx (graph g) = true ->
          forall n p, get profiles n = Some p ->
            combined_risk p
            == clamp01 (weighted_sum p * tier_multiplier (tier_of g n))
            /\ 0 <= combined_risk p <= 1)
      /\ tier_multiplier 1 == 3 /\ tier_multiplier 2 == 2
      /\ tier_multiplier 3 == 1
      /\ (forall t, (t < 1 \/ 3 < t)%Z -> tier_multiplier t == 1).
Proof.
  intros nx np g gnn.
  destruct (profiles_loop_ok nx np g gnn (calculate_centrality_metrics nx g)
              (Nx.nodes (graph g)) (fun n H => H) [])
    as (profiles & Hloop & Hget).
  exists profiles. split; [exact Hloop |]. split; [| split; [| split]].
  - intros n Hn. apply Hget. now left.
  - intros n p Hp.
    assert (Hn : node_profile nx np g gnn (calculate_centrality_metrics nx g) n
                 = Ok p).
    { eapply profiles_loop_get; [exact Hloop | | exact Hp].
      simpl. discriminate. }
    destruct (combined_risk_upper_clamp nx np g gnn _ n Hn) as [Heq Hle].
    destruct (upper_clamp_cases (weighted_sum p)
                (tier_multiplier_gt_0 (tier_of g n))) as [Hpos Hneg].
    split; [exact Heq |]. split; [exact Hle |]. split; intros Hw.
    + destruct (Hpos Hw) as [H1 H2]. rewrite Heq. split; assumption.
    + destruct (Hneg Hw) as [H1 H2]. rewrite Heq. split; assumption.
  - intros Hrisk Htier Hgnn Hcent n p Hp.
    destruct (combined_risk_of_profile nx np g gnn n Hrisk Htier Hgnn Hcent
                Hloop Hp) as (H1 & H2 & _).
    split; assumption.
  - repeat split. apply tier_multiplier_other.
Qed.

(** The amended C6 on the chain [A -> B -> C], for its node [A]. *)
Lemma combined_risk_is_clamped_weighted_sum_witness :
  risk_scores_nonneg Examples.chain = true
  /\ tiers_valid Examples.chain = true
  /\ table_nonneg (gnn_amplification_of None) = true
  /\ centralities_nonneg Examples.quiet_nx (graph Examples.chain) = true
  /\ exists profiles p,
       calculate_node_risk_profiles Examples.quiet_nx (Raise IndexError)
                                    Examples.chain None = Ok profiles
       /\ get profiles "A" = Some p
       /\ combined_risk p
          == clamp01 (weighted_sum p * tier_multiplier (tier_of Examples.chain "A"))
       /\ 0 <= combined_risk p <= 1.
Proof.
  repeat (split; [reflexivity |]).
  destruct (combined_risk_is_clamped_weighted_sum
              Examples.quiet_nx (Raise IndexError) Examples.chain None)
    as (profiles & Hcalc & Hall & _ & Hform & _).
  destruct (Hall "A" (or_introl eq_refl)) as [p Hp].
  exists profiles, p. split; [exact Hcalc |]. split; [exact Hp |].
  exact (Hform eq_refl eq_refl eq_refl eq_refl "A" p Hp).
Defined.

(* ------------------------------------------------------------------ *)
(** ** The mitigation engine                                           *)
(* ------------------------------------------------------------------ *)

Import MitigationEngine.

Lemma spof_strategy_range (g : SupplyChainGraph) (spof : list string)
  (l : list Strategy) :
  spof_strategy g spof = Ok l -> Forall in_percent_range l.
Proof.
  unfold spof_strategy. destruct spof as [| top rest].
  - intros [= <-]. constructor.
  - destruct (Nx.successors (graph g) top); simpl; [| discriminate].
    intros [= <-]. constructor; [| constructor].
    unfold in_percent_range. simpl. lia.
Qed.

Lemma hardening_loop_range (g : SupplyChainGraph) (num : Z)
  (hc : list (string * CentralityMetrics)) :
  forall (i : Z) (strategies : list Strategy),
    (0 <= i)%Z -> (i + len hc <= 3)%Z ->
    Forall in_percent_range strategies ->
    Forall in_percent_range (hardening_loop g num i hc strategies).
Proof.
  induction hc as [| [node_id m] hc IH]; intros i strategies Hi Hlen Hall;
    cbn [hardening_loop].
  - assumption.
  - destruct (len strategies >=? num)%Z; [assumption |].
    destruct (Nx.neighbors (graph g) node_id); [| assumption].
    unfold len in Hlen. simpl List.length in Hlen.
    apply IH; [lia | unfold len; lia |].
    apply Forall_app. split; [assumption |].
    constructor; [| constructor]. unfold in_percent_range.
    cbn [riskReduction]. lia.
Qed.

Lemma template_loop_range (eff time : string) (vendors num : Z)
  (templates : list Template) :
  Forall (fun t => (20 <= t_riskReduction t <= 68)%Z) templates ->
  forall strategies,
    Forall in_percent_range strategies ->
    Forall in_percent_range
           (template_loop eff time vendors num templates strategies).
Proof.
  induction 1 as [| t templates Ht _ IH]; simpl; intros strategies Hall.
  - assumption.
  - destruct (len strategies >=? num)%Z; [assumption |].
    apply IH. apply Forall_app. split; [assumption |].
    constructor; [exact Ht | constructor].
Qed.

Lemma slice_to_3_length {A} (l : list A) : (len (slice_to l 3) <= 3)%Z.
Proof.
  unfold slice_to. change (3 <? 0)%Z with false. cbv iota.
  pose proof (firstn_le_length (Z.to_nat 3) l). unfold len. lia.
Qed.

Lemma strategies_in_percent_range (nx : Nx.Algorithms) (np : pyresult Q)
  (g : SupplyChainGraph) (num : Z) (l : list Strategy) :
  generate_mitigation_strategies nx np g num = Ok l ->
  Forall in_percent_range l.
Proof.
  unfold generate_mitigation_strategies.
  destruct (identify_structural_vulnerabilities nx np g) as [v |];
    cbn [bind]; [| discriminate].
  destruct (spof_strategy g (single_points_of_failure v)) as [s0 |] eqn:E0;
    cbn [bind]; [| discriminate].
  intros [= <-].
  assert (Hcat : Forall (fun t => (20 <= t_riskReduction t <= 68)%Z)
                         category_strategies).
  { unfold category_strategies.
    repeat (constructor; [simpl; lia |]). constructor. }
  assert (Hadd : Forall (fun t => (20 <= t_riskReduction t <= 68)%Z)
                         additional_strategies).
  { unfold additional_strategies.
    repeat (constructor; [simpl; lia |]). constructor. }
  assert (Hall : Forall in_percent_range
            (template_loop "medium" "3 weeks" 3 num additional_strategies
               (template_loop "high" "4 weeks" 5 num category_strategies
                  (hardening_loop g num 0
                     (slice_to
                        (sorted_desc (fun kv => betweenness_centrality (snd kv))
                                     (calculate_centrality_metrics nx g)) 3)
                     s0)))).
  { apply template_loop_range; [exact Hadd |].
    apply template_loop_range; [exact Hcat |].
    apply hardening_loop_range; [lia | | now apply spof_strategy_range in E0].
    pose proof (slice_to_3_length
                  (sorted_desc (fun kv => betweenness_centrality (snd kv))
                               (calculate_centrality_metrics nx g))). lia. }
  apply Forall_forall. intros s Hs.
  pose proof (proj1 (sorted_by_In _ _ _) (In_slice_to _ _ _ Hs)) as Hs'.
  exact (proj1 (Forall_forall _ _) Hall s Hs').
Qed.

Import MitigationAgent.

Lemma resimulate_ranges (sim : Simulate) (G : Nx.DiGraph)
  (paths : list (list string)) (src : string) (depth : Z) :
  0 <= risk_reduction (resimulate sim G paths src depth) <= 1
  /\ (0 <= paths_reduced (resimulate sim G paths src depth))%Z.
Proof.
  unfold resimulate. destruct (sim src depth G) as [new_paths |]; simpl.
  - split; [| lia].
    destruct (0 <? len paths)%Z eqn:E; [| split; discriminate].
    apply Z.ltb_lt in E. pose proof (len_nonneg new_paths) as Hn. split.
    + apply Qdiv_nonneg; apply inject_Z_nonneg; lia.
    + apply Qle_shift_div_r.
      * unfold Qlt. simpl. lia.
      * rewrite Qmult_1_l. rewrite <- Zle_Qle. lia.
  - repeat split; discriminate.
Qed.

Lemma evaluation_ranges (e : Evaluation) :
  e = infeasible \/ (exists sim G paths src depth,
                       e = resimulate sim G paths src depth) ->
  0 <= risk_reduction e <= 1 /\ (0 <= paths_reduced e)%Z.
Proof.
  intros [-> | (sim & G & paths & src & depth & ->)].
  - repeat split; discriminate.
  - apply resimulate_ranges.
Qed.

(** C9, amended.  The strategies of
    [AdvancedMitigationEngine.generate_mitigation_strategies] carry an
    integer percentage [riskReduction] between 20 and 68, not a ratio,
    and no entry [paths_reduced].  The bounds [0,1] and >= 0 hold for the
    candidates the mitigation agent evaluates: every result of
    [evaluate_node_isolation] and of [evaluate_edge_removal] has
    risk_reduction in [0,1] and paths_reduced >= 0.  Every suggestion in
    a result of [run_simulation] has estimated_impact_reduction in
    [0,1]. *)
Theorem mitigation_outputs_ranges :
  (forall (nx : Nx.Algorithms) (np : pyresult Q) (g : SupplyChainGraph)
          (num : Z) (l : list Strategy) (s : Strategy),
      generate_mitigation_strategies nx np g num = Ok l -> In s l ->
      (20 <= riskReduction s <= 68)%Z)
  /\ mem "paths_reduced" Strategy_keys = false
  /\ (forall (sim : Simulate) (G : Nx.DiGraph) (node_id : string)
             (paths : list (list string)) (src : string) (depth : Z)
             (e : Evaluation),
         evaluate_node_isolation sim G node_id paths src depth = Ok e ->
         0 <= risk_reduction e <= 1 /\ (0 <= paths_reduced e)%Z)
  /\ (forall (sim : Simulate) (G : Nx.DiGraph) (source target : string)
             (paths : list (list string)) (src : string) (depth : Z)
             (e : Evaluation),
         evaluate_edge_removal sim G source target paths src depth = Ok e ->
         0 <= risk_reduction e <= 1 /\ (0 <= paths_reduced e)%Z)
  /\ (forall (eng : Engine) (g : SupplyChainGraph) (initial : list string)
             (sid : option string) (now : Z) (r : Rng)
             (res : SimulationResult) (r' : Rng) (s : Suggestion),
         run_simulation eng g initial sid now r = Some (res, r') ->
         In s (mitigation_suggestions res) ->
         0 <= estimated_impact_reduction s <= 1).
Proof.
  split; [| split; [reflexivity | split; [| split]]].
  - intros nx np g num l s Hgen Hin.
    pose proof (strategies_in_percent_range _ _ _ _ Hgen) as Hall.
    exact (proj1 (Forall_forall _ _) Hall s Hin).
  - intros sim G node_id paths src depth e. unfold evaluate_node_isolation.
    destruct (String.eqb node_id ""); [discriminate |].
    destruct (negb (Nx.has_node G node_id) || String.eqb node_id src).
    + intros [= <-]. apply evaluation_ranges. now left.
    + destruct (Nx.remove_node G node_id) as [G' |]; cbn [bind];
        [| discriminate].
      intros [= <-]. apply resimulate_ranges.
  - intros sim G source target paths src depth e.
    unfold evaluate_edge_removal.
    destruct (negb (Nx.has_edge G source target)).
    + intros [= <-]. apply evaluation_ranges. now left.
    + destruct (remove_edge G source target) as [G' |]; cbn [bind];
        [| discriminate].
      intros [= <-]. apply resimulate_ranges.
  - intros eng g initial sid now r res r' s Hrun Hin.
    pose proof (run_suggestions_range _ _ _ _ _ _ Hrun) as Hall.
    exact (proj1 (Forall_forall _ _) Hall s Hin).
Qed.

(** The amended C9 on the chain: its first strategy, and the isolation
    of [B] against two baseline paths. *)
Lemma mitigation_outputs_ranges_witness :
  (exists l s,
      generate_mitigation_strategies Examples.quiet_nx (Raise IndexError)
                                     Examples.chain 8 = Ok l
      /\ In s l /\ (20 <= riskReduction s <= 68)%Z)
  /\ (exists e,
        evaluate_node_isolation Examples.no_path (graph Examples.chain) "B"
          [["A"; "B"]; ["A"; "B"; "C"]] "A" 3 = Ok e
        /\ 0 <= risk_reduction e <= 1 /\ (0 <= paths_reduced e)%Z)
  /\ (exists e,
        evaluate_edge_removal Examples.one_path (graph Examples.chain)
          "B" "C" [["A"; "B"]; ["A"; "B"; "C"]] "A" 3 = Ok e
        /\ 0 <= risk_reduction e <= 1 /\ (0 <= paths_reduced e)%Z)
  /\ (exists res r' s,
        run_simulation Examples.idle_engine Examples.chain ["A"] None 0
                       Examples.zero_rng = Some (res, r')
        /\ In s (mitigation_suggestions res)
        /\ 0 <= estimated_impact_reduction s <= 1).
Proof.
  destruct mitigation_outputs_ranges as (H1 & _ & H2 & H3 & H4).
  split; [| split; [| split]].
  - eexists. eexists. split; [vm_compute; reflexivity |].
    split; [left; reflexivity |].
    apply (H1 Examples.quiet_nx (Raise IndexError) Examples.chain 8%Z _ _
              eq_refl).
    left. reflexivity.
  - eexists. split; [vm_compute; reflexivity |].
    apply (H2 Examples.no_path (graph Examples.chain) "B"
              [["A"; "B"]; ["A"; "B"; "C"]] "A" 3%Z _ eq_refl).
  - eexists. split; [vm_compute; reflexivity |].
    apply (H3 Examples.one_path (graph Examples.chain) "B" "C"
              [["A"; "B"]; ["A"; "B"; "C"]] "A" 3%Z _ eq_refl).
  - eexists. eexists. eexists. split; [vm_compute; reflexivity |].
    split; [left; reflexivity |].
    apply (H4 Examples.idle_engine Examples.chain ["A"] None 0%Z
              Examples.zero_rng _ _ _ eq_refl).
    left. reflexivity.
Defined.

(** C9 as stated fails for the engine's strategies: on the chain the
    first strategy returned has [riskReduction] 55, far above 1, and a
    strategy has no entry [paths_reduced]. *)
Lemma strategy_risk_reduction_is_a_percentage :
  exists l s,
    generate_mitigation_strategies Examples.quiet_nx (Raise IndexError)
                                   Examples.chain 8 = Ok l
    /\ In s l
    /\ riskReduction s = 55%Z
    /\ ~ inject_Z (riskReduction s) <= 1
    /\ mem "paths_reduced" Strategy_keys = false.
Proof.
  eexists. eexists. split; [vm_compute; reflexivity |].
  split; [left; reflexivity |]. split; [reflexivity |].
  split; [| reflexivity]. simpl. intros H. apply H. reflexivity.
Qed.

(* ------------------------------------------------------------------ *)
(** ** graph_engine.py: nodes, depths, paths and cascades              *)
(* ------------------------------------------------------------------ *)

Lemma mem_snoc (x c : string) (s : list string) :
  mem x (s ++ [c]) = mem x s || String.eqb x c.
Proof. rewrite mem_app. unfold mem at 2. simpl. now rewrite orb_false_r. Qed.

(** Visiting [c] takes its out-edges out of the edges still to explore. *)
Lemma unexplored_after_visit (G : Nx.DiGraph) (visited : list string)
  (c : string) :
  mem c visited = false ->
  (List.length
     (filter (fun e => negb (mem (fst (fst e)) (set_add visited c)))
             (Nx.adj G))
   + List.length (Nx.succ_list G c)
   <= List.length
        (filter (fun e => negb (mem (fst (fst e)) visited)) (Nx.adj G)))%nat.
Proof.
  intros Hc. unfold Nx.succ_list, set_add. rewrite Hc, length_map.
  induction (Nx.adj G) as [| [[u v] d] l IH]; simpl; [lia |].
  rewrite mem_snoc.
  destruct (String.eqb u c) eqn:E.
  - apply String.eqb_eq in E. subst u. rewrite Hc. simpl. lia.
  - rewrite orb_false_r. destruct (mem u visited); simpl; lia.
Qed.

Lemma depth_loop_fuel (fuel : nat) (G : Nx.DiGraph) :
  forall (queue : list (string * Z)) (visited : list string) (md : Z),
    (List.length queue
     + List.length
         (filter (fun e => negb (mem (fst (fst e)) visited)) (Nx.adj G))
     <= fuel)%nat ->
    exists r, depth_loop fuel G queue visited md = Some r.
Proof.
  induction fuel as [| fuel IH]; intros [| [c d] q] visited md H;
    simpl in *; eauto; try lia.
  destruct (mem c visited) eqn:Ec.
  - apply IH. lia.
  - unfold Nx.successors. destruct (Nx.has_node G c); [| eauto].
    apply IH. rewrite length_app, length_map.
    pose proof (unexplored_after_visit G visited c Ec) as Hu.
    pose proof (filter_length_le
                  (fun s => negb (mem s (set_add visited c)))
                  (Nx.succ_list G c)) as Hf.
    lia.
Qed.

(** The invariant of the search: no depth in the queue exceeds the
    number of visited nodes, and the largest depth seen stays below it. *)
Lemma depth_loop_bound (fuel : nat) (G : Nx.DiGraph) :
  forall (queue : list (string * Z)) (visited : list string) (md d : Z),
    depth_loop fuel G queue visited md = Some (Ok d) ->
    Forall (fun e => (0 <= snd e <= len visited)%Z) queue ->
    (0 <= md <= Z.max 0 (len visited - 1))%Z ->
    NoDup visited ->
    incl visited (Nx.nodes G) ->
    (0 <= d <= Z.max 0 (Nx.number_of_nodes G - 1))%Z.
Proof.
  induction fuel as [| fuel IH]; intros [| [c dc] q] visited md d H Hq Hmd Hnd Hin;
    simpl in H; try discriminate.
  - injection H as <-. apply NoDup_incl_length in Hin; [| assumption].
    unfold Nx.number_of_nodes, Nx.nodes, len in *.
    rewrite length_map in Hin. lia.
  - injection H as <-. apply NoDup_incl_length in Hin; [| assumption].
    unfold Nx.number_of_nodes, Nx.nodes, len in *.
    rewrite length_map in Hin. lia.
  - inversion Hq as [| x l Hc Hq']; subst. simpl in Hc.
    destruct (mem c visited) eqn:Ec.
    + eapply IH; eauto.
    + unfold Nx.successors in H.
      destruct (Nx.has_node G c) eqn:En; [| discriminate].
      assert (Hlen : len (set_add visited c) = (len visited + 1)%Z).
      { unfold set_add. rewrite Ec. unfold len. rewrite length_app. simpl. lia. }
      eapply IH; [exact H | | | |].
      * apply Forall_app. split.
        -- eapply Forall_impl; [| exact Hq']. simpl. intros e He. lia.
        -- apply Forall_forall. intros e He. apply in_map_iff in He.
           destruct He as [s [<- _]]. simpl. lia.
      * rewrite Hlen. lia.
      * unfold set_add. rewrite Ec. apply NoDup_app; [assumption | | ].
        -- constructor; [intros [] | constructor].
        -- intros x Hx [<- | []]. apply mem_In in Hx. congruence.
      * intros x Hx. apply set_add_In in Hx. destruct Hx as [Hx | ->].
        -- now apply Hin.
        -- now apply mem_In.
Qed.

(** X1. The breadth-first search of [_calculate_dependency_depth] always
    empties its queue: on any graph and for any node, one round more than
    the graph has edges is enough, so the search ends with a depth or
    with the error of a [successors] call, never by running on. *)
Theorem dependency_depth_search_completes :
  forall (g : SupplyChainGraph) (n : string),
  exists r,
    depth_loop (S (List.length (Nx.adj (graph g)))) (graph g) [(n, 0%Z)] [] 0%Z
    = Some r.
Proof.
  intros g n. apply depth_loop_fuel. simpl.
  pose proof (filter_length_le (fun e : string * string * Nx.EdgeData => true)
                               (Nx.adj (graph g))).
  lia.
Qed.

(** X2. The dependency depth of a node is never negative and is less
    than the number of nodes of the graph (0 for a node that is not in
    the graph). *)
Theorem dependency_depth_below_node_count :
  forall (g : SupplyChainGraph) (n : string),
    (0 <= _calculate_dependency_depth g n
     <= Z.max 0 (Nx.number_of_nodes (graph g) - 1))%Z.
Proof.
  intros g n. unfold _calculate_dependency_depth.
  destruct (Nx.has_node (graph g) n); [| lia].
  destruct (depth_loop _ _ _ _ _) as [[d | e] |] eqn:E; try lia.
  eapply depth_loop_bound; [exact E | | | constructor | intros x []].
  - constructor; [simpl; unfold len; simpl; lia | constructor].
  - unfold len. simpl. lia.
Qed.

Lemma pair_eqb_eq (a b : string * string) : pair_eqb a b = true <-> a = b.
Proof.
  destruct a as [a1 a2], b as [b1 b2]. unfold pair_eqb. simpl.
  rewrite andb_true_iff, !String.eqb_eq. split.
  - intros [-> ->]. reflexivity.
  - intros [= -> ->]. auto.
Qed.

Lemma get2_set_item2 {V} (d : list ((string * string) * V))
  (k k' : string * string) (v : V) :
  get2 (set_item2 d k v) k' = if pair_eqb k k' then Some v else get2 d k'.
Proof.
  induction d as [| [k0 v0] d IH]; simpl.
  - reflexivity.
  - destruct (pair_eqb k0 k) eqn:E0; simpl.
    + apply pair_eqb_eq in E0. subst k0.
      destruct (pair_eqb k k'); reflexivity.
    + rewrite IH. destruct (pair_eqb k0 k') eqn:E1; [| reflexivity].
      destruct (pair_eqb k k') eqn:E2; [| reflexivity].
      apply pair_eqb_eq in E1. apply pair_eqb_eq in E2. subst.
      now rewrite pair_eqb_refl in E0.
Qed.

(** [d[k] = v] keeps the keys of [d], and adds [k] at the end when it is
    new. *)
Lemma keys_set_item2 {V} (d : list ((string * string) * V))
  (k : string * string) (v : V) :
  map fst (set_item2 d k v)
  = match get2 d k with
    | Some _ => map fst d
    | None => (map fst d ++ [k])%list
    end.
Proof.
  induction d as [| [k0 v0] d IH]; simpl; [reflexivity |].
  destruct (pair_eqb k0 k) eqn:E; simpl.
  - apply pair_eqb_eq in E. now subst.
  - rewrite IH. now destruct (get2 d k).
Qed.

Lemma keys_set_item {V} (d : list (string * V)) (k : string) (v : V) :
  map fst (set_item d k v)
  = match get d k with
    | Some _ => map fst d
    | None => (map fst d ++ [k])%list
    end.
Proof.
  induction d as [| [k0 v0] d IH]; simpl; [reflexivity |].
  destruct (String.eqb k0 k) eqn:E; simpl.
  - apply String.eqb_eq in E. now subst.
  - rewrite IH. now destruct (get d k).
Qed.

(** The degrees of a node read the keys of the adjacency only. *)
Lemma out_degree_keys (G : Nx.DiGraph) (n : string) :
  Nx.out_degree G n
  = len (filter (fun k : string * string => String.eqb (fst k) n)
                (map fst (Nx.adj G))).
Proof.
  unfold Nx.out_degree, Nx.succ_list, len. rewrite length_map. f_equal.
  induction (Nx.adj G) as [| [k d] l IH]; simpl; [reflexivity |].
  destruct (String.eqb (fst k) n); simpl; now rewrite IH.
Qed.

Lemma in_degree_keys (G : Nx.DiGraph) (n : string) :
  Nx.in_degree G n
  = len (filter (fun k : string * string => String.eqb (snd k) n)
                (map fst (Nx.adj G))).
Proof.
  unfold Nx.in_degree, Nx.pred_list, len. rewrite length_map. f_equal.
  induction (Nx.adj G) as [| [k d] l IH]; simpl; [reflexivity |].
  destruct (String.eqb (snd k) n); simpl; now rewrite IH.
Qed.

Lemma adj_touch_node (G : Nx.DiGraph) (n : string) :
  Nx.adj (Nx.touch_node G n) = Nx.adj G.
Proof. unfold Nx.touch_node. now destruct (Nx.has_node G n). Qed.

Lemma keys_add_edge (G : Nx.DiGraph) (u v : string) (attr : Nx.EdgeData) :
  map fst (Nx.adj (Nx.add_edge G u v attr))
  = if Nx.has_edge G u v then map fst (Nx.adj G)
    else (map fst (Nx.adj G) ++ [(u, v)])%list.
Proof.
  unfold Nx.add_edge, Nx.has_edge. cbn [Nx.adj].
  rewrite keys_set_item2, !adj_touch_node.
  now destruct (get2 (Nx.adj G) (u, v)).
Qed.

(** An edge from [u] to [v] changes the out-degree of [u] and the
    in-degree of [v] only. *)
Lemma out_degree_add_edge_other (G : Nx.DiGraph) (u v n : string)
  (attr : Nx.EdgeData) :
  n <> u -> Nx.out_degree (Nx.add_edge G u v attr) n = Nx.out_degree G n.
Proof.
  intros Hn. rewrite !out_degree_keys, keys_add_edge.
  destruct (Nx.has_edge G u v); [reflexivity |].
  rewrite filter_app. simpl.
  destruct (String.eqb u n) eqn:E.
  - apply String.eqb_eq in E. congruence.
  - now rewrite app_nil_r.
Qed.

Lemma in_degree_add_edge_other (G : Nx.DiGraph) (u v n : string)
  (attr : Nx.EdgeData) :
  n <> v -> Nx.in_degree (Nx.add_edge G u v attr) n = Nx.in_degree G n.
Proof.
  intros Hn. rewrite !in_degree_keys, keys_add_edge.
  destruct (Nx.has_edge G u v); [reflexivity |].
  rewrite filter_app. simpl.
  destruct (String.eqb v n) eqn:E.
  - apply String.eqb_eq in E. congruence.
  - now rewrite app_nil_r.
Qed.

Lemma has_node_add_node (G : Nx.DiGraph) (n m : string) (attr : Nx.NodeData) :
  Nx.has_node (Nx.add_node G n attr) m
  = Nx.has_node G m || String.eqb m n.
Proof.
  unfold Nx.add_node, Nx.has_node, Nx.nodes.
  destruct (get (Nx.node_dict G) n) as [old |] eqn:E; cbn [Nx.node_dict].
  - rewrite keys_set_item, E.
    destruct (String.eqb m n) eqn:Em; [| now rewrite orb_false_r].
    apply String.eqb_eq in Em. subst m. rewrite orb_true_r.
    apply get_In in E. apply mem_In. apply in_map_iff.
    now exists (n, old).
  - rewrite map_app. cbn [map fst]. apply mem_snoc.
Qed.

Lemma get_snoc_other {V} (d : list (string * V)) (k k' : string) (v : V) :
  k <> k' -> get (d ++ [(k, v)]) k' = get d k'.
Proof.
  intros Hk. induction d as [| [k0 v0] d IH]; simpl.
  - destruct (String.eqb k k') eqn:E; [| reflexivity].
    apply String.eqb_eq in E. contradiction.
  - now rewrite IH.
Qed.

(** X3. [add_node] then look up: the node is in the graph, carrying the
    tier and the scores given in its attributes and in [node_features],
    with the degrees the graph has for it; the edges, and the attributes
    and features of every other node, are untouched; adding a node that
    is already there keeps the node list as it was. *)
Theorem add_node_then_lookup :
  forall (g : SupplyChainGraph) (n : string) (ty : NodeType) (tier : Z)
         (risk crit : Q) (md : NodeMeta),
    let g' := GraphEngine.add_node g n ty tier risk crit md in
    Nx.has_node (graph g') n = true
    /\ (exists d,
          Nx.node_data (graph g') n = Ok d
          /\ Nx.nd_node_type d = Some (node_type_value ty)
          /\ Nx.nd_tier d = Some tier
          /\ Nx.nd_risk_score d = Some risk
          /\ Nx.nd_criticality_score d = Some crit)
    /\ (exists f,
          get (node_features g') n = Some f
          /\ nf_node_type f = ty /\ nf_tier f = tier
          /\ nf_risk_score f = risk /\ nf_criticality_score f = crit
          /\ nf_in_degree f = Nx.in_degree (graph g') n
          /\ nf_out_degree f = Nx.out_degree (graph g') n)
    /\ Nx.adj (graph g') = Nx.adj (graph g)
    /\ edge_features g' = edge_features g
    /\ (forall m, m <> n ->
          Nx.has_node (graph g') m = Nx.has_node (graph g) m
          /\ Nx.node_data (graph g') m = Nx.node_data (graph g) m
          /\ get (node_features g') m = get (node_features g) m)
    /\ (Nx.has_node (graph g) n = true ->
        Nx.nodes (graph g') = Nx.nodes (graph g)).
Proof.
  intros g n ty tier risk crit md g'. subst g'.
  unfold GraphEngine.add_node. cbn [graph node_features edge_features].
  split; [| split; [| split; [| split; [| split; [| split]]]]].
  - rewrite has_node_add_node, String.eqb_refl. apply orb_true_r.
  - unfold Nx.node_data, Nx.add_node.
    destruct (get (Nx.node_dict (graph g)) n) as [old |] eqn:E;
      cbn [Nx.node_dict].
    + rewrite get_set_item, String.eqb_refl. eexists. split; [reflexivity |].
      unfold Nx.update_node_data. cbn. auto.
    + rewrite (get_app_absent _ _ _ E). eexists. split; [reflexivity |].
      cbn. auto.
  - rewrite get_set_item, String.eqb_refl. eexists. split; [reflexivity |].
    cbn. auto 10.
  - unfold Nx.add_node. now destruct (get (Nx.node_dict (graph g)) n).
  - reflexivity.
  - intros m Hm. split; [| split].
    + rewrite has_node_add_node.
      destruct (String.eqb m n) eqn:E; [| apply orb_false_r].
      apply String.eqb_eq in E. contradiction.
    + unfold Nx.node_data, Nx.add_node.
      destruct (get (Nx.node_dict (graph g)) n) as [old |] eqn:E;
        cbn [Nx.node_dict].
      * rewrite get_set_item.
        destruct (String.eqb n m) eqn:E'; [| reflexivity].
        apply String.eqb_eq in E'. congruence.
      * rewrite get_snoc_other; [reflexivity | congruence].
    + rewrite get_set_item.
      destruct (String.eqb n m) eqn:E'; [| reflexivity].
      apply String.eqb_eq in E'. congruence.
  - intros Hn. unfold Nx.add_node, Nx.nodes.
    destruct (get (Nx.node_dict (graph g)) n) as [old |] eqn:E;
      cbn [Nx.node_dict].
    + now rewrite keys_set_item, E.
    + apply mem_In in Hn. apply get_Some_of_mem in Hn.
      destruct Hn as [v Hv]. unfold Nx.nodes in *. congruence.
Qed.

Lemma degrees_add_node (G : Nx.DiGraph) (n m : string) (attr : Nx.NodeData) :
  Nx.in_degree (Nx.add_node G n attr) m = Nx.in_degree G m
  /\ Nx.out_degree (Nx.add_node G n attr) m = Nx.out_degree G m.
Proof.
  unfold Nx.in_degree, Nx.out_degree, Nx.pred_list, Nx.succ_list, Nx.add_node.
  now destruct (get (Nx.node_dict G) n).
Qed.

(** X4. The two mutators of [SupplyChainGraph] keep the recorded degrees
    right: when the [in_degree] and [out_degree] of every entry of
    [node_features] are those of the graph, they still are after
    [add_node] and after [add_edge] (which updates the out-degree of the
    source and the in-degree of the target, the only two it changes). *)
Theorem degree_features_stay_in_sync :
  forall (g : SupplyChainGraph),
    degrees_in_sync g ->
    (forall n ty tier risk crit md,
        degrees_in_sync (GraphEngine.add_node g n ty tier risk crit md))
    /\ (forall source target ty cat strength crit md g',
           GraphEngine.add_edge g source target ty cat strength crit md = Ok g' ->
           degrees_in_sync g').
Proof.
  intros g Hs. split.
  - intros n ty tier risk crit md m f.
    unfold GraphEngine.add_node. cbn [graph node_features].
    rewrite get_set_item.
    destruct (degrees_add_node (graph g) n m
                {| Nx.nd_node_type := Some (node_type_value ty);
                   Nx.nd_tier := Some tier;
                   Nx.nd_risk_score := Some risk;
                   Nx.nd_criticality_score := Some crit;
                   Nx.nd_name := m_name md;
                   Nx.nd_category := m_category md;
                   Nx.nd_lastAudit := m_lastAudit md;
                   Nx.nd_certifications := m_certifications md;
                   Nx.nd_contractType := m_contractType md |}) as [Hi Ho].
    destruct (String.eqb n m) eqn:E.
    + apply String.eqb_eq in E. subst m. intros [= <-]. cbn. auto.
    + intros Hf. rewrite Hi, Ho. now apply Hs.
  - intros s t ty cat strength crit md g'.
    unfold GraphEngine.add_edge.
    destruct (existsb _ md); [discriminate |].
    intros [= <-]. intros m f. cbn [graph node_features].
    set (G' := Nx.add_edge (graph g) s t _).
    set (nf1 := match get (node_features g) s with
                | Some f0 => set_item (node_features g) s
                               (set_out_degree f0 (Nx.out_degree G' s))
                | None => node_features g
                end).
    assert (H1 : forall k f1, get nf1 k = Some f1 ->
                  nf_out_degree f1 = Nx.out_degree G' k
                  /\ (nf_in_degree f1 = Nx.in_degree (graph g) k)).
    { intros k f1. subst nf1.
      destruct (get (node_features g) s) as [f0 |] eqn:E0.
      - rewrite get_set_item. destruct (String.eqb s k) eqn:E.
        + apply String.eqb_eq in E. subst k. intros [= <-]. cbn.
          split; [reflexivity | now apply Hs].
        + intros Hk. apply Hs in Hk. destruct Hk as [Hi Ho].
          split; [| assumption]. subst G'.
          rewrite out_degree_add_edge_other; [assumption |].
          intros ->. now rewrite String.eqb_refl in E.
      - intros Hk. destruct (String.eqb s k) eqn:E.
        + apply String.eqb_eq in E. subst k. congruence.
        + apply Hs in Hk. destruct Hk as [Hi Ho].
          split; [| assumption]. subst G'.
          rewrite out_degree_add_edge_other; [assumption |].
          intros ->. now rewrite String.eqb_refl in E. }
    destruct (get nf1 t) as [ft |] eqn:Et.
    + rewrite get_set_item. destruct (String.eqb t m) eqn:E.
      * apply String.eqb_eq in E. subst m. intros [= <-]. cbn.
        split; [reflexivity | now apply H1].
      * intros Hm. apply H1 in Hm. destruct Hm as [Ho Hi].
        split; [| assumption]. subst G'.
        rewrite in_degree_add_edge_other; [assumption |].
        intros ->. now rewrite String.eqb_refl in E.
    + intros Hm. destruct (String.eqb t m) eqn:E.
      * apply String.eqb_eq in E. subst m. congruence.
      * apply H1 in Hm. destruct Hm as [Ho Hi].
        split; [| assumption]. subst G'.
        rewrite in_degree_add_edge_other; [assumption |].
        intros ->. now rewrite String.eqb_refl in E.
Qed.

Lemma get2_Some_of_In {V} (d : list ((string * string) * V))
  (k : string * string) (v : V) :
  In (k, v) d -> exists v', get2 d k = Some v'.
Proof.
  induction d as [| [k0 v0] d IH]; simpl; [tauto |].
  intros [[= -> ->] | H].
  - rewrite pair_eqb_refl. eauto.
  - destruct (pair_eqb k0 k); eauto.
Qed.

Lemma succ_list_has_edge (G : Nx.DiGraph) (c s : string) :
  In s (Nx.succ_list G c) -> Nx.has_edge G c s = true.
Proof.
  unfold Nx.succ_list, Nx.has_edge. intros H. apply in_map_iff in H.
  destruct H as [[[u v] d] [<- H]]. apply filter_In in H.
  destruct H as [H E]. simpl in *. apply String.eqb_eq in E. subst u.
  apply get2_Some_of_In in H. destruct H as [v' ->]. reflexivity.
Qed.

Lemma follows_edges_snoc (G : Nx.DiGraph) (pre : list string) (c s : string) :
  follows_edges G (pre ++ [c]) -> Nx.has_edge G c s = true ->
  follows_edges G ((pre ++ [c]) ++ [s]).
Proof.
  induction pre as [| a pre IH]; simpl; intros H E; [auto |].
  destruct pre as [| b pre]; simpl in *.
  - tauto.
  - destruct H as [H1 H2]. split; [assumption | now apply IH].
Qed.

Lemma NoDup_snoc (l : list string) (x : string) :
  NoDup l -> mem x l = false -> NoDup (l ++ [x]).
Proof.
  intros Hl Hx. apply NoDup_app; [assumption | |].
  - constructor; [intros [] | constructor].
  - intros y Hy [<- | []]. apply mem_In in Hy. congruence.
Qed.

Lemma extends_path_deeper (G : Nx.DiGraph) (pre : list string) (c s : string)
  (n : nat) (p : PropagationPath) :
  mem s (pre ++ [c]) = false -> Nx.has_edge G c s = true ->
  extends_path G ((pre ++ [c]) ++ [s]) n p ->
  extends_path G (pre ++ [c]) (S n) p.
Proof.
  intros Hm He (ext & Hp & Hl & Hn & Hf & Hd & Hi).
  exists (s :: ext). repeat split.
  - rewrite Hp, <- app_assoc. reflexivity.
  - simpl. lia.
  - simpl. lia.
  - intros H. apply Hn. now apply NoDup_snoc.
  - intros H. apply Hf. now apply follows_edges_snoc.
  - assumption.
  - assumption.
Qed.

Lemma dfs_successors_extend
  (rec : string -> list string -> Q -> pyresult (list PropagationPath))
  (g : SupplyChainGraph) (pre : list string) (c : string) (n : nat) :
  (forall s acc ps,
      rec s ((pre ++ [c]) ++ [s])%list acc = Ok ps ->
      Forall (extends_path (graph g) ((pre ++ [c]) ++ [s]) n) ps) ->
  forall (succs : list string) (acc : Q) (ps : list PropagationPath),
    (forall s, In s succs -> Nx.has_edge (graph g) c s = true) ->
    dfs_successors rec g c (pre ++ [c]) acc succs = Ok ps ->
    Forall (extends_path (graph g) (pre ++ [c]) (S n)) ps.
Proof.
  intros Hrec. induction succs as [| s succs IH]; intros acc ps Hs H.
  - simpl in H. injection H as <-. constructor.
  - cbn [dfs_successors] in H.
    assert (Hs' : forall t, In t succs -> Nx.has_edge (graph g) c t = true)
      by (intros t Ht; apply Hs; now right).
    destruct (mem s (pre ++ [c])) eqn:Em; [now apply (IH acc) |].
    destruct (rec s ((pre ++ [c]) ++ [s])%list _) as [deeper | e] eqn:Er;
      [| discriminate].
    cbn [bind] in H.
    destruct (dfs_successors rec g c (pre ++ [c]) acc succs)
      as [others | e] eqn:Eo; [| discriminate].
    cbn [bind] in H. injection H as <-.
    assert (He : Nx.has_edge (graph g) c s = true) by (apply Hs; now left).
    constructor; [| apply Forall_app; split].
    + exists [s]. cbn [path propagation_delay impact_level risk_score].
      repeat split.
      * simpl. lia.
      * simpl. lia.
      * intros H. now apply NoDup_snoc.
      * intros H. now apply follows_edges_snoc.
    + apply Hrec in Er. eapply Forall_impl; [| exact Er].
      intros p Hp. now apply extends_path_deeper with (s := s).
    + now apply (IH acc).
Qed.

Lemma dfs_paths_extend (g : SupplyChainGraph) (fuel : nat) :
  forall (pre : list string) (c : string) (acc : Q)
         (ps : list PropagationPath),
    dfs_paths fuel g c (pre ++ [c]) acc = Ok ps ->
    Forall (extends_path (graph g) (pre ++ [c]) fuel) ps.
Proof.
  induction fuel as [| fuel IH]; intros pre c acc ps H.
  - simpl in H. injection H as <-. constructor.
  - cbn [dfs_paths] in H. unfold Nx.successors in H.
    destruct (Nx.has_node (graph g) c); [| discriminate].
    cbn [bind] in H.
    eapply dfs_successors_extend; [| | exact H].
    + intros s acc' ps' H'. exact (IH (pre ++ [c])%list s acc' ps' H').
    + intros s. apply succ_list_has_edge.
Qed.

Lemma insert_desc_In {A} (key : A -> Q) (x y : A) (l : list A) :
  In y (insert_desc key x l) <-> y = x \/ In y l.
Proof.
  induction l as [| z l IH]; simpl.
  - intuition.
  - destruct (Qle_bool (key x) (key z)); simpl; rewrite ?IH; intuition.
Qed.

Lemma sorted_desc_In {A} (key : A -> Q) (l : list A) (y : A) :
  In y (sorted_desc key l) <-> In y l.
Proof.
  unfold sorted_desc.
  assert (G : forall acc, In y (fold_left (fun a x => insert_desc key x a) l acc)
                          <-> In y acc \/ In y l).
  { induction l as [| x l IH]; intros acc; simpl; [intuition |].
    rewrite IH, insert_desc_In. intuition. }
  rewrite G. simpl. intuition.
Qed.

Lemma sorted_desc_length {A} (key : A -> Q) (l : list A) :
  List.length (sorted_desc key l) = List.length l.
Proof.
  unfold sorted_desc.
  assert (G : forall acc,
             List.length (fold_left (fun a x => insert_desc key x a) l acc)
             = (List.length acc + List.length l)%nat).
  { induction l as [| x l IH]; intros acc; simpl; [lia |].
    rewrite IH, insert_desc_length. lia. }
  now rewrite G.
Qed.

Lemma insert_desc_descending {A} (key : A -> Q) (x : A) (l : list A) :
  descending_by key l -> descending_by key (insert_desc key x l).
Proof.
  induction l as [| y l IH]; intros H; [exact I |].
  cbn [insert_desc]. destruct (Qle_bool (key x) (key y)) eqn:E.
  - apply Qle_bool_iff in E.
    destruct l as [| z l].
    + simpl. auto.
    + cbn [descending_by] in H. destruct H as [H1 H2].
      specialize (IH H2). cbn [insert_desc] in *.
      destruct (Qle_bool (key x) (key z)); cbn [descending_by] in *; tauto.
  - cbn [descending_by]. split; [| exact H].
    apply Qlt_le_weak. apply Qnot_le_lt. intros C.
    apply Qle_bool_iff in C. congruence.
Qed.

Lemma sorted_desc_descending {A} (key : A -> Q) (l : list A) :
  descending_by key (sorted_desc key l).
Proof.
  unfold sorted_desc.
  assert (G : forall acc, descending_by key acc ->
             descending_by key (fold_left (fun a x => insert_desc key x a) l acc)).
  { induction l as [| x l IH]; intros acc H; simpl; [assumption |].
    apply IH. now apply insert_desc_descending. }
  apply G. exact I.
Qed.

Lemma descending_firstn {A} (key : A -> Q) (n : nat) (l : list A) :
  descending_by key l -> descending_by key (firstn n l).
Proof.
  revert l. induction n as [| n IH]; intros [| x l] H; try exact I.
  cbn [firstn]. destruct l as [| y l]; [destruct n; exact I |].
  destruct n as [| n]; [exact I |].
  cbn [descending_by] in H. destruct H as [H1 H2].
  specialize (IH (y :: l) H2). cbn [firstn] in *. cbn [descending_by].
  split; assumption.
Qed.

Lemma descending_slice_to {A} (key : A -> Q) (n : Z) (l : list A) :
  descending_by key l -> descending_by key (slice_to l n).
Proof. unfold slice_to. destruct (n <? 0)%Z; apply descending_firstn. Qed.

(** X5. What [find_critical_paths] returns: at most 20 paths, in
    descending order of risk; each starts at the source, repeats no node,
    follows edges of the graph, has between 1 and [max_depth] hops and a
    delay of 300 per node.  A source that is not in the graph, or a
    [max_depth] of zero or less, gives the empty list. *)
Theorem find_critical_paths_returns_simple_paths :
  forall (g : SupplyChainGraph) (source : string) (max_depth : Z),
    (forall ps,
        find_critical_paths g source max_depth = Ok ps ->
        (List.length ps <= 20)%nat
        /\ descending_by GraphEngine.risk_score ps
        /\ forall p, In p ps ->
             hd_error (path p) = Some source
             /\ NoDup (path p)
             /\ follows_edges (graph g) (path p)
             /\ (2 <= len (path p) <= Z.max 1 (max_depth + 1))%Z
             /\ propagation_delay p = (len (path p) * 300)%Z)
    /\ (Nx.has_node (graph g) source = false ->
        find_critical_paths g source max_depth = Ok [])
    /\ ((max_depth <= 0)%Z ->
        Nx.has_node (graph g) source = true ->
        find_critical_paths g source max_depth = Ok []).
Proof.
  intros g source max_depth. split; [| split].
  - intros ps H. unfold find_critical_paths in H.
    destruct (Nx.has_node (graph g) source) eqn:En.
    + destruct (dfs_paths _ g source [source] _) as [paths | e] eqn:E;
        [| discriminate].
      cbn [bind] in H. injection H as <-.
      apply (dfs_paths_extend g _ [] source) in E.
      split; [| split].
      * unfold slice_to. change (20 <? 0)%Z with false. cbv iota.
        rewrite length_firstn. change (Z.to_nat 20) with 20%nat. lia.
      * apply descending_slice_to, sorted_desc_descending.
      * intros p Hp. apply In_slice_to in Hp. apply sorted_desc_In in Hp.
        rewrite Forall_forall in E. specialize (E p Hp).
        destruct E as (ext & Hpath & Hl & Hn & Hf & Hd & _).
        rewrite Hpath in *. cbn [app] in *.
        split; [reflexivity |]. split; [| split; [| split]].
        -- apply Hn. constructor; [intros [] | constructor].
        -- apply Hf. exact I.
        -- unfold len. cbn [List.length]. lia.
        -- exact Hd.
    + cbn [bind] in H. injection H as <-. split; [simpl; lia |].
      split; [exact I | intros p []].
  - intros En. unfold find_critical_paths. rewrite En. reflexivity.
  - intros Hd En. unfold find_critical_paths. rewrite En.
    replace (Z.to_nat max_depth) with 0%nat by lia. reflexivity.
Qed.

Lemma succ_list_are_nodes (G : Nx.DiGraph) (c s : string) :
  endpoints_are_nodes G -> In s (Nx.succ_list G c) -> Nx.has_node G s = true.
Proof.
  intros Hw H. unfold Nx.succ_list in H. apply in_map_iff in H.
  destruct H as [e [<- H]]. apply filter_In in H. now apply Hw.
Qed.

Lemma dfs_successors_ok
  (rec : string -> list string -> Q -> pyresult (list PropagationPath))
  (g : SupplyChainGraph) (c : string) :
  forall (succs pth : list string) (acc : Q),
    (forall s pth' acc', In s succs -> exists ps, rec s pth' acc' = Ok ps) ->
    exists ps, dfs_successors rec g c pth acc succs = Ok ps.
Proof.
  induction succs as [| s succs IH]; intros pth acc Hrec; [simpl; eauto |].
  cbn [dfs_successors].
  destruct (IH pth acc) as [others Ho].
  { intros t pth' acc' Ht. apply Hrec. now right. }
  destruct (mem s pth); [eauto |].
  destruct (Hrec s (pth ++ [s])%list
              (acc * strength_or_half g c s * (1 + risk_or_half g s))
              (or_introl eq_refl)) as [deeper Hd].
  rewrite Hd. cbn [bind]. rewrite Ho. cbn [bind]. eauto.
Qed.

Lemma dfs_paths_ok (g : SupplyChainGraph) (fuel : nat) :
  endpoints_are_nodes (graph g) ->
  forall (c : string) (pth : list string) (acc : Q),
    Nx.has_node (graph g) c = true ->
    exists ps, dfs_paths fuel g c pth acc = Ok ps.
Proof.
  intros Hw. induction fuel as [| fuel IH]; intros c pth acc Hc;
    [simpl; eauto |].
  cbn [dfs_paths]. unfold Nx.successors. rewrite Hc. cbn [bind].
  apply dfs_successors_ok. intros s pth' acc' Hs. apply IH.
  now apply succ_list_are_nodes with (c := c).
Qed.

(** X6. [find_critical_paths] returns (it never raises) on a graph in
    which the endpoints of every edge are nodes, for any source and any
    depth. *)
Theorem find_critical_paths_returns :
  forall (g : SupplyChainGraph) (source : string) (max_depth : Z),
    endpoints_are_nodes (graph g) ->
    exists ps, find_critical_paths g source max_depth = Ok ps.
Proof.
  intros g source max_depth Hw. unfold find_critical_paths.
  destruct (Nx.has_node (graph g) source) eqn:En.
  - destruct (dfs_paths_ok g (Z.to_nat max_depth) Hw source [source]
                (risk_or_half g source) En) as [ps ->].
    cbn [bind]. eauto.
  - cbn [bind]. eauto.
Qed.

Lemma find_critical_paths_returns_witness :
  endpoints_are_nodes (graph Examples.chain)
  /\ exists ps, find_critical_paths Examples.chain "A" 5 = Ok ps.
Proof.
  assert (H : endpoints_are_nodes (graph Examples.chain)).
  { intros e He. simpl in He.
    repeat (destruct He as [<- | He]; [split; reflexivity |]).
    destruct He. }
  split; [exact H | exact (find_critical_paths_returns Examples.chain "A" 5 H)].
Defined.

Lemma fold_set_add_length (l s : list string) :
  (List.length s <= List.length (fold_left set_add l s))%nat.
Proof.
  revert s. induction l as [| x l IH]; intros s; simpl; [lia |].
  pose proof (set_add_length s x). specialize (IH (set_add s x)). lia.
Qed.

Lemma fold_set_add_fresh (l s : list string) :
  NoDup (s ++ l) -> fold_left set_add l s = (s ++ l)%list.
Proof.
  revert s. induction l as [| x l IH]; intros s H; simpl.
  - now rewrite app_nil_r.
  - assert (Hx : mem x s = false).
    { destruct (mem x s) eqn:E; [| reflexivity]. apply mem_In in E.
      apply NoDup_remove_2 in H. exfalso. apply H. apply in_or_app. now left. }
    unfold set_add at 2. rewrite Hx. rewrite IH; rewrite <- app_assoc; auto.
Qed.

Lemma set_of_list_NoDup (l : list string) :
  NoDup l -> set_of_list l = l.
Proof. intros H. unfold set_of_list. now rewrite fold_set_add_fresh. Qed.

(** The loop over the successors only adds successors to the next wave. *)
Lemma cascade_neighbors_next (g : SupplyChainGraph) (th : Q)
  (comp : list string) (node : string) :
  forall (nbrs : list string) (acc : list string * list string) (x : string),
    In x (snd (cascade_neighbors g th comp node nbrs acc)) ->
    In x (snd acc) \/ In x nbrs.
Proof.
  induction nbrs as [| n nbrs IH]; intros [prop next] x H; simpl in *;
    [now left |].
  apply IH in H. destruct H as [H | H]; [| right; now right].
  destruct (negb (mem n comp) && negb (mem n prop)); [| now left].
  destruct (Qle_bool th _); [| now left].
  simpl in H. apply in_app_iff in H. destruct H as [H | [<- | []]]; auto.
Qed.

Lemma cascade_wave_next (g : SupplyChainGraph) (th : Q) (comp : list string) :
  forall (cw : list string) (acc out : list string * list string) (x : string),
    cascade_wave g th comp cw acc = Ok out ->
    In x (snd out) ->
    In x (snd acc) \/ exists c, In c cw /\ In x (Nx.succ_list (graph g) c).
Proof.
  induction cw as [| c cw IH]; intros acc out x H Hx.
  - simpl in H. injection H as <-. now left.
  - cbn [cascade_wave] in H. unfold Nx.successors in H.
    destruct (Nx.has_node (graph g) c); [| discriminate].
    cbn [bind] in H. destruct (IH _ _ x H Hx) as [H1 | [c' [Hc Hs]]].
    + apply cascade_neighbors_next in H1. destruct H1 as [H1 | H1]; [now left |].
      right. exists c. split; [now left | assumption].
    + right. exists c'. split; [now right | assumption].
Qed.

Lemma cascade_wave_ok (g : SupplyChainGraph) (th : Q) (comp : list string) :
  forall (cw : list string) (acc : list string * list string),
    (forall c, In c cw -> Nx.has_node (graph g) c = true) ->
    exists out, cascade_wave g th comp cw acc = Ok out.
Proof.
  induction cw as [| c cw IH]; intros acc H; [simpl; eauto |].
  cbn [cascade_wave]. unfold Nx.successors.
  rewrite (H c (or_introl eq_refl)). cbn [bind].
  apply IH. intros c' Hc'. apply H. now right.
Qed.

Lemma cascade_wave_raises (g : SupplyChainGraph) (th : Q) (comp : list string) :
  forall (cw : list string) (acc : list string * list string) (n : string),
    In n cw -> Nx.has_node (graph g) n = false ->
    cascade_wave g th comp cw acc = Raise NetworkXError.
Proof.
  induction cw as [| c cw IH]; intros acc n Hn Hg; [destruct Hn |].
  cbn [cascade_wave]. unfold Nx.successors.
  destruct (Nx.has_node (graph g) c) eqn:Ec; [| reflexivity].
  cbn [bind]. destruct Hn as [-> | Hn]; [congruence |].
  now apply IH with (n := n).
Qed.

Lemma cascade_loop_ok (g : SupplyChainGraph) (th : Q) (fuel : nat) :
  endpoints_are_nodes (graph g) ->
  forall (comp prop : list string) (waves : list Wave) (cw : list string)
         (wn : Z),
    (forall c, In c cw -> Nx.has_node (graph g) c = true) ->
    exists out, cascade_loop fuel g th comp prop waves cw wn = Ok out.
Proof.
  intros Hw. induction fuel as [| fuel IH]; intros comp prop waves cw wn Hc;
    [simpl; eauto |].
  destruct cw as [| c cw]; [simpl; eauto |].
  cbn [cascade_loop].
  destruct (cascade_wave_ok g th comp (c :: cw) (prop, []) Hc) as [[p nw] E].
  rewrite E. cbn [bind]. apply IH. intros x Hx.
  destruct (cascade_wave_next _ _ _ _ _ x E Hx) as [[] | [c' [_ Hs]]].
  now apply succ_list_are_nodes with (c := c').
Qed.

Lemma cascade_loop_spec (g : SupplyChainGraph) (th : Q) (fuel : nat) :
  forall (comp prop : list string) (waves : list Wave) (cw : list string)
         (wn : Z) (comp' : list string) (waves' : list Wave),
    cascade_loop fuel g th comp prop waves cw wn = Ok (comp', waves') ->
    incl comp comp'
    /\ (List.length comp <= List.length comp')%nat
    /\ exists news,
         waves' = (waves ++ news)%list
         /\ (List.length news <= fuel)%nat
         /\ waves_from wn news
         /\ (cw = [] -> news = []).
Proof.
  induction fuel as [| fuel IH]; intros comp prop waves cw wn comp' waves' H.
  - simpl in H. injection H as <- <-. split; [apply incl_refl |].
    split; [lia |]. exists []. rewrite app_nil_r. simpl. auto.
  - destruct cw as [| c cw].
    + simpl in H. injection H as <- <-. split; [apply incl_refl |].
      split; [lia |]. exists []. rewrite app_nil_r. simpl.
      repeat split; auto; lia.
    + cbn [cascade_loop] in H.
      destruct (cascade_wave g th comp (c :: cw) (prop, []))
        as [[p nw] | e]; [| discriminate].
      cbn [bind] in H. apply IH in H.
      destruct H as (Hi & Hl & news & -> & Hn & Hf & _).
      split; [| split].
      * intros x Hx. apply Hi. apply fold_set_add_In. now left.
      * pose proof (fold_set_add_length p comp). lia.
      * eexists (_ :: news). rewrite <- app_assoc. split; [reflexivity |].
        split; [simpl; lia |]. split; [| discriminate].
        cbn [waves_from wave wave_timestamp wave_nodes].
        repeat split; [discriminate | exact Hf].
Qed.

(** X7. What [simulate_cascade_failure] returns: every initial node is
    among the compromised ones; there are at most 10 waves, numbered from
    0, 300 apart and none empty; the critical nodes are counted among the
    affected ones; the blast radius is the difference of the two counts
    it is built from.  With no initial node there is no wave and nothing
    is affected. *)
Theorem cascade_failure_result_shape :
  forall (g : SupplyChainGraph) (initial : list string) (th : Q),
    (forall r,
        simulate_cascade_failure g initial th = Ok r ->
        incl initial (cr_compromised_nodes r)
        /\ cr_total_affected r = len (cr_compromised_nodes r)
        /\ (0 <= cr_critical_affected r <= cr_total_affected r)%Z
        /\ (cr_cascade_depth r <= 10)%Z
        /\ cr_cascade_depth r = len (cr_propagation_waves r)
        /\ waves_from 0 (cr_propagation_waves r)
        /\ cr_blast_radius r = (cr_total_affected r - len initial)%Z)
    /\ exists r0,
         simulate_cascade_failure g [] th = Ok r0
         /\ cr_propagation_waves r0 = []
         /\ cr_total_affected r0 = 0%Z
         /\ cr_blast_radius r0 = 0%Z.
Proof.
  intros g initial th. split.
  - intros r H. unfold simulate_cascade_failure in H.
    destruct (cascade_loop 10 g th (set_of_list initial) [] [] initial 0)
      as [[comp waves] | e] eqn:E; [| discriminate].
    cbn [bind] in H. injection H as <-.
    cbn [cr_compromised_nodes cr_total_affected cr_critical_affected
         cr_cascade_depth cr_propagation_waves cr_blast_radius].
    apply cascade_loop_spec in E.
    destruct E as (Hi & Hl & news & -> & Hn & Hf & _). cbn [app].
    split; [| split; [| split; [| split; [| split; [| split]]]]];
      try reflexivity.
    + intros x Hx. apply Hi. now apply set_of_list_In.
    + unfold len.
      pose proof (filter_length_le
                    (fun n => (match get (node_features g) n with
                               | Some f => nf_tier f
                               | None => 3%Z
                               end =? 1)%Z) comp).
      lia.
    + unfold len. lia.
    + exact Hf.
  - eexists. split; [reflexivity |]. cbn. auto.
Qed.

(** X8. [simulate_cascade_failure] does not check its input: an initial
    node that is not in the graph makes it raise networkx's error, from
    the [successors] call of the first wave. *)
Theorem cascade_failure_unknown_node_raises :
  forall (g : SupplyChainGraph) (initial : list string) (th : Q) (n : string),
    In n initial ->
    Nx.has_node (graph g) n = false ->
    simulate_cascade_failure g initial th = Raise NetworkXError.
Proof.
  intros g initial th n Hn Hg. unfold simulate_cascade_failure.
  destruct initial as [| c cw]; [destruct Hn |].
  cbn [cascade_loop].
  rewrite (cascade_wave_raises g th _ (c :: cw) _ n Hn Hg). reflexivity.
Qed.

Lemma cascade_failure_unknown_node_raises_witness :
  In "Z" ["A"; "Z"]
  /\ Nx.has_node (graph Examples.chain) "Z" = false
  /\ simulate_cascade_failure Examples.chain ["A"; "Z"] (3 # 10)
     = Raise NetworkXError.
Proof.
  assert (H1 : In "Z" ["A"; "Z"]) by (right; left; reflexivity).
  assert (H2 : Nx.has_node (graph Examples.chain) "Z" = false) by reflexivity.
  split; [exact H1 |]. split; [exact H2 |].
  exact (@cascade_failure_unknown_node_raises Examples.chain ["A"; "Z"]
           (3 # 10) "Z" H1 H2).
Defined.

(** X9. On a graph whose edges join nodes, and from initial nodes that
    are in the graph and listed once each, [simulate_cascade_failure]
    returns, and its blast radius is not negative. *)
Theorem cascade_failure_blast_radius_nonneg :
  forall (g : SupplyChainGraph) (initial : list string) (th : Q),
    endpoints_are_nodes (graph g) ->
    (forall n, In n initial -> Nx.has_node (graph g) n = true) ->
    NoDup initial ->
    exists r,
      simulate_cascade_failure g initial th = Ok r
      /\ (0 <= cr_blast_radius r)%Z.
Proof.
  intros g initial th Hw Hin Hnd. unfold simulate_cascade_failure.
  destruct (cascade_loop_ok g th 10 Hw (set_of_list initial) [] [] initial 0
              Hin) as [[comp waves] E].
  rewrite E. cbn [bind]. eexists. split; [reflexivity |].
  cbn [cr_blast_radius]. apply cascade_loop_spec in E.
  destruct E as (_ & Hl & _). rewrite (set_of_list_NoDup Hnd) in Hl.
  unfold len. lia.
Qed.

Lemma chain_endpoints : endpoints_are_nodes (graph Examples.chain).
Proof.
  intros e He. simpl in He.
  repeat (destruct He as [<- | He]; [split; reflexivity |]).
  destruct He.
Qed.

Lemma cascade_failure_blast_radius_nonneg_witness :
  exists r,
    simulate_cascade_failure Examples.chain ["A"] (3 # 10) = Ok r
    /\ (0 <= cr_blast_radius r)%Z.
Proof.
  apply (@cascade_failure_blast_radius_nonneg Examples.chain ["A"] (3 # 10)
           chain_endpoints).
  - intros n [<- | []]. reflexivity.
  - constructor; [intros [] | constructor].
Defined.

Lemma set_item2_In {V} (d : list ((string * string) * V))
  (k : string * string) (v : V) (kv : (string * string) * V) :
  In kv (set_item2 d k v) -> kv = (k, v) \/ In kv d.
Proof.
  induction d as [| [k0 v0] d IH]; simpl.
  - intros [<- | []]. now left.
  - destruct (pair_eqb k0 k); simpl.
    + intros [<- | H]; [now left | right; now right].
    + intros [<- | H]; [right; now left |].
      destruct (IH H); [now left | right; now right].
Qed.

Lemma has_node_add_edge_mono (G : Nx.DiGraph) (u v m : string)
  (attr : Nx.EdgeData) :
  Nx.has_node G m = true -> Nx.has_node (Nx.add_edge G u v attr) m = true.
Proof.
  intros H. unfold Nx.add_edge, Nx.has_node, Nx.nodes. cbn [Nx.node_dict].
  change (Nx.has_node (Nx.touch_node (Nx.touch_node G u) v) m = true).
  now apply has_node_touch_mono, has_node_touch_mono.
Qed.

(** X10. The graph stays well formed under the two mutators of
    [SupplyChainGraph]: when both endpoints of every edge are nodes, they
    still are after [add_node] and after [add_edge] (which creates the
    endpoints it misses). *)
Theorem edges_keep_joining_nodes :
  forall (g : SupplyChainGraph),
    endpoints_are_nodes (graph g) ->
    (forall n ty tier risk crit md,
        endpoints_are_nodes
          (graph (GraphEngine.add_node g n ty tier risk crit md)))
    /\ (forall source target ty cat strength crit md g',
           GraphEngine.add_edge g source target ty cat strength crit md = Ok g' ->
           endpoints_are_nodes (graph g')).
Proof.
  intros g Hw. split.
  - intros n ty tier risk crit md e He.
    unfold GraphEngine.add_node in *. cbn [graph] in *.
    rewrite !has_node_add_node.
    assert (Ha : In e (Nx.adj (graph g))).
    { unfold Nx.add_node in He.
      now destruct (get (Nx.node_dict (graph g)) n). }
    destruct (Hw e Ha) as [-> ->]. auto.
  - intros s t ty cat strength crit md g'.
    unfold GraphEngine.add_edge.
    destruct (existsb _ md); [discriminate |].
    intros [= <-] e He. cbn [graph] in *.
    set (attr := {| Nx.ed_edge_type := Some (edge_type_value ty);
                    Nx.ed_dependency_category := Some cat;
                    Nx.ed_strength := Some strength;
                    Nx.ed_criticality := Some crit;
                    Nx.ed_extra := md |}) in *.
    destruct (has_node_add_edge (graph g) s t attr) as (Hs & Ht & _).
    unfold Nx.add_edge in He. cbn [Nx.adj] in He.
    apply set_item2_In in He. rewrite !adj_touch_node in He.
    destruct He as [-> | He]; [split; assumption |].
    destruct (Hw e He) as [H1 H2].
    split; now apply has_node_add_edge_mono.
Qed.

Lemma edges_keep_joining_nodes_witness :
  endpoints_are_nodes (graph Examples.chain)
  /\ endpoints_are_nodes
       (graph (GraphEngine.add_node Examples.chain "D" VENDOR 2 (1 # 2) 10
                                    no_meta)).
Proof.
  split; [exact chain_endpoints |].
  exact (proj1 (@edges_keep_joining_nodes Examples.chain chain_endpoints)
               "D" VENDOR 2%Z (1 # 2) 10 no_meta).
Defined.

Lemma degrees_in_sync_empty : degrees_in_sync GraphEngine.empty.
Proof. intros n f H. discriminate. Qed.

Lemma degree_features_stay_in_sync_witness :
  degrees_in_sync GraphEngine.empty
  /\ degrees_in_sync
       (GraphEngine.add_node GraphEngine.empty "A" VENDOR 1 (1 # 2) 50 no_meta).
Proof.
  split; [exact degrees_in_sync_empty |].
  exact (proj1 (@degree_features_stay_in_sync GraphEngine.empty
                  degrees_in_sync_empty)
               "A" VENDOR 1%Z (1 # 2) 50 no_meta).
Defined.

(** X11. [add_edge] then look up: the features of the edge are the ones
    just given, and the graph holds the edge with the given strength.
    Adding an edge that is already there replaces its features without
    adding a second edge; a new edge is one more; the features of every
    other edge are untouched. *)
Theorem add_edge_then_lookup :
  forall (g g' : SupplyChainGraph) (source target : string) (ty : EdgeType)
         (cat : string) (strength : Q) (crit : string)
         (md : list (string * string)),
    GraphEngine.add_edge g source target ty cat strength crit md = Ok g' ->
    get2 (edge_features g') (source, target)
    = Some {| ef_source := source; ef_target := target; ef_edge_type := ty;
              ef_dependency_category := cat; ef_strength := strength;
              ef_criticality := crit; ef_metadata := md |}
    /\ Nx.ed_strength (Nx.edge_data_or_empty (graph g') source target)
       = Some strength
    /\ Nx.number_of_edges (graph g')
       = (if Nx.has_edge (graph g) source target
          then Nx.number_of_edges (graph g)
          else Nx.number_of_edges (graph g) + 1)%Z
    /\ forall k, k <> (source, target) ->
         get2 (edge_features g') k = get2 (edge_features g) k
         /\ get2 (Nx.adj (graph g')) k = get2 (Nx.adj (graph g)) k.
Proof.
  intros g g' s t ty cat strength crit md.
  unfold GraphEngine.add_edge.
  destruct (existsb _ md); [discriminate |].
  intros [= <-]. cbn [graph edge_features].
  split; [apply get2_set_item2_same |]. split; [| split].
  - unfold Nx.edge_data_or_empty, Nx.add_edge. cbn [Nx.adj].
    rewrite get2_set_item2_same. reflexivity.
  - unfold Nx.number_of_edges, len.
    rewrite <- (length_map fst (Nx.adj (Nx.add_edge _ _ _ _))), keys_add_edge.
    destruct (Nx.has_edge (graph g) s t).
    + now rewrite length_map.
    + rewrite length_app, length_map. simpl. lia.
  - intros k Hk.
    assert (E : pair_eqb (s, t) k = false).
    { destruct (pair_eqb (s, t) k) eqn:E; [| reflexivity].
      apply pair_eqb_eq in E. congruence. }
    split.
    + now rewrite get2_set_item2, E.
    + unfold Nx.add_edge. cbn [Nx.adj].
      now rewrite get2_set_item2, E, !adj_touch_node.
Qed.

Lemma add_edge_then_lookup_witness :
  exists g',
    GraphEngine.add_edge Examples.chain "A" "B" SUPPLIES "data_flow" (1 # 2)
                         "high" [] = Ok g'
    /\ Nx.has_edge (graph Examples.chain) "A" "B" = true
    /\ Nx.number_of_edges (graph g') = Nx.number_of_edges (graph Examples.chain)
    /\ Nx.ed_strength (Nx.edge_data_or_empty (graph g') "A" "B")
       = Some (1 # 2).
Proof.
  eexists. split; [reflexivity |]. split; [reflexivity |].
  pose proof (@add_edge_then_lookup Examples.chain _ "A" "B" SUPPLIES
                "data_flow" (1 # 2) "high" [] eq_refl) as (_ & Hs & Hn & _).
  split; [exact Hn | exact Hs].
Defined.

(* ------------------------------------------------------------------ *)
(** ** simulation_engine.py: one wave and its bookkeeping              *)
(* ------------------------------------------------------------------ *)

Lemma apply_rules_delay (rules : list PropagationRule) (g : SupplyChainGraph)
  (s t : string) :
  Forall (fun r => 0 <= delay_modifier r <= 1) rules ->
  forall pd : Q * Q,
    0 <= snd pd ->
    0 <= snd (apply_rules rules g s t pd) <= snd pd.
Proof.
  induction 1 as [| r rules [Hr0 Hr1] _ IH]; intros pd Hpd; simpl.
  - split; [assumption | apply Qle_refl].
  - destruct (condition r s t g) as [[|] | e]; try (now apply IH).
    assert (H0 : 0 <= snd pd * delay_modifier r)
      by (now apply Qmult_le_0_compat).
    destruct (IH (fst pd * probability_modifier r, snd pd * delay_modifier r)
                 H0) as [H1 H2].
    split; [assumption |]. eapply Qle_trans; [exact H2 |]. simpl.
    rewrite <- (Qmult_1_r (snd pd)) at 2.
    rewrite !(Qmult_comm (snd pd)). now apply Qmult_le_compat_r.
Qed.

Lemma rules_only_shorten_delay (np : pyresult Q) :
  Forall (fun r => 0 <= delay_modifier r <= 1)
         (_initialize_propagation_rules np).
Proof.
  unfold _initialize_propagation_rules.
  repeat constructor; simpl; unfold Qle; simpl; lia.
Qed.

Lemma clamp_unit_interval (p : Q) : 0 <= Qmin 1 (Qmax 0 p) <= 1.
Proof.
  split.
  - apply Q.min_glb; [unfold Qle; simpl; lia | apply Q.le_max_l].
  - apply Q.le_min_l.
Qed.

Lemma propagation_parameters_bounds_aux (eng : Engine) (g : SupplyChainGraph)
  (source target : string) :
  50 <= snd (_calculate_propagation_parameters eng g source target).
Proof.
  unfold _calculate_propagation_parameters.
  destruct (apply_rules _ g source target _) as [p d]. apply Q.le_max_l.
Qed.

(** X12. Whatever the edge, the rules and the predictor give,
    [_calculate_propagation_parameters] returns a probability between 0
    and 1 and a delay of at least 50 ms; no rule lengthens the delay, so
    it is never above the engine's base delay (300 ms as [__init__] sets
    it). *)
Theorem propagation_parameters_bounds :
  forall (eng : Engine) (g : SupplyChainGraph) (source target : string),
    0 <= fst (_calculate_propagation_parameters eng g source target) <= 1
    /\ 50 <= snd (_calculate_propagation_parameters eng g source target)
    /\ (0 <= base_propagation_delay eng ->
        snd (_calculate_propagation_parameters eng g source target)
        <= Qmax 50 (base_propagation_delay eng))
    /\ forall gnn np,
         snd (_calculate_propagation_parameters (init gnn np) g source target)
         <= 300.
Proof.
  assert (G : forall eng g source target,
             0 <= fst (_calculate_propagation_parameters eng g source target) <= 1
             /\ 50 <= snd (_calculate_propagation_parameters eng g source target)
             /\ (0 <= base_propagation_delay eng ->
                 snd (_calculate_propagation_parameters eng g source target)
                 <= Qmax 50 (base_propagation_delay eng))).
  { intros eng g source target. unfold _calculate_propagation_parameters.
    pose proof (@apply_rules_delay
                  (_initialize_propagation_rules (np_empty eng)) g source
                  target (rules_only_shorten_delay (np_empty eng))
                  (base_probability eng g source target,
                   base_propagation_delay eng)) as Hd.
    destruct (apply_rules _ g source target _) as [p d]. cbn [fst snd] in *.
    split; [apply clamp_unit_interval |]. split; [apply Q.le_max_l |].
    intros H0. apply Q.max_le_compat_l. now apply Hd. }
  intros eng g source target.
  destruct (G eng g source target) as (H1 & H2 & H3).
  split; [exact H1 |]. split; [exact H2 |]. split; [exact H3 |].
  intros gnn np. destruct (G (init gnn np) g source target) as (_ & _ & H).
  eapply Qle_trans; [apply H; unfold Qle; simpl; lia |].
  unfold Qle; simpl; lia.
Qed.

Lemma set_remove_In (s : list string) (x y : string) :
  In y (set_remove s x) <-> In y s /\ y <> x.
Proof.
  unfold set_remove. rewrite filter_In. split; intros [H1 H2]; split; auto.
  - intros ->. now rewrite String.eqb_refl in H2.
  - destruct (String.eqb x y) eqn:E; [| reflexivity].
    apply String.eqb_eq in E. congruence.
Qed.

(** What the inner loop of a wave adds for one compromised node: one
    path per successful draw, to a successor that is secure, and at
    least 50 on the clock for each. *)
Lemma try_targets_spec (eng : Engine) (g : SupplyChainGraph)
  (sec : list string) (c : string) :
  forall (targets : list string) (a : Attempts),
  exists news,
    propagating_nodes (try_targets eng g sec c targets a)
    = (propagating_nodes a ++ news)%list
    /\ attempt_paths (try_targets eng g sec c targets a)
       = (attempt_paths a ++ map (fun t => [c; t]) news)%list
    /\ (forall t, In t news -> In t targets /\ In t sec)
    /\ clock a + 50 * inject_Z (len news)
       <= clock (try_targets eng g sec c targets a).
Proof.
  induction targets as [| t targets IH]; intros a.
  - exists []. simpl. rewrite !app_nil_r. repeat split; try tauto.
    unfold len. simpl. rewrite Qmult_0_r, Qplus_0_r. apply Qle_refl.
  - cbn [try_targets]. destruct (mem t sec) eqn:Et.
    + pose proof (propagation_parameters_bounds_aux eng g c t) as Hb.
      destruct (_calculate_propagation_parameters eng g c t) as [p d].
      cbn [snd] in Hb. destruct (random (rng a)) as [u r'].
      destruct (Qltb u p).
      * destruct (IH {| propagating_nodes := (propagating_nodes a ++ [t])%list;
                        attempt_paths := (attempt_paths a ++ [[c; t]])%list;
                        clock := clock a + d; rng := r' |})
          as (news & H1 & H2 & H3 & H4).
        cbn [propagating_nodes attempt_paths clock] in *.
        exists (t :: news). rewrite H1, H2, <- !app_assoc.
        split; [reflexivity |]. split; [reflexivity |]. split.
        -- intros x [<- | Hx].
           ++ split; [now left | now apply mem_In].
           ++ destruct (H3 x Hx). split; [now right | assumption].
        -- eapply Qle_trans; [| exact H4].
           unfold len in *. cbn [List.length].
           rewrite Nat2Z.inj_succ, <- Z.add_1_r, inject_Z_plus.
           setoid_replace (clock a + 50 * (inject_Z (Z.of_nat (List.length news))
                                           + inject_Z 1))
             with (clock a + 50
                   + 50 * inject_Z (Z.of_nat (List.length news))) by ring.
           apply Qplus_le_l. apply Qplus_le_r. exact Hb.
      * destruct (IH {| propagating_nodes := propagating_nodes a;
                        attempt_paths := attempt_paths a;
                        clock := clock a; rng := r' |})
          as (news & H1 & H2 & H3 & H4).
        cbn [propagating_nodes attempt_paths clock] in *.
        exists news. repeat split; auto.
        -- right. now apply H3.
        -- now apply H3.
    + destruct (IH a) as (news & H1 & H2 & H3 & H4).
      exists news. repeat split; auto.
      * right. now apply H3.
      * now apply H3.
Qed.

(** The same for the whole first loop of a wave, whether it ends or
    raises: [newp] lists the (source, target) pairs of the successful
    draws in order. *)
Lemma spread_spec (eng : Engine) (g : SupplyChainGraph) (sec : list string) :
  forall (nodes : list string) (a : Attempts),
  exists newp : list (string * string),
    propagating_nodes (snd (spread eng g sec nodes a))
    = (propagating_nodes a ++ map snd newp)%list
    /\ attempt_paths (snd (spread eng g sec nodes a))
       = (attempt_paths a ++ map (fun ct => [fst ct; snd ct]) newp)%list
    /\ (forall ct, In ct newp ->
          In (fst ct) nodes
          /\ In (snd ct) (Nx.succ_list (graph g) (fst ct))
          /\ In (snd ct) sec)
    /\ clock a + 50 * inject_Z (len newp)
       <= clock (snd (spread eng g sec nodes a)).
Proof.
  induction nodes as [| c nodes IH]; intros a.
  - exists []. simpl. rewrite !app_nil_r. repeat split; try tauto.
    unfold len. simpl. rewrite Qmult_0_r, Qplus_0_r. apply Qle_refl.
  - cbn [spread]. unfold Nx.successors.
    destruct (Nx.has_node (graph g) c).
    + destruct (try_targets_spec eng g sec c (Nx.succ_list (graph g) c) a)
        as (news & H1 & H2 & H3 & H4).
      destruct (IH (try_targets eng g sec c (Nx.succ_list (graph g) c) a))
        as (newp & G1 & G2 & G3 & G4).
      exists (map (fun t => (c, t)) news ++ newp)%list.
      rewrite G1, G2, H1, H2, !map_app, !map_map, <- !app_assoc.
      cbn [fst snd]. rewrite map_id.
      split; [reflexivity |]. split; [reflexivity |]. split.
      * intros ct Hct. apply in_app_iff in Hct. destruct Hct as [Hct | Hct].
        -- apply in_map_iff in Hct. destruct Hct as [t [<- Ht]].
           cbn [fst snd]. destruct (H3 t Ht). split; [now left | auto].
        -- destruct (G3 ct Hct) as (? & ? & ?). split; [now right | auto].
      * eapply Qle_trans; [| exact G4].
        unfold len in *. rewrite length_app, length_map, Nat2Z.inj_add,
          inject_Z_plus.
        setoid_replace
          (clock a + 50 * (inject_Z (Z.of_nat (List.length news))
                           + inject_Z (Z.of_nat (List.length newp))))
          with (clock a + 50 * inject_Z (Z.of_nat (List.length news))
                + 50 * inject_Z (Z.of_nat (List.length newp))) by ring.
        apply Qplus_le_l. exact H4.
    + exists []. simpl. rewrite !app_nil_r. repeat split; try tauto.
      unfold len. simpl. rewrite Qmult_0_r, Qplus_0_r. apply Qle_refl.
Qed.

(** The second loop of a wave: a node leaves the secure set exactly when
    it is among the propagating ones, joins the compromised set then,
    and is listed once in [new_compromised]. *)
Lemma move_propagating_spec (nodes : list string) :
  forall (sec comp nc : list string),
  exists added,
    snd (move_propagating nodes (sec, comp, nc)) = (nc ++ added)%list
    /\ NoDup added
    /\ (forall x, In x added <-> In x nodes /\ In x sec)
    /\ (forall x, In x (fst (fst (move_propagating nodes (sec, comp, nc))))
                  <-> In x sec /\ ~ In x nodes)
    /\ (forall x, In x (snd (fst (move_propagating nodes (sec, comp, nc))))
                  <-> In x comp \/ (In x nodes /\ In x sec)).
Proof.
  induction nodes as [| n nodes IH]; intros sec comp nc.
  - exists []. simpl. rewrite app_nil_r. split; [reflexivity |].
    split; [constructor |]. repeat split; try tauto.
  - cbn [move_propagating]. destruct (mem n sec) eqn:En.
    + destruct (IH (set_remove sec n) (set_add comp n) (nc ++ [n])%list)
        as (added & H1 & H2 & H3 & H4 & H5).
      apply mem_In in En.
      exists (n :: added). rewrite H1, <- app_assoc.
      split; [reflexivity |]. split; [| split; [| split]].
      * constructor; [| assumption]. intros Hn. apply H3 in Hn.
        destruct Hn as [_ Hn]. apply set_remove_In in Hn. tauto.
      * intros x. simpl. rewrite H3, set_remove_In.
        destruct (string_dec n x) as [<- | Hx]; [tauto |].
        intuition congruence.
      * intros x. rewrite H4, set_remove_In. simpl.
        intuition congruence.
      * intros x. rewrite H5, set_add_In, set_remove_In. simpl.
        destruct (string_dec x n) as [-> | Hx]; [tauto |].
        intuition congruence.
    + destruct (IH sec comp nc) as (added & H1 & H2 & H3 & H4 & H5).
      assert (Hn : ~ In n sec).
      { intros C. apply mem_In in C. congruence. }
      exists added. split; [assumption |]. split; [assumption |].
      split; [| split].
      * intros x. rewrite H3. simpl.
        destruct (string_dec n x) as [<- | Hx]; [tauto |].
        intuition congruence.
      * intros x. rewrite H4. simpl.
        destruct (string_dec n x) as [<- | Hx]; [tauto |].
        intuition congruence.
      * intros x. rewrite H5. simpl.
        destruct (string_dec n x) as [<- | Hx]; [tauto |].
        intuition congruence.
Qed.

Lemma fold_affected_In (sec nbrs aff : list string) (x : string) :
  In x (fold_left (fun s neighbor =>
                     if mem neighbor sec then set_add s neighbor else s)
                  nbrs aff)
  <-> In x aff \/ (In x nbrs /\ In x sec).
Proof.
  revert aff. induction nbrs as [| n nbrs IH]; intros aff; simpl.
  - tauto.
  - rewrite IH. destruct (mem n sec) eqn:E.
    + apply mem_In in E. rewrite set_add_In. split.
      * intros [[? | ->] | [? ?]]; auto.
      * intros [? | [[<- | ?] ?]]; auto.
    + assert (Hn : ~ In n sec) by (intros C; apply mem_In in C; congruence).
      split; [tauto |]. intros [? | [[<- | ?] ?]]; tauto.
Qed.

(** The third loop of a wave only adds to [affected], and only secure
    successors of compromised nodes. *)
Lemma update_affected_spec (g : SupplyChainGraph) (sec : list string) :
  forall (nodes aff : list string),
    incl aff (snd (update_affected g sec nodes aff))
    /\ forall x, In x (snd (update_affected g sec nodes aff)) ->
         In x aff
         \/ (In x sec
             /\ exists c, In c nodes /\ In x (Nx.succ_list (graph g) c)).
Proof.
  induction nodes as [| c nodes IH]; intros aff.
  - simpl. split; [apply incl_refl | auto].
  - cbn [update_affected]. unfold Nx.neighbors, Nx.successors.
    destruct (Nx.has_node (graph g) c); [| simpl; split; [apply incl_refl | auto]].
    destruct (IH (fold_left (fun s neighbor =>
                               if mem neighbor sec then set_add s neighbor
                               else s)
                            (Nx.succ_list (graph g) c) aff)) as [H1 H2].
    split.
    + intros x Hx. apply H1. apply fold_affected_In. now left.
    + intros x Hx. destruct (H2 x Hx) as [H | (Hs & c' & Hc & Hn)].
      * apply fold_affected_In in H. destruct H as [H | [Hn Hs]]; [now left |].
        right. split; [assumption |]. exists c. split; [now left | assumption].
      * right. split; [assumption |]. exists c'. split; [now right | assumption].
Qed.

(** X13. One wave keeps the bookkeeping of [simulation_state] together,
    whether it returns or raises: a node is compromised or secure after
    the wave exactly when it was before; the two sets stay disjoint when
    they were; the secure set only loses nodes; and [affected] is never
    pruned (a node stays in it after it is compromised), what it gains
    being secure successors of compromised nodes. *)
Theorem wave_keeps_state_partition :
  forall (eng : Engine) (g : SupplyChainGraph) (st : SimState) (r : Rng),
    let st' := snd (fst (_execute_simulation_step eng g st r)) in
    (forall x, In x (compromised st') \/ In x (secure st')
               <-> In x (compromised st) \/ In x (secure st))
    /\ ((forall x, In x (compromised st) -> ~ In x (secure st)) ->
        forall x, In x (compromised st') -> ~ In x (secure st'))
    /\ incl (secure st') (secure st)
    /\ incl (compromised st) (compromised st')
    /\ incl (affected st) (affected st')
    /\ (forall x, In x (affected st') ->
          In x (affected st)
          \/ (In x (secure st')
              /\ exists c, In c (compromised st')
                           /\ Nx.has_edge (graph g) c x = true)).
Proof.
  intros eng g st r st'. subst st'. unfold _execute_simulation_step.
  destruct (spread eng g (secure st) (compromised st) _) as [res1 a].
  destruct res1 as [[] | e].
  - destruct (move_propagating_spec (propagating_nodes a) (secure st)
                (compromised st) []) as (added & _ & _ & _ & Hs & Hc).
    destruct (move_propagating _ _) as [[sec comp] nc]. cbn [fst snd] in Hs, Hc.
    pose proof (update_affected_spec g sec comp (affected st)) as [Ha1 Ha2].
    destruct (update_affected g sec comp (affected st)) as [res3 aff].
    cbn [snd] in Ha1, Ha2.
    assert (G : (forall x, In x comp \/ In x sec
                           <-> In x (compromised st) \/ In x (secure st))
                /\ ((forall x, In x (compromised st) -> ~ In x (secure st)) ->
                    forall x, In x comp -> ~ In x sec)
                /\ incl sec (secure st)
                /\ incl (compromised st) comp
                /\ incl (affected st) aff
                /\ (forall x, In x aff ->
                      In x (affected st)
                      \/ (In x sec
                          /\ exists c, In c comp
                                       /\ Nx.has_edge (graph g) c x = true))).
    { split; [| split; [| split; [| split; [| split]]]].
      - intros x. rewrite Hs, Hc.
        destruct (in_dec string_dec x (propagating_nodes a)); tauto.
      - intros Hd x Hx1 Hx2. apply Hs in Hx2. apply Hc in Hx1.
        destruct Hx1 as [Hx1 | [Hx1 _]]; [| tauto].
        apply (Hd x Hx1). tauto.
      - intros x Hx. apply Hs in Hx. tauto.
      - intros x Hx. apply Hc. now left.
      - exact Ha1.
      - intros x Hx. destruct (Ha2 x Hx) as [H | (H & c & H1 & H2)];
          [now left |].
        right. split; [assumption |]. exists c. split; [assumption |].
        now apply succ_list_has_edge. }
    destruct res3 as [[] | e]; [| exact G].
    destruct (len (Nx.nodes (graph g)) =? 0)%Z; exact G.
  - cbn [fst snd compromised secure affected].
    split; [tauto |]. split; [auto |].
    split; [apply incl_refl |]. split; [apply incl_refl |].
    split; [apply incl_refl | auto].
Qed.

(** X14. What a wave that returns reports: every recorded path is an
    edge from a node compromised before the wave to a node secure before
    it; the nodes of [new_compromised] are exactly the targets of the
    recorded paths, each listed once (a node reached from two sources has
    two paths), they have left the secure set for the compromised one;
    and every recorded path has put at least 50 ms on the clock. *)
Theorem wave_report_matches_paths :
  forall (eng : Engine) (g : SupplyChainGraph) (st st' : SimState)
         (r r' : Rng) (s : SimulationStep),
    _execute_simulation_step eng g st r = (Ok s, st', r') ->
    NoDup (new_compromised s)
    /\ (forall t, In t (new_compromised s)
                  <-> exists c, In [c; t] (propagation_paths s))
    /\ (forall p, In p (propagation_paths s) ->
          exists c t, p = [c; t]
                      /\ In c (compromised st) /\ In t (secure st)
                      /\ Nx.has_edge (graph g) c t = true)
    /\ (forall t, In t (new_compromised s) ->
          In t (compromised st') /\ ~ In t (secure st'))
    /\ (len (new_compromised s) <= len (propagation_paths s))%Z
    /\ simulation_time st + 50 * inject_Z (len (propagation_paths s))
       <= timestamp s
    /\ simulation_time st' = timestamp s.
Proof.
  intros eng g st st' r r' s. unfold _execute_simulation_step.
  destruct (spread_spec eng g (secure st) (compromised st)
              {| propagating_nodes := []; attempt_paths := [];
                 clock := simulation_time st; rng := r |})
    as (newp & Hp & Ha & Hn & Hc).
  destruct (spread eng g (secure st) (compromised st) _) as [res1 a].
  cbn [snd fst propagating_nodes attempt_paths clock app] in *.
  destruct res1 as [[] | e]; [| discriminate].
  destruct (move_propagating_spec (propagating_nodes a) (secure st)
              (compromised st) []) as (added & Hnc & Hnd & Hadd & Hsec & Hcomp).
  destruct (move_propagating _ _) as [[sec comp] nc].
  cbn [fst snd app] in *. subst nc.
  destruct (update_affected g sec comp (affected st)) as [res3 aff].
  destruct res3 as [[] | e]; [| discriminate].
  destruct (len (Nx.nodes (graph g)) =? 0)%Z; [discriminate |].
  intros [= <- <- <-].
  cbn [new_compromised propagation_paths timestamp compromised secure
       simulation_time].
  assert (Hin : forall t, In t added <-> In t (map snd newp)).
  { intros t. rewrite Hadd, Hp. split; [tauto |]. intros H.
    split; [assumption |]. apply in_map_iff in H.
    destruct H as [ct [<- Hct]]. now apply Hn. }
  split; [exact Hnd |]. split; [| split; [| split; [| split; [| split]]]].
  - intros t. rewrite Hin, Ha. split.
    + intros H. apply in_map_iff in H. destruct H as [[c t'] [<- Hct]].
      exists c. apply in_map_iff. now exists (c, t').
    + intros [c H]. apply in_map_iff in H. destruct H as [[c' t'] [[= -> ->] H]].
      apply in_map_iff. now exists (c, t).
  - intros p Hpth. rewrite Ha in Hpth. apply in_map_iff in Hpth.
    destruct Hpth as [[c t] [<- Hct]]. exists c, t.
    destruct (Hn _ Hct) as (H1 & H2 & H3). cbn [fst snd] in *.
    split; [reflexivity |]. split; [assumption |]. split; [assumption |].
    now apply succ_list_has_edge.
  - intros t Ht. apply Hadd in Ht. rewrite Hsec, Hcomp. tauto.
  - rewrite Ha. unfold len. rewrite length_map.
    rewrite <- (length_map snd newp).
    apply Nat2Z.inj_le. apply NoDup_incl_length; [assumption |].
    intros t Ht. now apply Hin.
  - rewrite Ha. unfold len in *. rewrite length_map. exact Hc.
  - reflexivity.
Qed.

Lemma chain_first_wave :
  exists s st' r',
    _execute_simulation_step Examples.default_engine Examples.chain
      (initial_state Examples.chain ["A"]) Examples.zero_rng
    = (Ok s, st', r').
Proof. eexists. eexists. eexists. vm_compute. reflexivity. Defined.

Lemma wave_report_matches_paths_witness :
  exists s st' r',
    _execute_simulation_step Examples.default_engine Examples.chain
      (initial_state Examples.chain ["A"]) Examples.zero_rng
    = (Ok s, st', r')
    /\ NoDup (new_compromised s)
    /\ (len (new_compromised s) <= len (propagation_paths s))%Z.
Proof.
  destruct chain_first_wave as (s & st' & r' & E).
  exists s, st', r'. split; [exact E |].
  destruct (@wave_report_matches_paths _ _ _ _ _ _ _ E)
    as (H1 & _ & _ & _ & H5 & _).
  split; [exact H1 | exact H5].
Defined.

Lemma sum_incr_Z (d : list (Z * Z)) (k : Z) :
  sum_Z (map snd (incr_Z d k)) = (sum_Z (map snd d) + 1)%Z.
Proof.
  unfold sum_Z. induction d as [| [k' v] d IH]; simpl; [reflexivity |].
  destruct (k' =? k)%Z; simpl; lia.
Qed.

Lemma sum_incr (d : list (string * Z)) (k : string) :
  sum_Z (map snd (incr d k)) = (sum_Z (map snd d) + 1)%Z.
Proof.
  unfold incr, get_default, sum_Z.
  induction d as [| [k' v] d IH]; simpl; [reflexivity |].
  destruct (String.eqb k' k); simpl; lia.
Qed.

Lemma sum_tier_counts (g : SupplyChainGraph) (nodes : list string) :
  forall d,
    sum_Z (map snd (fold_left (fun d n => incr_Z d (SimulationEngine.tier_of g n))
                              nodes d))
    = (sum_Z (map snd d) + len nodes)%Z.
Proof.
  unfold len. induction nodes as [| n nodes IH]; intros d.
  - simpl. lia.
  - cbn [fold_left]. rewrite IH, sum_incr_Z. cbn [List.length]. lia.
Qed.

Lemma sum_category_counts (g : SupplyChainGraph) (nodes : list string) :
  forall d cats,
    count_categories g nodes d = Ok cats ->
    sum_Z (map snd cats) = (sum_Z (map snd d) + len nodes)%Z
    /\ forall n, In n nodes -> Nx.has_node (graph g) n = true.
Proof.
  unfold len. induction nodes as [| n nodes IH]; intros d cats H.
  - simpl in H. injection H as <-. simpl. split; [lia | tauto].
  - cbn [count_categories] in H. unfold Nx.node_data in H.
    destruct (get (Nx.node_dict (graph g)) n) as [data |] eqn:E;
      [| discriminate].
    cbn [bind] in H. apply IH in H. destruct H as [H1 H2].
    rewrite sum_incr in H1. split; [cbn [List.length]; lia |].
    intros m [<- | Hm]; [| now apply H2].
    apply get_In in E. apply mem_In. unfold Nx.nodes.
    apply in_map_iff. now exists (n, data).
Qed.

(** X15. The metrics [_calculate_final_metrics] returns add up: the
    counts per tier, and the counts per category, each sum to the number
    of compromised nodes; the compromise rate is not above the impact
    rate; every critical path has at least two nodes and one end in tier
    1 or 2.  It returns only when the graph has a node and every
    compromised node is in the graph. *)
Theorem final_metrics_add_up :
  forall (g : SupplyChainGraph) (st : SimState) (fm : FinalMetrics),
    _calculate_final_metrics g st = Ok fm ->
    sum_Z (map snd (tier_impact fm)) = len (compromised st)
    /\ sum_Z (map snd (category_impact fm)) = len (compromised st)
    /\ 0 <= compromise_rate fm <= impact_rate fm
    /\ SimulationEngine.critical_path_count fm = len (critical_paths fm)
    /\ (forall p, In p (critical_paths fm) ->
          (2 <= len p)%Z
          /\ ((SimulationEngine.tier_of g (hd "" p) <= 2)%Z
              \/ (SimulationEngine.tier_of g (last p "") <= 2)%Z))
    /\ (0 < Nx.number_of_nodes (graph g))%Z
    /\ (forall n, In n (compromised st) -> Nx.has_node (graph g) n = true).
Proof.
  intros g st fm. unfold _calculate_final_metrics.
  destruct (len (Nx.nodes (graph g)) =? 0)%Z eqn:E0; [discriminate |].
  destruct (count_categories g (compromised st) []) as [cats | e] eqn:Ec;
    [| discriminate].
  cbn [bind]. intros [= <-].
  cbn [tier_impact category_impact compromise_rate impact_rate
       SimulationEngine.critical_path_count critical_paths].
  apply sum_category_counts in Ec. destruct Ec as [Hc Hn].
  assert (Hpos : (0 < len (Nx.nodes (graph g)))%Z).
  { apply Z.eqb_neq in E0. unfold len in *. lia. }
  split; [rewrite sum_tier_counts; simpl; lia |].
  split; [rewrite Hc; simpl; lia |].
  split; [| split; [reflexivity | split; [| split]]].
  - assert (Hq : 0 < inject_Z (len (Nx.nodes (graph g))))
      by (unfold Qlt; simpl; lia).
    split.
    + apply Qle_shift_div_l; [assumption |]. rewrite Qmult_0_l.
      unfold Qle, len. simpl. lia.
    + unfold Qdiv. apply Qmult_le_compat_r.
      * unfold Qle, len. simpl. lia.
      * apply Qlt_le_weak. now apply Qinv_lt_0_compat.
  - intros p Hp. apply filter_In in Hp. destruct Hp as [_ Hp].
    apply andb_true_iff in Hp. destruct Hp as [H1 H2].
    apply Z.leb_le in H1. apply orb_true_iff in H2.
    split; [assumption |].
    destruct H2 as [H2 | H2]; apply Z.leb_le in H2; auto.
  - unfold Nx.number_of_nodes, Nx.nodes, len in *.
    now rewrite length_map in Hpos.
  - exact Hn.
Qed.

Lemma final_metrics_add_up_witness :
  exists fm,
    _calculate_final_metrics Examples.chain
      (initial_state Examples.chain ["A"; "B"]) = Ok fm
    /\ sum_Z (map snd (tier_impact fm)) = 2%Z
    /\ sum_Z (map snd (category_impact fm)) = 2%Z.
Proof.
  eexists. split; [vm_compute; reflexivity |].
  pose proof (@final_metrics_add_up Examples.chain
                (initial_state Examples.chain ["A"; "B"]) _ eq_refl)
    as (H1 & H2 & _).
  split; [exact H1 | exact H2].
Defined.

Lemma unvisited_after_add (l v : list string) (x : string) :
  In x l -> mem x v = false ->
  (S (List.length (unvisited l (set_add v x)))
   <= List.length (unvisited l v))%nat.
Proof.
  intros Hx Hv. unfold unvisited, set_add. rewrite Hv.
  induction l as [| y l IH]; [destruct Hx |].
  cbn [filter]. rewrite mem_snoc.
  assert (Hle : (List.length (filter (fun z => negb (mem z (v ++ [x]))) l)
                 <= List.length (filter (fun z => negb (mem z v)) l))%nat).
  { clear. induction l as [| z l IH]; simpl; [lia |].
    rewrite mem_snoc. destruct (mem z v); simpl; [assumption |].
    destruct (String.eqb z x); simpl; lia. }
  destruct (String.eqb y x) eqn:E.
  - apply String.eqb_eq in E. subst y. rewrite Hv. simpl. lia.
  - destruct Hx as [-> | Hx]; [now rewrite String.eqb_refl in E |].
    specialize (IH Hx). rewrite orb_false_r.
    destruct (mem y v); simpl; lia.
Qed.

(** One pass over the paths: what joins the queue is taken off the
    unvisited second nodes; the reachable set stays duplicate-free and
    within the second nodes. *)
Lemma scan_paths_spec (current : string) (all : list (list string)) :
  forall (ps : list (list string)) (q v r : list string),
    incl (second_nodes ps) (second_nodes all) ->
    let out := scan_paths current ps (q, v, r) in
    (List.length (fst (fst out))
     + List.length (unvisited (second_nodes all) (snd (fst out)))
     <= List.length q + List.length (unvisited (second_nodes all) v))%nat
    /\ (NoDup r -> NoDup (snd out))
    /\ (incl r (second_nodes all) -> incl (snd out) (second_nodes all)).
Proof.
  unfold scan_paths.
  induction ps as [| p ps IH]; intros q v r Hin; cbn [fold_left].
  - cbn [fst snd]. split; [lia | auto].
  - assert (Hin' : incl (second_nodes ps) (second_nodes all)).
    { intros x Hx. apply Hin. unfold second_nodes in *. cbn [flat_map].
      apply in_or_app. now right. }
    destruct p as [| p0 [| p1 p]]; try (now apply IH).
    destruct (String.eqb p0 current && negb (mem p1 v)) eqn:E;
      [| now apply IH].
    apply andb_true_iff in E. destruct E as [_ E].
    apply negb_true_iff in E.
    assert (H1 : In p1 (second_nodes all)).
    { apply Hin. unfold second_nodes. cbn [flat_map]. now left. }
    destruct (IH (q ++ [p1])%list (set_add v p1) (set_add r p1) Hin')
      as (G1 & G2 & G3).
    pose proof (@unvisited_after_add _ _ _ H1 E) as Hu.
    split; [| split].
    + rewrite length_app in G1. simpl in G1. lia.
    + intros Hr. apply G2. unfold set_add.
      destruct (mem p1 r) eqn:Er; [assumption |]. now apply NoDup_snoc.
    + intros Hr. apply G3. intros x Hx. apply set_add_In in Hx.
      destruct Hx as [Hx | ->]; auto.
Qed.

Lemma bfs_spec (all : list (list string)) (fuel : nat) :
  forall (q v r : list string),
    NoDup r -> incl r (second_nodes all) ->
    NoDup (bfs fuel all q v r) /\ incl (bfs fuel all q v r) (second_nodes all).
Proof.
  induction fuel as [| fuel IH]; intros q v r Hn Hi; [now split |].
  cbn [bfs]. destruct q as [| c q]; [now split |].
  pose proof (scan_paths_spec c all all q v r (incl_refl _)) as (_ & G2 & G3).
  destruct (scan_paths c all (q, v, r)) as [[q' v'] r']. cbn [fst snd] in *.
  apply IH; auto.
Qed.

Lemma bfs_fuel (all : list (list string)) (fuel : nat) :
  forall (q v r : list string) (extra : nat),
    (List.length q + List.length (unvisited (second_nodes all) v) <= fuel)%nat ->
    bfs (fuel + extra) all q v r = bfs fuel all q v r.
Proof.
  induction fuel as [| fuel IH]; intros q v r extra H.
  - destruct q as [| c q]; [| simpl in H; lia].
    destruct extra; reflexivity.
  - cbn [Nat.add bfs]. destruct q as [| c q]; [reflexivity |].
    pose proof (scan_paths_spec c all all q v r (incl_refl _)) as (G1 & _).
    destruct (scan_paths c all (q, v, r)) as [[q' v'] r']. cbn [fst snd] in *.
    apply IH. simpl in H. lia.
Qed.

Lemma second_nodes_length (paths : list (list string)) :
  (List.length (second_nodes paths) <= List.length paths)%nat.
Proof.
  unfold second_nodes. induction paths as [| p paths IH]; simpl; [lia |].
  rewrite length_app. destruct p as [| p0 [| p1 p]]; simpl; lia.
Qed.

(** X16. The reachability search of [_perform_risk_analysis] always
    empties its queue: two rounds more than there are recorded paths are
    enough, and further rounds change nothing. *)
Theorem impact_search_completes :
  forall (paths : list (list string)) (initial_node : string) (extra : nat),
    bfs (S (S (List.length paths)) + extra) paths
        [initial_node] [initial_node] []
    = bfs (S (S (List.length paths))) paths [initial_node] [initial_node] [].
Proof.
  intros paths n extra. apply bfs_fuel.
  pose proof (second_nodes_length paths) as H1.
  pose proof (filter_length_le (fun x => negb (mem x [n]))
                               (second_nodes paths)) as H2.
  unfold unvisited in *. cbn [List.length]. lia.
Qed.

Lemma get_fold_set_item {V} (f : string -> V) (l : list string) :
  forall (d : list (string * V)) (n : string),
    get (fold_left (fun d k => set_item d k (f k)) l d) n
    = if mem n l then Some (f n) else get d n.
Proof.
  induction l as [| k l IH]; intros d n; [reflexivity |].
  cbn [fold_left]. rewrite IH, get_set_item.
  change (mem n (k :: l)) with (String.eqb n k || mem n l).
  rewrite (String.eqb_sym n k).
  destruct (mem n l); [now rewrite orb_true_r |]. rewrite orb_false_r.
  destruct (String.eqb k n) eqn:E; [| reflexivity].
  apply String.eqb_eq in E. now subst.
Qed.

Lemma velocity_spec (sts : list SimulationStep) :
  forall (c : Z) (vs : list Velocity),
    let out :=
      fold_left
        (fun acc step =>
           let cumulative := (fst acc + len (new_compromised step))%Z in
           (cumulative,
            (snd acc
             ++ [{| v_step := step_number step;
                    v_timestamp := timestamp step;
                    v_velocity :=
                      inject_Z (len (new_compromised step))
                      / Qmax 1 (timestamp step / 1000);
                    v_cumulative_compromised := cumulative |}])%list))
        sts (c, vs) in
    exists news,
      snd out = (vs ++ news)%list
      /\ map v_step news = map step_number sts
      /\ Forall (fun v => (c <= v_cumulative_compromised v)%Z) news
      /\ nondecreasing (c :: map v_cumulative_compromised news).
Proof.
  induction sts as [| s sts IH]; intros c vs.
  - exists []. cbn. rewrite app_nil_r. repeat split; constructor.
  - destruct (IH (c + len (new_compromised s))%Z
                 (vs ++ [{| v_step := step_number s;
                            v_timestamp := timestamp s;
                            v_velocity :=
                              inject_Z (len (new_compromised s))
                              / Qmax 1 (timestamp s / 1000);
                            v_cumulative_compromised :=
                              (c + len (new_compromised s))%Z |}])%list)
      as (news & H1 & H2 & H3 & H4).
    exists ({| v_step := step_number s;
               v_timestamp := timestamp s;
               v_velocity :=
                 inject_Z (len (new_compromised s))
                 / Qmax 1 (timestamp s / 1000);
               v_cumulative_compromised :=
                 (c + len (new_compromised s))%Z |} :: news).
    assert (Hl : (0 <= len (new_compromised s))%Z) by (unfold len; lia).
    split; [| split; [| split]].
    + etransitivity; [exact H1 |]. now rewrite <- app_assoc.
    + cbn [map v_step]. now rewrite H2.
    + constructor; [cbn; lia |].
      eapply Forall_impl; [| exact H3]. cbn. intros v Hv. lia.
    + cbn [map v_cumulative_compromised]. split; [lia | exact H4].
Qed.

(** X17. What [_perform_risk_analysis] reports: an impact score for each
    initial node and for no other, between 0 and the number of recorded
    paths; at most 10 bottleneck nodes, in descending order of their
    counts; one velocity entry per recorded step, in order, whose
    cumulative counts start from the number of initial nodes and never
    decrease; and as critical failure points only steps that compromised
    more than 3 nodes. *)
Theorem risk_analysis_shape :
  forall (st : SimState) (initial : list string),
    let ra := _perform_risk_analysis st initial in
    (forall n, In n initial ->
       exists z, get (initial_node_impact ra) n = Some z
                 /\ (0 <= z <= len (all_paths (steps st)))%Z)
    /\ (forall n, ~ In n initial -> get (initial_node_impact ra) n = None)
    /\ (List.length (bottleneck_nodes ra) <= 10)%nat
    /\ descending_by (fun kv : string * Z => inject_Z (snd kv))
                     (bottleneck_nodes ra)
    /\ map v_step (propagation_velocity ra) = map step_number (steps st)
    /\ Forall (fun v => (len initial <= v_cumulative_compromised v)%Z)
              (propagation_velocity ra)
    /\ nondecreasing (map v_cumulative_compromised (propagation_velocity ra))
    /\ (forall f, In f (critical_failure_points ra) ->
          (3 < cf_new_compromised_count f)%Z
          /\ cf_new_compromised_count f = len (cf_nodes f)).
Proof.
  intros st initial ra. subst ra. unfold _perform_risk_analysis.
  cbn [initial_node_impact bottleneck_nodes propagation_velocity
       critical_failure_points].
  split; [| split; [| split; [| split; [| split; [| split; [| split]]]]]].
  - intros n Hn.
    rewrite (get_fold_set_item
               (fun k => len (bfs (S (S (List.length (all_paths (steps st)))))
                                  (all_paths (steps st)) [k] [k] []))).
    apply mem_In in Hn. rewrite Hn. eexists. split; [reflexivity |].
    destruct (@bfs_spec (all_paths (steps st))
                (S (S (List.length (all_paths (steps st))))) [n] [n] []
                (NoDup_nil _) (incl_nil_l _)) as [H1 H2].
    apply NoDup_incl_length in H2; [| assumption].
    pose proof (second_nodes_length (all_paths (steps st))).
    unfold len. lia.
  - intros n Hn.
    rewrite (get_fold_set_item
               (fun k => len (bfs (S (S (List.length (all_paths (steps st)))))
                                  (all_paths (steps st)) [k] [k] []))).
    destruct (mem n initial) eqn:E; [| reflexivity].
    apply mem_In in E. contradiction.
  - unfold slice_to. change (10 <? 0)%Z with false. cbv iota.
    rewrite length_firstn. change (Z.to_nat 10) with 10%nat. lia.
  - apply descending_slice_to, sorted_desc_descending.
  - destruct (velocity_spec (steps st) (len initial) [])
      as (news & H1 & H2 & _).
    cbn zeta in H1. rewrite H1. exact H2.
  - destruct (velocity_spec (steps st) (len initial) [])
      as (news & H1 & _ & H3 & _).
    cbn zeta in H1. rewrite H1. exact H3.
  - destruct (velocity_spec (steps st) (len initial) [])
      as (news & H1 & _ & _ & H4).
    cbn zeta in H1. rewrite H1. cbn [app].
    destruct news as [| v news]; [exact I |].
    cbn [map nondecreasing] in H4. apply H4.
  - intros f Hf. apply in_map_iff in Hf. destruct Hf as [s [<- Hs]].
    apply filter_In in Hs. destruct Hs as [_ Hs]. apply Z.ltb_lt in Hs.
    cbn. split; [assumption | reflexivity].
Qed.

Section SameForSimulation.

Variables (eng : Engine) (g g' : SupplyChainGraph).
Hypothesis Hsame : same_for_simulation g g'.
Hypothesis Hgnn : gnn_engine eng = None.

Lemma same_nodes : Nx.nodes (graph g') = Nx.nodes (graph g).
Proof. exact (proj1 Hsame). Qed.

Lemma same_adj : Nx.adj (graph g') = Nx.adj (graph g).
Proof. exact (proj1 (proj2 Hsame)). Qed.

Lemma same_node_features : node_features g' = node_features g.
Proof. exact (proj1 (proj2 (proj2 Hsame))). Qed.

Lemma same_edge_features : edge_features g' = edge_features g.
Proof. exact (proj1 (proj2 (proj2 (proj2 Hsame)))). Qed.

Lemma same_has_node (n : string) :
  Nx.has_node (graph g') n = Nx.has_node (graph g) n.
Proof. unfold Nx.has_node. now rewrite same_nodes. Qed.

Lemma same_successors (n : string) :
  Nx.successors (graph g') n = Nx.successors (graph g) n.
Proof.
  unfold Nx.successors, Nx.succ_list. now rewrite same_has_node, same_adj.
Qed.

Lemma same_in_degree (n : string) :
  Nx.in_degree (graph g') n = Nx.in_degree (graph g) n.
Proof. unfold Nx.in_degree, Nx.pred_list. now rewrite same_adj. Qed.

Lemma same_edge_data (s t : string) :
  Nx.edge_data_or_empty (graph g') s t = Nx.edge_data_or_empty (graph g) s t.
Proof. unfold Nx.edge_data_or_empty. now rewrite same_adj. Qed.

Lemma same_rules (np : pyresult Q) :
  Forall (fun rule => forall s t, condition rule s t g' = condition rule s t g)
         (_initialize_propagation_rules np).
Proof.
  unfold _initialize_propagation_rules.
  repeat constructor; intros s t; cbn [condition].
  - now rewrite same_node_features.
  - unfold dependency_category_is. now rewrite same_edge_data.
  - unfold dependency_category_is. now rewrite same_edge_data.
  - now rewrite same_edge_features.
  - rewrite same_has_node, same_nodes, same_in_degree.
    now rewrite (map_ext _ _ same_in_degree).
Qed.

Lemma same_apply_rules (rules : list PropagationRule) (s t : string) :
  Forall (fun rule => forall s t, condition rule s t g' = condition rule s t g)
         rules ->
  forall pd, apply_rules rules g' s t pd = apply_rules rules g s t pd.
Proof.
  induction 1 as [| rule rules Hr _ IH]; intros pd; [reflexivity |].
  cbn [apply_rules]. rewrite Hr. apply IH.
Qed.

Lemma same_parameters (s t : string) :
  _calculate_propagation_parameters eng g' s t
  = _calculate_propagation_parameters eng g s t.
Proof.
  unfold _calculate_propagation_parameters, base_probability, edge_strength,
    target_vulnerability, criticality_of.
  rewrite same_edge_data, same_node_features, Hgnn.
  now rewrite (same_apply_rules s t (same_rules (np_empty eng))).
Qed.

Lemma same_try_targets (sec : list string) (c : string)
  (targets : list string) :
  forall a, try_targets eng g' sec c targets a
            = try_targets eng g sec c targets a.
Proof.
  induction targets as [| t targets IH]; intros a; [reflexivity |].
  cbn [try_targets]. rewrite same_parameters. apply IH.
Qed.

Lemma same_spread (sec nodes : list string) :
  forall a, spread eng g' sec nodes a = spread eng g sec nodes a.
Proof.
  induction nodes as [| c nodes IH]; intros a; [reflexivity |].
  cbn [spread]. rewrite same_successors.
  destruct (Nx.successors (graph g) c); [| reflexivity].
  rewrite same_try_targets. apply IH.
Qed.

Lemma same_update_affected (sec nodes : list string) :
  forall aff, update_affected g' sec nodes aff
              = update_affected g sec nodes aff.
Proof.
  induction nodes as [| c nodes IH]; intros aff; [reflexivity |].
  cbn [update_affected]. unfold Nx.neighbors. rewrite same_successors.
  destruct (Nx.successors (graph g) c); [| reflexivity]. apply IH.
Qed.

Lemma same_step (st : SimState) (r : Rng) :
  _execute_simulation_step eng g' st r = _execute_simulation_step eng g st r.
Proof.
  unfold _execute_simulation_step. rewrite same_spread.
  destruct (spread eng g (secure st) (compromised st) _) as [[[] | e] a];
    [| reflexivity].
  destruct (move_propagating _ _) as [[sec comp] nc].
  rewrite same_update_affected.
  destruct (update_affected g sec comp (affected st)) as [[[] | e] aff];
    [| reflexivity].
  now rewrite same_nodes.
Qed.

Lemma same_loop (getitem : SimulationStep -> string -> pyresult (list string))
  (fuel : nat) :
  forall st r,
    simulation_loop_with getitem fuel eng g' st r
    = simulation_loop_with getitem fuel eng g st r.
Proof.
  induction fuel as [| fuel IH]; intros st r; [reflexivity |].
  cbn [simulation_loop_with]. rewrite same_step.
  destruct (loop_guard eng st); [| reflexivity].
  destruct (_execute_simulation_step eng g st r) as [[[s | e] st'] r'];
    [| reflexivity].
  destruct (no_new_propagation getitem s) as [[|] | e]; try reflexivity.
  apply IH.
Qed.

Lemma same_count_categories (nodes : list string) :
  forall d, count_categories g' nodes d = count_categories g nodes d.
Proof.
  induction nodes as [| n nodes IH]; intros d; [reflexivity |].
  cbn [count_categories]. unfold Nx.node_data.
  pose proof (proj2 (proj2 (proj2 (proj2 Hsame))) n) as Hc.
  destruct (get (Nx.node_dict (graph g')) n) as [d' |],
           (get (Nx.node_dict (graph g)) n) as [d0 |];
    try discriminate; [| reflexivity].
  cbn [option_map] in Hc. injection Hc as Hc. cbn [bind]. rewrite Hc.
  apply IH.
Qed.

Lemma same_final_metrics (st : SimState) :
  _calculate_final_metrics g' st = _calculate_final_metrics g st.
Proof.
  unfold _calculate_final_metrics, SimulationEngine.tier_of.
  now rewrite same_nodes, same_count_categories, same_node_features.
Qed.

Lemma same_run (getitem : SimulationStep -> string -> pyresult (list string))
  (initial : list string) (sid : option string) (now_ms : Z) (r : Rng) :
  run_simulation_with getitem eng g' initial sid now_ms r
  = run_simulation_with getitem eng g initial sid now_ms r.
Proof.
  unfold run_simulation_with, try_body, initial_state.
  rewrite same_loop, same_nodes.
  destruct (simulation_loop_with _ _ _ _ _ _) as [[[[[] | e] st] r'] |];
    try reflexivity.
  unfold _finalize_simulation. now rewrite same_final_metrics.
Qed.

End SameForSimulation.

Lemma get_set_item_other {V} (d : list (string * V)) (k k' : string) (v : V) :
  k <> k' -> get (set_item d k v) k' = get d k'.
Proof.
  intros H. rewrite get_set_item. destruct (String.eqb k k') eqn:E;
    [| reflexivity].
  apply String.eqb_eq in E. contradiction.
Qed.

(** X18. A [hardening] action is invisible to the simulation.  It only
    rewrites the [risk_score] attribute of its target, which no step of
    [run_simulation] reads: on an engine without a predictor, the run on
    the hardened graph returns exactly what the run on the graph before
    returns, for the same initial nodes and the same random draws. *)
Theorem hardening_does_not_change_simulation :
  forall (eng : Engine) (g : SupplyChainGraph) (s : string)
         (initial : list string) (sid : option string) (now_ms : Z) (r : Rng),
    gnn_engine eng = None ->
    fst (apply_action g (hardening s)) = Ok tt
    /\ run_simulation eng (snd (apply_action g (hardening s)))
                      initial sid now_ms r
       = run_simulation eng g initial sid now_ms r.
Proof.
  intros eng g s initial sid now_ms r Hgnn.
  assert (H : fst (apply_action g (hardening s)) = Ok tt
              /\ same_for_simulation g (snd (apply_action g (hardening s)))).
  { unfold apply_action, hardening. cbn [a_type a_target].
    change (String.eqb "hardening" "isolation") with false.
    change (String.eqb "hardening" "hardening") with true. cbv iota.
    cbn [target_in_nodes].
    destruct (Nx.has_node (graph g) s) eqn:En; cbn [fst snd].
    - split; [reflexivity |]. unfold same_for_simulation, with_graph.
      cbn [graph node_features edge_features Nx.adj Nx.node_dict].
      apply mem_In in En. apply get_Some_of_mem in En. destruct En as [d Hd].
      split; [| repeat split].
      + unfold Nx.nodes. cbn [Nx.node_dict]. now rewrite keys_set_item, Hd.
      + intros n. rewrite get_set_item.
        destruct (String.eqb s n) eqn:E; [| reflexivity].
        apply String.eqb_eq in E. subst n.
        unfold Nx.node_data_or_empty, get_default. rewrite Hd. reflexivity.
    - split; [reflexivity |]. unfold same_for_simulation. repeat split. }
  destruct H as [H1 H2]. split; [exact H1 |].
  unfold run_simulation. now apply same_run.
Qed.

Lemma hardening_does_not_change_simulation_witness :
  gnn_engine Examples.default_engine = None
  /\ run_simulation Examples.default_engine
       (snd (apply_action Examples.chain (hardening "B")))
       ["A"] None 0 Examples.zero_rng
     = run_simulation Examples.default_engine Examples.chain
         ["A"] None 0 Examples.zero_rng.
Proof.
  split; [reflexivity |].
  exact (proj2 (@hardening_does_not_change_simulation Examples.default_engine
                  Examples.chain "B" ["A"] None 0%Z Examples.zero_rng eq_refl)).
Defined.

Lemma set_criticality_score_same (f : NodeFeatures) :
  set_criticality_score f (nf_criticality_score f) = f.
Proof. now destruct f. Qed.

Lemma only_criticality_raised_refl (g : SupplyChainGraph) :
  only_criticality_raised g g.
Proof.
  repeat split; auto. intros n f H. exists (nf_criticality_score f).
  rewrite set_criticality_score_same.
  split; [assumption |]. split; [apply Q.le_min_l | apply Q.le_max_l].
Qed.

Lemma only_criticality_raised_trans (g1 g2 g3 : SupplyChainGraph) :
  only_criticality_raised g1 g2 -> only_criticality_raised g2 g3 ->
  only_criticality_raised g1 g3.
Proof.
  intros (A1 & A2 & A3 & A4) (B1 & B2 & B3 & B4).
  split; [congruence |]. split; [congruence |]. split; [congruence |].
  intros n f Hf. destruct (A4 n f Hf) as (c1 & Hf' & L1 & U1).
  destruct (B4 n _ Hf') as (c2 & Hf'' & L2 & U2).
  cbn [set_criticality_score nf_criticality_score] in Hf'', L2, U2.
  exists c2. split; [exact Hf'' |]. split.
  - eapply Qle_trans; [| exact L2].
    apply Q.min_glb; [exact L1 | apply Q.le_min_r].
  - eapply Qle_trans; [exact U2 |].
    apply Q.max_lub; [exact U1 | apply Q.le_max_r].
Qed.

(** One round of the loop, on a node that has features. *)
Lemma raise_one_only_criticality (g : SupplyChainGraph) (n : string)
  (f : NodeFeatures) :
  get (node_features g) n = Some f ->
  only_criticality_raised g
    {| graph := graph g;
       node_features :=
         set_item (node_features g) n
           (set_criticality_score f (Qmin 100 (nf_criticality_score f + 20)));
       edge_features := edge_features g |}.
Proof.
  intros Ef. split; [reflexivity |]. split; [reflexivity |].
  cbn [node_features]. split; [now rewrite keys_set_item, Ef |].
  intros m fm Hm. rewrite get_set_item.
  destruct (String.eqb n m) eqn:E.
  - apply String.eqb_eq in E. subst m.
    assert (fm = f) by congruence. subst fm.
    eexists. split; [reflexivity |]. split.
    + apply Q.min_glb; [apply Q.le_min_r |].
      eapply Qle_trans; [apply Q.le_min_l |].
      rewrite <- (Qplus_0_r (nf_criticality_score f)) at 1.
      apply Qplus_le_r. discriminate.
    + eapply Qle_trans; [apply Q.le_min_l | apply Q.le_max_r].
  - exists (nf_criticality_score fm). rewrite set_criticality_score_same.
    split; [assumption |]. split; [apply Q.le_min_l | apply Q.le_max_l].
Qed.

Lemma raise_criticality_only (nodes : list string) :
  forall g : SupplyChainGraph,
    only_criticality_raised g (snd (raise_criticality g nodes)).
Proof.
  induction nodes as [| n nodes IH]; intros g.
  - apply only_criticality_raised_refl.
  - cbn [raise_criticality]. destruct (Nx.has_node (graph g) n).
    + destruct (get (node_features g) n) as [f |] eqn:Ef.
      * eapply only_criticality_raised_trans;
          [apply (raise_one_only_criticality g n Ef) | apply IH].
      * apply only_criticality_raised_refl.
    + apply IH.
Qed.

(** A node the list does not name keeps its entry. *)
Lemma raise_criticality_frame (nodes : list string) :
  forall (g : SupplyChainGraph) (m : string),
    ~ In m nodes ->
    get (node_features (snd (raise_criticality g nodes))) m
    = get (node_features g) m.
Proof.
  induction nodes as [| n nodes IH]; intros g m Hm; [reflexivity |].
  cbn [raise_criticality]. destruct (Nx.has_node (graph g) n).
  - destruct (get (node_features g) n) as [f |] eqn:Ef; [| reflexivity].
    rewrite IH by (intros H; apply Hm; now right).
    cbn [node_features]. rewrite get_set_item.
    destruct (String.eqb n m) eqn:E; [| reflexivity].
    apply String.eqb_eq in E. subst m. exfalso. apply Hm. now left.
  - apply IH. intros H. apply Hm. now right.
Qed.

(** The loop raises nothing or [KeyError], the latter at a listed node
    of the graph that has no features. *)
Lemma raise_criticality_outcome (nodes : list string) :
  forall g : SupplyChainGraph,
    fst (raise_criticality g nodes) = Ok tt
    \/ (fst (raise_criticality g nodes) = Raise KeyError
        /\ exists n, In n nodes
                     /\ Nx.has_node (graph g) n = true
                     /\ get (node_features g) n = None).
Proof.
  induction nodes as [| n nodes IH]; intros g; [now left |].
  cbn [raise_criticality]. destruct (Nx.has_node (graph g) n) eqn:En.
  - destruct (get (node_features g) n) as [f |] eqn:Ef.
    + match goal with |- context [raise_criticality ?g1 nodes] =>
        destruct (IH g1) as [H3 | (H3 & m & Hm & Hg & Hf)] end;
        [now left |].
      right. split; [assumption |]. exists m.
      split; [now right |]. split; [exact Hg |].
      cbn [node_features] in Hf. rewrite get_set_item in Hf.
      destruct (String.eqb n m); [discriminate | assumption].
    + right. split; [reflexivity |]. exists n. split; [now left | auto].
  - destruct (IH g) as [H3 | (H3 & m & Hm & Hg & Hf)]; [now left |].
    right. split; [assumption |]. exists m. split; [now right | auto].
Qed.

(** When the loop ends, a listed node of the graph has a score of at
    least [min(100, old + 20)] and at most 100. *)
Lemma raise_criticality_listed (nodes : list string) :
  forall (g : SupplyChainGraph) (m : string) (f : NodeFeatures),
    fst (raise_criticality g nodes) = Ok tt ->
    In m nodes ->
    Nx.has_node (graph g) m = true ->
    get (node_features g) m = Some f ->
    exists c,
      get (node_features (snd (raise_criticality g nodes))) m
      = Some (set_criticality_score f c)
      /\ Qmin 100 (nf_criticality_score f + 20) <= c
      /\ c <= 100.
Proof.
  induction nodes as [| n nodes IH]; intros g m f Hok Hin Hg Hf;
    [contradiction |].
  cbn [raise_criticality] in *.
  destruct (string_dec n m) as [-> | Hne].
  - rewrite Hg, Hf in *.
    set (c1 := Qmin 100 (nf_criticality_score f + 20)) in *.
    match goal with |- context [raise_criticality ?g1 nodes] =>
      destruct (raise_criticality_only nodes g1) as (_ & _ & _ & H4);
      destruct (H4 m (set_criticality_score f c1)) as (c & Hc & L & U)
    end.
    { cbn [node_features]. rewrite get_set_item. now rewrite String.eqb_refl. }
    cbn [set_criticality_score nf_criticality_score] in Hc, L, U.
    assert (H100 : c1 <= 100) by apply Q.le_min_l.
    exists c. split; [exact Hc |]. split.
    + eapply Qle_trans; [| exact L]. apply Q.min_glb; [apply Qle_refl | exact H100].
    + eapply Qle_trans; [exact U |].
      apply Q.max_lub; [exact H100 | apply Qle_refl].
  - assert (Hin' : In m nodes) by (destruct Hin; [contradiction | assumption]).
    destruct (Nx.has_node (graph g) n).
    + destruct (get (node_features g) n) as [fn |] eqn:Ef; [| discriminate].
      apply IH; try assumption.
      cbn [node_features]. rewrite get_set_item.
      destruct (String.eqb n m) eqn:E; [| assumption].
      apply String.eqb_eq in E. contradiction.
    + now apply IH.
Qed.

(** X19. The [redundancy] branch of [_apply_mitigations] adds no node and
    no edge: whether its loop ends or raises, the networkx graph, the
    edge features and the keys of the node features are as before; every
    entry of the node features is the old entry with all fields but the
    criticality score unchanged, and its new score lies between the old
    one and 100 (so a score that was at most 100 is not lowered and does
    not pass 100, and a score that was over 100 only comes down, not
    below 100); the entry of a node the target list does not name is
    unchanged.  The loop can only raise [KeyError], for a listed node of
    the graph that has no features; when it ends, every listed node of
    the graph has a score of at least min(100, old + 20) and at most
    100. *)
Theorem redundancy_only_raises_criticality :
  forall (nodes : list string) (g : SupplyChainGraph),
    only_criticality_raised g (snd (raise_criticality g nodes))
    /\ (forall m, ~ In m nodes ->
          get (node_features (snd (raise_criticality g nodes))) m
          = get (node_features g) m)
    /\ (fst (raise_criticality g nodes) = Ok tt
        \/ (fst (raise_criticality g nodes) = Raise KeyError
            /\ exists n, In n nodes
                         /\ Nx.has_node (graph g) n = true
                         /\ get (node_features g) n = None))
    /\ (fst (raise_criticality g nodes) = Ok tt ->
        forall m f,
          In m nodes ->
          Nx.has_node (graph g) m = true ->
          get (node_features g) m = Some f ->
          exists c,
            get (node_features (snd (raise_criticality g nodes))) m
            = Some (set_criticality_score f c)
            /\ Qmin 100 (nf_criticality_score f + 20) <= c
            /\ c <= 100).
Proof.
  intros nodes g. split; [apply raise_criticality_only |].
  split; [intros m; apply raise_criticality_frame |].
  split; [apply raise_criticality_outcome |].
  intros Hok m f. now apply raise_criticality_listed.
Qed.

(** X19 on the chain, for the target list [A; A; Z]: [Z] is no node of
    the graph, and [A], of criticality 0, is raised twice. *)
Lemma redundancy_only_raises_criticality_witness :
  fst (raise_criticality Examples.chain ["A"; "A"; "Z"]) = Ok tt
  /\ In "A" ["A"; "A"; "Z"]
  /\ Nx.has_node (graph Examples.chain) "A" = true
  /\ exists f c,
       get (node_features Examples.chain) "A" = Some f
       /\ get (node_features
                 (snd (raise_criticality Examples.chain ["A"; "A"; "Z"]))) "A"
          = Some (set_criticality_score f c)
       /\ Qmin 100 (nf_criticality_score f + 20) <= c
       /\ c <= 100.
Proof.
  split; [reflexivity |]. split; [now left |]. split; [reflexivity |].
  destruct (redundancy_only_raises_criticality ["A"; "A"; "Z"] Examples.chain)
    as (_ & _ & _ & H).
  assert (Hf : exists f, get (node_features Examples.chain) "A" = Some f)
    by (eexists; reflexivity).
  destruct Hf as [f Hf].
  destruct (H eq_refl "A" f (or_introl eq_refl) eq_refl Hf) as (c & Hc & L & U).
  exists f, c. repeat split; assumption.
Defined.

Lemma insert_by_ascending {A} (key : A -> Z) (x : A) (l : list A) :
  ascending_by key l -> ascending_by key (insert_by key x l).
Proof.
  induction l as [| y l IH]; intros H; [exact I |].
  cbn [insert_by]. destruct (key y <=? key x)%Z eqn:E.
  - apply Z.leb_le in E. destruct l as [| z l].
    + simpl. auto.
    + cbn [ascending_by] in H. destruct H as [H1 H2].
      specialize (IH H2). cbn [insert_by] in *.
      destruct (key z <=? key x)%Z; cbn [ascending_by] in *; tauto.
  - apply Z.leb_gt in E. cbn [ascending_by]. split; [lia | exact H].
Qed.

Lemma sorted_by_ascending {A} (key : A -> Z) (l : list A) :
  ascending_by key (sorted_by key l).
Proof.
  unfold sorted_by.
  assert (G : forall acc, ascending_by key acc ->
             ascending_by key (fold_left (fun a x => insert_by key x a) l acc)).
  { induction l as [| x l IH]; intros acc H; simpl; [assumption |].
    apply IH. now apply insert_by_ascending. }
  apply G. exact I.
Qed.

Lemma insert_by_length {A} (key : A -> Z) (x : A) (l : list A) :
  List.length (insert_by key x l) = S (List.length l).
Proof.
  induction l as [| z l IH]; simpl; [reflexivity |].
  destruct (key z <=? key x)%Z; simpl; now rewrite ?IH.
Qed.

Lemma sorted_by_length {A} (key : A -> Z) (l : list A) :
  List.length (sorted_by key l) = List.length l.
Proof.
  unfold sorted_by.
  assert (G : forall acc,
             List.length (fold_left (fun a x => insert_by key x a) l acc)
             = (List.length acc + List.length l)%nat).
  { induction l as [| x l IH]; intros acc; simpl; [lia |].
    rewrite IH, insert_by_length. lia. }
  now rewrite G.
Qed.

Lemma ascending_firstn {A} (key : A -> Z) (n : nat) (l : list A) :
  ascending_by key l -> ascending_by key (firstn n l).
Proof.
  revert l. induction n as [| n IH]; intros [| x l] H; try exact I.
  cbn [firstn]. destruct l as [| y l]; [destruct n; exact I |].
  destruct n as [| n]; [exact I |].
  cbn [ascending_by] in H. destruct H as [H1 H2].
  specialize (IH (y :: l) H2). cbn [firstn] in *. cbn [ascending_by].
  split; assumption.
Qed.

Lemma ascending_slice_to {A} (key : A -> Z) (n : Z) (l : list A) :
  ascending_by key l -> ascending_by key (slice_to l n).
Proof. unfold slice_to. destruct (n <? 0)%Z; apply ascending_firstn. Qed.

(* ------------------------------------------------------------------ *)
(** ** [run_simulation] and the iteration order of sets                *)
(* ------------------------------------------------------------------ *)

(** Whatever the order, a wave that returns a step is followed by the
    [TypeError] of [step_result['new_compromised']]: one round of the
    loop leaves it. *)
Lemma hash_loop_unfold (order : SetOrder) (fuel : nat) (eng : Engine)
  (g : SupplyChainGraph) (st : SimState) (r : Rng) :
  HashOrder.simulation_loop order (S fuel) eng g st r
  = if loop_guard eng st then
      let '(res, st', r') :=
        HashOrder._execute_simulation_step order eng g st r in
      Some (match res with
            | Ok _ => Raise TypeError
            | Raise e => Raise e
            end, st', r')
    else Some (Ok tt, st, r).
Proof.
  cbn [HashOrder.simulation_loop]. destruct (loop_guard eng st); [| reflexivity].
  destruct (HashOrder._execute_simulation_step order eng g st r)
    as [[[s | e] st'] r']; reflexivity.
Qed.

Lemma hash_loop_guard_false (order : SetOrder) (fuel : nat) (eng : Engine)
  (g : SupplyChainGraph) (st : SimState) (r : Rng) :
  loop_guard eng st = false ->
  HashOrder.simulation_loop order fuel eng g st r = Some (Ok tt, st, r).
Proof. intros H. destruct fuel; cbn [HashOrder.simulation_loop]; now rewrite H. Qed.

(** [run_simulation] in closed form: the loop is entered or not; when it
    is, the first wave ends the [try] block with an exception. *)
Lemma hash_run_cases (order : SetOrder) (eng : Engine) (g : SupplyChainGraph)
  (initial : list string) (sid : option string) (now : Z) (r : Rng) :
  HashOrder.run_simulation order eng g initial sid now r
  = if loop_guard eng (initial_state g initial) then
      let '(_, st', r') :=
        HashOrder._execute_simulation_step order eng g
                                           (initial_state g initial) r in
      Some (HashOrder.failed_result order (resolve_id sid now) initial st', r')
    else
      Some (match HashOrder._finalize_simulation order g (resolve_id sid now)
                    (initial_state g initial) initial with
            | Ok res => res
            | Raise _ =>
                HashOrder.failed_result order (resolve_id sid now) initial
                                        (initial_state g initial)
            end, r).
Proof.
  unfold HashOrder.run_simulation, HashOrder.try_body.
  destruct (loop_guard eng (initial_state g initial)) eqn:Eg.
  - assert (Hf : exists n, Z.to_nat (max_simulation_steps eng) = S n).
    { unfold loop_guard in Eg. apply andb_true_iff in Eg.
      destruct Eg as [Eg _]. apply Z.ltb_lt in Eg. cbn in Eg.
      exists (Nat.pred (Z.to_nat (max_simulation_steps eng))). lia. }
    destruct Hf as [n ->]. rewrite hash_loop_unfold, Eg.
    destruct (HashOrder._execute_simulation_step order eng g _ r)
      as [[[s | e] st'] r']; reflexivity.
  - rewrite hash_loop_guard_false by assumption.
    destruct (HashOrder._finalize_simulation order g _ _ initial); reflexivity.
Qed.

(** With insertion order for [order], the functions of [HashOrder] are
    those of the engine. *)
Lemma hash_loop_insertion_order (fuel : nat) (eng : Engine)
  (g : SupplyChainGraph) :
  forall (st : SimState) (r : Rng),
    HashOrder.simulation_loop (fun s => s) fuel eng g st r
    = simulation_loop fuel eng g st r.
Proof.
  unfold simulation_loop.
  destruct fuel as [| fuel]; intros st r;
    cbn [HashOrder.simulation_loop simulation_loop_with]; [reflexivity |].
  destruct (loop_guard eng st); [| reflexivity].
  change (HashOrder._execute_simulation_step (fun s => s) eng g st r)
    with (_execute_simulation_step eng g st r).
  destruct (_execute_simulation_step eng g st r) as [[[s | e] st'] r'];
    reflexivity.
Qed.

Lemma hash_run_insertion_order (eng : Engine) (g : SupplyChainGraph)
  (initial : list string) (sid : option string) (now : Z) (r : Rng) :
  HashOrder.run_simulation (fun s => s) eng g initial sid now r
  = run_simulation eng g initial sid now r.
Proof.
  unfold HashOrder.run_simulation, run_simulation, run_simulation_with,
    HashOrder.try_body, try_body.
  rewrite hash_loop_insertion_order. reflexivity.
Qed.

(** A set with at most one element is iterated in one way only. *)
Lemma order_small (o : SetOrder) (s : list string) :
  iteration_order o -> (List.length s <= 1)%nat -> o s = s.
Proof.
  intros Ho Hl. specialize (Ho s). destruct s as [| x [| y l]].
  - apply Permutation_sym, Permutation_nil in Ho. exact Ho.
  - apply Permutation_sym, Permutation_length_1_inv in Ho. exact Ho.
  - simpl in Hl. lia.
Qed.

(** The first loop of a wave ends without an exception only if every
    node it visits is a node of the graph. *)
Lemma spread_ok_nodes (eng : Engine) (g : SupplyChainGraph)
  (sec : list string) :
  forall (nodes : list string) (a : Attempts),
    fst (spread eng g sec nodes a) = Ok tt ->
    forall n, In n nodes -> Nx.has_node (graph g) n = true.
Proof.
  induction nodes as [| c nodes IH]; intros a Hok n Hn; [destruct Hn |].
  cbn [spread] in Hok. unfold Nx.successors in Hok.
  destruct (Nx.has_node (graph g) c) eqn:Ec; [| discriminate].
  destruct Hn as [<- | Hn]; [exact Ec | eapply IH; eassumption].
Qed.

Lemma fold_affected_NoDup (sec nbrs : list string) :
  forall aff : list string,
    NoDup aff ->
    NoDup (fold_left (fun s neighbor =>
                        if mem neighbor sec then set_add s neighbor else s)
                     nbrs aff).
Proof.
  induction nbrs as [| n nbrs IH]; intros aff Hnd; simpl; [assumption |].
  apply IH. destruct (mem n sec); [| assumption].
  unfold set_add. destruct (mem n aff) eqn:E; [assumption |].
  now apply NoDup_snoc.
Qed.

(** The third loop of a wave over nodes of the graph: it raises nothing,
    and the set it leaves holds the secure successors of the nodes, in
    whatever order they are visited. *)
Lemma update_affected_nodes (g : SupplyChainGraph) (sec : list string) :
  forall (nodes aff : list string),
    (forall n, In n nodes -> Nx.has_node (graph g) n = true) ->
    fst (update_affected g sec nodes aff) = Ok tt
    /\ (NoDup aff -> NoDup (snd (update_affected g sec nodes aff)))
    /\ forall x, In x (snd (update_affected g sec nodes aff))
                 <-> In x aff
                     \/ (In x sec
                         /\ exists c, In c nodes
                                      /\ In x (Nx.succ_list (graph g) c)).
Proof.
  induction nodes as [| c nodes IH]; intros aff Hg.
  - simpl. split; [reflexivity |]. split; [trivial |].
    intros x. split; [now left | intros [H | (_ & c & [] & _)]; exact H].
  - cbn [update_affected]. unfold Nx.neighbors, Nx.successors.
    rewrite (Hg c (or_introl eq_refl)).
    match goal with |- context [update_affected g sec nodes ?aff1] =>
      destruct (IH aff1 (fun n H => Hg n (or_intror H))) as (H1 & H2 & H3)
    end.
    split; [exact H1 |]. split.
    + intros Hnd. apply H2. now apply fold_affected_NoDup.
    + intros x. rewrite H3, fold_affected_In. split.
      * intros [[H | [Hx Hs]] | (Hs & c' & Hc' & Hx)].
        -- now left.
        -- right. split; [exact Hs |]. exists c. split; [now left | exact Hx].
        -- right. split; [exact Hs |]. exists c'. split; [now right | exact Hx].
      * intros [H | (Hs & c' & [<- | Hc'] & Hx)].
        -- left. now left.
        -- left. right. now split.
        -- right. split; [exact Hs |]. exists c'. now split.
Qed.

Lemma update_affected_perm (g : SupplyChainGraph) (sec : list string)
  (nodes1 nodes2 aff : list string) :
  Permutation nodes1 nodes2 ->
  (forall n, In n nodes1 -> Nx.has_node (graph g) n = true) ->
  NoDup aff ->
  fst (update_affected g sec nodes1 aff) = Ok tt
  /\ fst (update_affected g sec nodes2 aff) = Ok tt
  /\ Permutation (snd (update_affected g sec nodes1 aff))
                 (snd (update_affected g sec nodes2 aff)).
Proof.
  intros Hp Hg Hnd.
  assert (Hg2 : forall n, In n nodes2 -> Nx.has_node (graph g) n = true).
  { intros n Hn. apply Hg. eapply Permutation_in; [| exact Hn].
    now apply Permutation_sym. }
  destruct (update_affected_nodes g sec nodes1 aff Hg) as (A1 & A2 & A3).
  destruct (update_affected_nodes g sec nodes2 aff Hg2) as (B1 & B2 & B3).
  split; [exact A1 |]. split; [exact B1 |].
  apply NoDup_Permutation; [now apply A2 | now apply B2 |].
  intros x. rewrite A3, B3. split.
  - intros [H | (Hs & c & Hc & Hx)]; [now left |].
    right. split; [exact Hs |]. exists c. split; [| exact Hx].
    eapply Permutation_in; eassumption.
  - intros [H | (Hs & c & Hc & Hx)]; [now left |].
    right. split; [exact Hs |]. exists c. split; [| exact Hx].
    eapply Permutation_in; [apply Permutation_sym |]; eassumption.
Qed.

(** One wave under two iteration orders that visit the compromised set
    of the state in the same order: the same draws are made for the same
    edges, and the states left differ at most in the insertion order of
    the affected set. *)
Lemma hash_step_orders (o1 o2 : SetOrder) (eng : Engine)
  (g : SupplyChainGraph) (st : SimState) (r : Rng) :
  iteration_order o1 -> iteration_order o2 ->
  endpoints_are_nodes (graph g) ->
  NoDup (affected st) ->
  o1 (compromised st) = o2 (compromised st) ->
  let '(_, st1, r1) := HashOrder._execute_simulation_step o1 eng g st r in
  let '(_, st2, r2) := HashOrder._execute_simulation_step o2 eng g st r in
  r1 = r2
  /\ compromised st1 = compromised st2
  /\ Permutation (affected st1) (affected st2)
  /\ st_step_number st1 = st_step_number st2
  /\ simulation_time st1 = simulation_time st2
  /\ steps st1 = steps st2.
Proof.
  intros Ho1 Ho2 Hw Hnd Ho. unfold HashOrder._execute_simulation_step.
  rewrite <- Ho.
  pose proof (spread_spec eng g (secure st) (o1 (compromised st))
                {| propagating_nodes := []; attempt_paths := [];
                   clock := simulation_time st; rng := r |})
    as (newp & Hp & _ & Hnew & _).
  pose proof (spread_ok_nodes eng g (secure st) (o1 (compromised st))
                {| propagating_nodes := []; attempt_paths := [];
                   clock := simulation_time st; rng := r |}) as Hnodes.
  destruct (spread eng g (secure st) (o1 (compromised st)) _) as [res1 a].
  cbn [fst snd] in Hp, Hnodes. cbn [propagating_nodes app] in Hp.
  destruct res1 as [[] | e]; [| cbn; repeat split; apply Permutation_refl].
  specialize (Hnodes eq_refl).
  destruct (move_propagating_spec (propagating_nodes a) (secure st)
              (compromised st) []) as (added & _ & _ & _ & _ & Hcomp).
  destruct (move_propagating (propagating_nodes a)
              (secure st, compromised st, [])) as [[sec comp] new_comp].
  cbn [fst snd] in Hcomp.
  assert (Hg : forall n, In n comp -> Nx.has_node (graph g) n = true).
  { intros n Hn. apply Hcomp in Hn. destruct Hn as [Hn | [Hn _]].
    - apply Hnodes. eapply Permutation_in; [| exact Hn].
      apply Permutation_sym, Ho1.
    - rewrite Hp in Hn. apply in_map_iff in Hn.
      destruct Hn as (ct & <- & Hct). destruct (Hnew ct Hct) as (_ & Hs & _).
      eapply succ_list_are_nodes; eassumption. }
  assert (Hg1 : forall n, In n (o1 comp) -> Nx.has_node (graph g) n = true).
  { intros n Hn. apply Hg. eapply Permutation_in; [apply Ho1 | exact Hn]. }
  assert (Hperm : Permutation (o1 comp) (o2 comp)).
  { eapply Permutation_trans; [apply Ho1 | apply Permutation_sym, Ho2]. }
  destruct (@update_affected_perm g sec (o1 comp) (o2 comp) (affected st)
              Hperm Hg1 Hnd)
    as (A1 & A2 & A3).
  destruct (update_affected g sec (o1 comp) (affected st)) as [res3 aff1].
  destruct (update_affected g sec (o2 comp) (affected st)) as [res3' aff2].
  cbn [fst snd] in A1, A2, A3. subst res3 res3'.
  destruct (len (Nx.nodes (graph g)) =? 0)%Z; cbn; repeat split; exact A3.
Qed.

Lemma same_except_id_order (a b : SimulationResult) :
  same_except_id a b -> same_except_id_and_order a b.
Proof.
  intros (H1 & H2 & H3 & H4). split; [exact H1 |]. split; [exact H2 |].
  split; [rewrite H3; apply Permutation_refl | exact H4].
Qed.

(** What [run_simulation] returns when the loop is not entered, under
    two orders that list the compromised set in the same way. *)
Lemma hash_completed_orders (o1 o2 : SetOrder) (g : SupplyChainGraph)
  (id1 id2 : string) (st : SimState) (initial : list string) :
  o1 (compromised st) = o2 (compromised st) ->
  same_except_id
    match HashOrder._finalize_simulation o1 g id1 st initial with
    | Ok res => res
    | Raise _ => HashOrder.failed_result o1 id1 initial st
    end
    match HashOrder._finalize_simulation o2 g id2 st initial with
    | Ok res => res
    | Raise _ => HashOrder.failed_result o2 id2 initial st
    end.
Proof.
  intros Ho.
  unfold HashOrder._finalize_simulation, HashOrder._calculate_final_metrics,
    HashOrder.failed_result.
  rewrite <- Ho.
  destruct (len (Nx.nodes (graph g)) =? 0)%Z; cbn [bind];
    [unfold same_except_id; cbn; repeat split |].
  destruct (count_categories g (o1 (compromised st)) []) as [cats |];
    cbn [bind]; [| unfold same_except_id; cbn; repeat split].
  destruct (_generate_mitigation_suggestions st _) as [sugg |]; cbn [bind];
    unfold same_except_id; cbn; repeat split.
Qed.

(** The result of the [except] branch for two states that differ at
    most in the insertion order of the affected set. *)
Lemma hash_failed_orders (o1 o2 : SetOrder) (id1 id2 : string)
  (initial : list string) (st1 st2 : SimState) :
  iteration_order o1 -> iteration_order o2 ->
  compromised st1 = compromised st2 ->
  Permutation (affected st1) (affected st2) ->
  st_step_number st1 = st_step_number st2 ->
  simulation_time st1 = simulation_time st2 ->
  steps st1 = steps st2 ->
  same_except_id_and_order (HashOrder.failed_result o1 id1 initial st1)
                           (HashOrder.failed_result o2 id2 initial st2).
Proof.
  intros Ho1 Ho2 Hc Ha Hn Ht Hs.
  unfold same_except_id_and_order, HashOrder.failed_result. cbn.
  rewrite Hc, Hn, Ht, Hs. unfold len.
  rewrite (Permutation_length Ha).
  repeat split.
  eapply Permutation_trans; [apply Ho1 | apply Permutation_sym, Ho2].
Qed.

(** C1, amended.  [o1] and [o2] are the orders in which two interpreter
    processes iterate over sets.  Every call of [run_simulation] returns.
    Two calls in one process with the same engine, graph, initial list
    and generator state return results that agree on every field except
    simulation_id and leave the generator in the same state; when the
    caller supplies the simulation_id, the two results are equal.  A call
    in another process, on a graph whose edges join nodes of the graph,
    returns a result that agrees with these on every field except
    simulation_id and the order in which final_compromised is listed,
    and leaves the generator in the same state, provided the two
    processes iterate over the set of the initially compromised nodes in
    the same order; they do whenever that set has at most one element.
    With insertion order for the iteration, the call is [run_simulation]
    of the engine. *)
Theorem run_simulation_deterministic_up_to_id :
  forall (o1 o2 : SetOrder) (eng : Engine) (g : SupplyChainGraph)
         (initial : list string) (sid : option string) (now1 now2 : Z)
         (r : Rng),
    exists res1 res1' res2 r1 r2,
      HashOrder.run_simulation o1 eng g initial sid now1 r = Some (res1, r1)
      /\ HashOrder.run_simulation o1 eng g initial sid now2 r
         = Some (res1', r1)
      /\ HashOrder.run_simulation o2 eng g initial sid now2 r
         = Some (res2, r2)
      /\ same_except_id res1 res1'
      /\ (forall s, sid = Some s -> res1 = res1')
      /\ (iteration_order o1 -> iteration_order o2 ->
          endpoints_are_nodes (graph g) ->
          o1 (set_of_list initial) = o2 (set_of_list initial) ->
          same_except_id_and_order res1 res2 /\ r1 = r2)
      /\ (iteration_order o1 -> iteration_order o2 ->
          (List.length (set_of_list initial) <= 1)%nat ->
          o1 (set_of_list initial) = o2 (set_of_list initial))
      /\ HashOrder.run_simulation (fun s => s) eng g initial sid now1 r
         = run_simulation eng g initial sid now1 r.
Proof.
  intros o1 o2 eng g initial sid now1 now2 r.
  assert (Hsmall : iteration_order o1 -> iteration_order o2 ->
                   (List.length (set_of_list initial) <= 1)%nat ->
                   o1 (set_of_list initial) = o2 (set_of_list initial)).
  { intros Ho1 Ho2 Hl.
    now rewrite (@order_small o1 _ Ho1 Hl), (@order_small o2 _ Ho2 Hl). }
  pose proof (hash_run_cases o1 eng g initial sid now1 r) as R1.
  pose proof (hash_run_cases o1 eng g initial sid now2 r) as R1'.
  pose proof (hash_run_cases o2 eng g initial sid now2 r) as R2.
  destruct (loop_guard eng (initial_state g initial)).
  - pose proof (@hash_step_orders o1 o2 eng g (initial_state g initial) r)
      as Hstep.
    destruct (HashOrder._execute_simulation_step o1 eng g
                (initial_state g initial) r) as [[x1 st1] r1].
    destruct (HashOrder._execute_simulation_step o2 eng g
                (initial_state g initial) r) as [[x2 st2] r2].
    eexists. eexists. eexists. exists r1, r2.
    split; [exact R1 |]. split; [exact R1' |]. split; [exact R2 |].
    split; [unfold same_except_id; cbn; repeat split |].
    split; [intros s ->; reflexivity |].
    split; [| split; [exact Hsmall | apply hash_run_insertion_order]].
    intros Ho1 Ho2 Hw Ho.
    destruct (Hstep Ho1 Ho2 Hw (NoDup_nil _) Ho)
      as (Hr & Hc & Ha & Hn & Ht & Hs).
    split; [| exact Hr]. now apply hash_failed_orders.
  - eexists. eexists. eexists. exists r, r.
    split; [exact R1 |]. split; [exact R1' |]. split; [exact R2 |].
    split; [now apply hash_completed_orders |].
    split; [intros s ->; reflexivity |].
    split; [| split; [exact Hsmall | apply hash_run_insertion_order]].
    intros Ho1 Ho2 Hw Ho. split; [| reflexivity].
    apply same_except_id_order. now apply hash_completed_orders.
Qed.

Lemma insertion_order_iterates : iteration_order (fun s => s).
Proof. intros s. apply Permutation_refl. Qed.

Lemma reverse_order_iterates : iteration_order (@rev string).
Proof. intros s. apply Permutation_sym, Permutation_rev. Qed.

Lemma two_sources_endpoints : endpoints_are_nodes (graph Examples.two_sources).
Proof.
  intros e He. simpl in He.
  repeat (destruct He as [<- | He]; [split; reflexivity |]).
  destruct He.
Qed.

(** The amended C1 on the chain, from [A] alone: a process that iterates
    in insertion order and one that iterates in reverse. *)
Lemma run_simulation_deterministic_up_to_id_witness :
  iteration_order (fun s => s)
  /\ iteration_order (@rev string)
  /\ endpoints_are_nodes (graph Examples.chain)
  /\ (List.length (set_of_list ["A"]) <= 1)%nat
  /\ exists res1 res2 r1 r2,
       HashOrder.run_simulation (fun s => s) Examples.default_engine
                                Examples.chain ["A"] None 1 Examples.zero_rng
       = Some (res1, r1)
       /\ HashOrder.run_simulation (@rev string) Examples.default_engine
                                   Examples.chain ["A"] None 2
                                   Examples.zero_rng
          = Some (res2, r2)
       /\ same_except_id_and_order res1 res2
       /\ r1 = r2.
Proof.
  split; [exact insertion_order_iterates |].
  split; [exact reverse_order_iterates |].
  split; [exact chain_endpoints |].
  split; [simpl; lia |].
  destruct (run_simulation_deterministic_up_to_id
              (fun s => s) (@rev string) Examples.default_engine
              Examples.chain ["A"] None 1 2 Examples.zero_rng)
    as (res1 & res1' & res2 & r1 & r2 & H1 & _ & H2 & _ & _ & H3 & H4 & _).
  exists res1, res2, r1, r2. split; [exact H1 |]. split; [exact H2 |].
  apply H3.
  - exact insertion_order_iterates.
  - exact reverse_order_iterates.
  - exact chain_endpoints.
  - apply H4; [exact insertion_order_iterates | exact reverse_order_iterates |].
    simpl. lia.
Defined.

(** C1 as stated fails, in two ways.  With no simulation_id given, the
    same call made at clock readings 1 and 2 returns results that differ
    in their simulation_id.  And with the simulation_id given, the
    generator in the same state and [A] and [B] initially compromised on
    the graph with the edges [A -> C] and [B -> D], the only successful
    draw is the first one: a process that visits [A] first compromises
    [C], one that visits [B] first compromises [D], and the two results
    differ in their final_compromised sets. *)
Lemma run_simulation_not_reproducible :
  (exists res1 res2 r',
      run_simulation Examples.default_engine Examples.chain ["A"] None 1
                     Examples.zero_rng = Some (res1, r')
      /\ run_simulation Examples.default_engine Examples.chain ["A"] None 2
                        Examples.zero_rng = Some (res2, r')
      /\ simulation_id res1 = "sim_1"
      /\ simulation_id res2 = "sim_2"
      /\ res1 <> res2)
  /\ iteration_order (fun s => s)
  /\ iteration_order (@rev string)
  /\ endpoints_are_nodes (graph Examples.two_sources)
  /\ exists res1 res2 r1 r2,
       HashOrder.run_simulation (fun s => s) Examples.default_engine
                                Examples.two_sources ["A"; "B"] (Some "run") 0
                                Examples.first_only_rng
       = Some (res1, r1)
       /\ HashOrder.run_simulation (@rev string) Examples.default_engine
                                   Examples.two_sources ["A"; "B"]
                                   (Some "run") 0 Examples.first_only_rng
          = Some (res2, r2)
       /\ run_simulation Examples.default_engine Examples.two_sources
                         ["A"; "B"] (Some "run") 0 Examples.first_only_rng
          = Some (res1, r1)
       /\ final_compromised res1 = ["A"; "B"; "C"]
       /\ final_compromised res2 = ["D"; "B"; "A"]
       /\ ~ Permutation (final_compromised res1) (final_compromised res2)
       /\ ~ same_except_id res1 res2.
Proof.
  split.
  { eexists. eexists. eexists.
    split; [vm_compute; reflexivity |]. split; [vm_compute; reflexivity |].
    split; [reflexivity |]. split; [reflexivity |]. discriminate. }
  split; [exact insertion_order_iterates |].
  split; [exact reverse_order_iterates |].
  split; [exact two_sources_endpoints |].
  eexists. eexists. eexists. eexists.
  split; [vm_compute; reflexivity |]. split; [vm_compute; reflexivity |].
  split; [vm_compute; reflexivity |].
  split; [reflexivity |]. split; [reflexivity |]. split.
  - cbn [final_compromised]. intros H.
    apply (Permutation_in "C") in H; [| simpl; tauto].
    simpl in H. repeat (destruct H as [H | H]; [discriminate |]). exact H.
  - unfold same_except_id. cbn [final_compromised]. intros (_ & _ & H & _).
    discriminate.
Qed.

(** C6 as stated fails: [add_node] stores whatever risk_score it is
    given, and nothing clamps from below.  A vendor added to the empty
    graph with risk_score -1 and no other attribute gets base_risk
    min(1, -1 + 0.15) = -0.85, structural_risk 0, cascade_amplification
    0 and centrality_risk 0.3, hence combined_risk
    min(1, (0.25 * -0.85 + 0.20 * 0.3) * 1) = -0.1525, which is outside
    [0,1] and is not the clamp01 of the weighted product, which is 0. *)
Lemma combined_risk_negative_for_negative_risk_score :
  exists profiles p,
    calculate_node_risk_profiles
      Examples.lone_nx (Raise IndexError)
      (GraphEngine.add_node GraphEngine.empty "A" VENDOR 3 (-1) 0
                            GraphEngine.no_meta)
      None = Ok profiles
    /\ get profiles "A" = Some p
    /\ base_risk p == - (85 # 100)
    /\ centrality_risk p == 3 # 10
    /\ combined_risk p == - (61 # 400)
    /\ combined_risk p < 0
    /\ clamp01 (weighted_sum p
                * tier_multiplier
                    (RiskCalculator.tier_of
                       (GraphEngine.add_node GraphEngine.empty "A" VENDOR 3
                                             (-1) 0 GraphEngine.no_meta)
                       "A")) == 0
    /\ ~ combined_risk p
         == clamp01 (weighted_sum p
                     * tier_multiplier
                         (RiskCalculator.tier_of
                            (GraphEngine.add_node GraphEngine.empty "A" VENDOR
                                                  3 (-1) 0 GraphEngine.no_meta)
                            "A")).
Proof.
  eexists. eexists. split; [vm_compute; reflexivity |].
  split; [vm_compute; reflexivity |].
  repeat split; try (vm_compute; reflexivity).
  vm_compute. discriminate.
Qed.

(* ------------------------------------------------------------------ *)
(** ** risk_calculator.py: levels, factors and network scores          *)
(* ------------------------------------------------------------------ *)

Lemma Qle_bool_false (x y : Q) : Qle_bool x y = false -> y < x.
Proof.
  intros H. apply Qnot_le_lt. intros C. apply Qle_bool_iff in C. congruence.
Qed.

(** X20. [_determine_risk_level] is monotone: a larger combined risk
    never gets a lower level. *)
Theorem risk_level_is_monotone :
  forall a b : Q,
    a <= b ->
    (risk_rank (_determine_risk_level a)
     <= risk_rank (_determine_risk_level b))%Z.
Proof.
  intros a b Hab. unfold _determine_risk_level.
  destruct (Qle_bool (8 # 10) a) eqn:A8, (Qle_bool (8 # 10) b) eqn:B8;
    try (simpl; lia).
  - apply Qle_bool_iff in A8. apply Qle_bool_false in B8.
    exfalso. apply (Qlt_irrefl b).
    eapply Qlt_le_trans; [exact B8 |]. eapply Qle_trans; eassumption.
  - destruct (Qle_bool (6 # 10) b); [simpl; destruct (Qle_bool (6 # 10) a);
                                      [| destruct (Qle_bool (3 # 10) a)];
                                      simpl; lia |].
    destruct (Qle_bool (6 # 10) a); [| destruct (Qle_bool (3 # 10) a)];
      destruct (Qle_bool (3 # 10) b); simpl; lia.
  - destruct (Qle_bool (6 # 10) a) eqn:A6, (Qle_bool (6 # 10) b) eqn:B6;
      try (simpl; lia).
    + apply Qle_bool_iff in A6. apply Qle_bool_false in B6.
      exfalso. apply (Qlt_irrefl b).
      eapply Qlt_le_trans; [exact B6 |]. eapply Qle_trans; eassumption.
    + destruct (Qle_bool (3 # 10) a); simpl; lia.
    + destruct (Qle_bool (3 # 10) a) eqn:A3, (Qle_bool (3 # 10) b) eqn:B3;
        try (simpl; lia).
      apply Qle_bool_iff in A3. apply Qle_bool_false in B3.
      exfalso. apply (Qlt_irrefl b).
      eapply Qlt_le_trans; [exact B3 |]. eapply Qle_trans; eassumption.
Qed.

Lemma risk_level_is_monotone_witness :
  (45 # 100) <= (7 # 10)
  /\ (risk_rank (_determine_risk_level (45 # 100))
      <= risk_rank (_determine_risk_level (7 # 10)))%Z.
Proof.
  assert (H : (45 # 100) <= (7 # 10)) by (unfold Qle; simpl; lia).
  split; [exact H | exact (@risk_level_is_monotone _ _ H)].
Defined.

(** X21. [_identify_contributing_factors] never returns an empty list
    and never repeats a factor; the tier factor is listed exactly for
    tier 1, and the "moderate" note exactly when no sub-score is above
    0.6 and the tier is not 1, in which case it is the only entry. *)
Theorem contributing_factors_never_empty :
  forall (base structural cascade centrality : Q) (tier : Z),
    let factors :=
      _identify_contributing_factors base structural cascade centrality tier in
    factors <> []
    /\ (List.length factors <= 5)%nat
    /\ NoDup factors
    /\ (In "Critical tier classification" factors <-> tier = 1%Z)
    /\ (In "Moderate risk across multiple factors" factors
        <-> (base <= 6 # 10 /\ structural <= 6 # 10 /\ cascade <= 6 # 10
             /\ centrality <= 6 # 10 /\ tier <> 1%Z))
    /\ (In "Moderate risk across multiple factors" factors ->
        factors = ["Moderate risk across multiple factors"]).
Proof.
  intros base structural cascade centrality tier factors. subst factors.
  unfold _identify_contributing_factors, Qltb.
  assert (Hq : forall x, Qle_bool x (6 # 10) = true <-> x <= 6 # 10)
    by (intros x; apply Qle_bool_iff).
  rewrite <- !Hq.
  destruct (Qle_bool base (6 # 10)), (Qle_bool structural (6 # 10)),
    (Qle_bool cascade (6 # 10)), (Qle_bool centrality (6 # 10)),
    (tier =? 1)%Z eqn:Et;
    (apply Z.eqb_eq in Et || apply Z.eqb_neq in Et);
    cbn [negb app];
    (split; [discriminate |]);
    (split; [simpl; lia |]);
    (split; [repeat (constructor; [simpl; intuition discriminate |]);
             constructor |]);
    (split; [simpl; intuition (discriminate || congruence) |]);
    (split; [simpl; intuition (discriminate || congruence) |]);
    simpl; intuition (discriminate || congruence).
Qed.

Lemma tier_multiplier_ge_1 (t : Z) : 1 <= tier_multiplier t.
Proof.
  unfold tier_multiplier.
  destruct (t =? 1)%Z; [unfold Qle; simpl; lia |].
  destruct (t =? 2)%Z; [unfold Qle; simpl; lia |].
  destruct (t =? 3)%Z; unfold Qle; simpl; lia.
Qed.

Lemma overall_fold_bounds (g : SupplyChainGraph)
  (node_risks : list (string * NodeRiskProfile)) :
  profiles_in_unit_range node_risks ->
  forall acc : Q * Q,
    0 <= fst acc <= snd acc ->
    let out :=
      fold_left
        (fun acc kv =>
           let weight :=
             tier_multiplier (RiskCalculator.tier_of g (fst kv)) in
           (fst acc + combined_risk (snd kv) * weight, snd acc + weight))
        node_risks acc in
    0 <= fst out <= snd out.
Proof.
  induction 1 as [| kv l [[H0 H1] _] _ IH]; intros acc Hacc; [exact Hacc |].
  cbn [fold_left]. apply IH. cbn [fst snd].
  pose proof (tier_multiplier_ge_1 (RiskCalculator.tier_of g (fst kv))) as Hw.
  assert (Hw0 : 0 <= tier_multiplier (RiskCalculator.tier_of g (fst kv))).
  { eapply Qle_trans; [| exact Hw]. unfold Qle; simpl; lia. }
  split.
  - rewrite <- (Qplus_0_r 0). apply Qplus_le_compat; [apply Hacc |].
    now apply Qmult_le_0_compat.
  - apply Qplus_le_compat; [apply Hacc |].
    rewrite <- (Qmult_1_l (tier_multiplier _)) at 2.
    now apply Qmult_le_compat_r.
Qed.

Lemma tier_1_fold_bounds (g : SupplyChainGraph)
  (node_risks : list (string * NodeRiskProfile)) :
  profiles_in_unit_range node_risks ->
  forall acc : list string * Q,
    0 <= snd acc <= inject_Z (len (fst acc)) ->
    let out :=
      fold_left
        (fun acc kv =>
           if (RiskCalculator.tier_of g (fst kv) =? 1)%Z
           then ((fst acc ++ [fst kv])%list, snd acc + combined_risk (snd kv))
           else acc)
        node_risks acc in
    0 <= snd out <= inject_Z (len (fst out)).
Proof.
  induction 1 as [| kv l [[H0 H1] _] _ IH]; intros acc Hacc; [exact Hacc |].
  cbn [fold_left]. apply IH.
  destruct (RiskCalculator.tier_of g (fst kv) =? 1)%Z; [| exact Hacc].
  cbn [fst snd]. split.
  - rewrite <- (Qplus_0_r 0). apply Qplus_le_compat; [apply Hacc | exact H0].
  - unfold len. rewrite length_app. cbn [List.length].
    rewrite Nat2Z.inj_add, inject_Z_plus.
    apply Qplus_le_compat; [apply Hacc | exact H1].
Qed.

Lemma cascade_fold_bounds (node_risks : list (string * NodeRiskProfile)) :
  profiles_in_unit_range node_risks ->
  forall acc : Q * Z,
    0 <= fst acc <= inject_Z (snd acc) ->
    let out :=
      fold_left
        (fun acc kv =>
           (fst acc + cascade_amplification (snd kv) * combined_risk (snd kv),
            (snd acc + 1)%Z))
        node_risks acc in
    0 <= fst out <= inject_Z (snd out).
Proof.
  induction 1 as [| kv l [[H0 H1] [C0 C1]] _ IH]; intros acc Hacc;
    [exact Hacc |].
  cbn [fold_left]. apply IH. cbn [fst snd]. split.
  - rewrite <- (Qplus_0_r 0). apply Qplus_le_compat; [apply Hacc |].
    now apply Qmult_le_0_compat.
  - rewrite inject_Z_plus. apply Qplus_le_compat; [apply Hacc |].
    eapply Qle_trans; [| exact C1].
    rewrite <- (Qmult_1_r (cascade_amplification (snd kv))) at 2.
    rewrite !(Qmult_comm (cascade_amplification (snd kv))).
    now apply Qmult_le_compat_r.
Qed.

Lemma ratio_in_unit_range (a b : Q) :
  0 <= a <= b -> 0 < b -> 0 <= a / b <= 1.
Proof.
  intros [H0 H1] Hb. split.
  - apply Qle_shift_div_l; [assumption |]. now rewrite Qmult_0_l.
  - apply Qle_shift_div_r; [assumption |]. now rewrite Qmult_1_l.
Qed.

(** X22. The network-level scores stay in range: on profiles whose
    combined risk and cascade amplification lie between 0 and 1, the
    overall score, the tier-1 exposure and the cascade potential lie
    between 0 and 1, and so does the vulnerability density when the
    node count it is given is at least the number of profiles. *)
Theorem network_scores_in_unit_range :
  forall (g : SupplyChainGraph) (node_risks : list (string * NodeRiskProfile)),
    profiles_in_unit_range node_risks ->
    0 <= _calculate_overall_risk_score node_risks g <= 1
    /\ 0 <= _calculate_tier_1_exposure node_risks g <= 1
    /\ 0 <= _calculate_cascade_potential node_risks <= 1
    /\ forall total_nodes,
         (len node_risks <= total_nodes)%Z ->
         0 <= _calculate_vulnerability_density node_risks total_nodes <= 1.
Proof.
  intros g node_risks H.
  assert (U : 0 <= 0 <= 1) by (split; unfold Qle; simpl; lia).
  split; [| split; [| split]].
  - unfold _calculate_overall_risk_score.
    destruct node_risks as [| kv l]; [exact U |].
    pose proof (@overall_fold_bounds g (kv :: l) H (0, 0)) as Hf.
    cbn zeta in Hf. destruct (fold_left _ (kv :: l) (0, 0)) as [twr tw].
    cbn [fst snd] in Hf. specialize (Hf (conj (Qle_refl 0) (Qle_refl 0))).
    apply ratio_in_unit_range.
    + split; [apply Hf |]. eapply Qle_trans; [apply Hf | apply Q.le_max_l].
    + eapply Qlt_le_trans; [| apply Q.le_max_r]. reflexivity.
  - unfold _calculate_tier_1_exposure.
    pose proof (@tier_1_fold_bounds g node_risks H ([], 0)) as Hf.
    cbn zeta in Hf. destruct (fold_left _ node_risks ([], 0)) as [ns sm].
    cbn [fst snd] in Hf. specialize (Hf (conj (Qle_refl 0) (Qle_refl 0))).
    destruct ns as [| n ns]; [exact U |].
    apply ratio_in_unit_range; [exact Hf |].
    unfold Qlt, len. simpl. lia.
  - unfold _calculate_cascade_potential.
    destruct node_risks as [| kv l]; [exact U |].
    pose proof (@cascade_fold_bounds (kv :: l) H (0, 0%Z)) as Hf.
    cbn zeta in Hf. destruct (fold_left _ (kv :: l) (0, 0%Z)) as [tc tn].
    cbn [fst snd] in Hf. specialize (Hf (conj (Qle_refl 0) (Qle_refl 0))).
    apply ratio_in_unit_range.
    + split; [apply Hf |]. eapply Qle_trans; [apply Hf |].
      rewrite <- Zle_Qle. lia.
    + unfold Qlt. simpl. lia.
  - intros total Ht. unfold _calculate_vulnerability_density.
    destruct (total =? 0)%Z eqn:E; [exact U |]. apply Z.eqb_neq in E.
    pose proof (filter_length_le
                  (fun kv : string * NodeRiskProfile =>
                     high_or_critical (risk_level (snd kv))) node_risks) as Hl.
    unfold len in *. apply ratio_in_unit_range.
    + split; [unfold Qle; simpl; lia | rewrite <- Zle_Qle; lia].
    + unfold Qlt. simpl. lia.
Qed.

Lemma network_scores_in_unit_range_witness :
  let p := {| node_id := "A"; base_risk := 1 # 2; structural_risk := 1 # 2;
              cascade_amplification := 1 # 2; centrality_risk := 1 # 2;
              combined_risk := 7 # 10; risk_level := HIGH;
              contributing_factors := [] |} in
  profiles_in_unit_range [("A", p)]
  /\ 0 <= _calculate_overall_risk_score [("A", p)] Examples.chain <= 1.
Proof.
  intros p.
  assert (H : profiles_in_unit_range [("A", p)]).
  { constructor; [| constructor]. subst p. cbn.
    repeat split; unfold Qle; simpl; lia. }
  split; [exact H |].
  exact (proj1 (@network_scores_in_unit_range Examples.chain _ H)).
Defined.

(** X23. Two of the factors averaged into the resilience score: the
    connectivity score lies between 0 and 1; the redundancy score lies
    between -1 and 1 and is negative whenever the graph has fewer edges
    than a spanning tree needs, so it pulls the average down rather
    than counting as no redundancy. *)
Theorem resilience_factor_ranges :
  forall (g : SupplyChainGraph),
    - (1) <= _calculate_redundancy_score g <= 1
    /\ ((len (Nx.edges (graph g)) < len (Nx.nodes (graph g)) - 1)%Z ->
        _calculate_redundancy_score g < 0)
    /\ 0 <= _calculate_connectivity_score g <= 1.
Proof.
  intros g. unfold _calculate_redundancy_score, _calculate_connectivity_score.
  set (e := len (Nx.edges (graph g))). set (n := len (Nx.nodes (graph g))).
  assert (He : (0 <= e)%Z) by (subst e; unfold len; lia).
  assert (Hn : (0 <= n)%Z) by (subst n; unfold len; lia).
  destruct (n <=? 1)%Z eqn:E.
  - apply Z.leb_le in E. split; [split; unfold Qle; simpl; lia |].
    split; [lia | split; unfold Qle; simpl; lia].
  - apply Z.leb_gt in E.
    assert (Hm : 0 < inject_Z (Z.max 1 (n - 1))) by (unfold Qlt; simpl; lia).
    split; [split |]; [| apply Q.le_min_l | split].
    + apply Q.min_glb; [unfold Qle; simpl; lia |].
      apply Qle_shift_div_l; [assumption |].
      change (- (1)) with (inject_Z (-1)).
      rewrite <- inject_Z_mult, <- Zle_Qle. lia.
    + intros Hlt. eapply Qle_lt_trans; [apply Q.le_min_r |].
      apply Qlt_shift_div_r; [assumption |]. rewrite Qmult_0_l.
      change 0 with (inject_Z 0). rewrite <- Zlt_Qlt. lia.
    + assert (Hx : 0 < inject_Z (Z.max 1 (n * (n - 1))))
        by (unfold Qlt; simpl; lia).
      split; [| apply Q.le_min_l].
      apply Q.min_glb; [unfold Qle; simpl; lia |].
      apply Qmult_le_0_compat; [| unfold Qle; simpl; lia].
      apply Qle_shift_div_l; [assumption |]. rewrite Qmult_0_l.
      change 0 with (inject_Z 0). rewrite <- Zle_Qle. lia.
Qed.

Lemma find_critical_paths_at_most_20 (g : SupplyChainGraph) (source : string)
  (max_depth : Z) (ps : list PropagationPath) :
  find_critical_paths g source max_depth = Ok ps -> (len ps <= 20)%Z.
Proof.
  unfold find_critical_paths.
  destruct (if Nx.has_node (graph g) source then _ else _) as [paths | e];
    [| discriminate].
  cbn [bind]. intros [= <-]. unfold slice_to, len.
  change (20 <? 0)%Z with false. cbv iota.
  rewrite length_firstn. change (Z.to_nat 20) with 20%nat. lia.
Qed.

(** X24. [_count_critical_paths] counts at most 20 paths for each node
    of level HIGH or CRITICAL (the cap of [find_critical_paths]), never
    a negative number, and 0 when no node has such a level; a source
    whose search raises adds nothing. *)
Theorem critical_path_count_bound :
  forall (g : SupplyChainGraph) (node_risks : list (string * NodeRiskProfile)),
    (0 <= _count_critical_paths g node_risks
     <= 20 * len (filter (fun kv => high_or_critical (risk_level (snd kv)))
                         node_risks))%Z.
Proof.
  intros g node_risks. unfold _count_critical_paths.
  set (srcs := filter _ node_risks). unfold len. rewrite <- (length_map fst srcs).
  generalize (map fst srcs). clear. intros l.
  assert (G : forall c,
             (c <= fold_left
                     (fun critical_paths source_node =>
                        match find_critical_paths g source_node 3 with
                        | Ok paths =>
                            (critical_paths
                             + len (filter
                                      (fun p => Qltb (6 # 10)
                                                     (GraphEngine.risk_score p))
                                      paths))%Z
                        | Raise _ => critical_paths
                        end) l c
              <= c + 20 * Z.of_nat (List.length l))%Z).
  { induction l as [| s l IH]; intros c; cbn [fold_left List.length]; [lia |].
    destruct (find_critical_paths g s 3) as [paths | e] eqn:E.
    - apply find_critical_paths_at_most_20 in E.
      pose proof (filter_length_le
                    (fun p => Qltb (6 # 10) (GraphEngine.risk_score p))
                    paths) as Hf.
      specialize (IH (c + len (filter
                                 (fun p => Qltb (6 # 10)
                                                (GraphEngine.risk_score p))
                                 paths))%Z).
      unfold len in *. destruct IH as [I1 I2]. split.
      + eapply Z.le_trans; [| exact I1]. lia.
      + eapply Z.le_trans; [exact I2 |]. lia.
    - specialize (IH c). destruct IH as [I1 I2]. split; [exact I1 |].
      eapply Z.le_trans; [exact I2 |]. lia. }
  specialize (G 0%Z). unfold len in *. destruct G as [G1 G2].
  split; [exact G1 | eapply Z.le_trans; [exact G2 | lia]].
Qed.

Lemma last_n_all {A} (n : nat) (l : list A) :
  (List.length l <= n)%nat -> last_n n l = l.
Proof.
  intros H. unfold last_n. replace (List.length l - n)%nat with 0%nat by lia.
  reflexivity.
Qed.

Lemma last_n_length {A} (n : nat) (l : list A) :
  List.length (last_n n l) = Nat.min n (List.length l).
Proof. unfold last_n. rewrite length_skipn. lia. Qed.

Lemma last_n_snoc {A} (n : nat) (l : list A) (x : A) :
  last_n (S n) (l ++ [x]) = (last_n n l ++ [x])%list.
Proof.
  unfold last_n. rewrite length_app. cbn [List.length].
  replace (List.length l + 1 - S n)%nat with (List.length l - n)%nat by lia.
  rewrite skipn_app.
  replace (List.length l - n - List.length l)%nat with 0%nat by lia.
  reflexivity.
Qed.

Lemma last_n_last_n {A} (k n : nat) (l : list A) :
  (k <= n)%nat -> last_n k (last_n n l) = last_n k l.
Proof.
  intros H. unfold last_n. rewrite length_skipn, skipn_skipn. f_equal. lia.
Qed.

Lemma add_snapshot_last_30 (h : list Snapshot) (ts : string)
  (m : RiskMetrics) :
  add_historical_snapshot h ts m
  = last_n 30 (h ++ [{| snapshot_timestamp := ts; metrics := m |}]).
Proof.
  unfold add_historical_snapshot.
  destruct (30 <? len _)%Z eqn:E; [reflexivity |].
  apply Z.ltb_ge in E. symmetry. apply last_n_all. unfold len in E. lia.
Qed.

(** X25. The analyzer keeps the latest 30 snapshots: after any sequence
    of [add_historical_snapshot] calls on a new analyzer, the history is
    the last 30 of the snapshots added, in the order they were added. *)
Theorem history_keeps_latest_30 :
  forall (added : list (string * RiskMetrics)),
    let history :=
      fold_left (fun h s => add_historical_snapshot h (fst s) (snd s))
                added [] in
    history
    = last_n 30 (map (fun s => {| snapshot_timestamp := fst s;
                                  metrics := snd s |}) added)
    /\ (List.length history <= 30)%nat.
Proof.
  intros added history. subst history.
  assert (G : forall (pre : list Snapshot),
             fold_left (fun h s => add_historical_snapshot h (fst s) (snd s))
                       added (last_n 30 pre)
             = last_n 30 (pre ++ map (fun s => {| snapshot_timestamp := fst s;
                                                  metrics := snd s |}) added)).
  { induction added as [| s added IH]; intros pre; cbn [fold_left map].
    - now rewrite app_nil_r.
    - rewrite add_snapshot_last_30.
      change 30%nat with (S 29) at 2. rewrite last_n_snoc.
      rewrite last_n_last_n by lia. rewrite <- last_n_snoc.
      change (S 29) with 30%nat. rewrite IH. now rewrite <- app_assoc. }
  specialize (G []). cbn [app] in G.
  change (last_n 30 (@nil Snapshot)) with (@nil Snapshot) in G.
  split; [exact G |]. rewrite G, last_n_length. lia.
Qed.

Lemma trend_keys :
  map (fun kf => trend_key (fst kf)) metrics_keys
  = ["overall_trend"; "cascade_potential_trend";
     "vulnerability_density_trend"; "resilience_trend"].
Proof. reflexivity. Qed.

(** The two keys [predict_future_risk] looks up for the cascade and the
    vulnerability trend are never among the keys [calculate_risk_trends]
    builds from a history of two snapshots or more, and are 0 below. *)
Lemma unread_trends (h : list Snapshot) :
  get_default (calculate_risk_trends h) "cascade_trend" 0 = 0
  /\ get_default (calculate_risk_trends h) "vulnerability_trend" 0 = 0.
Proof.
  unfold calculate_risk_trends. destruct (len h <? 2)%Z.
  - split; reflexivity.
  - cbn [fold_left metrics_keys fst snd].
    generalize (_calculate_linear_trend
                  (map (fun s => overall_score (metrics s)) h)),
               (_calculate_linear_trend
                  (map (fun s => cascade_potential (metrics s)) h)),
               (_calculate_linear_trend
                  (map (fun s => vulnerability_density (metrics s)) h)),
               (_calculate_linear_trend
                  (map (fun s => resilience_score (metrics s)) h)).
    intros t1 t2 t3 t4. split; reflexivity.
Qed.

(** X26. [predict_future_risk] returns nothing for an empty history and
    otherwise four predictions between 0 and 1.  The trends it reads
    under the keys [cascade_trend] and [vulnerability_trend] are never
    the computed ones ([calculate_risk_trends] files them under
    [cascade_potential_trend] and [vulnerability_density_trend]), so the
    predicted cascade potential and vulnerability density are the
    latest values clamped to [0, 1], whatever the history and the
    horizon. *)
Theorem prediction_ignores_two_trends :
  forall (h : list Snapshot) (latest : Snapshot) (days_ahead : Z),
    predict_future_risk [] days_ahead = None
    /\ exists p,
         predict_future_risk (h ++ [latest]) days_ahead = Some p
         /\ 0 <= predicted_overall_score p <= 1
         /\ 0 <= predicted_cascade_potential p <= 1
         /\ 0 <= predicted_vulnerability_density p <= 1
         /\ 0 <= predicted_resilience_score p <= 1
         /\ predicted_cascade_potential p
            == clamp01 (cascade_potential (metrics latest))
         /\ predicted_vulnerability_density p
            == clamp01 (vulnerability_density (metrics latest)).
Proof.
  intros h latest days. split; [reflexivity |].
  unfold predict_future_risk. rewrite rev_app_distr. cbn [rev app].
  eexists. split; [reflexivity |].
  cbn [predicted_overall_score predicted_cascade_potential
       predicted_vulnerability_density predicted_resilience_score].
  destruct (unread_trends (h ++ [latest])) as [-> ->].
  repeat (split; [apply clamp_unit_interval |]).
  unfold clamp01. split.
  - now rewrite Qmult_0_l, Qplus_0_r.
  - now rewrite Qmult_0_l, Qplus_0_r.
Qed.

Lemma sum_Q_acc (l : list Q) (a : Q) :
  fold_left Qplus l a == a + sum_Q l.
Proof.
  unfold sum_Q. revert a. induction l as [| x l IH]; intros a; simpl.
  - now rewrite Qplus_0_r.
  - rewrite (IH (a + x)), (IH (0 + x)). ring.
Qed.

Lemma sum_Q_cons (x : Q) (l : list Q) : sum_Q (x :: l) == x + sum_Q l.
Proof. unfold sum_Q at 1. simpl. rewrite sum_Q_acc. ring. Qed.

Lemma sum_Q_constant (c : Q) (l : list Q) :
  Forall (fun v => v == c) l -> sum_Q l == inject_Z (len l) * c.
Proof.
  induction 1 as [| v l Hv _ IH].
  - unfold sum_Q, len. simpl. now rewrite Qmult_0_l.
  - cbv beta in Hv. rewrite sum_Q_cons, IH. unfold len. cbn [List.length].
    rewrite Nat2Z.inj_succ, <- Z.add_1_r, inject_Z_plus, Hv. ring.
Qed.

Lemma sum_Q_zero (l : list Q) :
  Forall (fun v => v == 0) l -> sum_Q l == 0.
Proof.
  induction 1 as [| v l Hv _ IH]; [reflexivity |].
  cbv beta in Hv. rewrite sum_Q_cons, IH, Hv. ring.
Qed.

(** X27. A flat series has no trend: [_calculate_linear_trend] is 0 on
    values that are all equal. *)
Theorem flat_series_has_zero_trend :
  forall (values : list Q) (c : Q),
    Forall (fun v => v == c) values ->
    _calculate_linear_trend values == 0.
Proof.
  intros values c Hc. unfold _calculate_linear_trend.
  destruct (len values <? 2)%Z eqn:E; [reflexivity |]. apply Z.ltb_ge in E.
  destruct (Qeq_bool _ 0); [reflexivity |].
  assert (Hn : ~ inject_Z (len values) == 0).
  { unfold Qeq. simpl. lia. }
  assert (Hy : sum_Q values / inject_Z (len values) == c).
  { rewrite (sum_Q_constant Hc). field. exact Hn. }
  match goal with
  | |- sum_Q ?num / _ == 0 =>
      assert (Hz : sum_Q num == 0)
  end.
  { apply sum_Q_zero. apply Forall_forall. intros t Ht.
    apply in_map_iff in Ht. destruct Ht as [[x v] [<- Hxv]].
    apply in_combine_r in Hxv. cbn [fst snd].
    rewrite Forall_forall in Hc. pose proof (Hc v Hxv) as Hv.
    cbv beta in Hv. rewrite Hv, Hy. ring. }
  rewrite Hz. unfold Qdiv. apply Qmult_0_l.
Qed.

Lemma flat_series_has_zero_trend_witness :
  Forall (fun v => v == 1 # 2) [1 # 2; 2 # 4; 1 # 2]
  /\ _calculate_linear_trend [1 # 2; 2 # 4; 1 # 2] == 0.
Proof.
  assert (H : Forall (fun v => v == 1 # 2) [1 # 2; 2 # 4; 1 # 2]).
  { repeat constructor. }
  split; [exact H | exact (@flat_series_has_zero_trend _ _ H)].
Defined.

(* ------------------------------------------------------------------ *)
(** ** agents/mitigation/agent.py: ranking the candidates              *)
(* ------------------------------------------------------------------ *)

(** A feasible evaluation with a positive reduction has removed at least
    one path and at most all of them. *)
Lemma resimulate_positive (sim : Simulate) (G : Nx.DiGraph)
  (paths : list (list string)) (src : string) (depth : Z) :
  Qltb 0 (risk_reduction (resimulate sim G paths src depth)) = true ->
  (1 <= paths_reduced (resimulate sim G paths src depth) <= len paths)%Z.
Proof.
  unfold resimulate, Qltb.
  destruct (sim src depth G) as [new_paths |];
    cbn [risk_reduction paths_reduced infeasible]; [| discriminate].
  destruct (0 <? len paths)%Z eqn:E; [| discriminate].
  apply Z.ltb_lt in E. intros H. apply negb_true_iff in H.
  apply Qle_bool_false in H.
  assert (Hn : (0 <= len new_paths)%Z) by (unfold len; lia).
  split; [| lia].
  assert (Hz : Z.max 0 (len paths - len new_paths) = 0%Z
               \/ (1 <= Z.max 0 (len paths - len new_paths))%Z) by lia.
  destruct Hz as [Hz | Hz]; [| exact Hz].
  exfalso. rewrite Hz in H. revert H. unfold Qdiv. rewrite Qmult_0_l.
  apply Qlt_irrefl.
Qed.

Lemma evaluation_positive_ok (G : Nx.DiGraph) (src : string)
  (paths : list (list string)) (e : Evaluation) (ty tgt cx : string) :
  (e = infeasible
   \/ exists sim G' depth, e = resimulate sim G' paths src depth) ->
  feasible e && Qltb 0 (risk_reduction e) = true ->
  ((ty = "isolate_node" /\ tgt <> src /\ Nx.has_node G tgt = true)
   \/ ty = "remove_edge") ->
  action_ok G src paths
    {| action_type := ty; target := tgt;
       ma_risk_reduction := risk_reduction e;
       affected_paths_reduced := paths_reduced e;
       implementation_complexity := cx |}.
Proof.
  intros He Hf Hty. apply andb_true_iff in Hf. destruct Hf as [Hf Hp].
  destruct He as [-> | (sim & G' & depth & ->)]; [discriminate |].
  unfold action_ok.
  cbn [ma_risk_reduction affected_paths_reduced action_type target].
  split; [| split; [now apply resimulate_positive | exact Hty]].
  split; [| apply resimulate_ranges].
  unfold Qltb in Hp. apply negb_true_iff in Hp. now apply Qle_bool_false.
Qed.

Lemma isolation_candidates_ok (sim : Simulate) (G : Nx.DiGraph)
  (paths : list (list string)) (src : string) (depth : Z) :
  forall (top : list (string * Z)) (ms out : list MitigationAction),
    isolation_candidates sim G paths src depth top ms = Ok out ->
    Forall (action_ok G src paths) ms ->
    Forall (action_ok G src paths) out
    /\ (List.length out <= List.length ms + List.length top)%nat.
Proof.
  induction top as [| [n c] top IH]; intros ms out H Hms.
  - simpl in H. injection H as <-. split; [assumption | lia].
  - cbn [isolation_candidates] in H.
    destruct (max_mitigations <=? len ms)%Z.
    { injection H as <-. split; [assumption | lia]. }
    destruct (String.eqb n src) eqn:En.
    { apply IH in H; [| assumption]. cbn [List.length]. split; [tauto | lia]. }
    unfold evaluate_node_isolation in H.
    destruct (String.eqb n ""); [discriminate |].
    rewrite En, orb_false_r in H.
    destruct (Nx.has_node G n) eqn:Eg; cbn [negb bind] in H.
    + unfold Nx.remove_node in H. rewrite Eg in H. cbn [bind] in H.
      apply IH in H.
      * cbn [List.length]. destruct H as [H1 H2]. split; [assumption |].
        destruct (feasible _ && _); [rewrite length_app in H2; simpl in H2 |];
          lia.
      * destruct (feasible _ && _) eqn:Ef; [| assumption].
        apply Forall_app. split; [assumption |]. constructor; [| constructor].
        apply evaluation_positive_ok; [right; eauto | exact Ef |].
        left. split; [reflexivity |]. split; [| assumption].
        intros ->. now rewrite String.eqb_refl in En.
    + cbn [feasible infeasible andb] in H.
      apply IH in H; [| exact Hms]. cbn [List.length]. split; [tauto | lia].
Qed.

Lemma edge_candidates_ok (sim : Simulate) (G : Nx.DiGraph)
  (paths : list (list string)) (src : string) (depth : Z) :
  forall (top : list ((string * string) * Z)) (ms out : list MitigationAction),
    edge_candidates sim G paths src depth top ms = Ok out ->
    Forall (action_ok G src paths) ms ->
    Forall (action_ok G src paths) out
    /\ (List.length out <= List.length ms + List.length top)%nat.
Proof.
  induction top as [| [[s t] c] top IH]; intros ms out H Hms.
  - simpl in H. injection H as <-. split; [assumption | lia].
  - cbn [edge_candidates] in H.
    destruct (max_mitigations <=? len ms)%Z.
    { injection H as <-. split; [assumption | lia]. }
    unfold evaluate_edge_removal in H.
    destruct (Nx.has_edge G s t) eqn:Eg; cbn [negb bind] in H.
    + unfold remove_edge in H. rewrite Eg in H. cbn [bind] in H.
      apply IH in H.
      * cbn [List.length]. destruct H as [H1 H2]. split; [assumption |].
        destruct (feasible _ && _); [rewrite length_app in H2; simpl in H2 |];
          lia.
      * destruct (feasible _ && _) eqn:Ef; [| assumption].
        apply Forall_app. split; [assumption |]. constructor; [| constructor].
        apply evaluation_positive_ok; [right; eauto | exact Ef | now right].
    + cbn [feasible infeasible andb] in H.
      apply IH in H; [| exact Hms]. cbn [List.length]. split; [tauto | lia].
Qed.

Lemma slice_to_length_le {A} (l : list A) (n k : Z) :
  (0 <= n <= k)%Z -> (Z.of_nat (List.length (slice_to l n)) <= k)%Z.
Proof.
  intros H. unfold slice_to. destruct (n <? 0)%Z eqn:E.
  - apply Z.ltb_lt in E. lia.
  - rewrite length_firstn. lia.
Qed.

(** X28. What [evaluate_mitigations] ranks: at most 10 actions, in
    descending order of risk reduction; each has a reduction above 0 and
    at most 1 and has removed between one and all of the original paths;
    an isolation never targets the source vendor nor a node outside the
    graph; the two totals are the number of original paths and the sum
    of the paths removed by the ranked actions.  Without any original
    path nothing is ranked. *)
Theorem ranked_mitigations_shape :
  forall (sim : Simulate) (G : Nx.DiGraph) (source_vendor : string)
         (original_paths : list (list string)) (max_path_length : Z)
         (out : MitigationOutput),
    evaluate_mitigations sim G source_vendor original_paths max_path_length
    = Ok out ->
    (List.length (ranked_mitigations out) <= 10)%nat
    /\ descending_by ma_risk_reduction (ranked_mitigations out)
    /\ Forall (action_ok G source_vendor original_paths)
              (ranked_mitigations out)
    /\ total_paths_original out = len original_paths
    /\ total_paths_reducible out
       = sum_Z (map affected_paths_reduced (ranked_mitigations out))
    /\ (original_paths = [] -> ranked_mitigations out = []).
Proof.
  intros sim G src paths mpl out. unfold evaluate_mitigations.
  destruct (String.eqb src ""); [discriminate |].
  destruct paths as [| p paths].
  { intros [= <-]. cbn. repeat split; auto. lia. }
  set (ps := p :: paths).
  destruct (isolation_candidates sim G ps src _ _ []) as [ms1 | e] eqn:E1;
    [| discriminate].
  cbn [bind].
  destruct (edge_candidates sim G ps src _ _ ms1) as [ms2 | e] eqn:E2;
    [| discriminate].
  cbn [bind]. intros [= <-].
  cbn [ranked_mitigations total_paths_original total_paths_reducible].
  apply isolation_candidates_ok in E1; [| constructor].
  destruct E1 as [F1 L1].
  apply edge_candidates_ok in E2; [| exact F1]. destruct E2 as [F2 L2].
  split; [| split; [| split; [| split; [| split]]]]; try reflexivity.
  - rewrite sorted_desc_length.
    pose proof (@slice_to_length_le _
                  (sorted_desc (fun kv : string * Z => inject_Z (snd kv))
                               (node_path_count ps))
                  (Z.min 5 max_mitigations) 5) as H1.
    pose proof (@slice_to_length_le _
                  (sorted_desc
                     (fun kv : string * string * Z => inject_Z (snd kv))
                     (edge_path_count ps))
                  (Z.min 5 (max_mitigations - len ms1)) 5) as H2.
    cbn [List.length] in L1.
    assert (Hm : (len ms1 <= 5)%Z).
    { unfold len. unfold max_mitigations in *. lia. }
    unfold max_mitigations in *. lia.
  - apply sorted_desc_descending.
  - apply Forall_forall. intros m Hm. apply sorted_desc_In in Hm.
    rewrite Forall_forall in F2. now apply F2.
  - subst ps. discriminate.
Qed.

Lemma ranked_mitigations_shape_witness :
  exists out,
    evaluate_mitigations Examples.no_path (graph Examples.chain) "A"
                         [["A"; "B"]; ["A"; "B"; "C"]] 2 = Ok out
    /\ (List.length (ranked_mitigations out) <= 10)%nat
    /\ Forall (action_ok (graph Examples.chain) "A"
                         [["A"; "B"]; ["A"; "B"; "C"]])
              (ranked_mitigations out).
Proof.
  eexists. split; [vm_compute; reflexivity |].
  pose proof (@ranked_mitigations_shape Examples.no_path
                (graph Examples.chain) "A" [["A"; "B"]; ["A"; "B"; "C"]] 2%Z
                _ eq_refl) as (H1 & _ & H3 & _).
  split; [exact H1 | exact H3].
Defined.

(* ------------------------------------------------------------------ *)
(** ** mitigation_engine.py: impact of a mitigation, and the strategies *)
(* ------------------------------------------------------------------ *)

Lemma risk_score_of_write (g : SupplyChainGraph) (n m : string) (r : Q) :
  risk_score_of (write_risk_score g n r) m
  = if String.eqb n m then r else risk_score_of g m.
Proof.
  unfold risk_score_of, write_risk_score, Nx.node_data_or_empty, get_default,
    with_graph.
  cbn [graph Nx.node_dict]. rewrite get_set_item.
  destruct (String.eqb n m); reflexivity.
Qed.

Lemma write_keeps_shape (g : SupplyChainGraph) (n : string) (r : Q) :
  Nx.has_node (graph g) n = true ->
  Nx.nodes (graph (write_risk_score g n r)) = Nx.nodes (graph g)
  /\ Nx.adj (graph (write_risk_score g n r)) = Nx.adj (graph g)
  /\ node_features (write_risk_score g n r) = node_features g
  /\ edge_features (write_risk_score g n r) = edge_features g.
Proof.
  intros H. unfold write_risk_score, with_graph, Nx.nodes.
  cbn [graph Nx.node_dict Nx.adj node_features edge_features].
  apply mem_In in H. apply get_Some_of_mem in H. destruct H as [d Hd].
  rewrite keys_set_item, Hd. auto.
Qed.

(** The loop that reduces the scores, on targets listed once each: the
    graph keeps its shape, a target that is in the graph has its score
    multiplied by 0.3 and its score from before the call recorded, and
    nothing else is recorded or changed. *)
Lemma reduce_risks_spec (targets : list string) :
  NoDup targets ->
  forall (g : SupplyChainGraph) (o : list (string * Q)),
    let out := reduce_risks g targets o in
    (Nx.nodes (graph (fst out)) = Nx.nodes (graph g)
     /\ Nx.adj (graph (fst out)) = Nx.adj (graph g)
     /\ node_features (fst out) = node_features g
     /\ edge_features (fst out) = edge_features g)
    /\ (forall m,
          risk_score_of (fst out) m
          = if mem m targets && Nx.has_node (graph g) m
            then risk_score_of g m * (3 # 10) else risk_score_of g m)
    /\ (forall k v, In (k, v) (snd out) ->
          In (k, v) o
          \/ (In k targets /\ Nx.has_node (graph g) k = true
              /\ v = risk_score_of g k))
    /\ (forall k, In k targets -> Nx.has_node (graph g) k = true ->
          In k (map fst (snd out))).
Proof.
  induction 1 as [| t targets Ht Hnd IH]; intros g o.
  - cbn. repeat split; auto. tauto.
  - cbn zeta. cbn [reduce_risks].
    destruct (Nx.has_node (graph g) t) eqn:Eg.
    + set (g' := write_risk_score g t (risk_score_of g t * (3 # 10))).
      destruct (write_keeps_shape g t (risk_score_of g t * (3 # 10)) Eg)
        as (W1 & W2 & W3 & W4). fold g' in W1, W2, W3, W4.
      assert (Wn : forall m, Nx.has_node (graph g') m = Nx.has_node (graph g) m).
      { intros m. unfold Nx.has_node. now rewrite W1. }
      specialize (IH g' (set_item o t (risk_score_of g t))). cbn zeta in IH.
      destruct IH as ((S1 & S2 & S3 & S4) & R & O1 & O2).
      split; [repeat split; congruence |]. split; [| split].
      * intros m. rewrite R, Wn. subst g'. rewrite !risk_score_of_write.
        change (mem m (t :: targets))
          with (String.eqb m t || mem m targets).
        rewrite (String.eqb_sym m t).
        destruct (String.eqb t m) eqn:E.
        -- apply String.eqb_eq in E. subst m.
           assert (Hm : mem t targets = false).
           { destruct (mem t targets) eqn:Em; [| reflexivity].
             apply mem_In in Em. contradiction. }
           rewrite Hm, Eg. reflexivity.
        -- reflexivity.
      * intros k v Hkv. apply O1 in Hkv.
        destruct Hkv as [Hkv | (Hk & Hg & ->)].
        -- apply set_item_In in Hkv. destruct Hkv as [[= -> ->] | Hkv];
             [| now left].
           right. split; [now left | auto].
        -- right. split; [now right |]. rewrite Wn in Hg.
           split; [assumption |]. subst g'. rewrite risk_score_of_write.
           destruct (String.eqb t k) eqn:E; [| reflexivity].
           apply String.eqb_eq in E. subst k. contradiction.
      * intros k [<- | Hk] Hg.
        -- clear O2.
           assert (Hin : In t (map fst (set_item o t (risk_score_of g t)))).
           { rewrite keys_set_item. destruct (get o t) eqn:Eo.
             - apply get_In in Eo. apply in_map_iff. now exists (t, q).
             - apply in_or_app. right. now left. }
           clear -Hin. revert Hin.
           generalize (set_item o t (risk_score_of g t)).
           generalize g'. clear. induction targets as [| x targets IH];
             intros g o Hin; [exact Hin |].
           cbn [reduce_risks]. destruct (Nx.has_node (graph g) x).
           ++ apply IH. rewrite keys_set_item.
              destruct (get o x); [assumption | apply in_or_app; now left].
           ++ now apply IH.
        -- apply O2; [assumption | now rewrite Wn].
    + specialize (IH g o). cbn zeta in IH.
      destruct IH as (S & R & O1 & O2).
      split; [exact S |]. split; [| split].
      * intros m. rewrite R.
        change (mem m (t :: targets))
          with (String.eqb m t || mem m targets).
        destruct (String.eqb m t) eqn:E; [| reflexivity].
        apply String.eqb_eq in E. subst m. rewrite Eg, !andb_false_r.
        reflexivity.
      * intros k v Hkv. apply O1 in Hkv.
        destruct Hkv as [Hkv | (Hk & Hg & ->)]; [now left |].
        right. split; [now right | auto].
      * intros k [<- | Hk] Hg; [congruence | now apply O2].
Qed.

Lemma restore_risks_spec (f : string -> Q) (l : list (string * Q)) :
  forall g : SupplyChainGraph,
    (forall k v, In (k, v) l ->
       v = f k /\ Nx.has_node (graph g) k = true) ->
    (Nx.nodes (graph (restore_risks g l)) = Nx.nodes (graph g)
     /\ Nx.adj (graph (restore_risks g l)) = Nx.adj (graph g)
     /\ node_features (restore_risks g l) = node_features g
     /\ edge_features (restore_risks g l) = edge_features g)
    /\ forall m,
         risk_score_of (restore_risks g l) m
         = if mem m (map fst l) then f m else risk_score_of g m.
Proof.
  unfold restore_risks.
  induction l as [| [k v] l IH]; intros g H; [cbn; auto |].
  cbn [fold_left fst snd map].
  destruct (H k v (or_introl eq_refl)) as [-> Hg].
  destruct (write_keeps_shape g k (f k) Hg) as (W1 & W2 & W3 & W4).
  destruct (IH (write_risk_score g k (f k))) as ((S1 & S2 & S3 & S4) & R).
  { intros k' v' Hkv. destruct (H k' v' (or_intror Hkv)) as [-> Hg'].
    split; [reflexivity |]. unfold Nx.has_node in *. now rewrite W1. }
  split; [repeat split; congruence |].
  intros m. rewrite R, risk_score_of_write.
  change (mem m (k :: map fst l)) with (String.eqb m k || mem m (map fst l)).
  rewrite (String.eqb_sym m k).
  destruct (mem m (map fst l)); [now rewrite orb_true_r |].
  rewrite orb_false_r. destruct (String.eqb k m) eqn:E; [| reflexivity].
  apply String.eqb_eq in E. now subst.
Qed.

(** X29. [calculate_mitigation_impact] leaves the engine's graph as it
    found it only when the second risk calculation returns.  For targets
    listed once each and a first calculation that returns: the graph
    keeps its nodes, edges and features in any case; when the
    calculation on the reduced graph returns too, every risk score is
    back to its value from before the call; when it raises, the fallback
    figures are returned and every target that is in the graph is left
    with 0.3 times its score. *)
Theorem mitigation_impact_restores_on_success_only :
  forall (calc : RiskCalculatorObject) (g : SupplyChainGraph)
         (targets : list string) (current : RiskCalculator.RiskMetrics),
    NoDup targets ->
    calc g = Ok current ->
    let reduced := fst (reduce_risks g targets []) in
    let out := calculate_mitigation_impact (Some calc) g targets in
    (Nx.nodes (graph (snd out)) = Nx.nodes (graph g)
     /\ Nx.adj (graph (snd out)) = Nx.adj (graph g)
     /\ node_features (snd out) = node_features g
     /\ edge_features (snd out) = edge_features g)
    /\ (is_ok (calc reduced) = true ->
        forall n, risk_score_of (snd out) n = risk_score_of g n)
    /\ (is_ok (calc reduced) = false ->
        fst out = fallback_impact
        /\ forall n, In n targets -> Nx.has_node (graph g) n = true ->
             risk_score_of (snd out) n = risk_score_of g n * (3 # 10)).
Proof.
  intros calc g targets current Hnd Hcur reduced out. subst reduced out.
  unfold calculate_mitigation_impact. rewrite Hcur.
  pose proof (@reduce_risks_spec targets Hnd g []) as Hr. cbn zeta in Hr.
  destruct (reduce_risks g targets []) as [g1 o1]. cbn [fst snd] in *.
  destruct Hr as ((S1 & S2 & S3 & S4) & R & O1 & O2).
  destruct (calc g1) as [mitigated | e]; cbn [fst snd is_ok].
  - destruct (@restore_risks_spec (risk_score_of g) o1 g1)
      as ((T1 & T2 & T3 & T4) & Rs).
    { intros k v Hkv. destruct (O1 k v Hkv) as [[] | (Hk & Hg & ->)].
      split; [reflexivity |]. unfold Nx.has_node in *. now rewrite S1. }
    split; [repeat split; congruence |]. split; [| discriminate].
    intros _ n. rewrite Rs. destruct (mem n (map fst o1)) eqn:E;
      [reflexivity |].
    rewrite R. destruct (mem n targets && Nx.has_node (graph g) n) eqn:E2;
      [| reflexivity].
    apply andb_true_iff in E2. destruct E2 as [E2 E3]. apply mem_In in E2.
    apply (O2 n E2) in E3. apply mem_In in E3. congruence.
  - split; [repeat split; assumption |]. split; [discriminate |].
    intros _. split; [reflexivity |]. intros n Hn Hg. rewrite R.
    apply mem_In in Hn. now rewrite Hn, Hg.
Qed.

Lemma mitigation_impact_restores_on_success_only_witness :
  let calc : RiskCalculatorObject :=
    fun _ => Ok {| RiskCalculator.overall_score := 1 # 2;
                   RiskCalculator.tier_1_exposure := 0;
                   RiskCalculator.cascade_potential := 1 # 4;
                   RiskCalculator.single_point_failures := 0;
                   RiskCalculator.critical_path_count := 0;
                   RiskCalculator.vulnerability_density := 0;
                   RiskCalculator.resilience_score := 1 |} in
  NoDup ["B"]
  /\ forall n,
       risk_score_of
         (snd (calculate_mitigation_impact (Some calc) Examples.chain ["B"])) n
       = risk_score_of Examples.chain n.
Proof.
  intros calc.
  assert (H : NoDup ["B"]) by (constructor; [intros [] | constructor]).
  split; [exact H |].
  exact (proj1 (proj2 (@mitigation_impact_restores_on_success_only calc
                         Examples.chain ["B"] _ H eq_refl)) eq_refl).
Defined.

Lemma template_loop_facts (eff time : string) (vendors num : Z)
  (templates : list Template) :
  forall strategies : list Strategy,
    let out := template_loop eff time vendors num templates strategies in
    len out = Z.max (len strategies)
                    (Z.min num (len strategies + len templates))
    /\ (map id strategies = ids_upto (List.length strategies) ->
        map id out = ids_upto (List.length out)).
Proof.
  induction templates as [| t templates IH]; intros s; cbn zeta.
  - cbn [template_loop]. split; [unfold len; simpl; lia | auto].
  - cbn [template_loop]. destruct (len s >=? num)%Z eqn:E.
    + split; [| auto]. unfold len in *. cbn [List.length]. lia.
    + specialize (IH (s ++ [{| id := next_id s; title := t_title t;
                               riskReduction := t_riskReduction t;
                               effectiveness := eff;
                               implementationTime := time;
                               cost := t_cost t;
                               priority := len s + 1;
                               affectedVendors := vendors;
                               category := t_category t |}])%list).
      cbn zeta in IH. destruct IH as [IH1 IH2]. split.
      * rewrite IH1. unfold len in *. rewrite length_app.
        cbn [List.length]. lia.
      * intros Hs. apply IH2. rewrite map_app, length_app, Hs.
        cbn [map id List.length]. unfold ids_upto.
        rewrite Nat.add_1_r, seq_S, map_app. cbn [map]. unfold next_id, len.
        do 4 f_equal. lia.
Qed.

Lemma hardening_loop_facts (g : SupplyChainGraph) (num : Z)
  (hc : list (string * CentralityMetrics)) :
  forall (i : Z) (strategies : list Strategy),
    let out := hardening_loop g num i hc strategies in
    (len strategies <= len out
     <= Z.max (len strategies) (Z.min num (len strategies + len hc)))%Z
    /\ (map id strategies = ids_upto (List.length strategies) ->
        map id out = ids_upto (List.length out)).
Proof.
  induction hc as [| [n m] hc IH]; intros i s; cbn zeta.
  - cbn [hardening_loop]. split; [unfold len; simpl; lia | auto].
  - cbn [hardening_loop]. destruct (len s >=? num)%Z eqn:E.
    + split; [| auto]. unfold len in *. cbn [List.length]. lia.
    + destruct (Nx.neighbors (graph g) n) as [nbrs | e].
      * match goal with
        | |- context [hardening_loop g num (i + 1) hc ?s'] =>
            specialize (IH (i + 1)%Z s')
        end.
        cbn zeta in IH. destruct IH as [IH1 IH2]. split.
        -- clear IH2. unfold len in *. rewrite length_app in IH1.
           cbn [List.length] in *. revert IH1.
           match goal with
           | |- context [List.length (hardening_loop ?a ?b ?c ?d ?e)] =>
               generalize (List.length (hardening_loop a b c d e))
           end.
           intros L IH1. lia.
        -- intros Hs. apply IH2. rewrite map_app, length_app, Hs.
           cbn [map id List.length]. unfold ids_upto.
           rewrite Nat.add_1_r, seq_S, map_app. cbn [map].
           unfold next_id, len. do 4 f_equal. lia.
      * split; [| auto]. unfold len in *. cbn [List.length]. lia.
Qed.

Lemma spof_strategy_facts (g : SupplyChainGraph) (spof : list string)
  (l : list Strategy) :
  spof_strategy g spof = Ok l ->
  (len l <= 1)%Z /\ map id l = ids_upto (List.length l).
Proof.
  unfold spof_strategy. destruct spof as [| top rest].
  - intros [= <-]. split; [unfold len; simpl; lia | reflexivity].
  - destruct (Nx.successors (graph g) top); [| discriminate].
    cbn [bind]. intros [= <-]. split; [unfold len; simpl; lia | reflexivity].
Qed.

Lemma ids_upto_10_distinct : NoDup (ids_upto 10).
Proof.
  vm_compute.
  repeat (constructor; [simpl; intuition discriminate |]). constructor.
Qed.

Lemma ids_upto_distinct (n : nat) : (n <= 10)%nat -> NoDup (ids_upto n).
Proof.
  intros H. pose proof ids_upto_10_distinct as H10. unfold ids_upto in *.
  replace 10%nat with (n + (10 - n))%nat in H10 by lia.
  rewrite seq_app, map_app in H10. now apply NoDup_app_remove_r in H10.
Qed.

Lemma NoDup_map_insert_by {A B} (f : A -> B) (key : A -> Z) (x : A)
  (l : list A) :
  NoDup (map f (x :: l)) -> NoDup (map f (insert_by key x l)).
Proof.
  induction l as [| y l IH]; intros H; [exact H |].
  cbn [insert_by]. destruct (key y <=? key x)%Z; [| exact H].
  cbn [map] in *. inversion H as [| ? ? Hx Hr]; subst.
  inversion Hr as [| ? ? Hy Hl]; subst.
  constructor.
  - intros C. apply in_map_iff in C. destruct C as [z [Hz Hin]].
    apply insert_by_In in Hin. destruct Hin as [-> | Hin].
    + apply Hx. left. now symmetry.
    + apply Hy. apply in_map_iff. now exists z.
  - apply IH. constructor; [| assumption].
    intros C. apply Hx. now right.
Qed.

Lemma NoDup_app_disjoint {A} (l l' : list A) (x : A) :
  NoDup (l ++ l') -> In x l -> In x l' -> False.
Proof.
  induction l as [| y l IH]; simpl; intros H Hin Hin'; [assumption |].
  inversion H as [| ? ? Hy Hl]; subst. destruct Hin as [-> | Hin].
  - apply Hy. apply in_or_app. now right.
  - now apply IH.
Qed.

Lemma NoDup_map_sorted_by {A B} (f : A -> B) (key : A -> Z) (l : list A) :
  NoDup (map f l) -> NoDup (map f (sorted_by key l)).
Proof.
  unfold sorted_by.
  assert (G : forall acc, NoDup (map f (acc ++ l)) ->
             NoDup (map f (fold_left (fun a x => insert_by key x a) l acc))).
  { induction l as [| x l IH]; intros acc H; cbn [fold_left].
    - now rewrite app_nil_r in H.
    - apply IH. rewrite map_app in *. cbn [map] in H.
      apply NoDup_app.
      + apply NoDup_map_insert_by. cbn [map].
        apply NoDup_remove in H. destruct H as [H1 H2].
        constructor.
        * intros C. apply H2. apply in_or_app. now left.
        * now apply NoDup_app_remove_r in H1.
      + apply NoDup_app_remove_l in H. now inversion H.
      + intros b Hb1 Hb2. apply in_map_iff in Hb1.
        destruct Hb1 as [z [<- Hz]]. apply insert_by_In in Hz.
        apply NoDup_remove in H. destruct H as [H1 H2].
        destruct Hz as [-> | Hz].
        * apply H2. apply in_or_app. now right.
        * apply (@NoDup_app_disjoint _ _ _ (f z) H1); [| assumption].
          apply in_map_iff. now exists z. }
  intros H. apply G. exact H.
Qed.

Lemma NoDup_firstn {A} (n : nat) (l : list A) :
  NoDup l -> NoDup (firstn n l).
Proof.
  intros H. rewrite <- (firstn_skipn n l) in H.
  now apply NoDup_app_remove_r in H.
Qed.

Lemma slice_to_length {A} (l : list A) (n : Z) :
  (0 <= n)%Z -> len (slice_to l n) = Z.min n (len l).
Proof.
  intros H. unfold slice_to, len. destruct (n <? 0)%Z eqn:E.
  - apply Z.ltb_lt in E. lia.
  - rewrite length_firstn. lia.
Qed.

(** X30. What [generate_mitigation_strategies] returns when it returns:
    strategies in ascending order of priority, with identifiers that are
    all different; exactly [num_strategies] of them for a number from 0
    to 6 (the six template strategies are always there to fill the
    list), between 6 and 10 for a larger number, and none for a negative
    one. *)
Theorem strategies_count_order_ids :
  forall (nx : Nx.Algorithms) (np : pyresult Q) (g : SupplyChainGraph)
         (num : Z) (l : list Strategy),
    generate_mitigation_strategies nx np g num = Ok l ->
    ascending_by priority l
    /\ NoDup (map id l)
    /\ ((0 <= num <= 6)%Z -> len l = num)
    /\ ((6 <= num)%Z -> (6 <= len l <= Z.min num 10)%Z)
    /\ ((num < 0)%Z -> l = []).
Proof.
  intros nx np g num l. unfold generate_mitigation_strategies.
  destruct (identify_structural_vulnerabilities nx np g) as [v |];
    cbn [bind]; [| discriminate].
  destruct (spof_strategy g (single_points_of_failure v)) as [s0 |] eqn:E0;
    cbn [bind]; [| discriminate].
  intros H.
  assert (Hl : l = slice_to
                     (sorted_by priority
                        (template_loop "medium" "3 weeks" 3 num
                           additional_strategies
                           (template_loop "high" "4 weeks" 5 num
                              category_strategies
                              (hardening_loop g num 0
                                 (slice_to
                                    (sorted_desc
                                       (fun kv =>
                                          betweenness_centrality (snd kv))
                                       (calculate_centrality_metrics nx g))
                                    3)
                                 s0))))
                     num)
    by (injection H as <-; reflexivity).
  clear H. subst l.
  apply spof_strategy_facts in E0. destruct E0 as [L0 I0].
  set (hc := slice_to (sorted_desc (fun kv => betweenness_centrality (snd kv))
                                   (calculate_centrality_metrics nx g)) 3).
  pose proof (slice_to_3_length
                (sorted_desc (fun kv => betweenness_centrality (snd kv))
                             (calculate_centrality_metrics nx g))) as Lhc.
  fold hc in Lhc.
  destruct (hardening_loop_facts g num hc 0%Z s0) as [L1 I1].
  set (s1 := hardening_loop g num 0 hc s0) in *.
  destruct (template_loop_facts "high" "4 weeks" 5 num category_strategies s1)
    as [L2 I2].
  set (s2 := template_loop "high" "4 weeks" 5 num category_strategies s1) in *.
  destruct (template_loop_facts "medium" "3 weeks" 3 num additional_strategies
                                s2) as [L3 I3].
  set (s3 := template_loop "medium" "3 weeks" 3 num additional_strategies s2)
    in *.
  change (len category_strategies) with 3%Z in L2.
  change (len additional_strategies) with 3%Z in L3.
  assert (H0 : (0 <= len s0)%Z) by (unfold len; lia).
  assert (Hh : (0 <= len hc)%Z) by (unfold len; lia).
  assert (Hlen : len (sorted_by priority s3) = len s3).
  { unfold len. now rewrite sorted_by_length. }
  split; [| split; [| split; [| split]]].
  - apply ascending_slice_to, sorted_by_ascending.
  - assert (H10 : (List.length s3 <= 10)%nat) by (unfold len in *; lia).
    unfold slice_to. destruct (num <? 0)%Z; rewrite <- firstn_map;
      apply NoDup_firstn, NoDup_map_sorted_by;
      rewrite (I3 (I2 (I1 I0))); now apply ids_upto_distinct.
  - intros Hn. rewrite slice_to_length by lia. lia.
  - intros Hn. rewrite slice_to_length by lia. lia.
  - intros Hn. unfold slice_to. destruct (num <? 0)%Z eqn:E; [| lia].
    replace (Z.to_nat (len (sorted_by priority s3) + num)) with 0%nat;
      [reflexivity |].
    rewrite Hlen. lia.
Qed.

Lemma strategies_count_order_ids_witness :
  exists l,
    generate_mitigation_strategies Examples.quiet_nx (Raise IndexError)
                                   Examples.chain 8 = Ok l
    /\ ascending_by priority l
    /\ NoDup (map id l).
Proof.
  eexists. split; [vm_compute; reflexivity |].
  pose proof (@strategies_count_order_ids Examples.quiet_nx (Raise IndexError)
                Examples.chain 8%Z _ eq_refl) as (H1 & H2 & _).
  split; [exact H1 | exact H2].
Defined.
